(* ===== verification/_CoqProject ===== *)
-Q . S2P
Prelude.v
PyFloat.v
PyText.v
PyFloat32.v
PyFloatText.v
Json.v
Base64.v
Sha256.v
TeamsIdentity.v
TeamsSpool.v
TeamsSpoolFacts.v
TeamsSpoolFencing.v
TeamsSpoolGate.v
TeamsNavigator.v
TeamsWorkerFacts.v
TeamsExamples.v
Scoped.v
KnowledgeCursor.v
KnowledgeGraph.v
KnowledgeQuery.v
KnowledgeFacts.v
KnowledgeScope.v
KnowledgePaging.v
KnowledgeExpand.v
KnowledgeExamples.v
ReplayGuard.v
EmailLedger.v
CloudLedger.v
BilibiliReceipts.v
LedgerExamples.v
MemoryStore.v
MemoryFacts.v
MemoryRecall.v
MemoryExport.v
MemoryExamples.v
MemoryWire.v
MemoryWireFacts.v
MemoryCodec.v
MemoryCodecFacts.v
MemoryCodecLaws.v
MemoryCodecProps.v
MemorySettings.v
MemoryPlugin.v
MemoryPluginFacts.v
MemoryPluginErrors.v
MemoryPluginExamples.v
AccountStore.v
AccountFacts.v
AccountLaws.v
AccountProps.v
AccountExamples.v
ProfileStore.v
ProfileSessions.v
ProfileMachine.v
ProfileFacts.v
ProfileLaws.v
ProfileProps.v
ProfileExamples.v
PeopleText.v
PeopleStore.v
PeopleDirectory.v
PeopleAssembly.v
PeopleFacts.v
PeopleFind.v
PeopleProps.v
PeopleExamples.v
Programs.v
AccountPrograms.v
AccountGithub.v
AccountHandlers.v
AccountCall.v
CallEvents.v
CallCustody.v
CallRefresh.v
CallGate.v
CallReplay.v
CallExamples.v
CallRuns.v
