(* ===== verification/Prelude.v ===== *)
(** * Cyrene plugins: a verification library

    The repository is a collection of plugins for an agent platform: chat
    connectors, providers of vendor services, tools, and the SDK that they share.
    Most of a plugin is an adapter between HTTP, gRPC or files and the platform.
    What must not go wrong is the durable core that some plugins keep in SQLite:
    a message is delivered in order and not lost, a mutation of a vendor account
    is sent once, a tenant sees only its own rows, and a page token leads to the
    next page.  This library models those cores from their Python sources and
    proves that they do what they promise.

    ** Parts

    Shared by all: [Prelude] (results, the rows of a table, transactions, runs of
    operations), [PyFloat] (Python floats: the order, rounding), [PyFloat32]
    (binary32 in binary64, both ways), [PyFloatText] ([float(text)]), [PyText]
    (strings as code points, [strip], UTF-8, decimal), [Json] ([json.dumps] with
    and without [sort_keys] and [ensure_ascii], [json.loads], round trips),
    [Base64] (the URL-safe alphabet), [Sha256] (SHA-256 and HMAC, executable),
    [Scoped] (the rows of a scope, keyset pages, following tokens), [ReplayGuard]
    (what a ledger of single-use grants promises its callers).

    Teams connector, [plugins/connectors/teams]: [delivery_spool.py] and
    [navigator.py].
    - [TeamsIdentity]: [stable_delivery_id], [stable_thread_key],
      [canonical_event_body], [retry_delay_seconds], [safe_error_code].
    - [TeamsSpool]: [DeliverySpool].  Its tables are [spool]; each method is a
      function on it ([enqueue], [claim_next], [finish_sync], [retry_sync],
      [pause], [resume], [retry_dead], [status_sync]).
    - [TeamsSpoolFacts] (the machine [step] over all methods, its invariant, the
      order of a thread), [TeamsSpoolFencing] (leases, durability),
      [TeamsSpoolGate] (the pause gate refines an abstract lock).
    - [TeamsNavigator]: [NavigatorEventClient.submit_body] and one pass of
      [NavigatorDeliveryWorker]; [TeamsWorkerFacts]: their theorems.

    Knowledge graph, [plugins/providers/knowledge-graph], [sqlite_store.py]:
    [KnowledgeCursor] (signed page tokens), [KnowledgeGraph] (the tables and the
    mutations), [KnowledgeQuery] (reads, searches, export, [expand]),
    [KnowledgeFacts] and [KnowledgeScope] (referential integrity, isolation,
    import), [KnowledgePaging] (complete searches), [KnowledgeExpand]
    (breadth-first expansion).

    Ledgers of single-use requests: [EmailLedger]
    ([plugins/connectors/email-notification], [ledger.py]), [CloudLedger]
    ([plugins/providers/cloud-management], [ledger.py]), [BilibiliReceipts]
    ([plugins/connectors/bilibili], [receipts.py]).  Each implements the class
    [ReplayGuard] and so bounds the grants of a key by its releases.

    SQLite memory, [plugins/providers/memory-sqlite], [store.py]: [MemoryStore]
    (the store on a connection that may be left inside a transaction),
    [MemoryFacts] (store, then get), [MemoryRecall] (the bounded heap selects a
    best [top_k]), [MemoryExport] (complete exports, isolation, two defects).

    Memory provider contracts, [sdk/python/cyrene_memory_provider_contracts]:
    [MemoryWire] ([_wire.py]: varints, tags, fields) with [MemoryWireFacts], and
    [MemoryCodec] ([memory.py]: the records, requests and responses of the seven
    methods and their codecs) with [MemoryCodecFacts] (each encoder against its
    decoder), [MemoryCodecLaws] (the methods) and [MemoryCodecProps] (the
    theorems).

    The memory plugin, [plugins/providers/memory-sqlite]: [MemorySettings]
    ([settings.py]) and [MemoryPlugin] ([plugin.py] and [embedding.py]: from a
    request's bytes through the codec and the store to the bytes of the answer);
    [MemoryPluginFacts] (a stored item read back by a client),
    [MemoryPluginErrors] (which exceptions are answered).

    Account center, [plugins/accounts/account-center], [store.py]:
    [AccountStore] (linked accounts, link sessions, WeCom challenges, credential
    leases, idempotent commands, signed requests; each method a transaction on
    [account_db], [account_step] all of them), [AccountFacts] (how an operation
    moves the rows of each table), [AccountLaws] (six single-use rights as
    instances of [ReplayGuard]), [AccountProps] (what holds over whole runs).
    Its provider profiles: [ProfileStore] (profiles, their credentials, refreshes
    and leases, connector grants, pruning), [ProfileSessions] (the Bilibili,
    Entra and Hugging Face device sessions, recovery), [ProfileMachine] (the whole
    store as one machine, [center_step]), [ProfileFacts] (moves of the rows; the
    account tables move as [account_step] moves them), [ProfileLaws] (four more
    single-use rights, the refinement of the account machine), [ProfileProps].
    Its people directory ([people.py], [store.py] and the handlers of
    [plugin.py]): [PeopleText] (the accepted forms of names, mails and handles),
    [PeopleStore] (the tables, declaring and retracting, the listings),
    [PeopleDirectory] (the handlers and the search), [PeopleAssembly] (the merged
    directory against a reference), [PeopleFacts] (the machine and its
    invariant), [PeopleFind] (a search by handle), [PeopleProps].
    Its calls ([security.py], [github.py] and the handlers of [plugin.py]), as
    programs with effects: [Programs] (effects, traces, monitors with their
    [wp], interleavings), [AccountPrograms] (the effects: clock, entropy, store,
    GitHub; secrets; request fields), [AccountGithub] (the OAuth client),
    [AccountHandlers] (the methods for links, people and leases, and the
    recovery), [AccountCall] ([verify_context], [call], [on_invoke]);
    [CallEvents] (what an event does to the tables), [CallGate]
    (authentication, single use), [CallReplay] (commands), [CallRefresh] and
    [CallCustody] (credentials), [CallExamples] and [CallRuns].
    The files named [...Examples], and [CallRuns], run the definitions on concrete inputs and
    instantiate every theorem that has hypotheses.

    ** What the theorems show

    Teams (C1-C7): a claim returns the oldest due event whose thread has no
    unfinished predecessor; only the
    holder of the current lease can finish a delivery; an accepted event stays
    with its exact body until an outcome is reported; the worker drains the spool;
    retries are bounded.
    Knowledge graph (C8-C12): tokens are canonical up to HMAC; edges never
    dangle; scopes are isolated; searches are complete;
    [expand] returns exactly the nodes within the depth or fails on a limit.
    Ledgers (C13-C14): at most one grant per request,
    outcomes are final, replays get them back.
    Account center (C21-C25): rights are used as often as they were given, a
    credential is disclosed only under a lease of its owner, unlinking is final,
    identities never change hands, refreshes are fenced.
    Calls (C15-C20), over any interleaving of
    calls, crashes and failing transactions: a call does nothing before its
    context was verified and its identifier taken; a signature stands for one
    request; a signed request acts once; a command is done once and answered
    once; a refresh token is sent once; a minted token is stored or revoked, but
    for two ways that are defects.
    Provider profiles (C26-C29): the whole store is the account machine on the
    account tables; a provider's credential is given out to its owner, or in the
    owner's workspace within 15 seconds of a connector grant; an external identity has one owner; a device renewal ends for good.
    People directory (C30-C32): the directory is the declared people with their
    handles and links, then the other owners; an active handle has one person; a
    declared handle is found, with the person it was declared for.
    Memory (C33-C37, C40): accepted
    settings open the store; what a client stores another reads back up to
    binary32; recall is a best selection for any scan order; exports are
    complete; tenants are isolated; every failure but one kind is answered; and
    defects of the code, proved on it.
    Contracts (C38-C39): requests and responses round trip, and decoding
    ends with a message or one of the documented errors.
    Lemmas without a number state more of the same kind (the pause gate is
    exclusive, an import replaces, events of a thread leave in order, rights on
    profiles are used once, pruning cuts callbacks short, a
    completed command answers the same, a valid identifier can be too long for a
    token, issued tokens are
    accepted, batches read back, actors of the receipts are isolated, delivery
    ids identify).

    ** Correspondence and conventions

    A definition has the name of the Python function it translates (without a
    leading underscore); a part of a function has a name of its own.  A function
    that may raise returns [result E A]; a method that changes a database returns
    the new database too, and [transact] rolls back on an exception.  A table is
    a [gmap] from its primary key, or the list of its rows where the row order
    matters.  Strings are lists of code points, bytes lists of numbers below 256,
    floats are IEEE 754 binary64 values; integers are unbounded, as in Python,
    with the 64-bit limit of SQLite written where the code can reach it.
    Dictionaries are association lists in insertion order.

    Arguments of the model, because their code is not in the sources: the clock,
    random tokens and [uuid4], the HTTP exchange, the embedding model, AES-GCM, RFC 8785,
    the size of the database file, [str.casefold], [str.lower], [int(str)], the rounding of
    [sum] on floats and the order in which SQLite scans rows.  No theorem assumes more of them than
    it says.

    Fuel: the JSON parser has twice the length of the text and one, which the
    round-trip lemmas show to be enough for every text the code writes; a client
    that follows page tokens has one unit per row, and the theorems say that this
    many suffice; the worker's theorem gives the number of passes.

    ** Not modelled

    SQLite itself (its locking, WAL and file permissions; a statement is its
    effect on the tables), threads and [asyncio] (a transaction is atomic, as the
    locks make it; calls of the account center interleave between them), logging and error texts (errors keep their codes), and texts
    with lone surrogates as SQL parameters.  Of the other plugins: the vendor
    adapters (Microsoft Graph, GitHub, Azure DevOps, Hugging Face, cloud
    resources, QQ, OneBot, WeCom, speech, model servers) are request mapping over
    HTTP or IPC; the pgvector store is SQL for a server; the dataset, document,
    media and evaluation tools are pipelines over third-party parsers; the
    release and CI tools are build scripts; the Rust, .NET and C runtimes are in
    other languages.  Of the account center: its schema migrations, the
    activation configuration, and the handlers over the OAuth APIs of Hugging
    Face, Microsoft and Azure DevOps, which are an argument of the call. *)

From stdpp Require Export base tactics list option numbers sets strings gmap.
From Stdlib Require Export Lia.

(** ** Results

    A Python function that may raise is a function into [result E A]: [Err e]
    is the exception, [Ok a] the returned value.  The monad's bind is the
    sequencing of statements: the first exception ends the function. *)

Inductive result (E A : Type) : Type :=
  | Ok (a : A)
  | Err (e : E).
Arguments Ok {E A} a.
Arguments Err {E A} e.

#[global] Instance result_ret E : MRet (result E) := λ A a, Ok a.
#[global] Instance result_bind E : MBind (result E) := λ A B f m,
  match m with Ok a => f a | Err e => Err e end.
#[global] Instance result_fmap E : FMap (result E) := λ A B f m,
  match m with Ok a => Ok (f a) | Err e => Err e end.

(** [require b e] is Python's [if not b: raise e]. *)
Definition require {E : Type} (b : bool) (e : E) : result E () :=
  if b then Ok () else Err e.

(** [mapR f l] runs [f] on the elements in order, the first exception wins. *)
Fixpoint mapR {E A B : Type} (f : A → result E B) (l : list A) : result E (list B) :=
  match l with
  | [] => Ok []
  | x :: l => y ← f x; ys ← mapR f l; Ok (y :: ys)
  end.

Definition is_ok {E A : Type} (r : result E A) : bool :=
  match r with Ok _ => true | Err _ => false end.

Section ResultLemmas.
Context {E A B : Type}.

Lemma bind_ok (m : result E A) (f : A → result E B) (b : B) :
  m ≫= f = Ok b ↔ ∃ a, m = Ok a ∧ f a = Ok b.
Proof. destruct m; cbn; naive_solver. Qed.

Lemma bind_err (m : result E A) (f : A → result E B) (e : E) :
  m ≫= f = Err e ↔ m = Err e ∨ ∃ a, m = Ok a ∧ f a = Err e.
Proof. destruct m; cbn; naive_solver. Qed.

Lemma require_ok (b : bool) (e : E) (u : ()) : require b e = Ok u ↔ b = true.
Proof. destruct b, u; by cbn. Qed.

Lemma require_err (b : bool) (e e' : E) :
  require b e = Err e' ↔ b = false ∧ e = e'.
Proof. destruct b; cbn; split; naive_solver. Qed.

Lemma bind_ext (m : result E A) (f g : A → result E B) :
  (∀ a, m = Ok a → f a = g a) → m ≫= f = m ≫= g.
Proof. destruct m; cbn; auto. Qed.
End ResultLemmas.

Lemma mapR_ok {E A B : Type} (f : A → result E B) l ys :
  mapR f l = Ok ys ↔ Forall2 (λ x y, f x = Ok y) l ys.
Proof.
  revert ys; induction l as [|x l IH]; intros ys.
  - split; [intros [= <-]; constructor | by inversion 1].
  - change (mapR f (x :: l)) with (y ← f x; ys ← mapR f l; Ok (y :: ys)).
    rewrite bind_ok; split.
    + intros (y & Hy & (zs & Hzs & [= <-])%bind_ok).
      constructor; [done | by apply IH].
    + inversion 1 as [|? y ? zs Hy Hzs]; subst.
      exists y; split; [done|]. apply bind_ok. exists zs. by rewrite IH.
Qed.

Lemma mapR_perm {E A B : Type} (f : A → result E B) l l' ys :
  l ≡ₚ l' → mapR f l = Ok ys → ∃ ys', mapR f l' = Ok ys' ∧ ys ≡ₚ ys'.
Proof.
  intros Hp. rewrite mapR_ok. setoid_rewrite mapR_ok. revert ys.
  induction Hp as [|x l l' _ IH|x y l|l1 l2 l3 _ IH1 _ IH2]; intros ys H.
  - exists []. inversion H. by split; [constructor|].
  - inversion H as [|? b ? bs Hb Hbs]; subst. destruct (IH bs Hbs) as (bs' & ? & ?).
    exists (b :: bs'). by split; [constructor | f_equiv].
  - inversion H as [|? b ? bs Hb Hbs]; subst. inversion Hbs as [|? b' ? bs' Hb' Hbs']; subst.
    exists (b' :: b :: bs'). split; [by repeat constructor | constructor].
  - destruct (IH1 _ H) as (ys1 & H1 & ?). destruct (IH2 _ H1) as (ys2 & H2 & ?).
    exists ys2. split; [done | by etrans].
Qed.

(** The exceptions a computation can raise all satisfy [P]. *)
Definition raises_only {E A : Type} (P : E → Prop) (r : result E A) : Prop :=
  ∀ e, r = Err e → P e.

Section RaisesOnly.
Context {E : Type} (P : E → Prop).

Lemma raises_ok {A} (a : A) : raises_only P (Ok a).
Proof. done. Qed.

Lemma raises_err {A} e : P e → raises_only P (Err e : result E A).
Proof. by intros H e' [= <-]. Qed.

Lemma raises_require b e : P e → raises_only P (require b e).
Proof. destruct b; [done|]. apply raises_err. Qed.

Lemma raises_bind {A B} (m : result E A) (f : A → result E B) :
  raises_only P m → (∀ a, raises_only P (f a)) → raises_only P (m ≫= f).
Proof. intros Hm Hf e [H|(a & _ & H)]%bind_err; [by apply Hm | by apply (Hf a)]. Qed.

Lemma raises_weaken {A} (Q : E → Prop) (m : result E A) :
  raises_only Q m → (∀ e, Q e → P e) → raises_only P m.
Proof. intros Hm HQ e He. by apply HQ, Hm. Qed.

Lemma raises_mapR {A B} (f : A → result E B) l :
  (∀ a, raises_only P (f a)) → raises_only P (mapR f l).
Proof.
  intros Hf. induction l; cbn; [done|]. repeat (apply raises_bind; [done|intros]). done.
Qed.
End RaisesOnly.

(** Goes through a computation statement by statement; [base] deals with the
    functions it calls. *)
Ltac raises base :=
  repeat first
    [ base | apply raises_ok | by apply raises_err | by apply raises_require
    | apply raises_bind; [|intros ?] | apply raises_mapR; intros ? | case_match ].

#[export] Instance result_eq_dec `{EqDecision E, EqDecision A} :
  EqDecision (result E A).
Proof. solve_decision. Defined.

(** Splits every hypothesis that says a monadic computation returned. *)
Ltac inv_result :=
  repeat match goal with
  | H : (_ ≫= _) = Ok _ |- _ =>
      let a := fresh "v" in let H1 := fresh "Hv" in let H2 := fresh "Hk" in
      apply bind_ok in H as (a & H1 & H2)
  | H : require _ _ = Ok ?u |- _ => apply require_ok in H
  | H : Ok _ = Ok _ |- _ => injection H; clear H; intros; subst
  | H : Err _ = Ok _ |- _ => discriminate H
  | H : Ok _ = Err _ |- _ => discriminate H
  end.

(** Case analysis on the [if]s and [match]es of a hypothesis or the goal, the
    equations kept. *)
Ltac case_in H :=
  match type of H with
  | context [if ?b then _ else _] => destruct b eqn:?
  | context [match ?x with _ => _ end] => destruct x eqn:?
  end.

Ltac bools :=
  repeat match goal with
  | H : (_ && _) = true |- _ => apply andb_true_iff in H as [? ?]
  | H : (_ || _) = false |- _ => apply orb_false_iff in H as [? ?]
  | H : negb _ = true |- _ => apply negb_true_iff in H
  | H : negb _ = false |- _ => apply negb_false_iff in H
  | H : bool_decide _ = true |- _ => apply bool_decide_eq_true in H
  | H : bool_decide _ = false |- _ => apply bool_decide_eq_false in H
  end.

Lemma filter_perm {A} (p : A → bool) l l' :
  l ≡ₚ l' → List.filter p l ≡ₚ List.filter p l'.
Proof. induction 1; cbn; repeat case_match; try done; try by constructor. by etrans. Qed.

(** ** Tables

    A SQLite table is the list of its rows in rowid order.  The statements the
    code sends are these list functions: [SELECT] with a [WHERE] clause,
    [UPDATE], [DELETE], with [rowcount] the number of rows that match. *)

Section Table.
Context {R : Type}.
Implicit Types (p : R → bool) (f : R → R) (rows : list R).

Definition select p rows : list R := List.filter p rows.
Definition delete_where p rows : list R := List.filter (λ r, negb (p r)) rows.
Definition update_where p f rows : list R :=
  map (λ r, if p r then f r else r) rows.
Definition rowcount p rows : Z := Z.of_nat (length (select p rows)).
Definition fetchone p rows : option R := List.find p rows.

Lemma elem_of_select p rows r : r ∈ select p rows ↔ p r = true ∧ r ∈ rows.
Proof. unfold select. rewrite !list_elem_of_In, filter_In. tauto. Qed.

Lemma elem_of_delete_where p rows r :
  r ∈ delete_where p rows ↔ p r = false ∧ r ∈ rows.
Proof.
  unfold delete_where. rewrite !list_elem_of_In, filter_In, negb_true_iff. tauto.
Qed.

Lemma elem_of_update_where p f rows r :
  r ∈ update_where p f rows ↔
  ∃ r0, r0 ∈ rows ∧ r = if p r0 then f r0 else r0.
Proof.
  unfold update_where. rewrite list_elem_of_In, in_map_iff.
  setoid_rewrite list_elem_of_In. naive_solver.
Qed.

Lemma length_update_where p f rows : length (update_where p f rows) = length rows.
Proof. apply length_map. Qed.

Lemma map_update_where {K} (key : R → K) p f rows :
  (∀ r, key (f r) = key r) → map key (update_where p f rows) = map key rows.
Proof.
  intros Hf. unfold update_where. rewrite map_map. apply map_ext.
  intros r. by destruct (p r).
Qed.

Lemma update_where_none p f rows :
  (∀ r, r ∈ rows → p r = false) → update_where p f rows = rows.
Proof.
  intros H. unfold update_where. rewrite <- (map_id rows) at 2.
  apply map_ext_in. intros r Hr. by rewrite H by by apply list_elem_of_In.
Qed.

Lemma fetchone_some p rows r :
  fetchone p rows = Some r → r ∈ rows ∧ p r = true.
Proof. intros [? ?]%find_some. by rewrite list_elem_of_In. Qed.

Lemma fetchone_none p rows :
  fetchone p rows = None ↔ ∀ r, r ∈ rows → p r = false.
Proof.
  split.
  - intros H r Hr. apply list_elem_of_In in Hr. by apply (find_none _ _ H).
  - induction rows as [|r rows IH]; intros H; cbn; [done|].
    rewrite H by set_solver. apply IH. set_solver.
Qed.

Lemma rowcount_zero p rows :
  rowcount p rows = 0%Z ↔ ∀ r, r ∈ rows → p r = false.
Proof.
  unfold rowcount, select. split.
  - intros H r Hr. destruct (p r) eqn:Hp; [|done].
    assert (Hin : r ∈ select p rows) by by apply elem_of_select.
    unfold select in Hin. destruct (List.filter p rows); [by apply not_elem_of_nil in Hin | done].
  - induction rows as [|r rows IH]; intros H; cbn; [done|].
    rewrite H by set_solver. apply IH. set_solver.
Qed.

Lemma NoDup_map_delete_where {K} (key : R → K) p rows :
  NoDup (map key rows) → NoDup (map key (delete_where p rows)).
Proof.
  induction rows as [|r rows IH]; cbn; [done|]. intros [Hn Hd]%NoDup_cons.
  destruct (negb (p r)); cbn; [|by apply IH].
  apply NoDup_cons; split; [|by apply IH].
  contradict Hn. apply list_elem_of_In, in_map_iff in Hn as (r' & He & Hin).
  apply filter_In in Hin as [Hin _].
  apply list_elem_of_In, in_map_iff. eauto.
Qed.

(** A column that holds a key identifies its row. *)
Lemma NoDup_map_inj {K} (key : R → K) rows r1 r2 :
  NoDup (map key rows) → r1 ∈ rows → r2 ∈ rows → key r1 = key r2 → r1 = r2.
Proof.
  induction rows as [|r rows IH]; cbn; intros Hnd H1 H2 He; [set_solver|].
  apply NoDup_cons in Hnd as [Hn Hd].
  assert (Hmem : ∀ x, x ∈ rows → key x ∈ map key rows).
  { intros x Hx. apply list_elem_of_In, in_map, list_elem_of_In, Hx. }
  apply elem_of_cons in H1 as [->|H1]; apply elem_of_cons in H2 as [->|H2]; auto.
  - exfalso. apply Hn. rewrite He. auto.
  - exfalso. apply Hn. rewrite <- He. auto.
Qed.
End Table.

(** ** Transactions

    [BEGIN IMMEDIATE] serialises writers, so a method that opens one
    transaction is one atomic step on the database state.  An exception that
    leaves the transaction's block rolls the state back. *)

Definition txn (S E A : Type) : Type := S → result E (A * S).

Definition transact {S E A : Type} (body : txn S E A) (s : S) : result E A * S :=
  match body s with
  | Ok (a, s') => (Ok a, s')
  | Err e => (Err e, s)
  end.

Lemma transact_ok {S E A : Type} (body : txn S E A) (s s' : S) (a : A) :
  transact body s = (Ok a, s') ↔ body s = Ok (a, s').
Proof. unfold transact. destruct (body s) as [[??]|]; naive_solver. Qed.

Lemma transact_err {S E A : Type} (body : txn S E A) (s s' : S) (e : E) :
  transact body s = (Err e, s') ↔ body s = Err e ∧ s' = s.
Proof. unfold transact. destruct (body s) as [[??]|]; naive_solver. Qed.

(** What holds of the body's final state and of the initial state holds after
    the transaction, whatever its outcome. *)
Lemma transact_inv {S E A : Type} (P : S → Prop) (body : txn S E A) (s : S) :
  P s → (∀ a s', body s = Ok (a, s') → P s') → P (snd (transact body s)).
Proof. unfold transact. destruct (body s) as [[??]|] eqn:H; cbn; eauto. Qed.

(** ** Reachability

    A component is a deterministic machine: an operation with its inputs (the
    clock readings and random tokens included) gives an output and the next
    state.  Any interleaving of its callers is a list of operations. *)

Section Machine.
Context {St Op Out : Type} (run : Op → St → Out * St).

Fixpoint runs (ops : list Op) (s : St) : list Out * St :=
  match ops with
  | [] => ([], s)
  | op :: ops =>
      let '(o, s1) := run op s in
      let '(os, s2) := runs ops s1 in
      (o :: os, s2)
  end.

Definition final (ops : list Op) (s : St) : St := snd (runs ops s).

Lemma final_cons op ops s : final (op :: ops) s = final ops (snd (run op s)).
Proof.
  unfold final. cbn. destruct (run op s) as [o s1]. cbn.
  by destruct (runs ops s1).
Qed.

Lemma final_app ops1 ops2 s : final (ops1 ++ ops2) s = final ops2 (final ops1 s).
Proof.
  revert s; induction ops1 as [|op ops1 IH]; intros s; [done|].
  rewrite <- app_comm_cons, !final_cons. apply IH.
Qed.

(** An invariant each operation preserves holds after any sequence. *)
Lemma final_inv (P : St → Prop) :
  (∀ op s, P s → P (snd (run op s))) → ∀ ops s, P s → P (final ops s).
Proof.
  intros Hstep ops. induction ops as [|op ops IH]; intros s Hs; [done|].
  rewrite final_cons. auto.
Qed.

(** The same for the operations that satisfy a side condition. *)
Lemma final_inv_if (Q : Op → Prop) (P : St → Prop) :
  (∀ op s, Q op → P s → P (snd (run op s))) →
  ∀ ops s, Forall Q ops → P s → P (final ops s).
Proof.
  intros Hstep ops. induction ops as [|op ops IH]; intros s Hq Hs; [done|].
  rewrite final_cons. inversion Hq; subst. auto.
Qed.
End Machine.

Create HintDb cyrene.
Create Rewrite HintDb cyrene.
#[export] Hint Rewrite @elem_of_select @elem_of_delete_where @elem_of_update_where
  @length_update_where : cyrene.
#[export] Hint Resolve NoDup_map_delete_where : cyrene.
