(* ===== verification/PyFloat.v ===== *)
(** * Python's [float]

    A [float] is an IEEE 754 binary64 number.  The Standard Library's
    [SpecFloat] gives the format and its correctly rounded operations as plain
    functions, so clock arithmetic in the models rounds as the program's does.

    [fle], [flt] and [feq] are the comparison operators ([NaN] compares false
    with everything); [py_min] and [py_max] are the built-ins, which keep their
    first argument unless the second compares strictly beyond it. *)

From Stdlib Require Import ZArith SpecFloat.
From S2P Require Import Prelude.

#[local] Open Scope Z_scope.

Abbreviation pyfloat := spec_float.

#[export] Instance pyfloat_eq_dec : EqDecision pyfloat.
Proof. solve_decision. Defined.

Definition f_prec : Z := 53.
Definition f_emax : Z := 1024.

Definition fadd (x y : pyfloat) : pyfloat := SFadd f_prec f_emax x y.
Definition fsub (x y : pyfloat) : pyfloat := SFsub f_prec f_emax x y.
Definition fmul (x y : pyfloat) : pyfloat := SFmul f_prec f_emax x y.
Definition fdiv (x y : pyfloat) : pyfloat := SFdiv f_prec f_emax x y.
Definition fle (x y : pyfloat) : bool := SFleb x y.
Definition flt (x y : pyfloat) : bool := SFltb x y.
Definition feq (x y : pyfloat) : bool := SFeqb x y.
Definition is_nan (x : pyfloat) : bool :=
  match x with S754_nan => true | _ => false end.
Definition is_finite (x : pyfloat) : bool :=
  match x with S754_nan | S754_infinity _ => false | _ => true end.

(** [float(z)] for an integer. *)
Definition f_of_Z (z : Z) : pyfloat := binary_normalize f_prec f_emax z 0 false.

Definition py_max (a b : pyfloat) : pyfloat := if flt a b then b else a.
Definition py_min (a b : pyfloat) : pyfloat := if flt b a then b else a.

(** A [float] bound to a SQLite parameter: [NaN] is stored as [NULL]. *)
Definition sql_real (x : pyfloat) : option pyfloat :=
  if is_nan x then None else Some x.

(** ** Order

    The comparison is lexicographic on sign class, exponent and mantissa; off
    [NaN] it is a total preorder.  [frank] is that key. *)

Definition frank (x : pyfloat) : Z * Z * Z :=
  match x with
  | S754_nan => (0, 0, 0)
  | S754_infinity true => (-2, 0, 0)
  | S754_finite true m e => (-1, - e, - Zpos m)
  | S754_zero _ => (0, 0, 0)
  | S754_finite false m e => (1, e, Zpos m)
  | S754_infinity false => (2, 0, 0)
  end.

Definition lex_lt (a b : Z * Z * Z) : Prop :=
  let '(a1, a2, a3) := a in let '(b1, b2, b3) := b in
  a1 < b1 ∨ (a1 = b1 ∧ (a2 < b2 ∨ (a2 = b2 ∧ a3 < b3))).

Definition num (x : pyfloat) : Prop := is_nan x = false.

Section Order.
Implicit Types x y z : pyfloat.

Lemma SFcompare_rank x y :
  num x → num y →
  match SFcompare x y with
  | Some Lt => lex_lt (frank x) (frank y)
  | Some Eq => frank x = frank y
  | Some Gt => lex_lt (frank y) (frank x)
  | None => False
  end.
Proof.
  destruct x as [sx|[]| |[] mx ex], y as [sy|[]| |[] my ey]; cbn; intros Hx Hy;
    try done; try (intuition lia);
    destruct (Z.compare_spec ex ey) as [->|?|?]; cbn; try (intuition lia);
    change (Pos.compare_cont Eq mx my) with (mx ?= my)%positive;
    destruct (Pos.compare_spec mx my) as [->|?|?]; cbn;
    try done; try (intuition lia).
Qed.

Lemma flt_rank x y : flt x y = true ↔ num x ∧ num y ∧ lex_lt (frank x) (frank y).
Proof.
  split.
  - intros H.
    assert (Hx : num x) by by destruct x, y.
    assert (Hy : num y) by (destruct x, y; try done; by destruct s).
    split_and!; [done..|]. pose proof (SFcompare_rank x y Hx Hy) as Hr.
    unfold flt, SFltb in H. by destruct (SFcompare x y) as [[]|].
  - intros (Hx & Hy & Hl). pose proof (SFcompare_rank x y Hx Hy) as Hr.
    unfold flt, SFltb. destruct (SFcompare x y) as [[]|]; try done;
      destruct (frank x) as [[??]?], (frank y) as [[??]?]; simplify_eq; cbn in *; lia.
Qed.

Lemma fle_rank x y :
  fle x y = true ↔ num x ∧ num y ∧ ¬ lex_lt (frank y) (frank x).
Proof.
  split.
  - intros H.
    assert (Hx : num x) by by destruct x, y.
    assert (Hy : num y) by (destruct x, y; try done; by destruct s).
    split_and!; [done..|]. pose proof (SFcompare_rank x y Hx Hy) as Hr.
    unfold fle, SFleb in H. destruct (SFcompare x y) as [[]|]; try done;
      destruct (frank x) as [[??]?], (frank y) as [[??]?]; simplify_eq; cbn in *; lia.
  - intros (Hx & Hy & Hl). pose proof (SFcompare_rank x y Hx Hy) as Hr.
    unfold fle, SFleb. by destruct (SFcompare x y) as [[]|].
Qed.

Ltac rank :=
  unfold num in *; repeat match goal with
  | H : fle _ _ = true |- _ => apply fle_rank in H as (? & ? & H)
  | H : flt _ _ = true |- _ => apply flt_rank in H as (? & ? & H)
  | |- context [frank ?x] => destruct (frank x) as [[??]?]
  | H : context [frank ?x] |- _ => destruct (frank x) as [[??]?]
  end; cbn in *; lia.

Lemma fle_refl x : num x → fle x x = true.
Proof. intros. apply fle_rank. split_and!; [done..|]. rank. Qed.

Lemma fle_trans x y z : fle x y = true → fle y z = true → fle x z = true.
Proof.
  intros (? & ? & H1)%fle_rank (? & ? & H2)%fle_rank.
  apply fle_rank. split_and!; [done..|]. rank.
Qed.

Lemma flt_fle x y : flt x y = true → fle x y = true.
Proof.
  intros (? & ? & H1)%flt_rank. apply fle_rank. split_and!; [done..|]. rank.
Qed.

Lemma fle_flt_trans x y z : fle x y = true → flt y z = true → flt x z = true.
Proof.
  intros (? & ? & H1)%fle_rank (? & ? & H2)%flt_rank.
  apply flt_rank. split_and!; [done..|]. rank.
Qed.

Lemma flt_fle_trans x y z : flt x y = true → fle y z = true → flt x z = true.
Proof.
  intros (? & ? & H1)%flt_rank (? & ? & H2)%fle_rank.
  apply flt_rank. split_and!; [done..|]. rank.
Qed.

(** On numbers the two comparisons are each other's negation. *)
Lemma flt_not_fle x y : num x → num y → flt x y = negb (fle y x).
Proof.
  intros Hx Hy. apply eq_true_iff_eq. rewrite flt_rank, negb_true_iff.
  rewrite <- not_true_iff_false, fle_rank.
  assert (Hd : lex_lt (frank x) (frank y) ∨ ¬ lex_lt (frank x) (frank y)).
  { destruct (frank x) as [[??]?], (frank y) as [[??]?]; cbn; lia. }
  tauto.
Qed.
End Order.

#[export] Hint Resolve fle_refl fle_trans flt_fle : cyrene.

(** ** Rounding gives numbers *)

Section Rounding.
Context (prec emax : Z).

Lemma shr_1_nonneg mrs : 0 <= shr_m mrs → 0 <= shr_m (shr_1 mrs).
Proof. destruct mrs as [[|[]|[]] r s]; cbn; lia. Qed.

Lemma iter_pos_inv {A} (P : A → Prop) (f : A → A) n x :
  (∀ x, P x → P (f x)) → P x → P (SpecFloat.iter_pos f n x).
Proof. intros Hf. revert x. induction n; cbn; auto. Qed.

Lemma shr_fexp_nonneg m e l : 0 <= m → 0 <= shr_m (fst (shr_fexp prec emax m e l)).
Proof.
  intros Hm. unfold shr_fexp, shr.
  assert (H : 0 <= shr_m (shr_record_of_loc m l)) by by destruct l as [|[]].
  destruct (_ - e); cbn; [done| |done].
  by apply (iter_pos_inv (λ x, 0 <= shr_m x)); [apply shr_1_nonneg|].
Qed.

Lemma round_nearest_even_nonneg m l : 0 <= m → 0 <= round_nearest_even m l.
Proof. destruct l as [|[]]; cbn; try case_match; lia. Qed.

Lemma binary_round_aux_num s m e l : 0 <= m → num (binary_round_aux prec emax s m e l).
Proof.
  intros Hm. unfold binary_round_aux.
  pose proof (shr_fexp_nonneg m e l Hm) as H1.
  destruct (shr_fexp prec emax m e l) as [mrs1 e1]. cbn [fst] in H1.
  pose proof (shr_fexp_nonneg (round_nearest_even (shr_m mrs1) (loc_of_shr_record mrs1)) e1 loc_Exact
    (round_nearest_even_nonneg _ _ H1)) as H2.
  destruct (shr_fexp prec emax _ e1 loc_Exact) as [mrs2 e2]. cbn [fst] in H2.
  destruct (shr_m mrs2); [done| |lia]. by case_match.
Qed.

Lemma binary_normalize_num m e s : num (binary_normalize prec emax m e s).
Proof.
  destruct m; cbn; [done|..]; unfold binary_round; destruct (shl_align _ _ _);
    by apply binary_round_aux_num.
Qed.
End Rounding.

Lemma fadd_num x y : is_finite x = true → is_finite y = true → num (fadd x y).
Proof.
  destruct x as [[]| | |], y as [[]| | |]; try done. intros _ _. apply binary_normalize_num.
Qed.

Lemma fdiv_num x s m e : num x → num (fdiv x (S754_finite s m e)).
Proof.
  destruct x as [| | |sx mx ex]; try done. intros _. cbn [fdiv SFdiv].
  unfold fdiv, SFdiv, SFdiv_core_binary.
  set (m' := match _ with Z0 => Zpos mx | Zpos _ => _ | Zneg _ => _ end).
  assert (Hm : 0 <= m').
  { subst m'. case_match; [done| |done]. by apply Z.shiftl_nonneg. }
  pose proof (Z_div_mod m' (Zpos m) ltac:(lia)) as Hd.
  destruct (Z.div_eucl m' (Zpos m)) as [q r] eqn:Hq.
  apply binary_round_aux_num. nia.
Qed.

(** [max(-1.0, min(1.0, q))] is a finite number, even for a [NaN]. *)
Lemma clamp_finite q : is_finite (py_max (f_of_Z (-1)) (py_min (f_of_Z 1) q)) = true.
Proof.
  assert (H1 : f_of_Z 1 = S754_finite false 4503599627370496 (-52)) by by vm_compute.
  assert (H2 : f_of_Z (-1) = S754_finite true 4503599627370496 (-52)) by by vm_compute.
  unfold py_max, py_min. rewrite H1, H2. destruct (flt q _) eqn:E1; [|done].
  destruct (flt _ q) eqn:E2; [|done]. by destruct q as [|[]| |].
Qed.
