(* ===== verification/PyText.v ===== *)
(** * Python's [str] and [bytes]

    A [str] is the list of its code points, [bytes] the list of its byte values;
    both are [list N].  Here are the operations the modelled code uses on them:
    literals, comparison by code point, ASCII classes, [str.strip],
    [str.encode("utf-8")] and [bytes.decode("utf-8")], [str(int)]. *)

From Stdlib Require Import ZArith NArith Ascii String.
From Stdlib Require Decimal DecimalN DecimalZ DecimalFacts.
From S2P Require Import Prelude.

#[local] Open Scope N_scope.

Abbreviation pystr := (list N).
Abbreviation pybytes := (list N).

(** A literal of the source; every literal the models use is ASCII. *)
Definition lit (s : string) : pystr := map N_of_ascii (list_ascii_of_string s).
Arguments lit s%_string.

Definition len {A : Type} (l : list A) : Z := Z.of_nat (length l).

(** Linear arithmetic with [/] and [mod] by constants. *)
Ltac euclid := zify; Z.to_euclidean_division_equations; lia.

(** ** Code point order

    [str.__lt__], and SQLite's BINARY collation on the UTF-8 text (UTF-8 keeps
    the order of code points). *)

Fixpoint str_ltb (a b : pystr) : bool :=
  match a, b with
  | _, [] => false
  | [], _ :: _ => true
  | x :: a, y :: b => (x <? y) || ((x =? y) && str_ltb a b)
  end.

Lemma str_ltb_irrefl a : str_ltb a a = false.
Proof. induction a as [|x a IH]; cbn; [done|]. by rewrite N.ltb_irrefl, N.eqb_refl, IH. Qed.

Lemma str_ltb_cons x a y b :
  str_ltb (x :: a) (y :: b) = true ↔ x < y ∨ (x = y ∧ str_ltb a b = true).
Proof. cbn. rewrite orb_true_iff, andb_true_iff, N.ltb_lt, N.eqb_eq. done. Qed.

Lemma str_ltb_trans a b c :
  str_ltb a b = true → str_ltb b c = true → str_ltb a c = true.
Proof.
  revert b c; induction a as [|x a IH]; intros [|y b] [|z c]; try done.
  rewrite !str_ltb_cons. intros [?|[-> ?]] [?|[-> ?]]; [left; lia|auto..].
  right. eauto.
Qed.

Lemma str_ltb_total a b : str_ltb a b = false → str_ltb b a = false → a = b.
Proof.
  revert b; induction a as [|x a IH]; intros [|y b]; cbn; try done.
  rewrite !orb_false_iff, !andb_false_iff, !N.ltb_ge, !N.eqb_neq.
  intros [? H1] [? H2]. assert (x = y) as -> by lia. f_equal.
  apply IH; naive_solver.
Qed.

Lemma str_ltb_nil a : a ≠ [] → str_ltb [] a = true.
Proof. by destruct a. Qed.

Lemma str_ltb_asym a b : str_ltb a b = true → str_ltb b a = false.
Proof.
  intros H. destruct (str_ltb b a) eqn:E; [|done].
  rewrite <- (str_ltb_irrefl a). symmetry. by eapply str_ltb_trans.
Qed.

#[export] Hint Resolve str_ltb_trans str_ltb_nil str_ltb_asym : cyrene.
#[export] Hint Rewrite str_ltb_irrefl : cyrene.

(** ** Character classes *)

Definition between (lo hi c : N) : bool := (lo <=? c) && (c <=? hi).
Definition is_upper_ascii (c : N) : bool := between 65 90 c.
Definition is_lower_ascii (c : N) : bool := between 97 122 c.
Definition is_digit_ascii (c : N) : bool := between 48 57 c.

(** The code points [str.strip] removes and [str.isspace] accepts. *)
Definition is_space (c : N) : bool :=
  between 9 13 c || between 28 32 c || (c =? 133) || (c =? 160) || (c =? 5760)
  || between 8192 8202 c || between 8232 8233 c || (c =? 8239) || (c =? 8287)
  || (c =? 12288).

Fixpoint lstrip (s : pystr) : pystr :=
  match s with
  | c :: s' => if is_space c then lstrip s' else s
  | [] => []
  end.
Definition strip (s : pystr) : pystr := rev (lstrip (rev (lstrip s))).

(** [not s.strip()] holds exactly when every character is white space. *)
Lemma lstrip_nil s : lstrip s = [] ↔ forallb is_space s = true.
Proof.
  induction s as [|c s IH]; cbn; [done|]. destruct (is_space c); cbn; [done|].
  split; [discriminate | discriminate].
Qed.

Lemma strip_nil s : strip s = [] ↔ forallb is_space s = true.
Proof.
  unfold strip. rewrite <- lstrip_nil. split.
  - intros H. apply (f_equal (@rev N)) in H. rewrite rev_involutive in H. cbn in H.
    apply lstrip_nil in H. rewrite forallb_forall in H.
    destruct (lstrip s) as [|c s'] eqn:E; [done|]. exfalso.
    assert (Hc : is_space c = true) by (apply H; rewrite <- in_rev; by left).
    clear H. induction s as [|d s IH]; cbn in E; [done|].
    destruct (is_space d) eqn:Ed; [by apply IH|]. by simplify_eq; congruence.
  - by intros ->.
Qed.

Lemma lstrip_head s : lstrip s = [] ∨ ∃ c s', lstrip s = c :: s' ∧ is_space c = false.
Proof.
  induction s as [|c s IH]; cbn; [by left|]. destruct (is_space c) eqn:E; [done|].
  right. by exists c, s.
Qed.

Lemma lstrip_idem s : lstrip (lstrip s) = lstrip s.
Proof. destruct (lstrip_head s) as [->|(c & s' & -> & E)]; cbn; [done|]. by rewrite E. Qed.

Lemma lstrip_snoc s c : is_space c = false → lstrip (s ++ [c]) = lstrip s ++ [c].
Proof.
  intros E. induction s as [|d s IH]; cbn; [by rewrite E|]. by destruct (is_space d).
Qed.

Lemma lstrip_suffix s : ∃ p, s = p ++ lstrip s.
Proof.
  induction s as [|c s [p IH]]; cbn; [by exists []|]. destruct (is_space c); [|by exists []].
  exists (c :: p). cbn. by f_equal.
Qed.

Lemma strip_infix s : ∃ p q, s = p ++ strip s ++ q.
Proof.
  destruct (lstrip_suffix s) as [p Hp]. destruct (lstrip_suffix (rev (lstrip s))) as [q Hq].
  exists p, (rev q). unfold strip. rewrite <- rev_app_distr, <- Hq, rev_involutive. done.
Qed.

Lemma strip_forallb (p : N → bool) s : forallb p s = true → forallb p (strip s) = true.
Proof.
  unfold strip. rewrite !forallb_forall. intros H x.
  destruct (lstrip_suffix s) as [a Ha]. destruct (lstrip_suffix (rev (lstrip s))) as [b Hb].
  rewrite <- in_rev. intros Hx. apply H. rewrite Ha. apply in_or_app. right.
  apply in_rev. rewrite Hb. apply in_or_app. by right.
Qed.

Lemma strip_idem s : strip (strip s) = strip s.
Proof.
  unfold strip at 2 3. destruct (lstrip_head s) as [->|(c & s' & -> & E)]; [done|].
  cbn [rev]. rewrite lstrip_snoc, rev_app_distr by done. cbn [rev app].
  unfold strip. cbn [lstrip]. rewrite E. cbn [rev].
  by rewrite rev_involutive, lstrip_snoc, lstrip_idem, rev_app_distr.
Qed.

(** ** UTF-8 *)

Definition utf8_char (c : N) : option pybytes :=
  if c <? 128 then Some [c]
  else if c <? 2048 then Some [192 + c / 64; 128 + c mod 64]
  else if c <? 65536 then
    if between 55296 57343 c then None
    else Some [224 + c / 4096; 128 + c / 64 mod 64; 128 + c mod 64]
  else if c <? 1114112 then
    Some [240 + c / 262144; 128 + c / 4096 mod 64; 128 + c / 64 mod 64; 128 + c mod 64]
  else None.

(** [s.encode("utf-8")]; [None] is [UnicodeEncodeError] (a lone surrogate). *)
Fixpoint utf8_encode (s : pystr) : option pybytes :=
  match s with
  | [] => Some []
  | c :: s => b ← utf8_char c; bs ← utf8_encode s; Some (b ++ bs)
  end.

Definition is_cont (b : N) : bool := between 128 191 b.

(** [b.decode("utf-8")], strict; [None] is [UnicodeDecodeError]. *)
Fixpoint utf8_decode (bs : pybytes) : option pystr :=
  match bs with
  | [] => Some []
  | b0 :: r0 =>
      if b0 <? 128 then cons b0 <$> utf8_decode r0
      else if between 194 223 b0 then
        match r0 with
        | b1 :: r1 =>
            if is_cont b1
            then cons ((b0 - 192) * 64 + (b1 - 128)) <$> utf8_decode r1
            else None
        | _ => None
        end
      else if between 224 239 b0 then
        match r0 with
        | b1 :: b2 :: r2 =>
            let c := (b0 - 224) * 4096 + (b1 - 128) * 64 + (b2 - 128) in
            if is_cont b1 && is_cont b2 && (2048 <=? c) && negb (between 55296 57343 c)
            then cons c <$> utf8_decode r2 else None
        | _ => None
        end
      else if between 240 244 b0 then
        match r0 with
        | b1 :: b2 :: b3 :: r3 =>
            let c := (b0 - 240) * 262144 + (b1 - 128) * 4096
                     + (b2 - 128) * 64 + (b3 - 128) in
            if is_cont b1 && is_cont b2 && is_cont b3
               && (65536 <=? c) && (c <? 1114112)
            then cons c <$> utf8_decode r3 else None
        | _ => None
        end
      else None
  end.

(** Decides the comparisons of the decoder by linear arithmetic. *)
Ltac dec_arith :=
  repeat match goal with
  | |- context [if ?b then _ else _] =>
      first [ replace b with true by (symmetry; unfold is_cont, between in *;
                rewrite ?andb_true_iff, ?negb_true_iff, ?andb_false_iff,
                  ?N.leb_le, ?N.ltb_lt, ?N.leb_gt, ?N.ltb_ge; lia)
            | replace b with false by (symmetry; unfold is_cont, between in *;
                rewrite ?andb_false_iff, ?N.leb_gt, ?N.ltb_ge, ?N.leb_le; lia) ]
  end.

Lemma utf8_decode_char c b bs :
  utf8_char c = Some b → utf8_decode (b ++ bs) = cons c <$> utf8_decode bs.
Proof.
  unfold utf8_char. intros H.
  destruct (c <? 128) eqn:E1; [injection H as <-; cbn; by rewrite E1|].
  apply N.ltb_ge in E1.
  destruct (c <? 2048) eqn:E2.
  { apply N.ltb_lt in E2. injection H as <-.
    change (utf8_decode ([?x; ?y] ++ bs)) with (utf8_decode (x :: y :: bs)).
    cbn [utf8_decode app]. pose proof (N.div_mod' c 64).
    pose proof (N.mod_lt c 64 ltac:(lia)).
    set (q := c / 64) in *. set (m0 := c mod 64) in *.
    assert (Hc : (192 + q - 192) * 64 + (128 + m0 - 128) = c) by lia.
    rewrite Hc. dec_arith. done. }
  apply N.ltb_ge in E2.
  destruct (c <? 65536) eqn:E3.
  { apply N.ltb_lt in E3.
    destruct (between 55296 57343 c) eqn:Es; [done|]. injection H as <-.
    cbn [utf8_decode app].
    pose proof (N.div_mod' c 64). pose proof (N.mod_lt c 64 ltac:(lia)).
    pose proof (N.div_mod' (c / 64) 64). pose proof (N.mod_lt (c / 64) 64 ltac:(lia)).
    rewrite N.Div0.div_div in *. change (64 * 64) with 4096 in *.
    set (q := c / 4096) in *. set (m1 := c / 64 mod 64) in *. set (m0 := c mod 64) in *.
    assert (Hc : (224 + q - 224) * 4096 + (128 + m1 - 128) * 64 + (128 + m0 - 128) = c) by lia.
    rewrite Hc, Es. dec_arith. done. }
  apply N.ltb_ge in E3.
  destruct (c <? 1114112) eqn:E4; [|done]. injection H as <-.
  pose proof E4 as E4'. apply N.ltb_lt in E4.
  cbn [utf8_decode app].
  pose proof (N.div_mod' c 64). pose proof (N.mod_lt c 64 ltac:(lia)).
  pose proof (N.div_mod' (c / 64) 64). pose proof (N.mod_lt (c / 64) 64 ltac:(lia)).
  pose proof (N.div_mod' (c / 4096) 64). pose proof (N.mod_lt (c / 4096) 64 ltac:(lia)).
  rewrite !N.Div0.div_div in *. change (64 * 64) with 4096 in *.
  change (4096 * 64) with 262144 in *.
  set (q := c / 262144) in *. set (m2 := c / 4096 mod 64) in *.
  set (m1 := c / 64 mod 64) in *. set (m0 := c mod 64) in *.
  assert (Hc : (240 + q - 240) * 262144 + (128 + m2 - 128) * 4096
               + (128 + m1 - 128) * 64 + (128 + m0 - 128) = c) by lia.
  rewrite Hc. dec_arith. done.
Qed.

(** Decoding undoes encoding. *)
Lemma utf8_decode_encode s bs : utf8_encode s = Some bs → utf8_decode bs = Some s.
Proof.
  revert bs; induction s as [|c s IH]; intros bs H.
  - by injection H as <-.
  - cbn in H. apply bind_Some in H as (b & Hb & H).
    apply bind_Some in H as (bs' & Hbs & [= <-]).
    rewrite (utf8_decode_char _ _ _ Hb), (IH _ Hbs). done.
Qed.

Lemma utf8_encode_bytes s bs : utf8_encode s = Some bs → Forall (λ b, b < 256) bs.
Proof.
  revert bs. induction s as [|c s IH]; cbn; intros bs H; [injection H as <-; constructor|].
  destruct (utf8_char c) as [b|] eqn:Hc; [|done]. destruct (utf8_encode s) as [bs'|]; [|done].
  injection H as <-. apply Forall_app. split; [|by apply IH].
  unfold utf8_char in Hc.
  assert (Hm : ∀ n, n mod 64 < 64) by (intros n; apply N.mod_lt; lia).
  repeat case_match; try done; injection Hc as <-; rewrite ?N.ltb_lt, ?N.ltb_ge in *;
    repeat constructor; rewrite ?N.ltb_lt in *;
    try (pose proof (Hm c); pose proof (Hm (c / 64)); pose proof (Hm (c / 4096)); lia);
    try lia; apply N.le_lt_trans with (m := 255); try lia.
  - assert (c / 64 < 64 * 2 ^ 1) by (apply N.Div0.div_lt_upper_bound; lia).
    assert (c / 64 < 32) by (apply N.Div0.div_lt_upper_bound; lia). lia.
  - assert (c / 4096 < 16) by (apply N.Div0.div_lt_upper_bound; lia). lia.
  - assert (c / 262144 < 5) by (apply N.Div0.div_lt_upper_bound; lia). lia.
Qed.

Lemma utf8_encode_inj s1 s2 bs :
  utf8_encode s1 = Some bs → utf8_encode s2 = Some bs → s1 = s2.
Proof. intros H1%utf8_decode_encode H2%utf8_decode_encode. congruence. Qed.

Lemma utf8_encode_app s1 s2 :
  utf8_encode (s1 ++ s2) =
  b1 ← utf8_encode s1; b2 ← utf8_encode s2; Some (b1 ++ b2).
Proof.
  induction s1 as [|c s1 IH]; cbn.
  - by destruct (utf8_encode s2).
  - destruct (utf8_char c); cbn; [|done]. rewrite IH.
    destruct (utf8_encode s1); cbn; [|done]. destruct (utf8_encode s2); cbn; [|done].
    by rewrite app_assoc.
Qed.

(** Stripping does not make the bytes more. *)
Lemma utf8_encode_strip s b :
  utf8_encode s = Some b → ∃ b', utf8_encode (strip s) = Some b' ∧ (length b' <= length b)%nat.
Proof.
  destruct (strip_infix s) as (p & q & E). rewrite E at 1. rewrite !utf8_encode_app.
  destruct (utf8_encode p) as [bp|]; cbn; [|done].
  destruct (utf8_encode (strip s)) as [bs|]; cbn; [|done].
  destruct (utf8_encode q) as [bq|]; cbn; [|done]. intros [= <-].
  exists bs. split; [done|]. rewrite !length_app. lia.
Qed.

(** ASCII text encodes to itself. *)
Definition is_ascii (s : pystr) : bool := forallb (λ c, c <? 128) s.

Lemma utf8_encode_ascii s : is_ascii s = true → utf8_encode s = Some s.
Proof.
  unfold is_ascii. induction s as [|c s IH]; cbn; [done|].
  intros [Hc Hs]%andb_true_iff. unfold utf8_char. by rewrite Hc; cbn; rewrite IH.
Qed.

(** ** [str(int)] and decimal digits *)

Fixpoint digits_of_uint (u : Decimal.uint) : pystr :=
  match u with
  | Decimal.Nil => []
  | Decimal.D0 u => 48 :: digits_of_uint u
  | Decimal.D1 u => 49 :: digits_of_uint u
  | Decimal.D2 u => 50 :: digits_of_uint u
  | Decimal.D3 u => 51 :: digits_of_uint u
  | Decimal.D4 u => 52 :: digits_of_uint u
  | Decimal.D5 u => 53 :: digits_of_uint u
  | Decimal.D6 u => 54 :: digits_of_uint u
  | Decimal.D7 u => 55 :: digits_of_uint u
  | Decimal.D8 u => 56 :: digits_of_uint u
  | Decimal.D9 u => 57 :: digits_of_uint u
  end.

Fixpoint uint_of_digits (s : pystr) : option Decimal.uint :=
  match s with
  | [] => Some Decimal.Nil
  | c :: s =>
      u ← uint_of_digits s;
      match c with
      | 48 => Some (Decimal.D0 u)
      | 49 => Some (Decimal.D1 u)
      | 50 => Some (Decimal.D2 u)
      | 51 => Some (Decimal.D3 u)
      | 52 => Some (Decimal.D4 u)
      | 53 => Some (Decimal.D5 u)
      | 54 => Some (Decimal.D6 u)
      | 55 => Some (Decimal.D7 u)
      | 56 => Some (Decimal.D8 u)
      | 57 => Some (Decimal.D9 u)
      | _ => None
      end
  end.

Definition str_of_Z (z : Z) : pystr :=
  match Z.to_int z with
  | Decimal.Pos u => digits_of_uint u
  | Decimal.Neg u => 45 :: digits_of_uint u
  end.

(** The decimal digits with an optional minus sign that [str(int)] writes. *)
Definition Z_of_str (s : pystr) : option Z :=
  match s with
  | [] => None
  | 45 :: [] => None
  | 45 :: s => (λ u, Z.of_int (Decimal.Neg u)) <$> uint_of_digits s
  | _ => (λ u, Z.of_int (Decimal.Pos u)) <$> uint_of_digits s
  end.

Lemma uint_of_digits_of_uint u : uint_of_digits (digits_of_uint u) = Some u.
Proof. induction u; cbn; rewrite ?IHu; done. Qed.

Lemma digits_digit u c : c ∈ digits_of_uint u → is_digit_ascii c = true.
Proof. induction u; cbn; rewrite ?elem_of_nil, ?elem_of_cons; naive_solver. Qed.

Lemma str_of_Z_ascii z : is_ascii (str_of_Z z) = true.
Proof.
  assert (Hu : ∀ u, is_ascii (digits_of_uint u) = true).
  { intros u. apply forallb_forall. intros c Hc.
    apply list_elem_of_In, digits_digit, andb_true_iff in Hc as [_ Hc].
    apply N.ltb_lt. apply N.leb_le in Hc. lia. }
  unfold str_of_Z. destruct (Z.to_int z); cbn; by rewrite Hu.
Qed.

Lemma uint_of_digits_digit s u :
  uint_of_digits s = Some u → forallb is_digit_ascii s = true.
Proof.
  revert u; induction s as [|c s IH]; intros u; [done|]. cbn [uint_of_digits forallb].
  intros (u' & Hu & H)%bind_Some. rewrite (IH _ Hu), andb_true_r.
  repeat (case_match; try done; simplify_eq).
Qed.

(** [str(int)] writes a nonempty run of digits with no leading zero. *)
Lemma to_int_norm z :
  match Z.to_int z with
  | Decimal.Pos u | Decimal.Neg u => u ≠ Decimal.Nil ∧ Decimal.unorm u = u
  end.
Proof.
  pose proof (DecimalZ.to_of (Z.to_int z)) as H. rewrite DecimalZ.of_to in H.
  assert (Hn : ∀ u, Decimal.unorm u = u → u ≠ Decimal.Nil).
  { intros u Hu ->. by destruct (DecimalFacts.unorm_nonnil Decimal.Nil). }
  destruct z as [|p|p]; cbn in *.
  - by split.
  - injection H as H. split; [|done]. apply Hn. done.
  - destruct (Decimal.nzhead (Pos.to_uint p)) eqn:E; cbn in H; try done;
      injection H as H; (split; [apply DecimalPos.Unsigned.to_uint_nonnil|]);
      unfold Decimal.unorm; rewrite E; congruence.
Qed.

Lemma unorm_head u v : Decimal.unorm u = u → u = Decimal.D0 v → v = Decimal.Nil.
Proof.
  intros Hn ->. unfold Decimal.unorm in Hn.
  destruct (Decimal.nzhead (Decimal.D0 v)) eqn:E; try (by simplify_eq).
  exfalso. by apply (DecimalFacts.nzhead_nonzero (Decimal.D0 v) u).
Qed.

Lemma Z_of_str_of_Z z : Z_of_str (str_of_Z z) = Some z.
Proof.
  rewrite <- (DecimalZ.of_to z) at 2. unfold str_of_Z. pose proof (to_int_norm z) as Hn.
  destruct (Z.to_int z) as [u|u] eqn:E; destruct Hn as [Hnil _].
  - assert (Hd : ∀ c s, digits_of_uint u = c :: s → is_digit_ascii c = true).
    { intros c s Hs. apply (digits_digit u). rewrite Hs. by left. }
    destruct (digits_of_uint u) as [|c s] eqn:Hu; [by destruct u|].
    specialize (Hd _ _ eq_refl).
    unfold Z_of_str. replace (Some (Z.of_int (Decimal.Pos u))) with
      ((λ u, Z.of_int (Decimal.Pos u)) <$> uint_of_digits (c :: s))
      by (rewrite <- Hu, uint_of_digits_of_uint; done).
    unfold is_digit_ascii, between in Hd. bools.
    repeat (case_match; try done; subst); cbn in *; try done.
  - unfold Z_of_str. destruct (digits_of_uint u) as [|c s] eqn:Hu; [by destruct u|].
    rewrite <- Hu, uint_of_digits_of_uint. done.
Qed.

Lemma str_of_Z_inj z1 z2 : str_of_Z z1 = str_of_Z z2 → z1 = z2.
Proof.
  intros H. apply (f_equal Z_of_str) in H. rewrite !Z_of_str_of_Z in H. congruence.
Qed.

#[export] Hint Rewrite Z_of_str_of_Z : cyrene.
