(* ===== verification/PyFloat32.v ===== *)
(** * binary32 values

    [struct.pack("<f", ...)] rounds a Python float to binary32 and writes its
    four bytes; [struct.unpack] reads them back exactly.  Here are the two
    roundings (to binary32, which loses bits, and back, which does not), the
    bytes, and the facts that make them a round trip. *)

From Stdlib Require Import ZArith NArith SpecFloat.
From S2P Require Import Prelude PyFloat PyText.

#[local] Open Scope Z_scope.

(** ** Rounding is canonical *)

Lemma digits2_log2 p : Zpos (digits2_pos p) = Z.log2 (Zpos p) + 1.
Proof.
  induction p as [p IH|p IH|]; cbn [digits2_pos]; [..|done]; rewrite Pos2Z.inj_succ, IH.
  - rewrite Pos2Z.inj_xI, Z.log2_succ_double by lia. lia.
  - rewrite Pos2Z.inj_xO, Z.log2_double by lia. lia.
Qed.

Lemma Zdigits2_pos m : 0 < m → Zdigits2 m = Z.log2 m + 1.
Proof. destruct m; try lia. intros _. apply digits2_log2. Qed.

Lemma shr_1_half mrs : 0 <= shr_m mrs → shr_m (shr_1 mrs) = shr_m mrs / 2.
Proof.
  intros Hm. rewrite <- Z.div2_div. by destruct mrs as [[|[]|[]] r s].
Qed.

Lemma iter_pos_nat {A} (f : A → A) n x :
  SpecFloat.iter_pos f n x = Nat.iter (Pos.to_nat n) f x.
Proof.
  revert x. induction n as [n IH|n IH|]; intros x; cbn; [| |done].
  - rewrite !IH, Pos2Nat.inj_xI. rewrite <- Nat.iter_add. cbn [Nat.iter].
    replace (2 * Pos.to_nat n)%nat with (Pos.to_nat n + Pos.to_nat n)%nat by lia.
    by rewrite Nat.iter_succ_r.
  - rewrite !IH, Pos2Nat.inj_xO, <- Nat.iter_add. f_equal. lia.
Qed.

Lemma shr_iter (n : nat) mrs :
  0 <= shr_m mrs → shr_m (Nat.iter n shr_1 mrs) = shr_m mrs / 2 ^ Z.of_nat n.
Proof.
  intros Hm. induction n as [|n IH]; [cbn; by rewrite Z.div_1_r|].
  cbn [Nat.iter nat_rect]. fold (Nat.iter n shr_1 mrs).
  rewrite shr_1_half by (rewrite IH; apply Z.div_pos; lia).
  rewrite IH, Z.div_div by lia. f_equal. rewrite Nat2Z.inj_succ, Z.pow_succ_r by lia. lia.
Qed.

Lemma digits_div m k : 0 <= m → 0 <= k → 0 < m / 2 ^ k → Zdigits2 (m / 2 ^ k) = Zdigits2 m - k.
Proof.
  intros Hm Hk Hp. assert (0 < m) by (destruct (Z.eq_dec m 0) as [->|]; [by rewrite Z.div_0_l in Hp by lia|lia]).
  rewrite !Zdigits2_pos by done. rewrite <- Z.shiftr_div_pow2 in * by done.
  rewrite Z.log2_shiftr by done.
  assert (k <= Z.log2 m); [|lia]. apply Z.nlt_ge. intros Hlt.
  rewrite Z.shiftr_eq_0 in Hp by lia. lia.
Qed.

Lemma Zdigits2_le a b : 0 <= a <= b → Zdigits2 a <= Zdigits2 b.
Proof.
  intros [Ha Hb]. destruct (Z.eq_dec a 0) as [->|]; [destruct b; cbn; lia|].
  rewrite !Zdigits2_pos by lia. pose proof (Z.log2_le_mono a b Hb). lia.
Qed.

Lemma round_even_ge m l : 0 <= m → m <= round_nearest_even m l.
Proof. destruct l as [|[]]; cbn; try case_match; lia. Qed.

Lemma iter_xO m d : Zpos (Pos.iter xO m d) = Zpos m * 2 ^ Zpos d.
Proof.
  induction d as [|d IH] using Pos.peano_ind; [cbn; lia|].
  rewrite Pos.iter_succ, Pos2Z.inj_xO, IH, Pos2Z.inj_succ, Z.pow_succ_r by lia. lia.
Qed.

Lemma digits_shift m k : 0 < m → 0 <= k → Zdigits2 (m * 2 ^ k) = Zdigits2 m + k.
Proof.
  intros Hm Hk. assert (0 < 2 ^ k) by by apply Z.pow_pos_nonneg.
  rewrite !Zdigits2_pos by nia. rewrite Z.log2_mul_pow2 by done. lia.
Qed.

Lemma shl_align_spec m e e' :
  let r := shl_align m e e' in
  snd r = Z.min e e' ∧ Zpos (fst r) = Zpos m * 2 ^ (e - Z.min e e').
Proof.
  unfold shl_align. destruct (e' - e) as [|p|p] eqn:E; cbn [fst snd].
  - replace (Z.min e e') with e by lia. rewrite Z.sub_diag. lia.
  - replace (Z.min e e') with e by lia. rewrite Z.sub_diag. lia.
  - replace (Z.min e e') with e' by lia. split; [done|]. rewrite iter_xO. do 2 f_equal. lia.
Qed.

Lemma shr_iter_exact (n : nat) m :
  0 <= m → Nat.iter n shr_1 (Build_shr_record (m * 2 ^ Z.of_nat n) false false)
           = Build_shr_record m false false.
Proof.
  intros Hm. induction n as [|n IH]; [cbn; by rewrite Z.mul_1_r|].
  rewrite Nat.iter_succ_r. rewrite Nat2Z.inj_succ, Z.pow_succ_r by lia.
  replace (m * (2 * 2 ^ Z.of_nat n)) with (2 * (m * 2 ^ Z.of_nat n)) by lia.
  assert (Hs : ∀ z, 0 <= z → shr_1 (Build_shr_record (2 * z) false false) = Build_shr_record z false false)
    by by intros [] ?.
  rewrite Hs by (apply Z.mul_nonneg_nonneg; [done|apply Z.pow_nonneg; lia]). apply IH.
Qed.

Section Canonical.
Context (prec emax : Z) (Hprec : 0 < prec).
Abbreviation fexp := (fexp prec emax).

Lemma fexp_mono a b : a <= b → fexp a <= fexp b.
Proof. unfold SpecFloat.fexp. lia. Qed.

Lemma shr_fexp_spec m e l :
  0 <= m → e <= fexp (Zdigits2 m + e) →
  let r := shr_fexp prec emax m e l in
  snd r = fexp (Zdigits2 m + e) ∧ shr_m (fst r) = m / 2 ^ (snd r - e).
Proof.
  intros Hm He. unfold shr_fexp, shr. set (n := fexp (Zdigits2 m + e) - e) in *.
  assert (Hr : shr_m (shr_record_of_loc m l) = m) by by destruct l as [|[]].
  destruct n as [|p|p] eqn:En; cbn [fst snd].
  - split; [lia|]. by rewrite Hr, Z.sub_diag, Z.div_1_r.
  - split; [lia|]. rewrite iter_pos_nat, shr_iter, Hr by lia. do 2 f_equal. lia.
  - lia.
Qed.

(** Shifting right to the canonical exponent leaves it canonical. *)
Lemma canonical_exponent m e e' :
  0 <= m → e <= fexp (Zdigits2 m + e) → e' = fexp (Zdigits2 m + e) →
  e' <= fexp (Zdigits2 (m / 2 ^ (e' - e)) + e') ∧
  (0 < m / 2 ^ (e' - e) → fexp (Zdigits2 (m / 2 ^ (e' - e)) + e') = e').
Proof.
  intros Hm He He'. destruct (Z.eq_dec (m / 2 ^ (e' - e)) 0) as [E|E].
  - split; [|lia]. rewrite E. cbn [Zdigits2]. destruct (Z.eq_dec m 0) as [->|Hm0].
    + cbn [Zdigits2] in *. unfold SpecFloat.fexp in *. lia.
    + apply Z.div_small_iff in E as [E|E]; [|lia|lia].
      assert (Hd : Zdigits2 m <= e' - e).
      { rewrite Zdigits2_pos by lia. assert (Z.log2 m < e' - e); [|lia].
        apply Z.log2_lt_pow2; lia. }
      unfold SpecFloat.fexp in *. lia.
  - assert (Hp : 0 < m / 2 ^ (e' - e)) by (pose proof (Z.div_pos m (2 ^ (e' - e))); lia).
    rewrite digits_div by lia. replace (Zdigits2 m - (e' - e) + e') with (Zdigits2 m + e) by lia. lia.
Qed.

Lemma binary_round_aux_valid s m e l :
  0 <= m → e <= fexp (Zdigits2 m + e) → valid_binary prec emax (binary_round_aux prec emax s m e l) = true.
Proof.
  intros Hm He. unfold binary_round_aux.
  destruct (shr_fexp_spec m e l Hm He) as [H1 H2].
  destruct (shr_fexp prec emax m e l) as [r1 e1]. cbn [fst snd] in *.
  destruct (canonical_exponent m e e1 Hm He H1) as [Hc _]. rewrite <- H2 in Hc.
  assert (Hr1 : 0 <= shr_m r1) by (rewrite H2; apply Z.div_pos; [done|apply Z.pow_pos_nonneg; lia]).
  set (m2 := round_nearest_even (shr_m r1) (loc_of_shr_record r1)).
  assert (Hm2 : shr_m r1 <= m2) by by apply round_even_ge.
  assert (He2 : e1 <= fexp (Zdigits2 m2 + e1)).
  { etrans; [exact Hc|]. apply fexp_mono. pose proof (Zdigits2_le (shr_m r1) m2). lia. }
  destruct (shr_fexp_spec m2 e1 loc_Exact ltac:(lia) He2) as [H3 H4].
  destruct (shr_fexp prec emax m2 e1 loc_Exact) as [r2 e2]. cbn [fst snd] in *.
  destruct (canonical_exponent m2 e1 e2 ltac:(lia) He2 H3) as [_ Hcan]. rewrite <- H4 in Hcan.
  destruct (shr_m r2) as [|p|p]; [done| |done]. destruct (e2 <=? emax - prec) eqn:E; [|done].
  cbn. unfold bounded, canonical_mantissa. rewrite E, andb_true_r. apply Z.eqb_eq. by apply Hcan.
Qed.

(** The result of a rounding is a value of the format. *)
Lemma binary_normalize_valid m e s : valid_binary prec emax (binary_normalize prec emax m e s) = true.
Proof.
  assert (H : ∀ sg p, valid_binary prec emax (binary_round prec emax sg p e) = true).
  { intros sg p. unfold binary_round.
    destruct (shl_align_spec p e (fexp (Zpos (digits2_pos p) + e))) as [H1 H2].
    destruct (shl_align _ _ _) as [mz ez]. cbn [fst snd] in *.
    apply binary_round_aux_valid; [done|]. rewrite H2, H1. rewrite digits_shift by lia. cbn [Zdigits2].
    set (f := fexp _) in *.
    replace (Zpos (digits2_pos p) + (e - Z.min e f) + Z.min e f) with (Zpos (digits2_pos p) + e) by lia.
    fold f. lia. }
  by destruct m; cbn.
Qed.

(** ** Exact roundings *)

(** A value of the format, written with a longer mantissa, rounds to itself. *)
Lemma binary_round_aux_exact s m e k :
  bounded prec emax m e = true → 0 <= k →
  binary_round_aux prec emax s (Zpos m * 2 ^ k) (e - k) loc_Exact = S754_finite s m e.
Proof.
  intros [Hc Hb]%andb_true_iff Hk. apply Z.eqb_eq in Hc.
  assert (H : ∀ j, 0 <= j → shr_fexp prec emax (Zpos m * 2 ^ j) (e - j) loc_Exact
                          = (Build_shr_record (Zpos m) false false, e)).
  { intros j Hj. unfold shr_fexp, shr. rewrite digits_shift by lia. cbn [Zdigits2].
    replace (Zpos (digits2_pos m) + j + (e - j)) with (Zpos (digits2_pos m) + e) by lia.
    rewrite Hc. replace (e - (e - j)) with j by lia.
    destruct j as [|p|p]; [|..|done].
    - cbn. rewrite Z.mul_1_r. f_equal. lia.
    - rewrite iter_pos_nat. cbn [shr_record_of_loc]. pose proof (positive_nat_Z p) as Hz. rewrite <- Hz, shr_iter_exact by lia.
      f_equal. lia. }
  unfold binary_round_aux. rewrite H by done. cbn [shr_m loc_of_shr_record round_nearest_even].
  pose proof (H 0 ltac:(lia)) as H0. rewrite Z.mul_1_r, Z.sub_0_r in H0. rewrite H0.
  cbn [shr_m]. by rewrite Hb.
Qed.

Lemma binary_normalize_exact s m e k :
  bounded prec emax m e = true → 0 <= k →
  binary_normalize prec emax (cond_Zopp s (Zpos m * 2 ^ k)) (e - k) s = S754_finite s m e.
Proof.
  intros Hb Hk. pose proof Hb as [Hc _]%andb_true_iff. apply Z.eqb_eq in Hc.
  assert (Hp : 0 < Zpos m * 2 ^ k) by (apply Z.mul_pos_pos; [lia|by apply Z.pow_pos_nonneg]).
  destruct (Zpos m * 2 ^ k) as [|p|p] eqn:Ep; try lia.
  assert (Hd : Zpos (digits2_pos p) = Zpos (digits2_pos m) + k).
  { change (Zpos (digits2_pos p)) with (Zdigits2 (Zpos p)). rewrite <- Ep. by rewrite digits_shift. }
  assert (Hr : binary_round prec emax s p (e - k) = S754_finite s m e).
  { unfold binary_round. rewrite Hd.
    replace (Zpos (digits2_pos m) + k + (e - k)) with (Zpos (digits2_pos m) + e) by lia. rewrite Hc.
    unfold shl_align. replace (e - (e - k)) with k by lia.
    assert (Hal : match k with Zneg d => (Pos.iter xO p d, e) | _ => (p, e - k) end = (p, e - k))
      by by destruct k. rewrite Hal, <- Ep. by apply binary_round_aux_exact. }
  by destruct s.
Qed.
End Canonical.

(** ** binary32 *)

(** The binary32 value nearest to a [float], and back. *)
Definition to_f32 (x : pyfloat) : pyfloat :=
  match x with
  | S754_finite s m e => binary_normalize 24 128 (cond_Zopp s (Zpos m)) e s
  | x => x
  end.
Definition of_f32 (x : pyfloat) : pyfloat :=
  match x with
  | S754_finite s m e => binary_normalize f_prec f_emax (cond_Zopp s (Zpos m)) e s
  | x => x
  end.

(** A component after the trip through binary32. *)
Definition quantized (v : pyfloat) : pyfloat := of_f32 (to_f32 v).

Definition f32_valid (x : pyfloat) : Prop := valid_binary 24 128 x = true.

Lemma to_f32_valid x : f32_valid (to_f32 x).
Proof. destruct x; try done. by apply binary_normalize_valid. Qed.

Lemma bounded_f32 m e :
  bounded 24 128 m e = true →
  (8388608 <= Zpos m < 16777216 ∧ -149 <= e <= 104) ∨ (Zpos m < 8388608 ∧ e = -149).
Proof.
  intros [Hc Hb]%andb_true_iff. apply Z.eqb_eq in Hc. apply Z.leb_le in Hb.
  rewrite digits2_log2 in Hc. unfold fexp, emin in Hc.
  destruct (Z.log2_spec (Zpos m) ltac:(lia)) as [Hl1 Hl2].
  set (d := Z.log2 (Zpos m)) in *. assert (Hd : 0 <= d) by apply Z.log2_nonneg.
  destruct (Z.eq_dec d 23) as [->|Hn].
  - left. split; [|lia]. change (2 ^ 23) with 8388608 in Hl1.
    change (2 ^ Z.succ 23) with 16777216 in Hl2. lia.
  - right. split; [|lia]. assert (d <= 22) by lia.
    pose proof (Z.pow_le_mono_r 2 (Z.succ d) 23 ltac:(lia) ltac:(lia)) as Hp.
    change (2 ^ 23) with 8388608 in Hp. lia.
Qed.

(** Widening is exact, so it is undone by rounding. *)
Lemma to_of_f32 x : f32_valid x → to_f32 (of_f32 x) = x.
Proof.
  destruct x as [| | |s m e]; try done. unfold f32_valid. cbn [valid_binary of_f32]. intros Hb.
  pose proof Hb as [Hc Hle]%andb_true_iff. apply Z.eqb_eq in Hc. apply Z.leb_le in Hle.
  set (D := Zpos (digits2_pos m)) in *. set (f := fexp f_prec f_emax (D + e)).
  assert (Hf : f <= e) by (unfold f, fexp, emin, f_prec, f_emax in *; lia).
  assert (Hp : 0 < Zpos m * 2 ^ (e - f)) by (apply Z.mul_pos_pos; [lia|apply Z.pow_pos_nonneg; lia]).
  destruct (Zpos m * 2 ^ (e - f)) as [|m'|m'] eqn:Em; try lia.
  assert (Hd : Zpos (digits2_pos m') = D + (e - f)).
  { change (Zpos (digits2_pos m')) with (Zdigits2 (Zpos m')). rewrite <- Em.
    apply digits_shift; lia. }
  assert (Hb' : bounded f_prec f_emax m' f = true).
  { apply andb_true_iff. unfold canonical_mantissa. rewrite Hd.
    replace (D + (e - f) + f) with (D + e) by lia. fold f. rewrite Z.eqb_refl. split; [done|].
    apply Z.leb_le. unfold f, fexp, emin, f_prec, f_emax in *. lia. }
  assert (Hw : binary_normalize f_prec f_emax (cond_Zopp s (Zpos m)) e s = S754_finite s m' f).
  { assert (Hr : binary_round f_prec f_emax s m e = S754_finite s m' f).
    { unfold binary_round. fold D f. pose proof (shl_align_spec m e f) as [H1 H2].
      destruct (shl_align m e f) as [mz ez]. cbn [fst snd] in *.
      replace (Z.min e f) with f in * by lia. subst ez. rewrite Em in H2. injection H2 as ->.
      pose proof (binary_round_aux_exact f_prec f_emax s m' f 0 Hb' ltac:(done)) as H.
      by rewrite Z.mul_1_r, Z.sub_0_r in H. }
    by destruct s. }
  rewrite Hw. cbn [to_f32]. rewrite <- Em.
  pose proof (binary_normalize_exact 24 128 s m e (e - f) Hb ltac:(lia)) as H.
  by replace (e - (e - f)) with f in H by lia.
Qed.

Lemma quantized_idem v : quantized (quantized v) = quantized v.
Proof. unfold quantized. by rewrite to_of_f32 by apply to_f32_valid. Qed.

(** ** Bytes *)

Definition f32_bits (x : pyfloat) : Z :=
  match x with
  | S754_zero s => if s then 2 ^ 31 else 0
  | S754_infinity s => (if s then 2 ^ 31 else 0) + 255 * 2 ^ 23
  | S754_nan => 255 * 2 ^ 23 + 2 ^ 22
  | S754_finite s m e =>
      (if s then 2 ^ 31 else 0)
      + (if Zpos m <? 2 ^ 23 then Zpos m else (e + 150) * 2 ^ 23 + (Zpos m - 2 ^ 23))
  end.

Definition f32_of_bits (b : Z) : pyfloat :=
  let s := 2 ^ 31 <=? b in
  let ex := b / 2 ^ 23 mod 256 in
  let fr := b mod 2 ^ 23 in
  if ex =? 255 then if fr =? 0 then S754_infinity s else S754_nan
  else
    let '(m, e) := if ex =? 0 then (fr, -149) else (fr + 2 ^ 23, ex - 150) in
    match m with Zpos p => S754_finite s p e | _ => S754_zero s end.

Lemma f32_bits_range x : f32_valid x → 0 <= f32_bits x < 2 ^ 32.
Proof.
  destruct x as [[]|[]| |[] m e]; try done; unfold f32_valid; cbn [valid_binary f32_bits];
    intros Hb%bounded_f32; destruct (Z.ltb_spec (Zpos m) (2 ^ 23)); lia.
Qed.

Lemma f32_of_bits_bits x : f32_valid x → f32_of_bits (f32_bits x) = x.
Proof.
  destruct x as [[]|[]| |s m e]; try done. unfold f32_valid. cbn [valid_binary f32_bits].
  intros Hb%bounded_f32. unfold f32_of_bits. change (2 ^ 31) with 2147483648 in *.
  change (2 ^ 23) with 8388608 in *.
  set (sb := if s then 2147483648 else 0).
  set (r := if Zpos m <? 8388608 then Zpos m else (e + 150) * 8388608 + (Zpos m - 8388608)).
  assert (Hr : 0 <= r < 2139095040) by (unfold r; destruct (Z.ltb_spec (Zpos m) 8388608); lia).
  assert (Hs : (2147483648 <=? sb + r) = s).
  { subst sb. destruct s; [apply Z.leb_le; lia|apply Z.leb_gt; lia]. }
  assert (Hx : (sb + r) / 8388608 mod 256 = r / 8388608).
  { assert (H1 : r / 8388608 < 255) by (apply Z.div_lt_upper_bound; lia).
    assert (H2 : 0 <= r / 8388608) by (apply Z.div_pos; lia).
    subst sb. destruct s; [|by rewrite Z.add_0_l, Z.mod_small by lia].
    change 2147483648 with (256 * 8388608). rewrite Z.div_add_l by lia.
    rewrite Z.add_mod by lia. rewrite Z.mod_same by lia. rewrite Z.add_0_l, Z.mod_mod by lia.
    by rewrite Z.mod_small by lia. }
  assert (Hf : (sb + r) mod 8388608 = r mod 8388608).
  { subst sb. destruct s; [|done]. change 2147483648 with (256 * 8388608).
    by rewrite Z.add_comm, Z.mod_add by lia. }
  rewrite Hs, Hx, Hf. unfold r. destruct (Z.ltb_spec (Zpos m) 8388608) as [Hm|Hm].
  - destruct Hb as [[? _]|[_ ->]]; [lia|]. rewrite Z.div_small, Z.mod_small by lia. done.
  - destruct Hb as [[Hm' He]|[? _]]; [|lia].
    assert (Hq : ((e + 150) * 8388608 + (Zpos m - 8388608)) / 8388608 = e + 150)
      by (rewrite Z.div_add_l, Z.div_small by lia; lia).
    assert (Hfr : ((e + 150) * 8388608 + (Zpos m - 8388608)) mod 8388608 = Zpos m - 8388608)
      by (by rewrite Z.add_comm, Z.mod_add, Z.mod_small by lia).
    rewrite Hq, Hfr. rewrite (proj2 (Z.eqb_neq (e + 150) 255)) by lia.
    rewrite (proj2 (Z.eqb_neq (e + 150) 0)) by lia.
    replace (Zpos m - 8388608 + 8388608) with (Zpos m) by lia.
    f_equal. lia.
Qed.

(** The four bytes of an unsigned word, least significant first. *)
Definition le32 (b : Z) : pybytes :=
  [Z.to_N (b mod 256); Z.to_N (b / 2 ^ 8 mod 256); Z.to_N (b / 2 ^ 16 mod 256); Z.to_N (b / 2 ^ 24 mod 256)].
Definition of_le32 (bs : pybytes) : option Z :=
  match bs with
  | [a; b; c; d] => Some (Z.of_N a + Z.of_N b * 2 ^ 8 + Z.of_N c * 2 ^ 16 + Z.of_N d * 2 ^ 24)
  | _ => None
  end.

Lemma of_le32_le32 b : 0 <= b < 2 ^ 32 → of_le32 (le32 b) = Some b.
Proof.
  intros Hb. unfold of_le32, le32. f_equal.
  rewrite !Z2N.id by (apply Z.mod_pos_bound; lia).
  change (2 ^ 8) with 256. change (2 ^ 16) with 65536. change (2 ^ 24) with 16777216.
  change (2 ^ 32) with 4294967296 in Hb. Z.to_euclidean_division_equations. lia.
Qed.

(** [struct.pack("<f", x)]; [None] is the [OverflowError] of a number too large. *)
Definition pack_f32 (x : pyfloat) : option pybytes :=
  let y := to_f32 x in
  if is_finite x && negb (is_finite y) then None else Some (le32 (f32_bits y)).

(** [struct.unpack("<f", bs)[0]] of four bytes. *)
Definition unpack_f32 (bs : pybytes) : option pyfloat :=
  b ← of_le32 bs; Some (of_f32 (f32_of_bits b)).

Lemma unpack_pack_f32 x bs : pack_f32 x = Some bs → unpack_f32 bs = Some (quantized x).
Proof.
  unfold pack_f32, unpack_f32. case_match; [done|]. intros [= <-].
  pose proof (to_f32_valid x) as Hv. rewrite of_le32_le32 by by apply f32_bits_range.
  cbn [mbind option_bind]. by rewrite f32_of_bits_bits.
Qed.

Lemma length_pack_f32 x bs : pack_f32 x = Some bs → length bs = 4%nat ∧ Forall (λ b, (b < 256)%N) bs.
Proof.
  unfold pack_f32. case_match; [done|]. intros [= <-]. split; [done|].
  unfold le32. repeat constructor; apply N2Z.inj_lt; rewrite Z2N.id; apply Z.mod_pos_bound; lia.
Qed.

Example pack_one : pack_f32 (f_of_Z 1) = Some [0; 0; 128; 63]%N.
Proof. reflexivity. Qed.
Example pack_minus_two_thirds : pack_f32 (fdiv (f_of_Z (-2)) (f_of_Z 3)) = Some [171; 170; 42; 191]%N.
Proof. reflexivity. Qed.
