(* ===== verification/PyFloatText.v ===== *)
(** * [float(text)]

    The grammar of Python's float literals and the correctly rounded value of a
    decimal. *)

From Stdlib Require Import ZArith NArith SpecFloat.
From S2P Require Import Prelude PyFloat PyText.

#[local] Open Scope Z_scope.

(** Digits, single underscores allowed between them. *)
Fixpoint digit_run (s : pystr) : pystr * pystr :=
  match s with
  | [] => ([], [])
  | c :: r =>
      if is_digit_ascii c then let '(ds, rest) := digit_run r in (c :: ds, rest)
      else match r with
           | d :: _ => if (c =? 95)%N && is_digit_ascii d then digit_run r else ([], s)
           | [] => ([], s)
           end
  end.

Definition digit_part (s : pystr) : pystr * pystr :=
  match s with c :: _ => if is_digit_ascii c then digit_run s else ([], s) | [] => ([], []) end.

Definition nat_of_digits (ds : pystr) : Z :=
  foldl (λ n d, 10 * n + (Z.of_N d - 48)) 0 ds.

Definition signed (s : pystr) : bool * pystr :=
  match s with
  | c :: r => if (c =? 45)%N then (true, r) else if (c =? 43)%N then (false, r) else (false, s)
  | [] => (false, [])
  end.

(** The binary64 nearest to [m * 10^e]. *)
Definition f_of_decimal (neg : bool) (m e : Z) : pyfloat :=
  match m with
  | Zpos p =>
      if 0 <=? e then
        binary_normalize f_prec f_emax ((if neg then -1 else 1) * (m * 10 ^ e)) 0 neg
      else SFdiv f_prec f_emax (S754_finite neg p 0) (S754_finite false (Z.to_pos (10 ^ (- e))) 0)
  | _ => S754_zero neg
  end.

Definition p_exponent (s : pystr) : option Z :=
  match s with
  | [] => Some 0
  | c :: r =>
      if (c =? 101)%N || (c =? 69)%N then
        let '(neg, r) := signed r in
        match digit_part r with
        | (d :: ds, []) => Some ((if neg then -1 else 1) * nat_of_digits (d :: ds))
        | _ => None
        end
      else None
  end.

(** [float(s)] on Latin-1 text; [None] is the [ValueError]. *)
Definition py_float (s : pystr) : option pyfloat :=
  let '(neg, r) := signed (strip s) in
  let word := map (λ c, if is_upper_ascii c then (c + 32)%N else c) r in
  if bool_decide (word = lit "inf") || bool_decide (word = lit "infinity") then
    Some (S754_infinity neg)
  else if bool_decide (word = lit "nan") then Some S754_nan
  else
    let '(whole, r) := digit_part r in
    let '(frac, r) :=
      match r with
      | c :: r' => if (c =? 46)%N then digit_part r' else ([], r)
      | [] => ([], [])
      end in
    if bool_decide (whole ++ frac = []) then None else
    match p_exponent r with
    | Some e => Some (f_of_decimal neg (nat_of_digits (whole ++ frac)) (e - len frac))
    | None => None
    end.

Example py_float_examples :
  map py_float [lit "1_0.5e1"; lit " -2 "; lit "1__0"; lit "."; lit "1e"; lit "Infinity"]
  = [Some (f_of_Z 105); Some (f_of_Z (-2)); None; None; None; Some (S754_infinity false)].
Proof. by vm_compute. Qed.

(** 0.1 is the double with the known bits. *)
Example py_float_tenth :
  py_float (lit "0.1") = Some (S754_finite false 7205759403792794 (-56)).
Proof. by vm_compute. Qed.
