(* ===== verification/Json.v ===== *)
(** * Python's [json] module

    [dumps] is [json.dumps(v, ensure_ascii=False, separators=(",", ":"))] and
    [dumps_sorted] the same call with [sort_keys=True]; [loads] is
    [json.loads], with the [object_pairs_hook] as a parameter.  The parser
    recurses on fuel; [loads] gives it more than any input can use.

    A [float] literal keeps its text ([JFloat]): the models only need to know
    that a value is a number that is not an [int]. *)

From Stdlib Require Import Sorted ZArith NArith Permutation.
From stdpp Require Import sorting.
From Stdlib Require Decimal DecimalZ.
From S2P Require Import Prelude PyText.

#[local] Open Scope N_scope.

Inductive json : Type :=
  | JNull
  | JBool (b : bool)
  | JInt (z : Z)
  | JFloat (literal : pystr)
  | JStr (s : pystr)
  | JArr (l : list json)
  | JObj (kvs : list (pystr * json)).

(** Induction with a hypothesis for every element of an array or object. *)
Section JsonInd.
Context (P : json → Prop).
Context (Hnull : P JNull) (Hbool : ∀ b, P (JBool b)) (Hint : ∀ z, P (JInt z))
  (Hfloat : ∀ t, P (JFloat t)) (Hstr : ∀ s, P (JStr s))
  (Harr : ∀ l, Forall P l → P (JArr l))
  (Hobj : ∀ kvs, Forall (λ kv, P kv.2) kvs → P (JObj kvs)).

Fixpoint json_nested_ind (j : json) : P j :=
  match j with
  | JNull => Hnull
  | JBool b => Hbool b
  | JInt z => Hint z
  | JFloat t => Hfloat t
  | JStr s => Hstr s
  | JArr l => Harr l
      ((fix go l : Forall P l :=
          match l with
          | [] => Forall_nil_2 _
          | x :: l => Forall_cons_2 _ _ _ (json_nested_ind x) (go l)
          end) l)
  | JObj kvs => Hobj kvs
      ((fix go kvs : Forall (λ kv, P kv.2) kvs :=
          match kvs with
          | [] => Forall_nil_2 _
          | kv :: kvs => Forall_cons_2 _ _ _ (json_nested_ind kv.2) (go kvs)
          end) kvs)
  end.
End JsonInd.

(** [d.get(k)] on a decoded object. *)
Fixpoint assoc {V : Type} (k : pystr) (kvs : list (pystr * V)) : option V :=
  match kvs with
  | [] => None
  | (k', v) :: kvs => if decide (k = k') then Some v else assoc k kvs
  end.

Definition json_get (k : pystr) (j : json) : option json :=
  match j with JObj kvs => assoc k kvs | _ => None end.

(** ** Printing *)

Definition hex_digit (n : N) : N := if n <? 10 then 48 + n else 87 + n.

(** The escapes of [ensure_ascii=False]. *)
Definition escape (c : N) : pystr :=
  if c =? 34 then [92; 34]
  else if c =? 92 then [92; 92]
  else if c =? 10 then [92; 110]
  else if c =? 13 then [92; 114]
  else if c =? 9 then [92; 116]
  else if c =? 12 then [92; 102]
  else if c =? 8 then [92; 98]
  else if c <? 32 then [92; 117; 48; 48; hex_digit (c / 16); hex_digit (c mod 16)]
  else [c].

Definition dump_str (s : pystr) : pystr := 34 :: flat_map escape s ++ [34].

(** [sep.join(parts)] *)
Fixpoint join (sep : pystr) (parts : list pystr) : pystr :=
  match parts with
  | [] => []
  | [p] => p
  | p :: parts => p ++ sep ++ join sep parts
  end.

Fixpoint dumps (j : json) : pystr :=
  match j with
  | JNull => lit "null"
  | JBool true => lit "true"
  | JBool false => lit "false"
  | JInt z => str_of_Z z
  | JFloat t => t
  | JStr s => dump_str s
  | JArr l => 91 :: join [44%N] (map dumps l) ++ [93]
  | JObj kvs =>
      123 :: join [44%N] (map (λ '(k, v), dump_str k ++ 58 :: dumps v) kvs) ++ [125]
  end.

(** The same with [ensure_ascii=True], the default: every character outside
    the printable ASCII range is a [\u] escape, an astral one a surrogate pair. *)
Definition u_escape (c : N) : pystr :=
  [92; 117; hex_digit (c / 4096); hex_digit (c / 256 mod 16); hex_digit (c / 16 mod 16);
   hex_digit (c mod 16)].

Definition escape_ascii (c : N) : pystr :=
  if c <? 127 then escape c
  else if c <? 65536 then u_escape c
  else let v := c - 65536 in u_escape (55296 + v / 1024) ++ u_escape (56320 + v mod 1024).

Definition dump_str_ascii (s : pystr) : pystr := 34 :: flat_map escape_ascii s ++ [34].

Fixpoint dumps_ascii (j : json) : pystr :=
  match j with
  | JStr s => dump_str_ascii s
  | JArr l => 91 :: join [44%N] (map dumps_ascii l) ++ [93]
  | JObj kvs =>
      123 :: join [44%N] (map (λ '(k, v), dump_str_ascii k ++ 58 :: dumps_ascii v) kvs) ++ [125]
  | _ => dumps j
  end.

(** ** [sort_keys] *)

Fixpoint insert_key {V : Type} (kv : pystr * V) (kvs : list (pystr * V)) :=
  match kvs with
  | [] => [kv]
  | kv' :: kvs' => if str_ltb kv.1 kv'.1 then kv :: kvs else kv' :: insert_key kv kvs'
  end.

Definition sort_items {V : Type} (kvs : list (pystr * V)) : list (pystr * V) :=
  foldr insert_key [] kvs.

Fixpoint json_sort (j : json) : json :=
  match j with
  | JArr l => JArr (map json_sort l)
  | JObj kvs => JObj (sort_items (map (λ '(k, v), (k, json_sort v)) kvs))
  | _ => j
  end.

Definition dumps_sorted (j : json) : pystr := dumps (json_sort j).

(** ** Parsing *)

Definition is_ws (c : N) : bool := (c =? 32) || (c =? 9) || (c =? 10) || (c =? 13).

Fixpoint skip_ws (s : pystr) : pystr :=
  match s with
  | c :: r => if is_ws c then skip_ws r else s
  | [] => []
  end.

Definition hex_value (c : N) : option N :=
  if between 48 57 c then Some (c - 48)
  else if between 97 102 c then Some (c - 87)
  else if between 65 70 c then Some (c - 55)
  else None.

Definition hex4 (a b c d : N) : option N :=
  a ← hex_value a; b ← hex_value b; c ← hex_value c; d ← hex_value d;
  Some (a * 4096 + b * 256 + c * 16 + d).

Definition cons_fst {B : Type} (c : N) (p : option (pystr * B)) : option (pystr * B) :=
  (λ '(s, r), (c :: s, r)) <$> p.

(** The one-character escapes. *)
Definition unescape (c : N) : option N :=
  if c =? 34 then Some 34 else if c =? 92 then Some 92 else if c =? 47 then Some 47
  else if c =? 98 then Some 8 else if c =? 102 then Some 12
  else if c =? 110 then Some 10 else if c =? 114 then Some 13
  else if c =? 116 then Some 9 else None.

Definition is_high (c : N) : bool := between 55296 56319 c.
Definition is_low (c : N) : bool := between 56320 57343 c.

(** The text after an opening quote: the string's value and what follows its
    closing quote.  A surrogate pair written as two escapes is one character,
    an unpaired one stays as it is. *)
Fixpoint p_str (s : pystr) : option (pystr * pystr) :=
  match s with
  | [] => None
  | c :: r =>
      if c =? 34 then Some ([], r)
      else if c =? 92 then
        match r with
        | [] => None
        | e :: r1 =>
            if e =? 117 then
              match r1 with
              | h1 :: h2 :: h3 :: h4 :: r2 =>
                  u ← hex4 h1 h2 h3 h4;
                  match r2 with
                  | b :: f :: g1 :: g2 :: g3 :: g4 :: r3 =>
                      if is_high u && (b =? 92) && (f =? 117) then
                        w ← hex4 g1 g2 g3 g4;
                        if is_low w
                        then cons_fst (65536 + (u - 55296) * 1024 + (w - 56320)) (p_str r3)
                        else cons_fst u (p_str r2)
                      else cons_fst u (p_str r2)
                  | _ => cons_fst u (p_str r2)
                  end
              | _ => None
              end
            else u ← unescape e; cons_fst u (p_str r1)
        end
      else if c <? 32 then None
      else cons_fst c (p_str r)
  end.

Fixpoint span (p : N → bool) (s : pystr) : pystr * pystr :=
  match s with
  | c :: r => if p c then let '(a, b) := span p r in (c :: a, b) else ([], s)
  | [] => ([], [])
  end.

(** The integer part of a number: a lone zero, or digits with no leading zero. *)
Definition p_int_part (s : pystr) : option (pystr * pystr) :=
  match s with
  | c :: r =>
      if c =? 48 then Some ([48], r)
      else match span is_digit_ascii s with
           | ([], _) => None
           | (ds, r) => Some (ds, r)
           end
  | [] => None
  end.

Definition p_frac (s : pystr) : pystr * pystr :=
  match s with
  | c :: r =>
      if c =? 46 then
        match span is_digit_ascii r with
        | ([], _) => ([], s)
        | (ds, r') => (46 :: ds, r')
        end
      else ([], s)
  | [] => ([], [])
  end.

Definition p_exp (s : pystr) : pystr * pystr :=
  match s with
  | c :: r =>
      if (c =? 101) || (c =? 69) then
        let '(sign, r1) :=
          match r with
          | d :: r' => if (d =? 43) || (d =? 45) then ([d], r') else ([], r)
          | [] => ([], [])
          end in
        match span is_digit_ascii r1 with
        | ([], _) => ([], s)
        | (ds, r') => (c :: sign ++ ds, r')
        end
      else ([], s)
  | [] => ([], [])
  end.

Definition p_number (s : pystr) : option (json * pystr) :=
  let '(neg, s1) :=
    match s with c :: r => if c =? 45 then ([45], r) else ([], s) | [] => ([], []) end in
  '(ds, s2) ← p_int_part s1;
  let '(fr, s3) := p_frac s2 in
  let '(ex, s4) := p_exp s3 in
  match fr ++ ex with
  | [] => z ← Z_of_str (neg ++ ds); Some (JInt z, s2)
  | fx => Some (JFloat (neg ++ ds ++ fx), s4)
  end.

(** [s] without the prefix [p]. *)
Fixpoint strip_prefix (p s : pystr) : option pystr :=
  match p, s with
  | [], _ => Some s
  | c :: p, d :: s => if c =? d then strip_prefix p s else None
  | _, [] => None
  end.

Definition p_word (w : pystr) (j : json) (s : pystr) : option (json * pystr) :=
  (λ r, (j, r)) <$> strip_prefix w s.

Section Parser.
(** [object_pairs_hook], or the construction of a [dict]. *)
Context (hook : list (pystr * json) → option json).

Fixpoint p_value (fuel : nat) (s : pystr) : option (json * pystr) :=
  match fuel with
  | O => None
  | S fuel =>
      match s with
      | [] => None
      | c :: r =>
          if c =? 34 then (λ '(t, r'), (JStr t, r')) <$> p_str r
          else if c =? 123 then
            match skip_ws r with
            | [] => None
            | d :: r' =>
                if d =? 125 then (λ j, (j, r')) <$> hook []
                else '(kvs, r'') ← p_members fuel (d :: r'); j ← hook kvs; Some (j, r'')
            end
          else if c =? 91 then
            match skip_ws r with
            | [] => None
            | d :: r' =>
                if d =? 93 then Some (JArr [], r')
                else '(l, r'') ← p_elems fuel (d :: r'); Some (JArr l, r'')
            end
          else if c =? 110 then p_word (lit "null") JNull s
          else if c =? 116 then p_word (lit "true") (JBool true) s
          else if c =? 102 then p_word (lit "false") (JBool false) s
          else if c =? 78 then p_word (lit "NaN") (JFloat (lit "NaN")) s
          else if c =? 73 then p_word (lit "Infinity") (JFloat (lit "Infinity")) s
          else
            match strip_prefix (lit "-Infinity") s with
            | Some r' => Some (JFloat (lit "-Infinity"), r')
            | None => p_number s
            end
      end
  end
with p_elems (fuel : nat) (s : pystr) : option (list json * pystr) :=
  match fuel with
  | O => None
  | S fuel =>
      '(v, r) ← p_value fuel s;
      match skip_ws r with
      | [] => None
      | c :: r' =>
          if c =? 93 then Some ([v], r')
          else if c =? 44 then '(l, r'') ← p_elems fuel (skip_ws r'); Some (v :: l, r'')
          else None
      end
  end
with p_members (fuel : nat) (s : pystr) : option (list (pystr * json) * pystr) :=
  match fuel with
  | O => None
  | S fuel =>
      match s with
      | [] => None
      | q :: r0 =>
          if q =? 34 then
            '(k, r1) ← p_str r0;
            match skip_ws r1 with
            | [] => None
            | c :: r2 =>
                if c =? 58 then
                  '(v, r3) ← p_value fuel (skip_ws r2);
                  match skip_ws r3 with
                  | [] => None
                  | d :: r4 =>
                      if d =? 125 then Some ([(k, v)], r4)
                      else if d =? 44 then
                        '(l, r5) ← p_members fuel (skip_ws r4); Some ((k, v) :: l, r5)
                      else None
                  end
                else None
            end
          else None
      end
  end.

(** [json.loads]: one value between optional white space, nothing more. *)
Definition loads_with (s : pystr) : option json :=
  '(j, r) ← p_value (S (2 * length s)) (skip_ws s);
  match skip_ws r with [] => Some j | _ => None end.
End Parser.

(** A [dict] built from pairs: the last value of a key wins, at the place of
    its first. *)
Fixpoint dict_set {V : Type} (k : pystr) (v : V) (kvs : list (pystr * V)) :=
  match kvs with
  | [] => [(k, v)]
  | (k', v') :: kvs =>
      if decide (k = k') then (k', v) :: kvs else (k', v') :: dict_set k v kvs
  end.

Definition dict_of_pairs {V : Type} (kvs : list (pystr * V)) : list (pystr * V) :=
  foldl (λ d '(k, v), dict_set k v d) [] kvs.

Definition dict_hook (kvs : list (pystr * json)) : option json :=
  Some (JObj (dict_of_pairs kvs)).

Definition loads (s : pystr) : option json := loads_with dict_hook s.

(** ** Round trip

    Parsing what [dumps] wrote gives the value back, for every value without a
    [float] whose objects have distinct keys. *)

Fixpoint json_ok (j : json) : bool :=
  match j with
  | JFloat _ => false
  | JArr l => forallb json_ok l
  | JObj kvs => bool_decide (NoDup kvs.*1) && forallb (λ '(_, v), json_ok v) kvs
  | _ => true
  end.

Lemma hex4_control c :
  c < 32 → hex4 48 48 (hex_digit (c / 16)) (hex_digit (c mod 16)) = Some c.
Proof.
  intros Hc.
  assert (H : Forall (λ c, hex4 48 48 (hex_digit (c / 16)) (hex_digit (c mod 16)) = Some c)
    (map N.of_nat (seq 0 32))) by (repeat constructor).
  rewrite Forall_forall in H. apply H. apply list_elem_of_In, in_map_iff.
  exists (N.to_nat c). split; [lia|]. apply in_seq. lia.
Qed.

Lemma p_str_escape c r : p_str (escape c ++ r) = cons_fst c (p_str r).
Proof.
  unfold escape.
  repeat match goal with
  | |- context [if ?x =? ?y then _ else _] => destruct (N.eqb_spec x y) as [->|?]
  end; try done.
  destruct (N.ltb_spec c 32) as [Hc|Hc].
  - pose proof (hex4_control c Hc) as Hh.
    set (a := hex_digit (c / 16)) in *. set (b := hex_digit (c mod 16)) in *.
    cbn [app p_str N.eqb Pos.eqb]. rewrite Hh. cbn [mbind option_bind].
    assert (Hi : is_high c = false).
    { unfold is_high, between. apply andb_false_iff. left. apply N.leb_gt. lia. }
    rewrite Hi. by destruct r as [|? [|? [|? [|? [|? [|? ?]]]]]].
  - cbn [app p_str]. rewrite !(proj2 (N.eqb_neq _ _)) by done.
    by rewrite (proj2 (N.ltb_ge _ _)).
Qed.

Lemma p_str_dump s r : p_str (flat_map escape s ++ 34 :: r) = Some (s, r).
Proof.
  induction s as [|c s IH]; cbn [flat_map app]; [done|].
  rewrite <- app_assoc, p_str_escape, IH. done.
Qed.

(** What may follow a value inside or after a document. *)
Definition ends (r : pystr) : Prop :=
  match r with [] => True | c :: _ => c = 44 ∨ c = 93 ∨ c = 125 end.

Lemma span_app p ds r :
  forallb p ds = true → match r with c :: _ => p c = false | [] => True end →
  span p (ds ++ r) = (ds, r).
Proof.
  induction ds as [|d ds IH]; cbn.
  - intros _. destruct r as [|c r]; [done|]. cbn. by intros ->.
  - intros [-> H]%andb_true_iff Hr. by rewrite IH.
Qed.

Lemma p_tail_ends r : ends r → p_frac r = ([], r) ∧ p_exp r = ([], r).
Proof. destruct r as [|c r]; cbn; [done|]. by intros [-> | [-> | ->]]. Qed.

Lemma digits_forallb u : forallb is_digit_ascii (digits_of_uint u) = true.
Proof. apply forallb_forall. intros c ?%list_elem_of_In. by eapply digits_digit. Qed.

Lemma p_int_part_digits u r :
  u ≠ Decimal.Nil → Decimal.unorm u = u → ends r →
  p_int_part (digits_of_uint u ++ r) = Some (digits_of_uint u, r).
Proof.
  intros Hnil Hn Hr.
  destruct (digits_of_uint u) as [|c ds] eqn:Hu; [by destruct u|].
  cbn [app p_int_part]. destruct (N.eqb_spec c 48) as [->|Hc].
  - assert (∃ v, u = Decimal.D0 v ∧ ds = digits_of_uint v) as (v & -> & ->)
      by (destruct u; cbn in Hu; simplify_eq; eauto).
    by rewrite (unorm_head _ _ Hn eq_refl).
  - change (c :: ds ++ r) with ((c :: ds) ++ r).
    rewrite span_app; [done|rewrite <- Hu; apply digits_forallb|].
    destruct r as [|d r]; cbn in *; [done|]. by destruct Hr as [-> | [-> | ->]].
Qed.

Lemma p_number_str_of_Z z r :
  ends r → p_number (str_of_Z z ++ r) = Some (JInt z, r).
Proof.
  intros Hr. destruct (p_tail_ends _ Hr) as [Hfr Hex].
  pose proof (to_int_norm z) as Hn. pose proof (Z_of_str_of_Z z) as Hz.
  unfold p_number, str_of_Z in *.
  destruct (Z.to_int z) as [u|u]; destruct Hn as [Hnil Hn].
  - assert (Hd : ∀ c s, digits_of_uint u = c :: s → (c =? 45) = false).
    { intros c s Hs. apply N.eqb_neq. intros ->.
      assert (H : is_digit_ascii 45 = true) by (apply (digits_digit u); rewrite Hs; by left).
      done. }
    pose proof (p_int_part_digits u r Hnil Hn Hr) as Hp.
    destruct (digits_of_uint u) as [|c ds] eqn:Hu; [by destruct u|].
    cbn [app] in *. rewrite (Hd _ _ eq_refl), Hp. cbn [mbind option_bind].
    rewrite Hfr, Hex. cbn [app]. by rewrite Hz.
  - cbn [app N.eqb Pos.eqb]. rewrite p_int_part_digits by done.
    cbn [mbind option_bind]. rewrite Hfr, Hex. cbn [app]. by rewrite Hz.
Qed.

(** The first character of a written value. *)
Lemma dumps_head j :
  json_ok j = true →
  ∃ c r, dumps j = c :: r ∧ is_ws c = false ∧ c ≠ 93 ∧ c ≠ 125.
Proof.
  intros Hj. destruct j as [|[]|z| | | |]; cbn;
    try done; try (by (eexists _, _; split_and!)).
  unfold str_of_Z. destruct (Z.to_int z) as [u|u] eqn:E;
    [|by (eexists _, _; split_and!)].
  pose proof (to_int_norm z) as Hn. rewrite E in Hn. destruct Hn as [Hnil _].
  destruct u; cbn; try done; by (eexists _, _; split_and!).
Qed.

Lemma skip_ws_head c r : is_ws c = false → skip_ws (c :: r) = c :: r.
Proof. cbn. by intros ->. Qed.

Lemma skip_ws_dumps j r : json_ok j = true → skip_ws (dumps j ++ r) = dumps j ++ r.
Proof. intros (c & t & -> & Hc & _)%dumps_head. by apply skip_ws_head. Qed.

Lemma str_of_Z_head z :
  ∃ c r, str_of_Z z = c :: r ∧ (c = 45 ∨ is_digit_ascii c = true) ∧
         (c = 45 → ∀ t, strip_prefix (lit "-Infinity") (str_of_Z z ++ t) = None).
Proof.
  unfold str_of_Z. pose proof (to_int_norm z) as Hn.
  destruct (Z.to_int z) as [u|u]; destruct Hn as [Hnil _].
  - destruct u; cbn; try done; (eexists _, _; split; [done|]; split; [by right|done]).
  - exists 45, (digits_of_uint u). split_and!; [done|by left|]. intros _ t.
    by destruct u; cbn.
Qed.

Lemma p_value_int hook fuel z r :
  ends r → p_value hook (S fuel) (str_of_Z z ++ r) = Some (JInt z, r).
Proof.
  intros Hr. pose proof (p_number_str_of_Z z r Hr) as Hp.
  destruct (str_of_Z_head z) as (c & t & Hs & Hc & Hinf).
  assert (Hx : strip_prefix (lit "-Infinity") (str_of_Z z ++ r) = None).
  { destruct Hc as [Hc|Hc]; [by apply Hinf|]. rewrite Hs.
    change (lit "-Infinity") with (45 :: lit "Infinity"). cbn [app strip_prefix].
    by destruct (N.eqb_spec 45 c) as [<-|?]. }
  rewrite Hs in *. cbn [app] in *. cbn [p_value]. rewrite Hx, Hp.
  unfold is_digit_ascii, between in Hc.
  assert (Hcs : ∀ d, 57 < d → (c =? d) = false).
  { intros d Hd. apply N.eqb_neq. destruct Hc as [->|[??]%andb_true_iff]; [lia|].
    rewrite N.leb_le in *. lia. }
  rewrite (Hcs 123), (Hcs 91), (Hcs 110), (Hcs 116), (Hcs 102), (Hcs 78), (Hcs 73) by done.
  destruct (N.eqb_spec c 34) as [->|?]; [by destruct Hc | done].
Qed.

Section RoundTrip.
Context (hook : list (pystr * json) → option json).
Context (hook_ok : ∀ kvs, NoDup kvs.*1 → hook kvs = Some (JObj kvs)).

Definition parses (j : json) : Prop :=
  json_ok j = true → ∀ fuel r, ends r → (2 * length (dumps j) < fuel)%nat →
  p_value hook fuel (dumps j ++ r) = Some (j, r).

Lemma p_elems_dumps l r fuel :
  l ≠ [] → Forall parses l → forallb json_ok l = true →
  (2 * length (join [44%N] (map dumps l)) + 1 < fuel)%nat →
  p_elems hook fuel (join [44%N] (map dumps l) ++ 93 :: r) = Some (l, r).
Proof.
  revert fuel; induction l as [|j l IH]; intros fuel Hne Hp Hok Hf; [done|].
  apply Forall_cons in Hp as [Hj Hl]. cbn [forallb] in Hok.
  apply andb_true_iff in Hok as [Hjo Hlo].
  destruct fuel as [|fuel]; [lia|].
  destruct l as [|j' l].
  - cbn [map join app] in *. cbn [p_elems].
    rewrite Hj; [by cbn|done|by cbn; auto|lia].
  - set (tl := j' :: l) in *.
    change (join [44%N] (map dumps (j :: tl)))
      with (dumps j ++ [44%N] ++ join [44%N] (map dumps tl)) in *.
    rewrite !length_app in Hf. cbn [length] in Hf.
    rewrite <- !app_assoc. cbn [p_elems].
    rewrite Hj; [|done|by cbn; auto|lia]. cbn [mbind option_bind app skip_ws is_ws N.eqb Pos.eqb orb].
    assert (Hsk : skip_ws (join [44%N] (map dumps tl) ++ 93 :: r) =
      join [44%N] (map dumps tl) ++ 93 :: r).
    { assert (Hj' : json_ok j' = true)
        by (subst tl; cbn [forallb] in Hlo; by apply andb_true_iff in Hlo as [? _]).
      subst tl. destruct l; cbn [map join]; [|rewrite <- app_assoc]; by apply skip_ws_dumps. }
    rewrite Hsk, IH; [done|done|done|done|lia].
Qed.

Lemma p_members_dumps (kvs : list (pystr * json)) r fuel :
  kvs ≠ [] → Forall (λ kv, parses kv.2) kvs →
  forallb (λ '(_, v), json_ok v) kvs = true →
  let parts := map (λ '(k, v), dump_str k ++ 58 :: dumps v) kvs in
  (2 * length (join [44%N] parts) + 1 < fuel)%nat →
  p_members hook fuel (join [44%N] parts ++ 125 :: r) = Some (kvs, r).
Proof.
  cbn zeta. revert fuel; induction kvs as [|[k j] kvs IH]; intros fuel Hne Hp Hok Hf; [done|].
  apply Forall_cons in Hp as [Hj Hl]. cbn [forallb] in Hok.
  apply andb_true_iff in Hok as [Hjo Hlo].
  destruct fuel as [|fuel]; [lia|].
  destruct kvs as [|kv' kvs].
  - cbn [map join] in *. unfold dump_str in *. cbn [app] in *.
    rewrite <- !app_assoc in *. cbn [app length] in *. rewrite length_app in Hf.
    cbn [p_members N.eqb Pos.eqb length] in *. rewrite <- ?app_assoc. cbn [app]. rewrite p_str_dump.
    cbn [mbind option_bind skip_ws is_ws N.eqb Pos.eqb orb app].
    rewrite skip_ws_dumps by done. cbn [snd] in Hj.
    rewrite Hj; [by cbn|done|by cbn; auto|cbn in Hf; lia].
  - set (tl := kv' :: kvs) in *.
    cbn [map].
    change (join [44%N] (?p :: map ?f tl)) with (p ++ [44%N] ++ join [44%N] (map f tl)) in *.
    change (map ?f ((k, j) :: tl)) with (f (k, j) :: map f tl) in Hf.
    set (f := λ '(k, v), dump_str k ++ 58 :: dumps v) in *.
    change (join [44%N] (f (k, j) :: map f tl)) with (f (k, j) ++ [44%N] ++ join [44%N] (map f tl)) in Hf.
    change (f (k, j)) with (dump_str k ++ 58 :: dumps j) in Hf.
    rewrite !length_app in Hf. unfold dump_str in *. cbn [length] in Hf.
    rewrite !length_app in Hf. cbn [length] in Hf.
    cbn [app]. rewrite <- !app_assoc. cbn [p_members N.eqb Pos.eqb app].
    rewrite p_str_dump.
    cbn [mbind option_bind skip_ws is_ws N.eqb Pos.eqb orb app].
    rewrite skip_ws_dumps by done. cbn [snd] in Hj.
    rewrite Hj; [|done|by cbn; auto|lia]. cbn [mbind option_bind app skip_ws is_ws N.eqb Pos.eqb orb].
    assert (Hsk : skip_ws (join [44%N] (map f tl) ++ 125 :: r) = join [44%N] (map f tl) ++ 125 :: r).
    { subst tl. destruct kv' as [k' v']. by destruct kvs. }
    rewrite Hsk, IH; [done|done|done|done|lia].
Qed.

Theorem p_value_dumps j : parses j.
Proof.
  induction j as [|b|z|t|s|l IH|kvs IH] using json_nested_ind; intros Hok fuel r Hr Hf;
    (destruct fuel as [|fuel]; [lia|]).
  - by cbn.
  - by destruct b; cbn.
  - by apply p_value_int.
  - done.
  - cbn [dumps]. unfold dump_str. cbn [app]. rewrite <- app_assoc.
    cbn [p_value N.eqb Pos.eqb app]. by rewrite p_str_dump.
  - cbn [dumps app]. rewrite <- app_assoc. cbn [p_value N.eqb Pos.eqb app].
    destruct l as [|j l]; [by cbn|].
    assert (Hsk : skip_ws (join [44%N] (map dumps (j :: l)) ++ 93 :: r) =
      join [44%N] (map dumps (j :: l)) ++ 93 :: r ∧
      ∃ c t, join [44%N] (map dumps (j :: l)) ++ 93 :: r = c :: t ∧ (c =? 93) = false).
    { cbn [json_ok forallb] in Hok. apply andb_true_iff in Hok as [Hj _].
      destruct (dumps_head j Hj) as (c & t & Hc & _ & Hn & _).
      destruct l; cbn [map join]; rewrite <- ?app_assoc; (split; [by apply skip_ws_dumps|]);
        rewrite Hc; eexists _, _; split; try done; by apply N.eqb_neq. }
    destruct Hsk as [-> (c & t & Hct & Hc)].
    cbn [json_ok] in Hok. cbn [dumps length] in Hf. rewrite length_app in Hf. cbn [length] in Hf.
    rewrite Hct. cbn. rewrite Hc, <- Hct, p_elems_dumps by (done || lia). done.
  - cbn [dumps app]. rewrite <- app_assoc. cbn [p_value N.eqb Pos.eqb app].
    cbn [json_ok] in Hok. apply andb_true_iff in Hok as [Hnd%bool_decide_eq_true Hok].
    destruct kvs as [|[k j] kvs].
    { cbn. by rewrite hook_ok. }
    set (parts := map (λ '(k, v), dump_str k ++ 58 :: dumps v) ((k, j) :: kvs)).
    assert (Hh : ∃ t, join [44%N] parts ++ 125 :: r = 34 :: t).
    { subst parts. cbn [map]. destruct kvs; unfold dump_str; cbn; eauto. }
    cbn [dumps length] in Hf. fold parts in Hf.
    rewrite length_app in Hf. cbn [length] in Hf.
    assert (Hm : p_members hook fuel (join [44%N] parts ++ 125 :: r) = Some ((k, j) :: kvs, r)).
    { apply p_members_dumps; [done|done|done|]. fold parts. lia. }
    destruct Hh as [t Ht]. rewrite Ht in *.
    cbn [skip_ws is_ws N.eqb Pos.eqb orb]. rewrite Hm. cbn [mbind option_bind].
    by rewrite hook_ok.
Qed.

(** [loads] after [dumps]. *)
Lemma loads_with_dumps j : json_ok j = true → loads_with hook (dumps j) = Some j.
Proof.
  intros Hj. unfold loads_with.
  pose proof (skip_ws_dumps j [] Hj) as Hs. rewrite app_nil_r in Hs. rewrite Hs.
  pose proof (p_value_dumps j Hj (S (2 * length (dumps j))) [] I ltac:(lia)) as Hp.
  rewrite app_nil_r in Hp. rewrite Hp. done.
Qed.
End RoundTrip.

Lemma dict_set_fresh {V} k (v : V) kvs :
  k ∉ kvs.*1 → dict_set k v kvs = kvs ++ [(k, v)].
Proof.
  induction kvs as [|[k' v'] kvs IH]; cbn; [done|]. intros Hk.
  rewrite decide_False by set_solver. rewrite IH by set_solver. done.
Qed.

Lemma dict_of_pairs_nodup {V} (kvs : list (pystr * V)) :
  NoDup kvs.*1 → dict_of_pairs kvs = kvs.
Proof.
  unfold dict_of_pairs.
  cut (∀ acc, NoDup (acc ++ kvs).*1 →
    foldl (λ d '(k, v), dict_set k v d) acc kvs = acc ++ kvs); [intros H ?; by apply (H [])|].
  induction kvs as [|[k v] kvs IH]; intros acc Hnd; cbn; [by rewrite app_nil_r|].
  rewrite fmap_app in Hnd. cbn in Hnd.
  rewrite dict_set_fresh.
  - rewrite IH by by rewrite <- app_assoc, fmap_app. by rewrite <- app_assoc.
  - apply NoDup_app in Hnd as (_ & Hd & _). intros Hk. apply (Hd _ Hk). by left.
Qed.

Lemma loads_dumps j : json_ok j = true → loads (dumps j) = Some j.
Proof.
  apply loads_with_dumps. intros kvs Hnd. unfold dict_hook.
  by rewrite dict_of_pairs_nodup.
Qed.

(** The text determines the value. *)
Lemma dumps_inj j1 j2 :
  json_ok j1 = true → json_ok j2 = true → dumps j1 = dumps j2 → j1 = j2.
Proof.
  intros H1%loads_dumps H2%loads_dumps He. congruence.
Qed.

(** ** Sorting keys permutes them *)

Lemma insert_key_perm {V} (kv : pystr * V) kvs : insert_key kv kvs ≡ₚ kv :: kvs.
Proof.
  induction kvs as [|kv' kvs IH]; cbn; [done|].
  case_match; [done|]. rewrite IH. apply Permutation_swap.
Qed.

Lemma sort_items_perm {V} (kvs : list (pystr * V)) : sort_items kvs ≡ₚ kvs.
Proof.
  induction kvs as [|kv kvs IH]; [done|].
  change (sort_items (kv :: kvs)) with (insert_key kv (sort_items kvs)).
  by rewrite insert_key_perm, IH.
Qed.

Definition key_lt {V : Type} (a b : pystr * V) : Prop := str_ltb a.1 b.1 = true.

Lemma insert_key_sorted {V} (kv : pystr * V) kvs :
  kv.1 ∉ kvs.*1 → StronglySorted key_lt kvs → StronglySorted key_lt (insert_key kv kvs).
Proof.
  induction kvs as [|kv' kvs IH]; cbn; intros Hn Hs; [repeat constructor|].
  pose proof Hs as [Hs' Hf]%StronglySorted_inv.
  destruct (str_ltb kv.1 kv'.1) eqn:E.
  - constructor; [done|]. constructor; [done|]. eapply Forall_impl; [exact Hf|].
    intros x. by apply str_ltb_trans.
  - constructor; [apply IH; [set_solver|done]|].
    apply Forall_forall. intros x Hx. rewrite insert_key_perm in Hx.
    apply elem_of_cons in Hx as [->|Hx]; [|by rewrite Forall_forall in Hf; apply Hf].
    unfold key_lt. destruct (str_ltb kv'.1 kv.1) eqn:E'; [done|].
    exfalso. apply Hn. rewrite (str_ltb_total _ _ E E'). by left.
Qed.

Lemma sort_items_sorted {V} (kvs : list (pystr * V)) :
  NoDup kvs.*1 → StronglySorted key_lt (sort_items kvs).
Proof.
  induction kvs as [|kv kvs IH]; intros Hnd; [constructor|].
  cbn in Hnd. apply NoDup_cons in Hnd as [Hn Hnd].
  change (sort_items (kv :: kvs)) with (insert_key kv (sort_items kvs)).
  apply insert_key_sorted; [|auto]. by rewrite sort_items_perm.
Qed.

(** A table sorted by its keys is determined by its contents. *)
Lemma key_sorted_unique {V} (l1 l2 : list (pystr * V)) :
  StronglySorted key_lt l1 → StronglySorted key_lt l2 → l1 ≡ₚ l2 → l1 = l2.
Proof.
  apply StronglySorted_unique_strong. intros x y _ _ H1 H2. exfalso. unfold key_lt in *.
  rewrite str_ltb_asym in H2; done.
Qed.

Lemma sort_items_unique {V} (l1 l2 : list (pystr * V)) :
  NoDup l1.*1 → l1 ≡ₚ l2 → sort_items l1 = sort_items l2.
Proof.
  intros Hnd Hp. apply key_sorted_unique; [by apply sort_items_sorted|..].
  - apply sort_items_sorted. by rewrite <- Hp.
  - by rewrite !sort_items_perm.
Qed.

Lemma assoc_elem {V} k (v : V) kvs : assoc k kvs = Some v → (k, v) ∈ kvs.
Proof.
  induction kvs as [|[k' v'] kvs IH]; cbn; [done|]. case_decide as E.
  - intros [= ->]. subst. by left.
  - intros H. right. auto.
Qed.

Lemma sort_items_idem {V} (kvs : list (pystr * V)) :
  NoDup kvs.*1 → sort_items (sort_items kvs) = sort_items kvs.
Proof.
  intros Hnd. apply sort_items_unique; [by rewrite sort_items_perm|apply sort_items_perm].
Qed.

Lemma json_sort_ok j : json_ok j = true → json_ok (json_sort j) = true.
Proof.
  induction j as [| | | | |l IH|kvs IH] using json_nested_ind; try done; cbn.
  - intros Hok. rewrite forallb_forall in *. intros x (y & <- & Hy)%in_map_iff.
    rewrite Forall_forall in IH. apply IH; [by apply list_elem_of_In|auto].
  - intros [Hnd%bool_decide_eq_true Hok]%andb_true_iff.
    set (kvs' := map _ kvs).
    assert (Hk : kvs'.*1 = kvs.*1).
    { subst kvs'. clear. induction kvs as [|[k v] kvs IH]; cbn; [done|by f_equal]. }
    apply andb_true_iff; split.
    + apply bool_decide_eq_true. by rewrite sort_items_perm, Hk.
    + rewrite forallb_forall in *. intros [k v] Hin.
      apply list_elem_of_In in Hin. rewrite sort_items_perm in Hin.
      subst kvs'. apply list_elem_of_In, in_map_iff in Hin as ([k' v'] & [= <- <-] & Hin).
      rewrite Forall_forall in IH. apply (IH (k', v')); [by apply list_elem_of_In|].
      apply (Hok (k', v') Hin).
Qed.

Lemma loads_dumps_sorted j :
  json_ok j = true → loads (dumps_sorted j) = Some (json_sort j).
Proof. intros Hj. by apply loads_dumps, json_sort_ok. Qed.

#[export] Hint Resolve loads_dumps json_sort_ok : cyrene.

(** Sorting twice is sorting once. *)
Lemma json_sort_idem v : json_ok v = true → json_sort (json_sort v) = json_sort v.
Proof.
  induction v as [| | | | |l IH|kvs IH] using json_nested_ind; try done; cbn.
  - intros Hok. f_equal. rewrite map_map. apply map_ext_in. intros x Hx. rewrite Forall_forall in IH.
    rewrite forallb_forall in Hok. apply IH; [by apply list_elem_of_In|auto].
  - intros [Hnd%bool_decide_eq_true Hok]%andb_true_iff. f_equal. set (f := λ '(k, v), (k, json_sort v)).
    assert (Hm : map f (map f kvs) = map f kvs).
    { rewrite map_map. apply map_ext_in. intros [k x] Hx. cbn. f_equal. rewrite Forall_forall in IH.
      rewrite forallb_forall in Hok. apply (IH (k, x)); [by apply list_elem_of_In|]. by apply (Hok (k, x)). }
    assert (Hk : ∀ l, (map f l).*1 = l.*1).
    { intros l. induction l as [|[k v] l IHl]; cbn; [done|by rewrite IHl]. }
    rewrite <- Hm at 2. apply sort_items_unique.
    + by rewrite Hk, sort_items_perm, Hk.
    + by rewrite sort_items_perm.
Qed.

(** A list of strings, written as a JSON array. *)
Definition JStrs (l : list pystr) : json := JArr (map JStr l).

Lemma JStrs_ok l : json_ok (JStrs l) = true.
Proof. cbn. apply forallb_forall. by intros ? (? & <- & _)%in_map_iff. Qed.

Lemma dumps_strs_inj l1 l2 : dumps (JStrs l1) = dumps (JStrs l2) → l1 = l2.
Proof.
  intros H%dumps_inj; [|apply JStrs_ok..]. injection H as H.
  revert l2 H; induction l1 as [|a l1 IH]; intros [|b l2]; cbn; try done.
  intros [= -> H]. f_equal. auto.
Qed.

(** Updating a dict. *)
Lemma assoc_dict_set_eq {V} k (v : V) kvs : assoc k (dict_set k v kvs) = Some v.
Proof.
  induction kvs as [|[k' v'] kvs IH]; cbn; [by rewrite decide_True|].
  case_decide as E; cbn; [by rewrite decide_True|]. by rewrite decide_False.
Qed.

Lemma assoc_dict_set_ne {V} k k' (v : V) kvs : k' ≠ k → assoc k' (dict_set k v kvs) = assoc k' kvs.
Proof.
  intros Hn. induction kvs as [|[k1 v1] kvs IH]; cbn; [by rewrite decide_False|].
  case_decide as E; cbn; case_decide; congruence.
Qed.

Lemma dict_set_keys {V} k (v : V) kvs k' : k' ∈ (dict_set k v kvs).*1 ↔ k' = k ∨ k' ∈ kvs.*1.
Proof.
  induction kvs as [|[k1 v1] kvs IH]; cbn; [by rewrite elem_of_cons|].
  case_decide as E; cbn; rewrite !elem_of_cons; [subst; tauto|]. rewrite IH. tauto.
Qed.

Lemma dict_set_nodup {V} k (v : V) kvs : NoDup kvs.*1 → NoDup (dict_set k v kvs).*1.
Proof.
  induction kvs as [|[k1 v1] kvs IH]; cbn; [intros; apply NoDup_singleton|].
  intros [Hn Hnd]%NoDup_cons. case_decide as E; cbn; apply NoDup_cons; [by subst|].
  split; [|auto]. rewrite dict_set_keys. intros [->|?]; done.
Qed.

Lemma assoc_nodup {V} k (v : V) kvs : NoDup kvs.*1 → (k, v) ∈ kvs → assoc k kvs = Some v.
Proof.
  induction kvs as [|[k1 v1] kvs IH]; cbn; intros Hnd Hin; [by apply elem_of_nil in Hin|].
  apply NoDup_cons in Hnd as [Hn Hnd]. apply elem_of_cons in Hin as [[= -> ->]|Hin];
    [by rewrite decide_True|].
  rewrite decide_False; [auto|]. intros ->. apply Hn. apply list_elem_of_fmap. by exists (k1, v).
Qed.

(** Looking up a key does not depend on the order of the entries. *)
Lemma assoc_perm {V} k (l1 l2 : list (pystr * V)) :
  NoDup l1.*1 → l1 ≡ₚ l2 → assoc k l1 = assoc k l2.
Proof.
  intros Hnd Hp. assert (Hnd2 : NoDup l2.*1) by by rewrite <- Hp.
  destruct (assoc k l1) as [v|] eqn:E.
  - symmetry. apply assoc_nodup; [done|]. rewrite <- Hp. by apply assoc_elem.
  - destruct (assoc k l2) as [v|] eqn:E2; [|done]. apply assoc_elem in E2. rewrite <- Hp in E2.
    apply assoc_nodup in E2; [congruence|done].
Qed.

(** Sorting looks at the keys only. *)
Lemma insert_key_map {V W} (f : V → W) k v kvs :
  insert_key (k, f v) (map (λ '(k, v), (k, f v)) kvs)
  = map (λ '(k, v), (k, f v)) (insert_key (k, v) kvs).
Proof.
  induction kvs as [|[k' v'] kvs IH]; cbn; [done|]. destruct (str_ltb k k'); [done|].
  cbn. by f_equal.
Qed.

Lemma sort_items_map {V W} (f : V → W) kvs :
  sort_items (map (λ '(k, v), (k, f v)) kvs) = map (λ '(k, v), (k, f v)) (sort_items kvs).
Proof.
  induction kvs as [|[k v] kvs IH]; [done|].
  change (sort_items (map (λ '(k, v), (k, f v)) ((k, v) :: kvs)))
    with (insert_key (k, f v) (sort_items (map (λ '(k, v), (k, f v)) kvs))).
  by rewrite IH, insert_key_map.
Qed.

(** A [dict] of strings. *)
Definition JMap (md : list (pystr * pystr)) : json := JObj (map (λ '(k, v), (k, JStr v)) md).

Lemma JMap_ok md : NoDup md.*1 → json_ok (JMap md) = true.
Proof.
  intros Hnd. cbn. assert (Hk : (map (λ '(k, v), (k, JStr v)) md).*1 = md.*1).
  { clear. induction md as [|[k v] md IH]; cbn; [done|by f_equal]. }
  rewrite Hk, bool_decide_true by done. apply forallb_forall.
  by intros [k v] ([k' v'] & [= <- <-] & _)%in_map_iff.
Qed.

Lemma json_sort_JMap md : json_sort (JMap md) = JMap (sort_items md).
Proof.
  unfold JMap. cbn [json_sort]. rewrite map_map, <- (sort_items_map JStr). do 2 f_equal.
  apply map_ext. by intros [].
Qed.

(** ** Round trip of [ensure_ascii=True] on strings *)

(** A character of a string that UTF-8 can encode. *)
Definition scalar (c : N) : bool := (c <? 55296) || between 57344 1114111 c.

Lemma hex_value_digit n : n < 16 → hex_value (hex_digit n) = Some n.
Proof.
  intros Hn. unfold hex_digit, hex_value, between.
  destruct (N.ltb_spec n 10).
  - rewrite !(proj2 (N.leb_le _ _)) by lia. cbn. f_equal. lia.
  - rewrite (proj2 (N.leb_gt (87 + n) 57)) by lia. rewrite andb_false_r.
    rewrite !(proj2 (N.leb_le _ _)) by lia. cbn. f_equal. lia.
Qed.

Lemma hex4_u_escape c :
  c < 65536 →
  hex4 (hex_digit (c / 4096)) (hex_digit (c / 256 mod 16)) (hex_digit (c / 16 mod 16))
    (hex_digit (c mod 16)) = Some c.
Proof.
  intros Hc. unfold hex4.
  rewrite !hex_value_digit; cbn [mbind option_bind]; [|try (apply N.mod_lt; lia)..].
  - f_equal. zify. Z.to_euclidean_division_equations. lia.
  - apply N.Div0.div_lt_upper_bound. lia.
Qed.

Lemma p_str_u_escape c r :
  c < 65536 → is_high c = false → p_str (u_escape c ++ r) = cons_fst c (p_str r).
Proof.
  intros Hc Hh. unfold u_escape. cbn [app p_str N.eqb Pos.eqb].
  rewrite hex4_u_escape by done. cbn [mbind option_bind]. rewrite Hh.
  by destruct r as [|? [|? [|? [|? [|? [|? ?]]]]]].
Qed.

Lemma scalar_spec c :
  scalar c = true ↔ c < 55296 ∨ 57344 <= c <= 1114111.
Proof.
  unfold scalar, between.
  rewrite orb_true_iff, andb_true_iff, N.ltb_lt, !N.leb_le. tauto.
Qed.

Lemma between_spec lo hi c : between lo hi c = true ↔ lo <= c <= hi.
Proof. unfold between. by rewrite andb_true_iff, !N.leb_le. Qed.

Lemma p_str_escape_ascii c r :
  scalar c = true → p_str (escape_ascii c ++ r) = cons_fst c (p_str r).
Proof.
  intros Hs. unfold escape_ascii. destruct (N.ltb_spec c 127); [apply p_str_escape|].
  apply scalar_spec in Hs.
  destruct (N.ltb_spec c 65536).
  - apply p_str_u_escape; [done|].
    apply not_true_is_false. intros ?%between_spec. lia.
  - cbn zeta. assert (Hv : c - 65536 < 1048576) by lia.
    assert (Hc : c = c - 65536 + 65536) by lia. revert Hv Hc.
    generalize (c - 65536). intros v Hv Hc.
    rewrite <- app_assoc. unfold u_escape at 1. cbn [app p_str N.eqb Pos.eqb].
    assert (Hq : v / 1024 < 1024) by (apply N.Div0.div_lt_upper_bound; lia).
    assert (Hm : v mod 1024 < 1024) by (apply N.mod_lt; lia).
    assert (Hd := N.div_mod v 1024 ltac:(done)).
    revert Hq Hm Hd. generalize (v / 1024) (v mod 1024). intros q m Hq Hm Hd.
    rewrite hex4_u_escape by lia. cbn [mbind option_bind].
    assert (Hh : is_high (55296 + q) = true) by (apply between_spec; lia). rewrite Hh.
    cbn [u_escape app N.eqb Pos.eqb andb]. rewrite hex4_u_escape by lia. cbn [mbind option_bind].
    assert (Hl : is_low (56320 + m) = true) by (apply between_spec; lia). rewrite Hl.
    f_equal. lia.
Qed.

Lemma p_str_dump_ascii s r :
  forallb scalar s = true → p_str (flat_map escape_ascii s ++ 34 :: r) = Some (s, r).
Proof.
  induction s as [|c s IH]; cbn [flat_map app forallb]; [done|].
  intros [Hc Hs]%andb_true_iff. rewrite <- app_assoc, p_str_escape_ascii, IH by done. done.
Qed.

(** A string or a [null], the values of the tokens. *)
Definition plain (v : json) : bool :=
  match v with JStr s => forallb scalar s | JNull => true | _ => false end.

Lemma p_value_plain hook fuel v r :
  (0 < fuel)%nat → plain v = true → p_value hook fuel (dumps_ascii v ++ r) = Some (v, r).
Proof.
  destruct fuel as [|fuel]; [lia|]. intros _. destruct v; try done; cbn [plain dumps_ascii]; intros H; try by cbn.
  unfold dump_str_ascii. cbn [app]. rewrite <- app_assoc.
  cbn [p_value N.eqb Pos.eqb app]. by rewrite p_str_dump_ascii.
Qed.

Lemma skip_ws_plain v r : plain v = true → skip_ws (dumps_ascii v ++ r) = dumps_ascii v ++ r.
Proof. by destruct v. Qed.

Lemma p_members_ascii hook (kvs : list (pystr * json)) r fuel :
  kvs ≠ [] → Forall (λ kv, forallb scalar kv.1 = true ∧ plain kv.2 = true) kvs →
  (length kvs < fuel)%nat →
  p_members hook fuel
    (join [44%N] (map (λ '(k, v), dump_str_ascii k ++ 58 :: dumps_ascii v) kvs) ++ 125 :: r)
  = Some (kvs, r).
Proof.
  revert fuel; induction kvs as [|[k v] kvs IH]; intros fuel Hne Hs Hf; [done|].
  apply Forall_cons in Hs as [[Hk Hv] Hs]. cbn [fst snd] in Hk, Hv.
  destruct fuel as [|fuel]; [lia|]. assert (Hp : (0 < fuel)%nat) by (cbn in Hf; lia).
  destruct kvs as [|kv' kvs].
  - cbn [map join]. unfold dump_str_ascii at 1. cbn [app]. rewrite <- !app_assoc. cbn [app].
    cbn [p_members N.eqb Pos.eqb]. rewrite p_str_dump_ascii by done.
    cbn [mbind option_bind skip_ws is_ws N.eqb Pos.eqb orb].
    by rewrite skip_ws_plain, p_value_plain.
  - set (tl := kv' :: kvs) in *.
    set (f := λ '(k, v), dump_str_ascii k ++ 58 :: dumps_ascii v) in *.
    change (join [44%N] (map f ((k, v) :: tl)))
      with ((dump_str_ascii k ++ 58 :: dumps_ascii v) ++ [44%N] ++ join [44%N] (map f tl)).
    unfold dump_str_ascii at 1. cbn [app]. rewrite <- !app_assoc. cbn [app].
    cbn [p_members N.eqb Pos.eqb]. rewrite p_str_dump_ascii by done.
    cbn [mbind option_bind skip_ws is_ws N.eqb Pos.eqb orb].
    rewrite skip_ws_plain, p_value_plain by done.
    cbn [mbind option_bind skip_ws is_ws N.eqb Pos.eqb orb].
    assert (Hsk : skip_ws (join [44%N] (map f tl) ++ 125 :: r)
                  = join [44%N] (map f tl) ++ 125 :: r).
    { subst tl. destruct kv' as [k' v']. by destruct kvs. }
    rewrite Hsk, IH; [done|done|done|cbn in *; lia].
Qed.

(** [loads] after [dumps] with [ensure_ascii=True], on an object of plain values. *)
Lemma loads_dumps_ascii_plain (kvs : list (pystr * json)) :
  kvs ≠ [] → NoDup kvs.*1 →
  Forall (λ kv, forallb scalar kv.1 = true ∧ plain kv.2 = true) kvs →
  loads (dumps_ascii (JObj kvs)) = Some (JObj kvs).
Proof.
  intros Hne Hnd Hs. unfold loads, loads_with.
  set (f := λ '(k, v), dump_str_ascii k ++ 58 :: dumps_ascii v).
  assert (Hd : dumps_ascii (JObj kvs) = 123 :: join [44%N] (map f kvs) ++ [125]) by done.
  rewrite Hd. cbn [skip_ws is_ws N.eqb Pos.eqb orb].
  assert (Hh : ∃ t, join [44%N] (map f kvs) ++ [125] = 34 :: t).
  { destruct kvs as [|[k v] kvs]; [done|]. destruct kvs; unfold f, dump_str_ascii; cbn; eauto. }
  assert (Hl : (length kvs < 2 * length (123%N :: join [44%N] (map f kvs) ++ [125%N]))%nat).
  { cbn [length]. rewrite length_app. clear -kvs. cbn [length].
    assert (length kvs <= length (join [44%N] (map f kvs)))%nat; [|lia].
    induction kvs as [|[k v] kvs IH]; [done|]. destruct kvs; cbn [map join];
      rewrite ?length_app; cbn in *; lia. }
  assert (Hm := p_members_ascii dict_hook kvs [] _ Hne Hs Hl). fold f in Hm.
  destruct Hh as [t Ht]. rewrite Ht in *.
  cbn [p_value N.eqb Pos.eqb skip_ws is_ws orb]. rewrite Hm. cbn [mbind option_bind].
  unfold dict_hook. by rewrite dict_of_pairs_nodup.
Qed.
