(* ===== verification/Base64.v ===== *)
(** * URL-safe base64 without padding

    [b64url_encode bs] is
    [base64.urlsafe_b64encode(bs).decode("ascii").rstrip("=")], and
    [b64url_decode t] is
    [base64.b64decode(t + "=" * (-len(t) % 4), altchars=b"-_", validate=True)]
    on a text of the URL-safe alphabet: four characters give three bytes, a
    final group of three gives two, of two gives one, and a single left-over
    character is [binascii.Error]. The unused low bits of a final group are
    dropped, as [binascii] does. *)

From Stdlib Require Import NArith ZArith.
From S2P Require Import Prelude PyText.

#[local] Open Scope N_scope.

Definition b64_char (n : N) : N :=
  if n <? 26 then 65 + n
  else if n <? 52 then 71 + n
  else if n <? 62 then n - 4
  else if n =? 62 then 45 else 95.

Definition b64_val (c : N) : option N :=
  if is_upper_ascii c then Some (c - 65)
  else if is_lower_ascii c then Some (c - 71)
  else if is_digit_ascii c then Some (c + 4)
  else if c =? 45 then Some 62
  else if c =? 95 then Some 63
  else None.

(** [re.fullmatch(r"[A-Za-z0-9_-]+", c)] for one character. *)
Definition is_b64url (c : N) : bool :=
  is_upper_ascii c || is_lower_ascii c || is_digit_ascii c || (c =? 95) || (c =? 45).

Fixpoint b64url_encode (bs : pybytes) : pystr :=
  match bs with
  | a :: b :: c :: r =>
      b64_char (a / 4) :: b64_char (a mod 4 * 16 + b / 16)
      :: b64_char (b mod 16 * 4 + c / 64) :: b64_char (c mod 64) :: b64url_encode r
  | [a; b] =>
      [b64_char (a / 4); b64_char (a mod 4 * 16 + b / 16); b64_char (b mod 16 * 4)]
  | [a] => [b64_char (a / 4); b64_char (a mod 4 * 16)]
  | [] => []
  end.

Fixpoint b64url_decode (t : pystr) : option pybytes :=
  match t with
  | [] => Some []
  | [_] => None
  | [w; x] => w ← b64_val w; x ← b64_val x; Some [w * 4 + x / 16]
  | [w; x; y] =>
      w ← b64_val w; x ← b64_val x; y ← b64_val y;
      Some [w * 4 + x / 16; x mod 16 * 16 + y / 4]
  | w :: x :: y :: z :: r =>
      w ← b64_val w; x ← b64_val x; y ← b64_val y; z ← b64_val z;
      bs ← b64url_decode r;
      Some (w * 4 + x / 16 :: x mod 16 * 16 + y / 4 :: y mod 4 * 64 + z :: bs)
  end.

Definition byte_ok (b : N) : Prop := b < 256.

Lemma b64_val_char n : n < 64 → b64_val (b64_char n) = Some n.
Proof.
  intros Hn.
  assert (H : Forall (λ n, b64_val (b64_char n) = Some n) (map N.of_nat (seq 0 64)))
    by (repeat constructor).
  rewrite Forall_forall in H. apply H. apply list_elem_of_In, in_map_iff.
  exists (N.to_nat n). split; [lia|]. apply in_seq. lia.
Qed.

Lemma b64_char_ok n : is_b64url (b64_char n) = true.
Proof.
  destruct (N.lt_ge_cases n 64) as [Hn|Hn].
  - assert (H : Forall (λ n, is_b64url (b64_char n) = true) (map N.of_nat (seq 0 64)))
      by (repeat constructor).
    rewrite Forall_forall in H. apply H. apply list_elem_of_In, in_map_iff.
    exists (N.to_nat n). split; [lia|]. apply in_seq. lia.
  - unfold b64_char.
    by rewrite (proj2 (N.ltb_ge n 26)), (proj2 (N.ltb_ge n 52)), (proj2 (N.ltb_ge n 62)),
      (proj2 (N.eqb_neq n 62)) by lia.
Qed.

(** Lists in groups of three, as the encoder reads them. *)
Lemma list_ind3 {A} (P : list A → Prop) :
  P [] → (∀ a, P [a]) → (∀ a b, P [a; b]) →
  (∀ a b c l, P l → P (a :: b :: c :: l)) → ∀ l, P l.
Proof.
  intros H0 H1 H2 H3. fix IH 1.
  intros [|a [|b [|c l]]]; [apply H0 | apply H1 | apply H2 | apply H3, IH].
Qed.

Lemma b64url_decode_encode bs :
  Forall byte_ok bs → b64url_decode (b64url_encode bs) = Some bs.
Proof.
  unfold byte_ok. induction bs as [|a|a b|a b c l IH] using list_ind3; intros H;
    repeat match goal with H : Forall _ (_ :: _) |- _ => apply Forall_cons in H as [? H] end;
    cbn [b64url_encode b64url_decode]; [done|..];
    rewrite !b64_val_char by euclid; cbn [mbind option_bind].
  - do 2 f_equal. euclid.
  - do 2 f_equal. { euclid. } f_equal. euclid.
  - rewrite IH by done. cbn [mbind option_bind]. f_equal. f_equal; [euclid|].
    f_equal; [euclid|]. f_equal. euclid.
Qed.

Lemma b64url_encode_alphabet bs : forallb is_b64url (b64url_encode bs) = true.
Proof.
  induction bs as [|a|a b|a b c l IH] using list_ind3; cbn [b64url_encode forallb];
    rewrite ?b64_char_ok; done.
Qed.

(** Four characters for three bytes. *)
Lemma length_b64url_encode bs :
  (3 * length (b64url_encode bs) <= 4 * length bs + 2)%nat.
Proof.
  induction bs as [|a|a b|a b c l IH] using list_ind3; cbn [b64url_encode length]; lia.
Qed.

Lemma b64url_encode_nil bs : b64url_encode bs = [] → bs = [].
Proof. by destruct bs as [|a [|b [|c l]]]. Qed.

#[export] Hint Resolve b64url_decode_encode b64url_encode_alphabet : cyrene.
