(* ===== verification/Sha256.v ===== *)
(** * SHA-256 and HMAC-SHA-256

    [hashlib.sha256] and [hmac.new(key, msg, hashlib.sha256)] as executable
    functions on byte lists (FIPS 180-4, RFC 2104).  The round constants are
    computed from the primes they are defined by. *)

From Stdlib Require Import NArith.
From S2P Require Import Prelude PyText.

#[local] Open Scope N_scope.

Definition wadd (x y : N) : N := N.land (x + y) 4294967295.
Definition rotr (n x : N) : N :=
  N.lor (N.shiftr x n) (N.land (N.shiftl x (32 - n)) 4294967295).

(** The integer part of the [k]-th root of [x], by bisection on [[lo, lo + 2^n)]. *)
Fixpoint int_root (k x : N) (n : nat) (lo : N) : N :=
  match n with
  | O => lo
  | S n =>
      let mid := lo + 2 ^ N.of_nat n in
      if N.pow mid k <=? x then int_root k x n mid else int_root k x n lo
  end.

Definition primes : list N :=
  List.filter (λ p, (2 <=? p)
    && forallb (λ d, negb (p mod d =? 0)) (map N.of_nat (seq 2 (N.to_nat p - 2))))
    (map N.of_nat (seq 0 312)).

(** The first 32 bits of the fractional part of the cube (square) root. *)
Definition k_const (p : N) : N := int_root 3 (p * 2 ^ 96) 36 0 mod 2 ^ 32.
Definition h_const (p : N) : N := int_root 2 (p * 2 ^ 64) 38 0 mod 2 ^ 32.
Definition round_constants : list N := Eval vm_compute in map k_const (take 64 primes).
Definition initial_hash : list N := Eval vm_compute in map h_const (take 8 primes).

Fixpoint be_bytes (n : nat) (x : N) : pybytes :=
  match n with
  | O => []
  | S n => N.shiftr x (8 * N.of_nat n) mod 256 :: be_bytes n x
  end.

Definition be_word (bs : pybytes) : N := foldl (λ acc b, acc * 256 + b) 0 bs.

Fixpoint chunks (fuel n : nat) (l : list N) : list (list N) :=
  match fuel, l with
  | _, [] => []
  | O, _ => []
  | S fuel, _ => take n l :: chunks fuel n (drop n l)
  end.

Definition pad (msg : pybytes) : pybytes :=
  let l := length msg in
  msg ++ [128] ++ repeat 0 ((119 - l mod 64) mod 64)%nat ++ be_bytes 8 (8 * N.of_nat l).

(** The message schedule, newest word first. *)
Fixpoint schedule (n : nat) (ws : list N) : list N :=
  match n with
  | O => ws
  | S n =>
      let w i := nth i ws 0 in
      let s0 := N.lxor (N.lxor (rotr 7 (w 14%nat)) (rotr 18 (w 14%nat))) (N.shiftr (w 14%nat) 3) in
      let s1 := N.lxor (N.lxor (rotr 17 (w 1%nat)) (rotr 19 (w 1%nat))) (N.shiftr (w 1%nat) 10) in
      schedule n (wadd (wadd (w 15%nat) s0) (wadd (w 6%nat) s1) :: ws)
  end.

Definition round (st : list N) (kw : N * N) : list N :=
  match st with
  | [a; b; c; d; e; f; g; h] =>
      let s1 := N.lxor (N.lxor (rotr 6 e) (rotr 11 e)) (rotr 25 e) in
      let ch := N.lxor (N.land e f) (N.land (N.lxor e 4294967295) g) in
      let t1 := wadd (wadd h s1) (wadd ch (wadd kw.1 kw.2)) in
      let s0 := N.lxor (N.lxor (rotr 2 a) (rotr 13 a)) (rotr 22 a) in
      let maj := N.lxor (N.lxor (N.land a b) (N.land a c)) (N.land b c) in
      [wadd t1 (wadd s0 maj); a; b; c; wadd d t1; e; f; g]
  | _ => st
  end.

Definition compress (h : list N) (block : pybytes) : list N :=
  let ws := rev (schedule 48 (rev (map be_word (chunks 16 4 block)))) in
  zip_with wadd h (foldl round h (zip round_constants ws)).

(** [hashlib.sha256(msg).digest()] *)
Definition sha256 (msg : pybytes) : pybytes :=
  let p := pad msg in
  flat_map (be_bytes 4) (foldl compress initial_hash (chunks (length p) 64 p)).

Definition hex_of_byte (b : N) : pystr :=
  let d n := if n <? 10 then 48 + n else 87 + n in [d (b / 16); d (b mod 16)].

(** [.hexdigest()] *)
Definition hexdigest (d : pybytes) : pystr := flat_map hex_of_byte d.
Definition sha256_hex (msg : pybytes) : pystr := hexdigest (sha256 msg).

(** [hmac.new(key, msg, hashlib.sha256).digest()] *)
Definition hmac_sha256 (key msg : pybytes) : pybytes :=
  let k0 := if (64 <? length key)%nat then sha256 key else key in
  let k := k0 ++ repeat 0 (64 - length k0)%nat in
  sha256 (map (N.lxor 92) k ++ sha256 (map (N.lxor 54) k ++ msg)).

Example sha256_abc :
  sha256_hex (lit "abc") =
  lit "ba7816bf8f01cfea414140de5dae2223b00361a396177a9cb410ff61f20015ad".
Proof. vm_compute. reflexivity. Qed.

Example hmac_rfc4231_2 :
  hexdigest (hmac_sha256 (lit "Jefe") (lit "what do ya want for nothing?")) =
  lit "5bdcc146bf60754e6a042426089575c75a003f089d2739839dec58b964ec3843".
Proof. vm_compute. reflexivity. Qed.

(** ** Shape of a digest *)

Lemma length_be_bytes n x : length (be_bytes n x) = n.
Proof. induction n; cbn; congruence. Qed.

Lemma be_bytes_ok n x : Forall (λ b, b < 256) (be_bytes n x).
Proof. induction n; cbn; [constructor|]. constructor; [by apply N.mod_lt|done]. Qed.

Lemma length_round st kw : length st = 8%nat → length (round st kw) = 8%nat.
Proof. by destruct st as [|? [|? [|? [|? [|? [|? [|? [|? [|? ?]]]]]]]]]. Qed.

Lemma length_compress h block : length h = 8%nat → length (compress h block) = 8%nat.
Proof.
  intros Hh. unfold compress. rewrite length_zip_with.
  assert (Hf : ∀ kws st, length st = 8%nat → length (foldl round st kws) = 8%nat).
  { induction kws as [|kw kws IH]; intros st Hst; cbn; [done|].
    apply IH, length_round, Hst. }
  rewrite Hf by done. lia.
Qed.

Lemma length_sha256 msg : length (sha256 msg) = 32%nat.
Proof.
  unfold sha256.
  assert (H : ∀ bl h, length h = 8%nat → length (foldl compress h bl) = 8%nat).
  { induction bl as [|b bl IH]; intros h Hh; cbn; [done|]. apply IH, length_compress, Hh. }
  specialize (H (chunks (length (pad msg)) 64 (pad msg)) initial_hash eq_refl).
  set (ws := foldl _ _ _) in *.
  assert (Hl : ∀ l, length (flat_map (be_bytes 4) l) = (4 * length l)%nat).
  { induction l as [|x l IH]; cbn [flat_map]; [done|].
    rewrite length_app, length_be_bytes, IH. cbn. lia. }
  rewrite Hl. lia.
Qed.

Lemma sha256_ok msg : Forall (λ b, b < 256) (sha256 msg).
Proof.
  unfold sha256. apply Forall_forall. intros b Hb.
  apply list_elem_of_In, in_flat_map in Hb as (w & _ & Hb).
  pose proof (be_bytes_ok 4 w) as H. rewrite Forall_forall in H.
  by apply H, list_elem_of_In.
Qed.

Lemma length_hmac_sha256 key msg : length (hmac_sha256 key msg) = 32%nat.
Proof. apply length_sha256. Qed.
Lemma hmac_sha256_ok key msg : Forall (λ b, b < 256) (hmac_sha256 key msg).
Proof. apply sha256_ok. Qed.

Definition is_hex_lower (c : N) : bool := is_digit_ascii c || between 97 102 c.

(** A check of all byte values. *)
Lemma all_bytes (P : N → bool) (b : N) :
  forallb P (map N.of_nat (seq 0 256)) = true → b < 256 → P b = true.
Proof.
  rewrite forallb_forall. intros H Hb. apply H, in_map_iff.
  exists (N.to_nat b). split; [lia|]. apply in_seq. lia.
Qed.

Lemma length_hexdigest d : length (hexdigest d) = (2 * length d)%nat.
Proof.
  unfold hexdigest. induction d as [|b d IH]; cbn [flat_map]; [done|].
  rewrite length_app, IH. cbn. lia.
Qed.

Lemma hexdigest_chars d : Forall (λ b, b < 256) d → forallb is_hex_lower (hexdigest d) = true.
Proof.
  unfold hexdigest. induction 1 as [|b d Hb _ IH]; cbn [flat_map]; [done|].
  rewrite forallb_app, IH, andb_true_r.
  by apply (all_bytes (λ b, forallb is_hex_lower (hex_of_byte b))); [vm_compute|].
Qed.

(** The digest can be read back from its digits. *)
Definition nibble (c : N) : N := if c <? 58 then c - 48 else c - 87.

Lemma hex_of_byte_inv b :
  b < 256 → ∃ x y, hex_of_byte b = [x; y] ∧ nibble x * 16 + nibble y = b.
Proof.
  intros Hb. eexists _, _. split; [reflexivity|]. apply N.eqb_eq.
  by apply (all_bytes (λ b, match hex_of_byte b with
    | [x; y] => nibble x * 16 + nibble y =? b | _ => false end)); [vm_compute|].
Qed.

Lemma hexdigest_inj d1 d2 :
  Forall (λ b, b < 256) d1 → Forall (λ b, b < 256) d2 →
  hexdigest d1 = hexdigest d2 → d1 = d2.
Proof.
  intros H1. revert d2. induction H1 as [|b1 d1 Hb1 _ IH]; intros d2 H2 He.
  - destruct d2; [done|]. apply (f_equal length) in He. rewrite !length_hexdigest in He. cbn in He. lia.
  - destruct H2 as [|b2 d2 Hb2 H2].
    { apply (f_equal length) in He. rewrite !length_hexdigest in He. cbn in He. lia. }
    unfold hexdigest in He. cbn [flat_map] in He.
    destruct (hex_of_byte_inv b1 Hb1) as (x1 & y1 & E1 & <-).
    destruct (hex_of_byte_inv b2 Hb2) as (x2 & y2 & E2 & <-).
    rewrite E1, E2 in He. cbn [app] in He. injection He as -> -> He. f_equal. by apply IH.
Qed.

Lemma length_sha256_hex msg : length (sha256_hex msg) = 64%nat.
Proof. unfold sha256_hex. by rewrite length_hexdigest, length_sha256. Qed.

Lemma sha256_hex_chars msg : forallb is_hex_lower (sha256_hex msg) = true.
Proof. apply hexdigest_chars, sha256_ok. Qed.

Lemma hmac_hex_shape key msg :
  length (hexdigest (hmac_sha256 key msg)) = 64%nat
  ∧ forallb is_hex_lower (hexdigest (hmac_sha256 key msg)) = true.
Proof.
  rewrite length_hexdigest, length_hmac_sha256. split; [done|]. apply hexdigest_chars, hmac_sha256_ok.
Qed.

#[global] Opaque sha256 hmac_sha256.
