(* ===== verification/TeamsIdentity.v ===== *)
(** * Teams connector: identities, canonical bodies and retry delays

    The pure functions of [teams_connector/delivery_spool.py] and the canonical
    body of [teams_connector/navigator.py]: the event's stable delivery id and
    thread key, the exponential retry delay, the validation of administrative
    requests and the filtering of error codes.  An event is a JSON object. *)

From Stdlib Require Import ZArith NArith.
From S2P Require Import Prelude PyFloat PyText Json Sha256.

#[local] Open Scope Z_scope.

(** The exceptions of the delivery spool; [UnicodeError] and [ValueErr] are the
    built-in ones, which the spool lets through. *)
Inductive spool_error :=
  | DeliverySpoolError
  | DeliverySpoolUnavailable
  | DeliverySpoolFull
  | DeliveryIdentityConflict
  | DeliveryAdminConflict
  | DeliveryPauseTimeout
  | UnicodeError
  | ValueErr.

#[export] Instance spool_error_eq_dec : EqDecision spool_error.
Proof. solve_decision. Defined.

Definition MAX_EVENT_BYTES : Z := 256 * 1024.
Definition MAX_RETRY_DELAY_SECONDS : Z := 5 * 60.
Definition MAX_RECORDED_ATTEMPTS : Z := 2 ^ 31 - 1.

Definition encode_utf8 (s : pystr) : result spool_error pybytes :=
  match utf8_encode s with Some b => Ok b | None => Err UnicodeError end.

(** [canonical_event_body] *)
Definition canonical_event_body (event : json) : result spool_error pybytes :=
  encode_utf8 (dumps_sorted event).

(** A part of an identity: a nonempty string. *)
Definition text_part (v : option json) : option pystr :=
  match v with Some (JStr (c :: s)) => Some (c :: s) | _ => None end.

(** The parts, or the exception when one is missing, empty or not a string. *)
Definition text_parts (vs : list (option json)) : result spool_error (list pystr) :=
  mapR (λ v, match text_part v with Some s => Ok s | None => Err DeliverySpoolError end) vs.

Definition is_str (v : option json) (s : pystr) : bool :=
  match v with Some (JStr t) => bool_decide (t = s) | _ => false end.

Definition keys (d : json) (ks : list string) : list (option json) :=
  map (λ k, json_get (lit k) d) ks.

(** The list of fields [stable_delivery_id] hashes. *)
Definition delivery_identity (event : json) : result spool_error (list pystr) :=
  match json_get (lit "trust") event with
  | Some (JObj kvs) =>
      let trust := JObj kvs in
      text_parts
        (if is_str (json_get (lit "event_type") event) (lit "personal_installation") then
           keys trust ["provider"; "tenant_id"; "bot_app_id"; "actor_aad_object_id";
                       "conversation_id"; "installation_action"; "activity_id"]%string
         else if is_str (json_get (lit "conversation_kind") trust) (lit "private") then
           keys trust ["provider"; "tenant_id"; "bot_app_id"; "actor_aad_object_id";
                       "conversation_id"; "message_id"]%string
         else
           keys trust ["provider"; "tenant_id"; "team_id"; "channel_id"; "bot_app_id";
                       "message_id"]%string)
  | _ => Err DeliverySpoolError
  end.

(** [hashlib.sha256(tag + b"\0" + json.dumps(parts)).hexdigest()] *)
Definition hash_parts (tag : string) (parts : list pystr) : result spool_error pystr :=
  encoded ← encode_utf8 (dumps (JStrs parts));
  Ok (sha256_hex (lit tag ++ 0%N :: encoded)).

Definition stable_delivery_id (event : json) : result spool_error pystr :=
  identity ← delivery_identity event;
  hash_parts "cyrene-teams-delivery-v1" identity.

(** ** Thread key *)

(** [str.split(sep)] for a one-character separator. *)
Fixpoint split_on (sep : N) (s : pystr) : list pystr :=
  match s with
  | [] => [[]]
  | c :: s =>
      if (c =? sep)%N then [] :: split_on sep s
      else match split_on sep s with
           | w :: ws => (c :: w) :: ws
           | [] => [[c]]
           end
  end.

(** [s.partition("=")[0]] *)
Fixpoint before (sep : N) (s : pystr) : pystr :=
  match s with
  | [] => []
  | c :: s => if (c =? sep)%N then [] else c :: before sep s
  end.

(** [str.casefold] on the characters whose folding is ASCII; the others are
    left alone, so comparing with an ASCII constant is exact. *)
Definition casefold_char (c : N) : pystr :=
  if is_upper_ascii c then [(c + 32)%N]
  else if (c =? 383)%N then lit "s"
  else if (c =? 223)%N || (c =? 7838)%N then lit "ss"
  else if (c =? 8490)%N then lit "k"
  else if (c =? 64256)%N then lit "ff"
  else if (c =? 64257)%N then lit "fi"
  else if (c =? 64258)%N then lit "fl"
  else if (c =? 64259)%N then lit "ffi"
  else if (c =? 64260)%N then lit "ffl"
  else if (c =? 64261)%N || (c =? 64262)%N then lit "st"
  else [c].
Definition casefold (s : pystr) : pystr := flat_map casefold_char s.

Definition is_messageid (segment : pystr) : bool :=
  bool_decide (casefold (before 61 segment) = lit "messageid").

(** The conversation id without its [;messageid=<root>] segments. *)
Definition conversation_scope (conversation_id : pystr) : pystr :=
  join [59%N] (List.filter (λ seg, negb (is_messageid seg)) (split_on 59 conversation_id)).

(** The domain tag and the fields [stable_thread_key] hashes. *)
Definition thread_identity (event : json) : result spool_error (string * list pystr) :=
  match json_get (lit "trust") event with
  | Some (JObj kvs) =>
      let trust := JObj kvs in
      if is_str (json_get (lit "event_type") event) (lit "personal_installation") then
        scope ← text_parts
          (keys trust ["provider"; "tenant_id"; "bot_app_id"; "actor_aad_object_id"]%string);
        Ok ("cyrene-teams-install-thread-v1"%string, scope)
      else if is_str (json_get (lit "conversation_kind") trust) (lit "private") then
        scope ← text_parts
          (keys trust ["provider"; "tenant_id"; "bot_app_id"; "actor_aad_object_id";
                       "conversation_id"]%string);
        Ok ("cyrene-teams-private-thread-v1"%string, scope)
      else
        match json_get (lit "payload") event ≫= json_get (lit "conversation") with
        | Some (JObj conv) =>
            scope ← text_parts
              (keys trust ["provider"; "tenant_id"; "team_id"; "channel_id";
                           "bot_app_id"; "root_thread_id"]%string);
            match text_part (json_get (lit "conversation_id") (JObj conv)) with
            | Some conversation_id =>
                Ok ("cyrene-teams-thread-v1"%string,
                    take 5 scope ++ conversation_scope conversation_id :: drop 5 scope)
            | None => Err DeliverySpoolError
            end
        | _ => Err DeliverySpoolError
        end
  | _ => Err DeliverySpoolError
  end.

Definition stable_thread_key (event : json) : result spool_error pystr :=
  '(tag, parts) ← thread_identity event;
  hash_parts tag parts.

(** ** Delays and validation *)

(** [retry_delay_seconds] *)
Definition retry_backoff (attempt : Z) : Z :=
  Z.min (2 ^ Z.min (Z.max 0 (attempt - 1)) 9) MAX_RETRY_DELAY_SECONDS.

Definition retry_delay_seconds (attempt : Z) (retry_after : option pyfloat) : pyfloat :=
  let backoff := f_of_Z (retry_backoff attempt) in
  match retry_after with
  | None => backoff
  | Some ra =>
      py_min (f_of_Z MAX_RETRY_DELAY_SECONDS) (py_max backoff (py_max (f_of_Z 0) ra))
  end.

(** [validate_admin_cas]; the holder is a [str] and the revision an [int] by
    type here. *)
Definition validate_admin_cas (holder : pystr) (expected_revision : Z)
  : result spool_error () :=
  _ ← require (negb (bool_decide (holder = [])) && (len holder <=? 128)
               && forallb (between 33 126) holder) DeliveryAdminConflict;
  require (0 <=? expected_revision) DeliveryAdminConflict.

(** [safe_error_code] *)
Definition code_char (c : N) : bool :=
  is_upper_ascii c || is_digit_ascii c || (c =? 95)%N || (c =? 46)%N || (c =? 45)%N.

Definition safe_error_code (code : option pystr) : option pystr :=
  match code with
  | None | Some [] => None
  | Some s => if (100 <? len s) || negb (forallb code_char s)
              then Some (lit "UNKNOWN") else Some s
  end.

(** ** Identities are injective up to SHA-256 *)

(** The bytes hashed under a tag. *)
Definition preimage (tag : string) (encoded : pybytes) : pybytes :=
  lit tag ++ 0%N :: encoded.

(** SHA-256 separates these two messages. *)
Definition no_collision (m1 m2 : pybytes) : Prop := sha256_hex m1 = sha256_hex m2 → m1 = m2.

Lemma encode_utf8_ok s b : encode_utf8 s = Ok b ↔ utf8_encode s = Some b.
Proof. unfold encode_utf8. destruct (utf8_encode s); naive_solver. Qed.

Lemma hash_parts_ok tag parts d :
  hash_parts tag parts = Ok d ↔
  ∃ b, utf8_encode (dumps (JStrs parts)) = Some b ∧ d = sha256_hex (preimage tag b).
Proof.
  unfold hash_parts. rewrite bind_ok. setoid_rewrite encode_utf8_ok. naive_solver.
Qed.

Lemma hash_parts_inj tag p1 p2 d :
  (∀ b1 b2, utf8_encode (dumps (JStrs p1)) = Some b1 →
            utf8_encode (dumps (JStrs p2)) = Some b2 →
            no_collision (preimage tag b1) (preimage tag b2)) →
  hash_parts tag p1 = Ok d → hash_parts tag p2 = Ok d → p1 = p2.
Proof.
  intros Hnc (b1 & H1 & ->)%hash_parts_ok (b2 & H2 & Hd)%hash_parts_ok.
  apply (Hnc _ _ H1 H2) in Hd. unfold preimage in Hd.
  apply app_inv_head in Hd. injection Hd as <-.
  eapply dumps_strs_inj, utf8_encode_inj; eauto.
Qed.

Lemma hash_parts_shape tag parts d :
  hash_parts tag parts = Ok d → length d = 64%nat ∧ forallb is_hex_lower d = true.
Proof.
  intros (b & _ & ->)%hash_parts_ok. split; [apply length_sha256_hex | apply sha256_hex_chars].
Qed.

(** ** The retry delay *)

Lemma retry_backoff_range n : 1 <= retry_backoff n <= 300.
Proof.
  unfold retry_backoff, MAX_RETRY_DELAY_SECONDS.
  assert (1 <= 2 ^ Z.min (Z.max 0 (n - 1)) 9) by (apply (Z.pow_le_mono_r 2 0); lia).
  lia.
Qed.

Lemma small_int_order :
  forallb (λ z, fle (f_of_Z 0) (f_of_Z z) && fle (f_of_Z z) (f_of_Z 300))
    (map Z.of_nat (seq 0 301)) = true.
Proof. by vm_compute. Qed.

Lemma small_int_le z :
  0 <= z <= 300 → fle (f_of_Z 0) (f_of_Z z) = true ∧ fle (f_of_Z z) (f_of_Z 300) = true.
Proof.
  intros Hz. apply andb_true_iff. pose proof small_int_order as H.
  rewrite forallb_forall in H. apply H, in_map_iff. exists (Z.to_nat z).
  split; [lia|]. apply in_seq. lia.
Qed.

Lemma py_max_ge a b : num a → fle a (py_max a b) = true.
Proof.
  intros Ha. unfold py_max. destruct (flt a b) eqn:E; [by apply flt_fle|by apply fle_refl].
Qed.

Lemma py_max_num a b : num a → num (py_max a b).
Proof. intros Ha%(py_max_ge a b). by apply fle_rank in Ha as (_ & ? & _). Qed.

Lemma py_min_le a b : num a → fle (py_min a b) a = true.
Proof.
  intros Ha. unfold py_min. destruct (flt b a) eqn:E; [by apply flt_fle|by apply fle_refl].
Qed.

Lemma py_min_le_2 a b : num a → num b → fle (py_min a b) b = true.
Proof.
  intros Ha Hb. unfold py_min. destruct (flt b a) eqn:E; [by apply fle_refl|].
  rewrite flt_not_fle in E by done. by apply negb_false_iff in E.
Qed.

Lemma py_min_glb a b c : fle c a = true → fle c b = true → fle c (py_min a b) = true.
Proof. intros. unfold py_min. by destruct (flt b a). Qed.

#[export] Hint Resolve py_max_ge py_max_num py_min_le py_min_le_2 py_min_glb : cyrene.

(** ** Reply suffixes *)

Lemma split_on_app sep a b :
  (∀ c, c ∈ a → c ≠ sep) → split_on sep (a ++ sep :: b) = a :: split_on sep b.
Proof.
  induction a as [|c a IH]; intros H; cbn [app split_on].
  - by rewrite N.eqb_refl.
  - rewrite (proj2 (N.eqb_neq c sep)) by (apply H; by left).
    rewrite IH; [done|]. intros d Hd. apply H. by right.
Qed.

Lemma split_on_none sep a : (∀ c, c ∈ a → c ≠ sep) → split_on sep a = [a].
Proof.
  induction a as [|c a IH]; intros H; cbn; [done|].
  rewrite (proj2 (N.eqb_neq c sep)) by (apply H; by left).
  rewrite IH; [done|]. intros d Hd. apply H. by right.
Qed.

Lemma split_on_snoc sep a b :
  (∀ c, c ∈ b → c ≠ sep) → split_on sep (a ++ sep :: b) = split_on sep a ++ [b].
Proof.
  intros Hb. induction a as [|c a IH]; cbn [app split_on].
  - rewrite N.eqb_refl, split_on_none by done. done.
  - destruct (c =? sep)%N; [by rewrite IH|]. rewrite IH.
    destruct (split_on sep a) as [|w ws] eqn:E; [|done].
    exfalso. clear -E. destruct a as [|d a]; cbn in E; [done|].
    destruct (d =? sep)%N; [done|]. by destruct (split_on sep a).
Qed.

(** A [;messageid=...] segment does not count. *)
Lemma conversation_scope_suffix conv key root :
  casefold key = lit "messageid" →
  (∀ c, c ∈ key → c ≠ 59%N ∧ c ≠ 61%N) → (∀ c, c ∈ root → c ≠ 59%N) →
  conversation_scope (conv ++ 59%N :: key ++ 61%N :: root) = conversation_scope conv.
Proof.
  intros Hk Hkc Hr. unfold conversation_scope.
  rewrite split_on_snoc.
  - rewrite List.filter_app. cbn [List.filter].
    assert (Hm : is_messageid (key ++ 61%N :: root) = true).
    { unfold is_messageid. apply bool_decide_eq_true. rewrite <- Hk. f_equal.
      clear Hk. induction key as [|c key IH]; cbn; [done|].
      rewrite (proj2 (N.eqb_neq c 61)) by (apply Hkc; by left). f_equal.
      apply IH. intros d Hd. apply Hkc. by right. }
    rewrite Hm. cbn. by rewrite app_nil_r.
  - intros c [?|[->|?]%elem_of_cons]%elem_of_app; [by apply Hkc|done|by apply Hr].
Qed.

(** ** What the keys identify *)

(** Equal delivery ids mean equal identities: two events that get the same
    id have the same identity fields (provider, tenant, message and the rest),
    as long as SHA-256 separates the two encodings; and the id is 64 lower-case
    hexadecimal digits. *)
Lemma delivery_id_identifies e1 e2 d :
  (∀ p1 p2 b1 b2, delivery_identity e1 = Ok p1 → delivery_identity e2 = Ok p2 →
     utf8_encode (dumps (JStrs p1)) = Some b1 → utf8_encode (dumps (JStrs p2)) = Some b2 →
     no_collision (preimage "cyrene-teams-delivery-v1" b1)
       (preimage "cyrene-teams-delivery-v1" b2)) →
  stable_delivery_id e1 = Ok d → stable_delivery_id e2 = Ok d →
  delivery_identity e1 = delivery_identity e2 ∧ length d = 64%nat
  ∧ forallb is_hex_lower d = true.
Proof.
  unfold stable_delivery_id. intros Hnc H1 H2. inv_result.
  split; [|by eapply hash_parts_shape].
  rewrite Hv, Hv0. f_equal. eapply hash_parts_inj; eauto.
Qed.

Definition conversation_id (event : json) : option json :=
  (json_get (lit "payload") event ≫= json_get (lit "conversation"))
  ≫= json_get (lit "conversation_id").

(** A reply belongs to its thread: appending [;messageid=<root>] to the
    conversation id of an event changes nothing in the event's thread key. *)
Theorem thread_key_ignores_reply_suffix e1 e2 conv key root :
  json_get (lit "trust") e1 = json_get (lit "trust") e2 →
  json_get (lit "event_type") e1 = json_get (lit "event_type") e2 →
  conv ≠ [] → conversation_id e1 = Some (JStr conv) →
  conversation_id e2 = Some (JStr (conv ++ 59%N :: key ++ 61%N :: root)) →
  casefold key = lit "messageid" →
  (∀ c, c ∈ key → c ≠ 59%N ∧ c ≠ 61%N) → (∀ c, c ∈ root → c ≠ 59%N) →
  stable_thread_key e1 = stable_thread_key e2.
Proof.
  unfold conversation_id. intros Ht He Hne Hc1 Hc2 Hk Hkc Hr.
  unfold stable_thread_key. f_equal. unfold thread_identity. rewrite Ht, He.
  destruct (json_get (lit "trust") e2) as [[]|]; try done.
  destruct (is_str (json_get (lit "event_type") e2) _); [done|].
  destruct (is_str _ _); [done|].
  destruct (json_get (lit "payload") e1 ≫= json_get (lit "conversation"))
    as [[| | | | | |conv1]|]; try done.
  destruct (json_get (lit "payload") e2 ≫= json_get (lit "conversation"))
    as [[| | | | | |conv2]|]; try done.
  cbn [mbind option_bind] in Hc1, Hc2. rewrite Hc1, Hc2.
  assert (Hs : ∀ s, s ≠ [] → text_part (Some (JStr s)) = Some s) by by intros [].
  rewrite !Hs; [|by destruct conv|done].
  by rewrite (conversation_scope_suffix _ _ _ Hk Hkc Hr).
Qed.
