(* ===== verification/TeamsSpool.v ===== *)
(** * Teams connector: the durable delivery spool

    [DeliverySpool] of [teams_connector/delivery_spool.py]: the table
    [deliveries] and the key/value table [delivery_meta], every SQL statement of
    its methods as a function on the rows, and each method as a transaction.
    Clock readings and lease tokens are arguments, so an operation is a
    function.  A table with an INTEGER PRIMARY KEY is kept in key order, so the
    row list is in [sequence] order. *)

From Stdlib Require Import ZArith NArith Sorted.
From S2P Require Import Prelude PyFloat PyText Json Sha256 TeamsIdentity.

#[local] Open Scope Z_scope.

(** ** Rows *)

Inductive delivery_state := Queued | Leased | Delivered | Rejected | Dead.

#[export] Instance delivery_state_eq_dec : EqDecision delivery_state.
Proof. solve_decision. Defined.

Record delivery := Delivery {
  sequence : Z;
  delivery_id : pystr;
  thread_key : pystr;
  body_sha256 : pystr;
  body : option pybytes;
  state : delivery_state;
  received_at : pyfloat;
  attempts : Z;
  next_attempt_at : pyfloat;
  lease_id : option pystr;
  lease_epoch : Z;
  lease_expires_at : option pyfloat;
  last_http_status : option Z;
  last_error_code : option pystr;
  finished_at : option pyfloat
}.

#[export] Instance delivery_eq_dec : EqDecision delivery.
Proof. solve_decision. Defined.

Record spool := Spool {
  deliveries : list delivery;
  next_sequence : Z;  (* AUTOINCREMENT *)
  delivery_meta : gmap pystr pystr
}.

Record config := Config { max_rows : Z; max_bytes : Z }.

Definition DEFAULT_MAX_ROWS : Z := 10000.
Definition DEFAULT_MAX_BYTES : Z := 64 * 1024 * 1024.
Definition DELIVERED_RETENTION_SECONDS : Z := 24 * 60 * 60.
Definition REJECTED_RETENTION_SECONDS : Z := 7 * 24 * 60 * 60.

(** [__init__]'s check of the limits. *)
Definition make_config (rows bytes : Z) : result spool_error config :=
  _ ← require (negb ((rows <? 1) || (bytes <? 1))) ValueErr; Ok (Config rows bytes).

Record DeliveryClaim := Claim {
  claim_delivery_id : pystr;
  claim_body : pybytes;
  claim_body_sha256 : pystr;
  claim_lease_id : pystr;
  claim_lease_epoch : Z;
  claim_attempt : Z
}.

Record EnqueueResult := Enqueued { enqueue_delivery_id : pystr; duplicate : bool }.

Definition has {A} (o : option A) : bool := match o with Some _ => true | None => false end.
Definition in_state (st : delivery_state) (r : delivery) : bool := bool_decide (state r = st).

(** ** The schema

    The CHECK constraints of [deliveries]; a statement that breaks one raises
    [sqlite3.IntegrityError], which [_run_sync] turns into
    [DeliverySpoolUnavailable]. *)

Definition row_check (r : delivery) : bool :=
  (len (body_sha256 r) =? 64) && (0 <=? attempts r) && (0 <=? lease_epoch r)
  && (if in_state Leased r then has (lease_id r) && has (lease_expires_at r)
      else negb (has (lease_id r)) && negb (has (lease_expires_at r)))
  && match state r with
     | Queued | Leased | Dead => has (body r)
     | Delivered | Rejected => negb (has (body r))
     end.

Abbreviation M := (result spool_error).

(** A REAL column declared NOT NULL. *)
Definition not_null (x : pyfloat) : M pyfloat :=
  match sql_real x with Some x => Ok x | None => Err DeliverySpoolUnavailable end.

(** [UPDATE deliveries SET ... WHERE ...], with its [rowcount]. *)
Definition sql_update (p : delivery → bool) (f : delivery → delivery) (rows : list delivery)
  : M (list delivery * Z) :=
  _ ← require (forallb row_check (map f (select p rows))) DeliverySpoolUnavailable;
  Ok (update_where p f rows, rowcount p rows).

(** [column <= ?]; a [NULL] on either side selects nothing. *)
Definition sql_le (column : option pyfloat) (x : pyfloat) : bool :=
  match column with Some c => fle c x | None => false end.

(** ** Metadata *)

Definition meta (s : spool) (key : string) : M pystr :=
  match delivery_meta s !! lit key with
  | Some v => Ok v
  | None => Err DeliverySpoolUnavailable
  end.

Definition set_meta (key : string) (v : pystr) (m : gmap pystr pystr) : gmap pystr pystr :=
  alter (λ _, v) (lit key) m.

Definition meta_int (s : spool) (key : string) : M Z :=
  v ← meta s key;
  match Z_of_str v with Some z => Ok z | None => Err ValueErr end.

Definition meta_paused (s : spool) : M bool :=
  v ← meta s "paused"; Ok (bool_decide (v = lit "1")).

Definition default_meta : gmap pystr pystr :=
  {[ lit "paused" := lit "0"; lit "revision" := lit "0";
     lit "pause_holder" := []; lit "last_resumed_holder" := [] ]}.

(** [_initialize_database] on a file with [PRAGMA user_version = version]. *)
Definition initialize (version : Z) (s : spool) : M spool :=
  _ ← require ((version =? 0) || (version =? 1)) DeliverySpoolUnavailable;
  Ok (Spool (deliveries s) (next_sequence s) (delivery_meta s ∪ default_meta)).

Definition empty_spool : spool := Spool [] 1 default_meta.

(** ** Enqueue *)

(** [_purge_expired] *)
Definition expired (now : pyfloat) (st : delivery_state) (retention : Z) (r : delivery) : bool :=
  in_state st r && sql_le (finished_at r) (fsub now (f_of_Z retention)).

Definition purge_expired (now : pyfloat) (rows : list delivery) : list delivery :=
  delete_where (expired now Rejected REJECTED_RETENTION_SECONDS)
    (delete_where (expired now Delivered DELIVERED_RETENTION_SECONDS) rows).

Definition body_length (r : delivery) : Z :=
  match body r with Some b => len b | None => 0 end.

(** [COALESCE(SUM(length(body)), 0)] *)
Definition total_bytes (rows : list delivery) : Z :=
  foldr (λ r n, body_length r + n) 0 rows.

Definition new_delivery (seq : Z) (id thread sha : pystr) (b : pybytes) (now : pyfloat) :=
  {| sequence := seq; delivery_id := id; thread_key := thread; body_sha256 := sha;
     body := Some b; state := Queued; received_at := now; attempts := 0;
     next_attempt_at := now; lease_id := None; lease_epoch := 0;
     lease_expires_at := None; last_http_status := None; last_error_code := None;
     finished_at := None |}.

Definition has_id (id : pystr) (r : delivery) : bool := bool_decide (delivery_id r = id).

(** [_enqueue_sync] *)
Definition enqueue_body (cfg : config) (now : pyfloat) (id thread : pystr) (b : pybytes)
    (sha : pystr) : txn spool spool_error EnqueueResult := λ s,
  let rows := purge_expired now (deliveries s) in
  match fetchone (has_id id) rows with
  | Some existing =>
      _ ← require (bool_decide (body_sha256 existing = sha)) DeliveryIdentityConflict;
      Ok (Enqueued id true, Spool rows (next_sequence s) (delivery_meta s))
  | None =>
      _ ← require (negb ((max_rows cfg <=? len rows)
                         || (max_bytes cfg <? total_bytes rows + len b)))
            DeliverySpoolFull;
      now ← not_null now;
      let row := new_delivery (next_sequence s) id thread sha b now in
      _ ← require (row_check row) DeliverySpoolUnavailable;
      Ok (Enqueued id false,
          Spool (rows ++ [row]) (next_sequence s + 1) (delivery_meta s))
  end.

Definition enqueue_sync cfg now id thread b sha (s : spool) : M EnqueueResult * spool :=
  transact (enqueue_body cfg now id thread b sha) s.

(** [enqueue]: the canonical body, its digest and its two keys, then the
    transaction. *)
Definition enqueue (cfg : config) (now : pyfloat) (event : json) (s : spool)
  : M EnqueueResult * spool :=
  match
    (raw_body ← canonical_event_body event;
     _ ← require (negb (bool_decide (raw_body = [])) && (len raw_body <=? MAX_EVENT_BYTES))
           DeliverySpoolFull;
     id ← stable_delivery_id event;
     thread ← stable_thread_key event;
     Ok (raw_body, id, thread))
  with
  | Err e => (Err e, s)
  | Ok (raw_body, id, thread) =>
      enqueue_sync cfg now id thread raw_body (sha256_hex raw_body) s
  end.

(** ** Claim *)

(** [(state = 'queued' AND next_attempt_at <= ?) OR
     (state = 'leased' AND lease_expires_at <= ?)] *)
Definition due (now : pyfloat) (r : delivery) : bool :=
  match state r with
  | Queued => fle (next_attempt_at r) now
  | Leased => sql_le (lease_expires_at r) now
  | _ => false
  end.

Definition blocking (st : delivery_state) : bool :=
  match st with Queued | Leased | Dead => true | _ => false end.

(** [EXISTS (SELECT 1 FROM deliveries AS prior ...)] *)
Definition has_prior (rows : list delivery) (c : delivery) : bool :=
  existsb (λ p, bool_decide (thread_key p = thread_key c) && (sequence p <? sequence c)
                && blocking (state p)) rows.

Definition claimable (now : pyfloat) (rows : list delivery) (r : delivery) : bool :=
  due now r && negb (has_prior rows r).

(** The row after the claim's UPDATE. *)
Definition lease_row (token : pystr) (attempt epoch : Z) (expires : option pyfloat)
    (r : delivery) : delivery :=
  {| sequence := sequence r; delivery_id := delivery_id r; thread_key := thread_key r;
     body_sha256 := body_sha256 r; body := body r; state := Leased;
     received_at := received_at r; attempts := attempt;
     next_attempt_at := next_attempt_at r; lease_id := Some token; lease_epoch := epoch;
     lease_expires_at := expires; last_http_status := None; last_error_code := None;
     finished_at := finished_at r |}.

Definition claim_where (now : pyfloat) (row : delivery) (r : delivery) : bool :=
  has_id (delivery_id row) r && (lease_epoch r =? lease_epoch row) && due now r.

(** [_claim_next_sync]; [token] is [secrets.token_hex(24)].  The CHECK
    constraints make a due row's body non-NULL. *)
Definition claim_body_txn (now lease_seconds : pyfloat) (token : pystr)
  : txn spool spool_error (option DeliveryClaim) := λ s,
  paused ← meta_paused s;
  if paused : bool then Ok (None, s) else
  match fetchone (claimable now (deliveries s)) (deliveries s) with
  | None => Ok (None, s)
  | Some row =>
      let epoch := lease_epoch row + 1 in
      let attempt := Z.min (attempts row + 1) MAX_RECORDED_ATTEMPTS in
      '(rows, changed) ← sql_update (claim_where now row)
        (lease_row token attempt epoch (sql_real (fadd now lease_seconds))) (deliveries s);
      if negb (changed =? 1) then Ok (None, s) else
      Ok (Some {| claim_delivery_id := delivery_id row;
                  claim_body := default [] (body row);
                  claim_body_sha256 := body_sha256 row; claim_lease_id := token;
                  claim_lease_epoch := epoch; claim_attempt := attempt |},
          Spool rows (next_sequence s) (delivery_meta s))
  end.

(** [claim_next] *)
Definition claim_next (now lease_seconds : pyfloat) (token : pystr) (s : spool)
  : M (option DeliveryClaim) * spool :=
  if fle lease_seconds (f_of_Z 0) then (Err ValueErr, s)
  else transact (claim_body_txn now lease_seconds token) s.

(** ** Completion *)

(** [delivery_id = ? AND state = 'leased' AND lease_id = ? AND lease_epoch = ?] *)
Definition holds (c : DeliveryClaim) (r : delivery) : bool :=
  has_id (claim_delivery_id c) r && in_state Leased r
  && bool_decide (lease_id r = Some (claim_lease_id c))
  && (lease_epoch r =? claim_lease_epoch c).

Definition erases (st : delivery_state) : bool :=
  match st with Delivered | Rejected => true | _ => false end.

Definition finish_row (st : delivery_state) (status : option Z) (code : option pystr)
    (now : pyfloat) (r : delivery) : delivery :=
  {| sequence := sequence r; delivery_id := delivery_id r; thread_key := thread_key r;
     body_sha256 := body_sha256 r; body := if erases st then None else body r;
     state := st; received_at := received_at r; attempts := attempts r;
     next_attempt_at := next_attempt_at r; lease_id := None;
     lease_epoch := lease_epoch r; lease_expires_at := None;
     last_http_status := status; last_error_code := code; finished_at := sql_real now |}.

Definition terminal (st : delivery_state) : bool :=
  match st with Delivered | Rejected | Dead => true | _ => false end.

(** [_finish_sync] *)
Definition finish_sync (now : pyfloat) (c : DeliveryClaim) (st : delivery_state)
    (status : option Z) (code : option pystr) (s : spool) : M bool * spool :=
  if negb (terminal st) then (Err ValueErr, s) else
  transact (λ s,
    '(rows, changed) ← sql_update (holds c) (finish_row st status code now) (deliveries s);
    Ok (changed =? 1, Spool rows (next_sequence s) (delivery_meta s))) s.

Definition mark_delivered now c s := finish_sync now c Delivered None None s.
Definition mark_rejected now c (status : Z) code s :=
  finish_sync now c Rejected (Some status) (safe_error_code code) s.
Definition mark_dead now c (status : option Z) code s :=
  finish_sync now c Dead status (safe_error_code code) s.

Definition retry_row (at_ : pyfloat) (status : option Z) (code : option pystr)
    (r : delivery) : delivery :=
  {| sequence := sequence r; delivery_id := delivery_id r; thread_key := thread_key r;
     body_sha256 := body_sha256 r; body := body r; state := Queued;
     received_at := received_at r; attempts := attempts r; next_attempt_at := at_;
     lease_id := None; lease_epoch := lease_epoch r; lease_expires_at := None;
     last_http_status := status; last_error_code := code; finished_at := None |}.

(** [_retry_sync]: a [NULL] bound to [next_attempt_at] fails only when a row is
    written. *)
Definition retry_sync (now : pyfloat) (c : DeliveryClaim) (delay : pyfloat)
    (status : option Z) (code : option pystr) (s : spool) : M bool * spool :=
  transact (λ s,
    _ ← require (negb (is_nan (fadd now delay)) || (rowcount (holds c) (deliveries s) =? 0))
          DeliverySpoolUnavailable;
    '(rows, changed) ← sql_update (holds c) (retry_row (fadd now delay) status code)
      (deliveries s);
    Ok (changed =? 1, Spool rows (next_sequence s) (delivery_meta s))) s.

(** [mark_retry] *)
Definition bounded_delay (delay : pyfloat) : pyfloat :=
  py_max (f_of_Z 0) (py_min delay (f_of_Z MAX_RETRY_DELAY_SECONDS)).
Definition mark_retry now c delay (status : option Z) code s :=
  retry_sync now c (bounded_delay delay) status (safe_error_code code) s.

(** ** Pause gate *)

Definition with_meta (m : gmap pystr pystr) (s : spool) : spool :=
  Spool (deliveries s) (next_sequence s) m.

(** The transaction of [_pause_sync]. *)
Definition pause_txn (holder : pystr) (expected : Z) : txn spool spool_error () := λ s,
  revision ← meta_int s "revision";
  paused ← meta_paused s;
  current_holder ← meta s "pause_holder";
  last_resumed ← meta s "last_resumed_holder";
  if paused : bool then
    if bool_decide (current_holder = holder)
       && ((expected =? revision) || (expected =? revision - 1))
    then Ok ((), s) else Err DeliveryAdminConflict
  else if bool_decide (last_resumed = holder) || negb (expected =? revision)
  then Err DeliveryAdminConflict
  else
    Ok ((), with_meta
      (set_meta "revision" (str_of_Z (revision + 1))
        (set_meta "last_resumed_holder" []
          (set_meta "pause_holder" holder
            (set_meta "paused" (lit "1") (delivery_meta s))))) s).

(** The transaction of [_resume_sync]. *)
Definition resume_txn (holder : pystr) (expected : Z) : txn spool spool_error () := λ s,
  revision ← meta_int s "revision";
  paused ← meta_paused s;
  current_holder ← meta s "pause_holder";
  last_resumed ← meta s "last_resumed_holder";
  if negb paused then
    if bool_decide (last_resumed = holder)
       && ((expected =? revision) || (expected =? revision - 1))
    then Ok ((), s) else Err DeliveryAdminConflict
  else if negb (bool_decide (current_holder = holder)) || negb (expected =? revision)
  then Err DeliveryAdminConflict
  else
    Ok ((), with_meta
      (set_meta "revision" (str_of_Z (revision + 1))
        (set_meta "last_resumed_holder" holder
          (set_meta "pause_holder" []
            (set_meta "paused" (lit "0") (delivery_meta s))))) s).

Definition active (now : pyfloat) (r : delivery) : bool :=
  in_state Leased r
  && match lease_expires_at r with Some e => flt now e | None => false end.

(** The UPDATE of [_retry_dead_sync]. *)
Definition requeue_row (now : pyfloat) (r : delivery) : delivery :=
  {| sequence := sequence r; delivery_id := delivery_id r; thread_key := thread_key r;
     body_sha256 := body_sha256 r; body := body r; state := Queued;
     received_at := received_at r; attempts := 0; next_attempt_at := now;
     lease_id := lease_id r; lease_epoch := lease_epoch r;
     lease_expires_at := lease_expires_at r; last_http_status := None;
     last_error_code := None; finished_at := None |}.

(** The transaction of [_retry_dead_sync]. *)
Definition retry_dead_txn (now : pyfloat) (holder : pystr) (expected : Z)
  : txn spool spool_error Z := λ s,
  paused ← meta_paused s;
  _ ← require paused DeliveryAdminConflict;
  current_holder ← meta s "pause_holder";
  _ ← require (bool_decide (current_holder = holder)) DeliveryAdminConflict;
  revision ← meta_int s "revision";
  _ ← require (revision =? expected) DeliveryAdminConflict;
  _ ← require (rowcount (active now) (deliveries s) =? 0) DeliveryAdminConflict;
  _ ← require (negb (is_nan now) || (rowcount (in_state Dead) (deliveries s) =? 0))
        DeliverySpoolUnavailable;
  '(rows, changed) ← sql_update (in_state Dead) (requeue_row now) (deliveries s);
  Ok (changed, Spool rows (next_sequence s) (delivery_meta s)).

(** ** Status *)

Record DeliveryStatus := Status {
  st_paused : bool;
  st_revision : Z;
  st_active_delivery_count : Z;
  st_queued_count : Z;
  st_leased_count : Z;
  st_retry_wait_count : Z;
  st_delivered_count : Z;
  st_rejected_count : Z;
  st_dead_count : Z;
  st_pending_bytes : Z;
  st_retained_body_bytes : Z;
  st_oldest_pending_at : option pyfloat;
  st_last_delivered_at : option pyfloat
}.

(** [MIN] and [MAX] skip [NULL]. *)
Definition sql_min (l : list (option pyfloat)) : option pyfloat :=
  foldl (λ acc x, match acc, x with
                  | Some a, Some x => Some (if flt x a then x else a)
                  | None, x => x
                  | acc, None => acc
                  end) None l.
Definition sql_max (l : list (option pyfloat)) : option pyfloat :=
  foldl (λ acc x, match acc, x with
                  | Some a, Some x => Some (if flt a x then x else a)
                  | None, x => x
                  | acc, None => acc
                  end) None l.

Definition pending (r : delivery) : bool := in_state Queued r || in_state Leased r.

(** [_status_sync] *)
Definition status_sync (now : pyfloat) (s : spool) : M DeliveryStatus :=
  let rows := deliveries s in
  paused ← meta_paused s;
  revision ← meta_int s "revision";
  Ok {| st_paused := paused;
        st_revision := revision;
        st_active_delivery_count := rowcount (active now) rows;
        st_queued_count := rowcount (in_state Queued) rows;
        st_leased_count := rowcount (in_state Leased) rows;
        st_retry_wait_count :=
          rowcount (λ r, in_state Queued r && flt now (next_attempt_at r)) rows;
        st_delivered_count := rowcount (in_state Delivered) rows;
        st_rejected_count := rowcount (in_state Rejected) rows;
        st_dead_count := rowcount (in_state Dead) rows;
        st_pending_bytes := total_bytes (select pending rows);
        st_retained_body_bytes := total_bytes rows;
        st_oldest_pending_at :=
          sql_min (map (λ r, if pending r then Some (received_at r) else None) rows);
        st_last_delivered_at :=
          sql_max (map (λ r, if in_state Delivered r then finished_at r else None) rows) |}.

(** [_active_lease_deadline_sync] *)
Definition active_lease_deadline (now : pyfloat) (s : spool) : option pyfloat :=
  sql_min (map lease_expires_at (select (active now) (deliveries s))).

(** [pause], [resume] and [retry_dead]: the validation, the transaction, then
    the status, at a later clock reading. *)
Definition admin_op {A : Type} (later : pyfloat) (holder : pystr) (expected : Z)
    (body : txn spool spool_error A) (s : spool) : M (A * DeliveryStatus) * spool :=
  match validate_admin_cas holder expected with
  | Err e => (Err e, s)
  | Ok _ =>
      match transact body s with
      | (Ok a, s') => (st ← status_sync later s'; Ok (a, st), s')
      | (Err e, s') => (Err e, s')
      end
  end.

Definition pause later holder expected :=
  admin_op later holder expected (pause_txn holder expected).
Definition resume later holder expected :=
  admin_op later holder expected (resume_txn holder expected).
Definition retry_dead now later holder expected :=
  admin_op later holder expected (retry_dead_txn now holder expected).
