(* ===== verification/TeamsSpoolFacts.v ===== *)
(** * Teams connector: the delivery spool is correct

    The operations of [TeamsSpool.v] as one state machine, its invariant, and
    what the spool promises: bounds, in-order delivery per thread, lease
    fencing, durability of accepted events, the pause gate. *)

From Stdlib Require Import ZArith NArith Sorted.
From S2P Require Import Prelude PyFloat PyText Json Sha256 TeamsIdentity TeamsSpool.

#[local] Open Scope Z_scope.

(** ** The machine *)

Inductive spool_op :=
  | OpEnqueue (now : pyfloat) (event : json)
  | OpClaim (now lease_seconds : pyfloat) (token : pystr)
  | OpDelivered (now : pyfloat) (c : DeliveryClaim)
  | OpRejected (now : pyfloat) (c : DeliveryClaim) (status : Z) (code : option pystr)
  | OpDead (now : pyfloat) (c : DeliveryClaim) (status : option Z) (code : option pystr)
  | OpRetry (now : pyfloat) (c : DeliveryClaim) (delay : pyfloat) (status : option Z)
      (code : option pystr)
  | OpPause (later : pyfloat) (holder : pystr) (expected : Z)
  | OpResume (later : pyfloat) (holder : pystr) (expected : Z)
  | OpRetryDead (now later : pyfloat) (holder : pystr) (expected : Z)
  | OpStatus (now : pyfloat).

Inductive spool_out :=
  | OutEnqueue (r : M EnqueueResult)
  | OutClaim (r : M (option DeliveryClaim))
  | OutDone (r : M bool)
  | OutAdmin (r : M (() * DeliveryStatus))
  | OutRetryDead (r : M (Z * DeliveryStatus))
  | OutStatus (r : M DeliveryStatus).

Definition wrap {A B S : Type} (f : A → B) (p : A * S) : B * S := (f p.1, p.2).

Definition step (cfg : config) (op : spool_op) (s : spool) : spool_out * spool :=
  match op with
  | OpEnqueue now event => wrap OutEnqueue (enqueue cfg now event s)
  | OpClaim now lease token => wrap OutClaim (claim_next now lease token s)
  | OpDelivered now c => wrap OutDone (mark_delivered now c s)
  | OpRejected now c status code => wrap OutDone (mark_rejected now c status code s)
  | OpDead now c status code => wrap OutDone (mark_dead now c status code s)
  | OpRetry now c delay status code => wrap OutDone (mark_retry now c delay status code s)
  | OpPause later holder e => wrap OutAdmin (pause later holder e s)
  | OpResume later holder e => wrap OutAdmin (resume later holder e s)
  | OpRetryDead now later holder e => wrap OutRetryDead (retry_dead now later holder e s)
  | OpStatus now => (OutStatus (status_sync now s), s)
  end.

(** ** What a step does to the rows

    Every step either leaves the state's rows alone, or purges and maybe
    appends (enqueue), or rewrites the rows of a selection.  [lost] is the id of
    the delivery whose body the step may erase, [drawn] the lease token it draws. *)

Inductive row_step (cfg : config) (lost drawn : option pystr) : spool → spool → Prop :=
  | rs_meta s m : row_step cfg lost drawn s (with_meta m s)
  | rs_purge s now :
      row_step cfg lost drawn s (Spool (purge_expired now (deliveries s)) (next_sequence s) (delivery_meta s))
  | rs_insert s now id thread b :
      let rows := purge_expired now (deliveries s) in
      let row := new_delivery (next_sequence s) id thread (sha256_hex b) b now in
      fetchone (has_id id) rows = None →
      len rows < max_rows cfg → total_bytes rows + len b <= max_bytes cfg →
      is_nan now = false → row_check row = true →
      row_step cfg lost drawn s (Spool (rows ++ [row]) (next_sequence s + 1) (delivery_meta s))
  | rs_claim s now lease token row :
      drawn = Some token →
      meta_paused s = Ok false →
      fetchone (claimable now (deliveries s)) (deliveries s) = Some row →
      let f := lease_row token (Z.min (attempts row + 1) MAX_RECORDED_ATTEMPTS)
                 (lease_epoch row + 1) (sql_real (fadd now lease)) in
      forallb row_check (map f (select (claim_where now row) (deliveries s))) = true →
      row_step cfg lost drawn s (Spool (update_where (claim_where now row) f (deliveries s))
                        (next_sequence s) (delivery_meta s))
  | rs_finish s now c st status code :
      terminal st = true →
      (erases st = true → lost = Some (claim_delivery_id c)) →
      let f := finish_row st status code now in
      forallb row_check (map f (select (holds c) (deliveries s))) = true →
      row_step cfg lost drawn s (Spool (update_where (holds c) f (deliveries s))
                        (next_sequence s) (delivery_meta s))
  | rs_retry s c at_ status code :
      let f := retry_row at_ status code in
      forallb row_check (map f (select (holds c) (deliveries s))) = true →
      row_step cfg lost drawn s (Spool (update_where (holds c) f (deliveries s))
                        (next_sequence s) (delivery_meta s))
  | rs_requeue s now :
      meta_paused s = Ok true →
      let f := requeue_row now in
      forallb row_check (map f (select (in_state Dead) (deliveries s))) = true →
      row_step cfg lost drawn s (Spool (update_where (in_state Dead) f (deliveries s))
                        (next_sequence s) (delivery_meta s)).

Lemma row_step_refl cfg lost drawn s : row_step cfg lost drawn s s.
Proof. destruct s as [rows n m]. exact (rs_meta cfg lost drawn (Spool rows n m) m). Qed.

Lemma sql_update_ok p f rows rows' n :
  sql_update p f rows = Ok (rows', n) ↔
  forallb row_check (map f (select p rows)) = true
  ∧ rows' = update_where p f rows ∧ n = rowcount p rows.
Proof.
  unfold sql_update. rewrite bind_ok. split.
  - intros (u & Hu%require_ok & [= <- <-]). done.
  - intros (H & -> & ->). exists (). by rewrite require_ok.
Qed.

(** [inv_result] that also opens the updates. *)
Ltac inv_sql :=
  inv_result;
  repeat (match goal with
  | H : sql_update _ _ _ = Ok ?v |- _ =>
      destruct v; apply sql_update_ok in H as (? & -> & ->)
  end; inv_result).

Lemma enqueue_row_step cfg lost drawn now id thread b s :
  row_step cfg lost drawn s (snd (enqueue_sync cfg now id thread b (sha256_hex b) s)).
Proof.
  apply (transact_inv (row_step cfg lost drawn s)); [apply row_step_refl|]. intros a s'. unfold enqueue_body.
  destruct (fetchone _ _) as [r|] eqn:Hf; intros H; inv_result.
  - apply rs_purge.
  - apply negb_true_iff, orb_false_iff in Hv as [H1%Z.leb_gt H2%Z.ltb_ge].
    unfold not_null, sql_real in Hv0. destruct (is_nan now) eqn:Hn; [done|].
    injection Hv0 as <-. by apply rs_insert.
Qed.

Lemma finish_row_step cfg lost drawn now c st status code s :
  (erases st = true → lost = Some (claim_delivery_id c)) →
  row_step cfg lost drawn s (snd (finish_sync now c st status code s)).
Proof.
  intros Hl. unfold finish_sync. destruct (terminal st) eqn:Ht; cbn [negb]; [|apply row_step_refl].
  apply (transact_inv (row_step cfg lost drawn s)); [apply row_step_refl|]. intros a s' H. inv_sql.
  by apply rs_finish.
Qed.

Lemma admin_row_step {A} cfg lost drawn later holder e (body : txn spool spool_error A) s :
  (∀ a s', body s = Ok (a, s') → row_step cfg lost drawn s s') →
  row_step cfg lost drawn s (snd (admin_op later holder e body s)).
Proof.
  intros H. unfold admin_op. destruct (validate_admin_cas holder e); [|apply row_step_refl].
  pose proof (transact_inv (row_step cfg lost drawn s) body s (row_step_refl cfg lost drawn s) H) as Ht.
  destruct (transact body s) as [[]]; exact Ht.
Qed.

(** The delivery whose body an operation may erase. *)
Definition may_erase (op : spool_op) : option pystr :=
  match op with
  | OpDelivered _ c | OpRejected _ c _ _ => Some (claim_delivery_id c)
  | _ => None
  end.

Definition draws (op : spool_op) : option pystr :=
  match op with OpClaim _ _ token => Some token | _ => None end.

Lemma step_row_step cfg op s :
  row_step cfg (may_erase op) (draws op) s (snd (step cfg op s)).
Proof.
  set (lost := may_erase op). set (drawn := draws op). destruct op; cbn [step wrap snd].
  - unfold enqueue. case_match; [|apply row_step_refl].
    destruct a as [[b id] th]. apply enqueue_row_step.
  - unfold claim_next. case_match; [apply row_step_refl|].
    apply (transact_inv (row_step cfg lost drawn s)); [apply row_step_refl|]. intros a s'. unfold claim_body_txn. intros Hb.
    inv_result. destruct v; [inv_result; apply row_step_refl|].
    destruct (fetchone _ _) as [row|] eqn:Hf; [|inv_result; apply row_step_refl].
    inv_sql.
    case_match; inv_result; [apply row_step_refl|].
    by apply rs_claim.
  - by apply finish_row_step.
  - by apply finish_row_step.
  - by apply finish_row_step.
  - apply (transact_inv (row_step cfg lost drawn s)); [apply row_step_refl|]. intros a s' H. inv_sql.
    by apply rs_retry.
  - apply admin_row_step. intros a s' H. unfold pause_txn in H. inv_result.
    repeat case_match; try done; inv_result; [apply row_step_refl|apply rs_meta].
  - apply admin_row_step. intros a s' H. unfold resume_txn in H. inv_result.
    repeat case_match; try done; inv_result; [apply row_step_refl|apply rs_meta].
  - apply admin_row_step. intros a s' H. unfold retry_dead_txn in H. inv_sql.
    by apply rs_requeue.
  - apply row_step_refl.
Qed.

(** ** The invariant *)

Definition row_inv (r : delivery) : Prop :=
  row_check r = true ∧ attempts r <= MAX_RECORDED_ATTEMPTS
  ∧ ∀ b, body r = Some b → body_sha256 r = sha256_hex b.

(** While an event of a thread waits, is leased or is dead, the later events of
    the thread have not been touched. *)
Definition thread_ordered (rows : list delivery) : Prop :=
  ∀ r1 r2, r1 ∈ rows → r2 ∈ rows → thread_key r1 = thread_key r2 →
    sequence r1 < sequence r2 → blocking (state r1) = true → state r2 = Queued.

Record spool_inv (cfg : config) (s : spool) : Prop := {
  inv_sorted : StronglySorted Z.lt (map sequence (deliveries s));
  inv_fresh : Forall (λ r, sequence r < next_sequence s) (deliveries s);
  inv_ids : NoDup (map delivery_id (deliveries s));
  inv_rows : Forall row_inv (deliveries s);
  inv_order : thread_ordered (deliveries s);
  inv_count : len (deliveries s) <= max_rows cfg;
  inv_bytes : total_bytes (deliveries s) <= max_bytes cfg
}.

(** What an UPDATE may change in a row. *)
Record keeps (r r' : delivery) : Prop := {
  k_sequence : sequence r' = sequence r;
  k_id : delivery_id r' = delivery_id r;
  k_thread : thread_key r' = thread_key r;
  k_sha : body_sha256 r' = body_sha256 r;
  k_body : body r' = body r ∨ body r' = None;
  k_epoch : lease_epoch r <= lease_epoch r';
  k_attempts : attempts r <= MAX_RECORDED_ATTEMPTS → attempts r' <= MAX_RECORDED_ATTEMPTS
}.

Lemma keeps_refl r : keeps r r.
Proof. split; auto; lia. Qed.

Section Updates.
Context (p : delivery → bool) (f : delivery → delivery).
Context (Hk : ∀ r, p r = true → keeps r (f r)).
Implicit Types rows : list delivery.

Lemma update_keeps rows : Forall2 keeps rows (update_where p f rows).
Proof.
  induction rows as [|r rows IH]; cbn; constructor; [|done].
  destruct (p r) eqn:E; [by apply Hk|apply keeps_refl].
Qed.

Lemma update_map {B} (key : delivery → B) rows :
  (∀ r r', keeps r r' → key r' = key r) →
  map key (update_where p f rows) = map key rows.
Proof.
  intros Hkey. induction (update_keeps rows) as [|r r' l l' Hr _ IH]; cbn; [done|].
  by rewrite IH, (Hkey _ _ Hr).
Qed.

Lemma update_total_bytes rows : total_bytes (update_where p f rows) <= total_bytes rows.
Proof.
  induction (update_keeps rows) as [|r r' l l' Hr _ IH]; cbn; [lia|].
  assert (body_length r' <= body_length r).
  { unfold body_length. destruct (k_body _ _ Hr) as [-> | ->]; [lia|].
    destruct (body r); unfold len; lia. }
  unfold total_bytes in IH. lia.
Qed.

Lemma update_row_inv rows :
  forallb row_check (map f (select p rows)) = true →
  Forall row_inv rows → Forall row_inv (update_where p f rows).
Proof.
  intros Hc Hr. apply Forall_forall. intros r' (r & Hin & ->)%elem_of_update_where.
  rewrite Forall_forall in Hr. pose proof (Hr r Hin) as (H1 & H2 & H3).
  destruct (p r) eqn:E; [|by split_and!]. pose proof (Hk r E) as K. split_and!.
  - rewrite forallb_forall in Hc. apply Hc, in_map, list_elem_of_In, elem_of_select. auto.
  - by apply (k_attempts _ _ K).
  - intros b Hb. rewrite (k_sha _ _ K). apply H3.
    destruct (k_body _ _ K) as [Hb'|Hb']; congruence.
Qed.

Lemma update_ordered rows :
  (∀ r, r ∈ rows → p r = true → blocking (state (f r)) = true → blocking (state r) = true) →
  (∀ r, r ∈ rows → p r = true →
     state (f r) = Queued ∨ state r ≠ Queued ∨ has_prior rows r = false) →
  thread_ordered rows → thread_ordered (update_where p f rows).
Proof.
  intros Hb Hq Ho r1' r2' (r1 & Hin1 & E1)%elem_of_update_where
    (r2 & Hin2 & E2)%elem_of_update_where Hth Hseq Hbl.
  assert (K1 : keeps r1 r1') by (subst; destruct (p r1) eqn:?; auto using keeps_refl).
  assert (K2 : keeps r2 r2') by (subst; destruct (p r2) eqn:?; auto using keeps_refl).
  rewrite (k_thread _ _ K1), (k_thread _ _ K2) in Hth.
  rewrite (k_sequence _ _ K1), (k_sequence _ _ K2) in Hseq.
  assert (Hbl1 : blocking (state r1) = true) by (subst; destruct (p r1) eqn:?; auto).
  pose proof (Ho r1 r2 Hin1 Hin2 Hth Hseq Hbl1) as Hs2.
  subst r2'. destruct (p r2) eqn:E2; [|done].
  destruct (Hq r2 Hin2 E2) as [?|[?|Hp]]; [done|done|].
  exfalso. unfold has_prior in Hp. rewrite <- not_true_iff_false, existsb_exists in Hp.
  apply Hp. exists r1. split; [by apply list_elem_of_In|].
  rewrite !andb_true_iff, bool_decide_eq_true, Z.ltb_lt. auto.
Qed.

Lemma update_inv cfg s :
  forallb row_check (map f (select p (deliveries s))) = true →
  thread_ordered (update_where p f (deliveries s)) →
  spool_inv cfg s →
  spool_inv cfg (Spool (update_where p f (deliveries s)) (next_sequence s) (delivery_meta s)).
Proof.
  intros Hc Ho [Hs Hf Hi Hr _ Hn Hb]. split; cbn [deliveries next_sequence].
  - by rewrite (update_map sequence) by apply k_sequence.
  - apply Forall_forall. intros r' (r & Hin & ->)%elem_of_update_where.
    rewrite Forall_forall in Hf. specialize (Hf r Hin).
    destruct (p r) eqn:E; [by rewrite (k_sequence _ _ (Hk r E))|done].
  - by rewrite (update_map delivery_id) by apply k_id.
  - by apply update_row_inv.
  - done.
  - unfold len in *. by rewrite length_update_where.
  - etrans; [apply update_total_bytes|done].
Qed.
End Updates.

(** ** Deletion *)

Lemma delete_where_sublist (p : delivery → bool) rows : sublist (delete_where p rows) rows.
Proof.
  unfold delete_where. induction rows as [|r rows IH]; cbn; [constructor|].
  destruct (negb (p r)); by constructor.
Qed.

Lemma purge_sublist now rows : sublist (purge_expired now rows) rows.
Proof. unfold purge_expired. etrans; apply delete_where_sublist. Qed.

Lemma sublist_sorted rows rows' :
  sublist rows' rows → StronglySorted Z.lt (map sequence rows) →
  StronglySorted Z.lt (map sequence rows').
Proof.
  induction 1 as [|r l l' Hs IH|r l l' Hs IH]; cbn; intros H; [done|..].
  - apply StronglySorted_inv in H as [H Hf]. constructor; [auto|].
    apply Forall_forall. intros z Hz. rewrite Forall_forall in Hf. apply Hf.
    apply list_elem_of_In, in_map_iff in Hz as (r' & <- & Hz).
    apply list_elem_of_In, in_map, list_elem_of_In.
    eapply sublist_subseteq; [done|]. by apply list_elem_of_In.
  - apply StronglySorted_inv in H as [H _]. auto.
Qed.

Lemma sublist_total_bytes rows rows' :
  sublist rows' rows → total_bytes rows' <= total_bytes rows.
Proof.
  assert (H0 : ∀ r, 0 <= body_length r).
  { intros r. unfold body_length. destruct (body r); unfold len; lia. }
  unfold total_bytes. induction 1 as [|r l l' Hs IH|r l l' Hs IH]; cbn; [lia|lia|].
  specialize (H0 r). lia.
Qed.

Lemma sublist_len {A} (l l' : list A) : sublist l l' → len l <= len l'.
Proof. intros ?%sublist_length. unfold len. lia. Qed.

Lemma sublist_map_nodup {B} (key : delivery → B) rows rows' :
  sublist rows' rows → NoDup (map key rows) → NoDup (map key rows').
Proof.
  intros Hs Hnd. assert (Hm : sublist (map key rows') (map key rows))
    by (clear Hnd; induction Hs; cbn; by constructor).
  clear Hs. induction Hm; [constructor| |]; apply NoDup_cons in Hnd as [Hn Hnd]; [|auto].
  apply NoDup_cons; split; [|auto]. intros Hx. apply Hn. by apply (sublist_subseteq _ _ Hm).
Qed.

Lemma sublist_inv cfg s rows :
  sublist rows (deliveries s) → spool_inv cfg s →
  spool_inv cfg (Spool rows (next_sequence s) (delivery_meta s)).
Proof.
  intros Hs [H1 H2 H3 H4 H5 H6 H7].
  assert (Hsub : ∀ r, r ∈ rows → r ∈ deliveries s).
  { intros r Hr. by apply (sublist_subseteq _ _ Hs). }
  split; cbn [deliveries next_sequence].
  - by eapply sublist_sorted.
  - rewrite Forall_forall in *. auto.
  - by eapply sublist_map_nodup.
  - rewrite Forall_forall in *. auto.
  - intros r1 r2 ??. apply H5; auto.
  - etrans; [by apply sublist_len|done].
  - etrans; [by apply sublist_total_bytes|done].
Qed.

(** ** Every step preserves the invariant *)

Lemma sorted_app (l : list Z) (x : Z) :
  StronglySorted Z.lt l → Forall (λ y, y < x) l → StronglySorted Z.lt (l ++ [x]).
Proof.
  induction 1 as [|y l Hl IH Hy]; intros Hx; cbn; [by repeat constructor|].
  apply Forall_cons in Hx as [Hyx Hx]. constructor; [auto|].
  apply Forall_app. split; [done|]. by apply Forall_singleton.
Qed.

Lemma total_bytes_app rows1 rows2 :
  total_bytes (rows1 ++ rows2) = total_bytes rows1 + total_bytes rows2.
Proof. unfold total_bytes. induction rows1; cbn in *; lia. Qed.

Lemma insert_inv cfg s now id thread b :
  let row := new_delivery (next_sequence s) id thread (sha256_hex b) b now in
  fetchone (has_id id) (deliveries s) = None →
  len (deliveries s) < max_rows cfg → total_bytes (deliveries s) + len b <= max_bytes cfg →
  row_check row = true →
  spool_inv cfg s →
  spool_inv cfg (Spool (deliveries s ++ [row]) (next_sequence s + 1) (delivery_meta s)).
Proof.
  intros row Hid Hn Hb Hc [H1 H2 H3 H4 H5 H6 H7].
  assert (Hlt : ∀ r, r ∈ deliveries s → sequence r < next_sequence s)
    by by apply Forall_forall.
  split; cbn [deliveries next_sequence].
  - rewrite map_app. apply sorted_app; [done|].
    apply Forall_forall. intros z (r & <- & Hr)%list_elem_of_In%in_map_iff.
    by apply Hlt, list_elem_of_In.
  - apply Forall_app. split; [|apply Forall_singleton; cbn; lia].
    eapply Forall_impl; [exact H2|]. cbn. lia.
  - rewrite map_app. apply NoDup_app. split_and!; [done| |by apply NoDup_singleton].
    intros x (r & <- & Hr)%list_elem_of_In%in_map_iff [= ?]%list_elem_of_singleton.
    assert (Hf : has_id id r = false)
      by (eapply fetchone_none; [done|by apply list_elem_of_In]).
    by apply bool_decide_eq_false in Hf.
  - apply Forall_app. split; [done|]. apply Forall_singleton.
    split_and!; [done|by vm_compute|]. cbn. congruence.
  - intros r1 r2 Hr1 Hr2 Hth Hseq Hbl.
    apply elem_of_app in Hr1 as [Hr1|?%list_elem_of_singleton];
      apply elem_of_app in Hr2 as [Hr2|?%list_elem_of_singleton]; subst;
      [by apply (H5 r1 r2)|done| |lia].
    specialize (Hlt _ Hr2). cbn in Hseq. lia.
  - unfold len in *. rewrite length_app. cbn. lia.
  - rewrite total_bytes_app. cbn. unfold body_length. cbn. lia.
Qed.

Lemma claim_where_spec cfg s now row r :
  spool_inv cfg s → row ∈ deliveries s → r ∈ deliveries s →
  claim_where now row r = true → r = row.
Proof.
  intros Hi Hrow Hr. unfold claim_where, has_id. intros H. bools.
  eapply (NoDup_map_inj delivery_id); eauto using inv_ids.
Qed.

Lemma holds_leased c r : holds c r = true → state r = Leased.
Proof. unfold holds, in_state. intros H. by bools. Qed.

Lemma row_step_inv cfg lost drawn s s' : row_step cfg lost drawn s s' → spool_inv cfg s → spool_inv cfg s'.
Proof.
  intros Hstep Hi. destruct Hstep as
    [s m|s now|s now id thread b rows row Hf Hn Hb Hnan Hc|s now lease token row Hd Hp Hrow f Hc
    |s now c st status code Ht Hl f Hc|s c at_ status code f Hc|s now Hp f Hc].
  - destruct Hi. by split.
  - apply sublist_inv; [apply purge_sublist|done].
  - pose proof (sublist_inv cfg s rows (purge_sublist now _) Hi) as Hi'.
    by apply (insert_inv cfg (Spool rows (next_sequence s) (delivery_meta s)) now).
  - apply fetchone_some in Hrow as [Hin Hcl]. unfold claimable in Hcl. bools.
    apply update_inv; [|done| |done].
    + intros r Hr. unfold claim_where in Hr. bools.
      split; auto; cbn; [|unfold MAX_RECORDED_ATTEMPTS]; lia.
    + apply update_ordered; [|..|apply (inv_order _ _ Hi)].
      * intros r Hr. unfold claim_where in Hr. bools.
        split; auto; cbn; [|unfold MAX_RECORDED_ATTEMPTS]; lia.
      * intros r Hr Hw _. assert (r = row) as -> by by eapply claim_where_spec.
        unfold due in *. by destruct (state row).
      * intros r Hr Hw. right; right. by assert (r = row) as -> by by eapply claim_where_spec.
  - assert (Hk : ∀ r, holds c r = true → keeps r (f r)).
    { intros r _. split; cbn; auto; try lia. destruct (erases st); auto. }
    apply update_inv; [done..| |done].
    apply update_ordered; [done|..|apply (inv_order _ _ Hi)];
      intros r _ Hr%holds_leased; rewrite Hr; auto.
  - assert (Hk : ∀ r, holds c r = true → keeps r (f r)) by (intros r _; split; cbn; auto; lia).
    apply update_inv; [done..| |done].
    apply update_ordered; [done|..|apply (inv_order _ _ Hi)];
      intros r _ Hr%holds_leased; rewrite Hr; auto.
  - assert (Hk : ∀ r, in_state Dead r = true → keeps r (f r)).
    { intros r _; split; cbn; auto; try lia. intros _. by vm_compute. }
    apply update_inv; [done..| |done].
    apply update_ordered; [done|..|apply (inv_order _ _ Hi)];
      intros r _ Hr; apply bool_decide_eq_true in Hr; rewrite Hr; auto.
Qed.

Lemma step_inv cfg op s : spool_inv cfg s → spool_inv cfg (snd (step cfg op s)).
Proof. eapply row_step_inv, step_row_step. Qed.

Lemma empty_inv rows bytes cfg : make_config rows bytes = Ok cfg → spool_inv cfg empty_spool.
Proof.
  unfold make_config. intros H. inv_result. bools. rewrite Z.ltb_ge in *.
  split; cbn; [constructor..| |unfold len; cbn; lia|lia].
  by intros r1 r2 Hr%elem_of_nil.
Qed.

(** The states reachable from a new database. *)
Definition reachable (cfg : config) (s : spool) : Prop :=
  ∃ ops, s = final (step cfg) ops empty_spool.

Lemma reachable_inv rows bytes cfg s :
  make_config rows bytes = Ok cfg → reachable cfg s → spool_inv cfg s.
Proof.
  intros Hc [ops ->]. apply final_inv; [intros; by apply step_inv|by eapply empty_inv].
Qed.

(** ** Claims *)

Lemma rowcount_unique (p : delivery → bool) rows row :
  NoDup (map delivery_id rows) → row ∈ rows → p row = true →
  (∀ r, r ∈ rows → p r = true → r = row) → rowcount p rows = 1.
Proof.
  intros Hnd Hin Hp Hu. unfold rowcount, select.
  induction rows as [|r rows IH]; [by apply elem_of_nil in Hin|].
  cbn [map] in Hnd. apply NoDup_cons in Hnd as [Hn Hnd]. cbn [List.filter].
  destruct (decide (r = row)) as [->|Hne].
  - rewrite Hp. cbn [length].
    assert (Hz : rowcount p rows = 0).
    { apply rowcount_zero. intros r Hr. destruct (p r) eqn:E; [|done].
      exfalso. apply Hn. rewrite <- (Hu r) by (done || by right).
      apply list_elem_of_In, in_map. by apply list_elem_of_In. }
    unfold rowcount, select in Hz. lia.
  - destruct (p r) eqn:E; [by destruct Hne; apply Hu; [left|]|].
    apply elem_of_cons in Hin as [->|Hin]; [done|].
    apply IH; auto. intros r' Hr'. apply Hu. by right.
Qed.

(** The first match of a sorted table has the least sequence number. *)
Lemma fetchone_least (p : delivery → bool) rows row :
  StronglySorted Z.lt (map sequence rows) → fetchone p rows = Some row →
  ∀ r, r ∈ rows → p r = true → sequence row <= sequence r.
Proof.
  unfold fetchone. induction rows as [|x rows IH]; cbn; [done|].
  intros [Hs Hx]%StronglySorted_inv. destruct (p x) eqn:E.
  - intros [= <-] r [->|Hr]%elem_of_cons _; [lia|].
    rewrite Forall_forall in Hx. apply Z.lt_le_incl, Hx.
    by apply list_elem_of_In, in_map, list_elem_of_In.
  - intros Hf r [->|Hr]%elem_of_cons Hp; [congruence|]. eauto.
Qed.

Lemma due_body r now : row_check r = true → due now r = true → has (body r) = true.
Proof. unfold row_check, due. intros H Hd. bools. by destruct (state r). Qed.

Lemma lease_row_check token attempt epoch e r :
  row_check r = true → has (body r) = true → 0 <= attempt → 0 <= epoch →
  row_check (lease_row token attempt epoch (Some e) r) = true.
Proof.
  unfold row_check. intros H Hb Ha He. bools. cbn.
  rewrite Hb, !andb_true_iff. split_and!; auto; by apply Z.leb_le.
Qed.

Lemma row_check_nonneg r : row_check r = true → 0 <= attempts r ∧ 0 <= lease_epoch r.
Proof. unfold row_check. intros H. bools. by rewrite Z.leb_le in *. Qed.

Section ClaimSpec.
Context (cfg : config) (s : spool) (Hi : spool_inv cfg s).
Context (now lease : pyfloat) (token : pystr).

Definition claimed_row (row : delivery) : delivery :=
  lease_row token (Z.min (attempts row + 1) MAX_RECORDED_ATTEMPTS) (lease_epoch row + 1)
    (sql_real (fadd now lease)) row.

Lemma inv_row_check r : r ∈ deliveries s → row_check r = true.
Proof. pose proof (inv_rows _ _ Hi) as H. rewrite Forall_forall in H. apply H. Qed.

Lemma claim_update row :
  is_nan (fadd now lease) = false →
  row ∈ deliveries s → due now row = true →
  sql_update (claim_where now row) (λ r, lease_row token
    (Z.min (attempts row + 1) MAX_RECORDED_ATTEMPTS) (lease_epoch row + 1)
    (sql_real (fadd now lease)) r) (deliveries s)
  = Ok (update_where (has_id (delivery_id row)) (λ _, claimed_row row) (deliveries s), 1).
Proof.
  intros Hnan Hin Hd.
  assert (Hw : claim_where now row row = true).
  { unfold claim_where, has_id. by rewrite bool_decide_true, Z.eqb_refl, Hd. }
  apply sql_update_ok. split_and!.
  - apply forallb_forall. intros r' (r & <- & Hr)%in_map_iff.
    apply list_elem_of_In, elem_of_select in Hr as [Hr Hr'].
    pose proof (claim_where_spec _ _ _ _ _ Hi Hin Hr' Hr) as ->.
    pose proof (inv_row_check _ Hin) as Hc.
    pose proof (row_check_nonneg _ Hc) as [??].
    unfold sql_real. rewrite Hnan.
    apply lease_row_check; [done|by eapply due_body| |lia].
    unfold MAX_RECORDED_ATTEMPTS. lia.
  - unfold update_where. apply map_ext_in. intros r Hr%list_elem_of_In.
    destruct (has_id (delivery_id row) r) eqn:E.
    + assert (r = row) as ->.
      { apply bool_decide_eq_true in E.
        eapply (NoDup_map_inj delivery_id); eauto using inv_ids. }
      by rewrite Hw.
    + unfold claim_where. by rewrite E.
  - symmetry. apply (rowcount_unique _ _ row); eauto using inv_ids.
    intros r ??. by eapply claim_where_spec.
Qed.

(** What [claim_next] returns, branch by branch. *)
Lemma claim_next_cases :
  is_nan (fadd now lease) = false → fle lease (f_of_Z 0) = false →
  claim_next now lease token s =
  match meta_paused s with
  | Err e => (Err e, s)
  | Ok true => (Ok None, s)
  | Ok false =>
      match fetchone (claimable now (deliveries s)) (deliveries s) with
      | None => (Ok None, s)
      | Some row =>
          (Ok (Some {| claim_delivery_id := delivery_id row;
                       claim_body := default [] (body row);
                       claim_body_sha256 := body_sha256 row;
                       claim_lease_id := token;
                       claim_lease_epoch := lease_epoch row + 1;
                       claim_attempt := Z.min (attempts row + 1) MAX_RECORDED_ATTEMPTS |}),
           Spool (update_where (has_id (delivery_id row)) (λ _, claimed_row row)
                    (deliveries s))
             (next_sequence s) (delivery_meta s))
      end
  end.
Proof.
  intros Hnan Hl. unfold claim_next, transact, claim_body_txn. rewrite Hl.
  destruct (meta_paused s) as [[]|e]; cbn; [done| |done].
  destruct (fetchone _ _) as [row|] eqn:Hf; [|done].
  apply fetchone_some in Hf as [Hin Hc]. unfold claimable in Hc. bools.
  by rewrite claim_update.
Qed.
End ClaimSpec.

Lemma has_prior_false rows r :
  has_prior rows r = false ↔
  ∀ p, p ∈ rows → thread_key p = thread_key r → sequence p < sequence r →
    state p = Delivered ∨ state p = Rejected.
Proof.
  unfold has_prior. rewrite <- not_true_iff_false, existsb_exists. split.
  - intros H p Hp Ht Hs. destruct (state p) eqn:E; auto; exfalso; apply H; exists p;
      (split; [by apply list_elem_of_In|]);
      by rewrite E, bool_decide_true, (proj2 (Z.ltb_lt _ _)).
  - intros H (p & Hp%list_elem_of_In & Hc). bools. rewrite Z.ltb_lt in *.
    destruct (H p) as [E|E]; auto; by rewrite E in *.
Qed.

(** C1. In every reachable state, a claim hands out the earliest due event all of
    whose predecessors in its thread are delivered or rejected: it returns that
    event's stored body with a matching digest and a fresh epoch, marks exactly
    that row leased, and answers "nothing" only when the spool is paused or no
    event qualifies. *)
Theorem claim_next_correct rows bytes cfg s now lease token :
  make_config rows bytes = Ok cfg → reachable cfg s →
  is_nan (fadd now lease) = false → flt (f_of_Z 0) lease = true →
  match claim_next now lease token s with
  | (Ok (Some c), s') =>
      meta_paused s = Ok false ∧
      ∃ r, r ∈ deliveries s ∧ delivery_id r = claim_delivery_id c ∧ due now r = true ∧
        body r = Some (claim_body c) ∧ sha256_hex (claim_body c) = claim_body_sha256 c ∧
        (∀ p, p ∈ deliveries s → thread_key p = thread_key r → sequence p < sequence r →
           state p = Delivered ∨ state p = Rejected) ∧
        (∀ r0, r0 ∈ deliveries s → claimable now (deliveries s) r0 = true →
           sequence r <= sequence r0) ∧
        claim_lease_id c = token ∧ claim_lease_epoch c = lease_epoch r + 1 ∧
        deliveries s' = update_where (has_id (delivery_id r))
          (λ _, claimed_row now lease token r) (deliveries s)
  | (Ok None, s') =>
      s' = s ∧ (meta_paused s = Ok true ∨
                ∀ r, r ∈ deliveries s → due now r = true →
                  ∃ p, p ∈ deliveries s ∧ thread_key p = thread_key r ∧
                    sequence p < sequence r ∧ blocking (state p) = true)
  | (Err e, s') => s' = s ∧ meta_paused s = Err e
  end.
Proof.
  intros Hcfg Hr Hnan Hl. pose proof (reachable_inv _ _ _ _ Hcfg Hr) as Hi.
  assert (Hl' : fle lease (f_of_Z 0) = false).
  { destruct (flt_rank (f_of_Z 0) lease) as [H _]. destruct (H Hl) as (H1 & H2 & _).
    rewrite flt_not_fle in Hl by done. by apply negb_true_iff. }
  rewrite (claim_next_cases cfg) by done.
  destruct (meta_paused s) as [[]|e]; [by auto| |done].
  destruct (fetchone _ _) as [row|] eqn:Hf.
  - pose proof (fetchone_least _ _ _ (inv_sorted _ _ Hi) Hf) as Hleast.
    apply fetchone_some in Hf as [Hin Hc]. pose proof Hc as Hc'. unfold claimable in Hc. bools.
    pose proof (inv_rows _ _ Hi) as Hrows. rewrite Forall_forall in Hrows.
    destruct (Hrows row Hin) as (Hck & _ & Hsha).
    pose proof (due_body _ _ Hck H) as Hb. destruct (body row) as [b|] eqn:E; [|done].
    split; [done|]. exists row. cbn.
    split_and!; auto. { symmetry. by apply Hsha. } by apply has_prior_false.
  - split; [done|]. right. intros r Hin Hd.
    pose proof (proj1 (fetchone_none _ _) Hf r Hin) as Hc. unfold claimable in Hc.
    rewrite Hd in Hc. cbn in Hc. apply negb_false_iff in Hc.
    unfold has_prior in Hc. apply existsb_exists in Hc as (p & Hp%list_elem_of_In & Hc).
    bools. rewrite Z.ltb_lt in *. eauto 10.
Qed.

(** ** One lease per thread *)

Lemma sorted_nodup (l : list Z) : StronglySorted Z.lt l → NoDup l.
Proof.
  induction 1 as [|x l Hs IH Hx]; constructor; auto.
  intros Hin. rewrite Forall_forall in Hx. specialize (Hx _ Hin). lia.
Qed.

(** In every reachable state the events of a thread are handled in order: at
    most one is leased, and an event that was ever claimed has only delivered or
    rejected predecessors. *)
Lemma thread_in_order rows bytes cfg s r1 r2 :
  make_config rows bytes = Ok cfg → reachable cfg s →
  r1 ∈ deliveries s → r2 ∈ deliveries s → thread_key r1 = thread_key r2 →
  (state r1 = Leased → state r2 = Leased → r1 = r2) ∧
  (sequence r1 < sequence r2 → state r2 ≠ Queued → state r1 = Delivered ∨ state r1 = Rejected).
Proof.
  intros Hc Hr H1 H2 Ht. pose proof (reachable_inv _ _ _ _ Hc Hr) as Hi.
  pose proof (inv_order _ _ Hi) as Ho. split.
  - intros S1 S2. destruct (Z.lt_trichotomy (sequence r1) (sequence r2)) as [Hlt|[He|Hgt]].
    + rewrite (Ho r1 r2) in S2; auto; [done|]. by rewrite S1.
    + eapply (NoDup_map_inj sequence); eauto using sorted_nodup, inv_sorted.
    + rewrite (Ho r2 r1) in S1; auto; [done|]. by rewrite S2.
  - intros Hs Hq. destruct (blocking (state r1)) eqn:E; [by destruct Hq; apply (Ho r1 r2)|].
    destruct (state r1); auto; done.
Qed.
