(* ===== verification/TeamsSpoolFencing.v ===== *)
(** * Teams connector: lease fencing and durable acceptance

    A worker that lost its lease cannot complete the delivery, and an accepted
    event keeps its body until a worker reports it delivered or rejected. *)

From Stdlib Require Import ZArith NArith Sorted.
From S2P Require Import Prelude PyFloat PyText Json Sha256 TeamsIdentity TeamsSpool TeamsSpoolFacts.

#[local] Open Scope Z_scope.

(** ** Fencing *)

(** Some row is leased under the claim's token and epoch. *)
Definition live (c : DeliveryClaim) (s : spool) : bool := existsb (holds c) (deliveries s).

Definition completes (c : DeliveryClaim) (op : spool_op) : Prop :=
  match op with
  | OpDelivered _ c' | OpRejected _ c' _ _ | OpDead _ c' _ _ | OpRetry _ c' _ _ _ => c' = c
  | _ => False
  end.

(** The operation does not draw the claim's token again. *)
Definition fresh_token (c : DeliveryClaim) (op : spool_op) : Prop :=
  draws op ≠ Some (claim_lease_id c).

Lemma not_live c s : live c s = false ↔ ∀ r, r ∈ deliveries s → holds c r = false.
Proof.
  unfold live. rewrite <- not_true_iff_false, existsb_exists. split.
  - intros H r Hr. destruct (holds c r) eqn:E; [|done].
    exfalso. apply H. exists r. by rewrite <- list_elem_of_In.
  - intros H (r & Hr%list_elem_of_In & E). by rewrite H in E.
Qed.

Lemma not_live_completes cfg c op s :
  live c s = false → completes c op → step cfg op s = (OutDone (Ok false), s).
Proof.
  intros Hl Hc. rewrite not_live in Hl.
  assert (Hz : rowcount (holds c) (deliveries s) = 0) by by apply rowcount_zero.
  assert (Hs : ∀ f, sql_update (holds c) f (deliveries s) = Ok (deliveries s, 0)).
  { intros f. apply sql_update_ok. split_and!; [|by rewrite update_where_none|done].
    assert (Hn : select (holds c) (deliveries s) = []).
    { unfold rowcount in Hz. by destruct (select (holds c) (deliveries s)). }
    by rewrite Hn. }
  destruct s as [rs n m]. cbn [deliveries] in *.
  destruct op; cbn [completes] in Hc; subst; try done; cbn [step wrap];
    unfold mark_delivered, mark_rejected, mark_dead, mark_retry, finish_sync, retry_sync, transact;
    cbn [terminal negb deliveries next_sequence delivery_meta];
    rewrite ?Hz, ?orb_true_r, ?Hs; done.
Qed.

Lemma holds_not_leased c r : state r ≠ Leased → holds c r = false.
Proof. intros H. destruct (holds c r) eqn:E; [|done]. by apply holds_leased in E. Qed.

Lemma step_not_live cfg c op s :
  fresh_token c op → live c s = false → live c (snd (step cfg op s)) = false.
Proof.
  unfold fresh_token. intros Hf. rewrite !not_live. intros H.
  pose proof (step_row_step cfg op s) as Hs.
  set (s' := snd (step cfg op s)) in *. clearbody s'.
  assert (Hp : ∀ now r, r ∈ purge_expired now (deliveries s) → holds c r = false).
  { intros now r Hr. apply H. by apply (sublist_subseteq _ _ (purge_sublist now _)). }
  assert (Hu : ∀ p f r, (∀ r, holds c (f r) = false) →
    r ∈ update_where p f (deliveries s) → holds c r = false).
  { intros p f r Hn (r0 & Hr & ->)%elem_of_update_where. destruct (p r0); auto. }
  destruct Hs as [s m|s now|s now id thread b rows row|s now lease token row Hd
    |s now c' st status code Ht|s c' at_ status code|s now];
    cbn [deliveries with_meta]; [done|by apply Hp|..].
  - intros r [Hr | ->%list_elem_of_singleton]%elem_of_app; [by eapply Hp|].
    by apply holds_not_leased.
  - intros r. apply Hu. intros r0. unfold holds. cbn.
    rewrite (bool_decide_false (Some token = _)) by congruence. by rewrite !andb_false_r.
  - intros r. apply Hu. intros r0. apply holds_not_leased. by destruct st.
  - intros r. apply Hu. intros r0. by apply holds_not_leased.
  - intros r. apply Hu. intros r0. by apply holds_not_leased.
Qed.

(** A completion that succeeded consumed the lease. *)
Lemma completed_not_live cfg c op s s' :
  completes c op → step cfg op s = (OutDone (Ok true), s') → live c s' = false.
Proof.
  assert (Hu : ∀ f rows, (∀ r, state (f r) ≠ Leased) →
    ∀ r, r ∈ update_where (holds c) f rows → holds c r = false).
  { intros f rows Hf r (r0 & _ & ->)%elem_of_update_where.
    destruct (holds c r0) eqn:E; [|done]. apply holds_not_leased, Hf. }
  assert (Hfin : ∀ now st status code, terminal st = true →
    wrap OutDone (finish_sync now c st status code s) = (OutDone (Ok true), s') →
    live c s' = false).
  { intros now st status code Ht. unfold wrap, finish_sync. rewrite Ht. cbn [negb].
    destruct (transact _ s) as [res s1] eqn:E. cbn. intros [= -> ->].
    apply transact_ok in E. inv_sql. apply not_live, Hu. intros r. by destruct st. }
  intros Hc. destruct op; cbn [completes] in Hc; try done; subst; cbn [step];
    try (by apply Hfin).
  unfold wrap, mark_retry, retry_sync.
  destruct (transact _ s) as [res s1] eqn:E. cbn. intros [= -> ->].
  apply transact_ok in E. inv_sql. by apply not_live, Hu.
Qed.

(** A new claim of the same delivery takes the lease away. *)
Lemma superseded_not_live cfg s now lease token c c' s' :
  spool_inv cfg s → claim_next now lease token s = (Ok (Some c'), s') →
  claim_delivery_id c' = claim_delivery_id c → token ≠ claim_lease_id c →
  live c s' = false.
Proof.
  intros Hi Hn Hid Ht. unfold claim_next in Hn. case_match; [done|].
  apply transact_ok in Hn. unfold claim_body_txn in Hn. inv_result.
  destruct v; [done|]. destruct (fetchone _ _) as [row|] eqn:Hf; [|done].
  inv_sql. case_match; [done|]. inv_result.
  apply fetchone_some in Hf as [Hin Hcl]. unfold claimable in Hcl. bools.
  apply not_live. cbn [deliveries]. intros r (r0 & Hr & ->)%elem_of_update_where.
  destruct (claim_where now row r0) eqn:E.
  - unfold holds. cbn. rewrite (bool_decide_false (Some token = _)) by congruence.
    by rewrite !andb_false_r.
  - destruct (holds c r0) eqn:Hh; [|done]. unfold holds, has_id in Hh. bools. cbn in Hid.
    assert (r0 = row) as ->
      by (eapply (NoDup_map_inj delivery_id); eauto using inv_ids; congruence).
    unfold claim_where, has_id in E. rewrite bool_decide_true, Z.eqb_refl in E by done.
    cbn in E. congruence.
Qed.

(** C2. Leases are fenced: once a claim was completed, or its delivery was handed
    to a later claim, no completion under the old claim is accepted or changes
    the spool, whatever operations come in between, as long as the random lease
    token is not drawn again. *)
Theorem lease_fencing rows bytes cfg s op c o s1 ops op' :
  make_config rows bytes = Ok cfg → reachable cfg s → step cfg op s = (o, s1) →
  (completes c op ∧ o = OutDone (Ok true)
   ∨ ∃ now lease c', op = OpClaim now lease (claim_lease_id c') ∧ o = OutClaim (Ok (Some c'))
       ∧ claim_delivery_id c' = claim_delivery_id c ∧ claim_lease_id c' ≠ claim_lease_id c) →
  Forall (fresh_token c) ops → completes c op' →
  step cfg op' (final (step cfg) ops s1) = (OutDone (Ok false), final (step cfg) ops s1).
Proof.
  intros Hcfg Hr Hs Hlost Hf Hc. apply (not_live_completes _ c); [|done].
  apply (final_inv_if (step cfg) (fresh_token c) (λ s, live c s = false)); [|done|].
  - intros op1 s2. apply step_not_live.
  - destruct Hlost as [[H ->]|(now & lease & c' & -> & -> & Hid & Hne)].
    + by apply (completed_not_live cfg c op s).
    + cbn [step] in Hs. unfold wrap in Hs.
      destruct (claim_next now lease (claim_lease_id c') s) as [res s2] eqn:E.
      cbn in Hs. injection Hs as -> ->.
      eapply superseded_not_live; eauto. by eapply reachable_inv.
Qed.

(** ** Durability *)

(** The spool still holds [b] for the delivery [id]. *)
Definition retained (id thread : pystr) (b : pybytes) (r : delivery) : Prop :=
  delivery_id r = id ∧ thread_key r = thread ∧ body r = Some b.

Lemma purge_keeps_body now rows r :
  row_check r = true → has (body r) = true → r ∈ rows → r ∈ purge_expired now rows.
Proof.
  intros Hc Hb Hr. unfold purge_expired, expired, in_state. unfold row_check in Hc. bools.
  rewrite !elem_of_delete_where. destruct (state r); cbn; auto; by rewrite Hb in *.
Qed.

Lemma update_retained p f rows id thread b r :
  (∀ r, p r = true → keeps r (f r)) →
  (p r = true → body r = Some b → body (f r) = Some b) →
  r ∈ rows → retained id thread b r →
  ∃ r', r' ∈ update_where p f rows ∧ retained id thread b r'.
Proof.
  intros Hk Hb Hr (H1 & H2 & H3). exists (if p r then f r else r).
  split; [apply elem_of_update_where; eauto|].
  destruct (p r) eqn:E; [|done]. pose proof (Hk r E) as K.
  split_and!; [by rewrite (k_id _ _ K)|by rewrite (k_thread _ _ K)|auto].
Qed.

Lemma step_retained cfg op s id thread b :
  spool_inv cfg s → may_erase op ≠ Some id →
  (∃ r, r ∈ deliveries s ∧ retained id thread b r) →
  ∃ r, r ∈ deliveries (snd (step cfg op s)) ∧ retained id thread b r.
Proof.
  intros Hi Hne (r & Hr & Hb). pose proof (step_row_step cfg op s) as Hs.
  set (s' := snd (step cfg op s)) in *. clearbody s'.
  pose proof (inv_row_check _ _ Hi r Hr) as Hc.
  assert (Hp : ∀ now, r ∈ purge_expired now (deliveries s)).
  { intros now. apply purge_keeps_body; auto. by destruct Hb as (_ & _ & ->). }
  destruct Hs as [s m|s now|s now id' thread' b' rows row|s now lease token row Hd _ Hf f Hck
    |s now c st status code Ht Hl f Hck|s c at_ status code f Hck|s now Hpa f Hck];
    cbn [deliveries with_meta]; eauto.
  - exists r. split; [|done]. apply elem_of_app. left. apply Hp.
  - apply update_retained with r; auto. intros r0 Hw.
    unfold claim_where in Hw. bools. rewrite Z.eqb_eq in *.
    split; cbn; auto; unfold MAX_RECORDED_ATTEMPTS; lia.
  - apply update_retained with r; auto.
    + intros r0 _. split; cbn; auto; try lia. destruct (erases st); auto.
    + intros Hh _. subst f. cbn. destruct (erases st); [|by destruct Hb as (_ & _ & ->)].
      exfalso. apply Hne. rewrite Hl by done. unfold holds, has_id in Hh. bools.
      destruct Hb as (<- & _). congruence.
  - apply update_retained with r; auto. intros r0 _. split; cbn; auto; lia.
  - apply update_retained with r; auto. intros r0 _.
    split; cbn; auto; try lia. intros _. by vm_compute.
Qed.

Lemma hash_enqueue cfg now event s r s' :
  enqueue cfg now event s = (Ok r, s') →
  ∃ b id thread, canonical_event_body event = Ok b ∧ stable_delivery_id event = Ok id ∧
    stable_thread_key event = Ok thread ∧ b ≠ [] ∧ len b <= MAX_EVENT_BYTES ∧
    enqueue_body cfg now id thread b (sha256_hex b) s = Ok (r, s').
Proof.
  unfold enqueue. case_match eqn:E; [|done]. destruct a as [[b id] thread].
  intros H%transact_ok. inv_result. bools. rewrite Z.leb_le in *. naive_solver.
Qed.

(** The transaction of [enqueue] on a delivery that the spool retains. *)
Lemma enqueue_body_retained cfg now id thread b s :
  spool_inv cfg s → (∃ r, r ∈ deliveries s ∧ retained id thread b r) →
  enqueue_body cfg now id thread b (sha256_hex b) s
  = Ok (Enqueued id true,
        Spool (purge_expired now (deliveries s)) (next_sequence s) (delivery_meta s)).
Proof.
  intros Hi (r & Hr & Hid & Hth & Hb). unfold enqueue_body.
  pose proof (inv_row_check _ _ Hi r Hr) as Hc.
  assert (Hp : r ∈ purge_expired now (deliveries s))
    by (apply purge_keeps_body; auto; by rewrite Hb).
  destruct (fetchone _ _) as [r0|] eqn:Hf.
  - apply fetchone_some in Hf as [Hin Hid0%bool_decide_eq_true].
    apply (sublist_subseteq _ _ (purge_sublist now _)) in Hin.
    assert (r0 = r) as ->
      by (apply (NoDup_map_inj delivery_id (deliveries s)); eauto using inv_ids; congruence).
    pose proof (inv_rows _ _ Hi) as Hrows. rewrite Forall_forall in Hrows.
    destruct (Hrows r Hr) as (_ & _ & Hsha). by rewrite (Hsha b Hb), bool_decide_true.
  - apply fetchone_none with (r := r) in Hf; [|done].
    unfold has_id in Hf. by rewrite bool_decide_true in Hf.
Qed.

(** C3. An accepted event is durable and idempotent: from the moment [enqueue]
    answers, and until an operation reports this very delivery as delivered or
    rejected, the spool holds the event's canonical body under its id and thread,
    whatever else happens; and a redelivery of the event is answered as a
    duplicate, with no row added. *)
Theorem accepted_event_durable rows bytes cfg s now event r s1 :
  make_config rows bytes = Ok cfg → reachable cfg s →
  enqueue cfg now event s = (Ok r, s1) → duplicate r = false →
  ∃ b thread, canonical_event_body event = Ok b ∧ stable_thread_key event = Ok thread ∧
  stable_delivery_id event = Ok (enqueue_delivery_id r) ∧
  ∀ ops, Forall (λ op, may_erase op ≠ Some (enqueue_delivery_id r)) ops →
    let s2 := final (step cfg) ops s1 in
    (∃ row, row ∈ deliveries s2 ∧ delivery_id row = enqueue_delivery_id r ∧
       thread_key row = thread ∧ body row = Some b) ∧
    ∀ later, enqueue cfg later event s2
      = (Ok (Enqueued (enqueue_delivery_id r) true),
         Spool (purge_expired later (deliveries s2)) (next_sequence s2) (delivery_meta s2)).
Proof.
  intros Hcfg Hr He Hd. pose proof (reachable_inv _ _ _ _ Hcfg Hr) as Hi.
  pose proof (step_inv cfg (OpEnqueue now event) s Hi) as Hi1.
  cbn [step wrap snd] in Hi1. rewrite He in Hi1. cbn in Hi1.
  apply hash_enqueue in He as (b & id & thread & Hb & Hid & Hth & Hne & Hlen & Hbody).
  exists b, thread.
  assert (Hret : enqueue_delivery_id r = id ∧
    ∃ row, row ∈ deliveries s1 ∧ retained id thread b row).
  { unfold enqueue_body in Hbody. destruct (fetchone _ _); inv_result; [done|].
    split; [done|]. eexists. split; [apply elem_of_app; right; by left|]. done. }
  destruct Hret as [-> Hret]. split_and!; [done..|]. intros ops Hops s2.
  assert (H2 : spool_inv cfg s2 ∧ ∃ row, row ∈ deliveries s2 ∧ retained id thread b row).
  { apply (final_inv_if (step cfg) (λ op, may_erase op ≠ Some id)
      (λ s, spool_inv cfg s ∧ ∃ row, row ∈ deliveries s ∧ retained id thread b row));
      [|exact Hops|done].
    intros op s3 Hop [H3 H4]. split; [by apply step_inv|by apply step_retained]. }
  destruct H2 as [Hi2 H2]. split; [exact H2|]. intros later. unfold enqueue.
  rewrite Hb. cbn. rewrite bool_decide_false, (proj2 (Z.leb_le _ _) Hlen) by done. cbn.
  rewrite Hid. cbn. rewrite Hth. cbn. unfold enqueue_sync.
  by apply transact_ok, enqueue_body_retained.
Qed.
