(* ===== verification/TeamsSpoolGate.v ===== *)
(** * Teams connector: the pause gate

    The four rows of [delivery_meta] implement an abstract gate: an optional
    holder, the last holder that resumed, and a revision.  The administrative
    operations are compare-and-swap steps of that gate; no other operation moves
    it, and while it is closed nothing is claimed. *)

From Stdlib Require Import ZArith NArith Sorted.
From S2P Require Import Prelude PyFloat PyText Json Sha256 TeamsIdentity TeamsSpool TeamsSpoolFacts.

#[local] Open Scope Z_scope.

(** ** The abstract gate *)

Record gate := Gate {
  g_holder : option pystr;
  g_last : pystr;
  g_revision : Z
}.

Definition open_gate : gate := Gate None [] 0.

Definition gate_pause (h : pystr) (e : Z) (g : gate) : M gate :=
  match g_holder g with
  | Some h' =>
      if bool_decide (h' = h) && ((e =? g_revision g) || (e =? g_revision g - 1))
      then Ok g else Err DeliveryAdminConflict
  | None =>
      if bool_decide (g_last g = h) || negb (e =? g_revision g)
      then Err DeliveryAdminConflict else Ok (Gate (Some h) [] (g_revision g + 1))
  end.

Definition gate_resume (h : pystr) (e : Z) (g : gate) : M gate :=
  match g_holder g with
  | None =>
      if bool_decide (g_last g = h) && ((e =? g_revision g) || (e =? g_revision g - 1))
      then Ok g else Err DeliveryAdminConflict
  | Some h' =>
      if negb (bool_decide (h' = h)) || negb (e =? g_revision g)
      then Err DeliveryAdminConflict else Ok (Gate None h (g_revision g + 1))
  end.

(** The step of the gate that an operation of the spool is. *)
Definition gate_step (op : spool_op) (g : gate) : M gate :=
  match op with
  | OpPause _ h e => _ ← validate_admin_cas h e; gate_pause h e g
  | OpResume _ h e => _ ← validate_admin_cas h e; gate_resume h e g
  | _ => Ok g
  end.

Definition gate_after (r : M gate) (g : gate) : gate :=
  match r with Ok g' => g' | Err _ => g end.

Definition gate_next (op : spool_op) (g : gate) : gate := gate_after (gate_step op g) g.

Definition is_admin_op (op : spool_op) : bool :=
  match op with OpPause _ _ _ | OpResume _ _ _ => true | _ => false end.

(** ** Its representation *)

Definition gate_meta (g : gate) : gmap pystr pystr :=
  {[ lit "paused" := lit (if has (g_holder g) then "1" else "0");
     lit "revision" := str_of_Z (g_revision g);
     lit "pause_holder" := default [] (g_holder g);
     lit "last_resumed_holder" := g_last g ]}.

Definition at_gate (g : gate) (s : spool) : Prop := delivery_meta s = gate_meta g.

Lemma at_gate_meta g s :
  at_gate g s →
  meta_paused s = Ok (has (g_holder g)) ∧ meta_int s "revision" = Ok (g_revision g)
  ∧ meta s "pause_holder" = Ok (default [] (g_holder g))
  ∧ meta s "last_resumed_holder" = Ok (g_last g).
Proof.
  intros H. unfold meta_int, meta_paused, meta. rewrite H.
  change (gate_meta g !! lit "paused")
    with (Some (lit (if has (g_holder g) then "1" else "0"))).
  change (gate_meta g !! lit "revision") with (Some (str_of_Z (g_revision g))).
  split_and!; [by destruct (g_holder g)| |done|done].
  cbn. by rewrite Z_of_str_of_Z.
Qed.

Lemma gate_meta_moved g paused revision holder last :
  set_meta "revision" revision
    (set_meta "last_resumed_holder" last
      (set_meta "pause_holder" holder (set_meta "paused" paused (gate_meta g))))
  = {[ lit "paused" := paused; lit "revision" := revision;
       lit "pause_holder" := holder; lit "last_resumed_holder" := last ]}.
Proof. reflexivity. Qed.

Lemma pause_txn_refines g h e s :
  at_gate g s →
  pause_txn h e s = g' ← gate_pause h e g; Ok ((), with_meta (gate_meta g') s).
Proof.
  intros Hg. pose proof (at_gate_meta _ _ Hg) as (Hp & Hr & Hc & Hl).
  unfold pause_txn, gate_pause. rewrite Hr, Hp, Hc, Hl. cbn [mbind result_bind].
  rewrite Hg, gate_meta_moved.
  destruct (g_holder g) as [h'|] eqn:E; cbn.
  - case_match; [|done]. cbn. rewrite <- Hg. by destruct s.
  - by destruct (bool_decide _ || _).
Qed.

Lemma resume_txn_refines g h e s :
  at_gate g s →
  resume_txn h e s = g' ← gate_resume h e g; Ok ((), with_meta (gate_meta g') s).
Proof.
  intros Hg. pose proof (at_gate_meta _ _ Hg) as (Hp & Hr & Hc & Hl).
  unfold resume_txn, gate_resume. rewrite Hr, Hp, Hc, Hl. cbn [mbind result_bind].
  rewrite Hg, gate_meta_moved.
  destruct (g_holder g) as [h'|] eqn:E; cbn.
  - by destruct (negb _ || _).
  - case_match; [|done]. cbn. rewrite <- Hg. by destruct s.
Qed.


(** ** The refinement *)

(** The answer of an administrative operation: the gate's refusal, or the status
    of the state it leaves. *)
Definition admin_answer (r : M gate) (later : pyfloat) (s' : spool) : M (() * DeliveryStatus) :=
  _ ← r; st ← status_sync later s'; Ok ((), st).

Lemma admin_refines later h e body s g (move : gate → M gate) :
  body s = (g' ← move g; Ok ((), with_meta (gate_meta g') s)) → at_gate g s →
  let r := (_ ← validate_admin_cas h e; move g) in
  let s' := with_meta (gate_meta (gate_after r g)) s in
  admin_op later h e body s = (admin_answer r later s', s').
Proof.
  intros Hb Hg. cbv zeta. unfold admin_op, admin_answer.
  assert (Hs : with_meta (gate_meta g) s = s) by (rewrite <- Hg; by destruct s).
  destruct (validate_admin_cas h e) as [[]|x]; cbn [mbind result_bind gate_after];
    [|by rewrite Hs].
  unfold transact. rewrite Hb.
  destruct (move g) as [g'|x]; cbn [mbind result_bind gate_after]; [done|by rewrite Hs].
Qed.

Lemma transact_meta {A} (body : txn spool spool_error A) s :
  (∀ a s', body s = Ok (a, s') → delivery_meta s' = delivery_meta s) →
  delivery_meta (snd (transact body s)) = delivery_meta s.
Proof. by apply (transact_inv (λ s', delivery_meta s' = delivery_meta s)). Qed.

Lemma step_meta cfg op s :
  is_admin_op op = false → delivery_meta (snd (step cfg op s)) = delivery_meta s.
Proof.
  intros Ha. destruct op; cbn [is_admin_op] in Ha; try done; cbn [step wrap snd].
  - unfold enqueue. case_match; [|done]. destruct a as [[b id] th].
    apply transact_meta. intros r s' H1. unfold enqueue_body in H1.
    case_match; inv_result; done.
  - unfold claim_next. case_match; [done|].
    apply transact_meta. intros r s' H1. unfold claim_body_txn in H1. inv_result.
    destruct v; [by inv_result|]. case_match; inv_sql; [|done].
    case_match; by inv_result.
  - apply transact_meta. intros r s' H1. by inv_sql.
  - apply transact_meta. intros r s' H1. by inv_sql.
  - apply transact_meta. intros r s' H1. by inv_sql.
  - apply transact_meta. intros r s' H1. by inv_sql.
  - unfold retry_dead, admin_op. case_match; [|done].
    pose proof (transact_meta (retry_dead_txn now holder expected) s) as Hm.
    destruct (transact _ s) as [[]]; cbn [snd] in *; apply Hm; intros r s' H1;
      unfold retry_dead_txn in H1; by inv_sql.
Qed.

Lemma gate_step_ok cfg op g s :
  at_gate g s → at_gate (gate_next op g) (snd (step cfg op s)).
Proof.
  intros Hg. destruct (is_admin_op op) eqn:Ha.
  - destruct op; cbn [is_admin_op] in Ha; try done; cbn [step wrap snd].
    + unfold pause. by rewrite (admin_refines _ _ _ _ _ g (gate_pause holder expected))
        by auto using pause_txn_refines.
    + unfold resume. by rewrite (admin_refines _ _ _ _ _ g (gate_resume holder expected))
        by auto using resume_txn_refines.
  - unfold at_gate. rewrite step_meta, Hg by done. by destruct op.
Qed.

Lemma reachable_gate cfg s : reachable cfg s → ∃ g, at_gate g s.
Proof.
  intros [ops ->]. apply (final_inv (step cfg) (λ s, ∃ g, at_gate g s)).
  - intros op s [g Hg]. eauto using gate_step_ok.
  - by exists open_gate.
Qed.


(** Only the holder's own resume opens a closed gate. *)
Lemma gate_stays_closed op g h :
  g_holder g = Some h → (∀ later e, op ≠ OpResume later h e) →
  g_holder (gate_next op g) = Some h.
Proof.
  intros Hg Hop. unfold gate_next, gate_step.
  destruct op as [| | | | | |later h' e|later h' e| |]; try done;
    destruct (validate_admin_cas h' e) as [[]|x]; try done; cbn [mbind result_bind].
  - unfold gate_pause. rewrite Hg. by case_match.
  - unfold gate_resume. rewrite Hg. destruct (decide (h = h')) as [->|Hn].
    + by destruct (Hop later e).
    + by rewrite (bool_decide_false _ Hn).
Qed.

(** A pause is exclusive: once [pause] answered for a holder, and until that
    holder resumes, nothing is claimed and every other holder is refused. *)
Lemma pause_is_exclusive cfg s later h e st s1 ops :
  reachable cfg s → step cfg (OpPause later h e) s = (OutAdmin (Ok ((), st)), s1) →
  Forall (λ op, ∀ later' e', op ≠ OpResume later' h e') ops →
  let s2 := final (step cfg) ops s1 in
  st_paused st = true ∧
  (∀ now lease token, fle lease (f_of_Z 0) = false →
     step cfg (OpClaim now lease token) s2 = (OutClaim (Ok None), s2)) ∧
  (∀ later' h' e', h' ≠ h →
     step cfg (OpPause later' h' e') s2 = (OutAdmin (Err DeliveryAdminConflict), s2) ∧
     step cfg (OpResume later' h' e') s2 = (OutAdmin (Err DeliveryAdminConflict), s2)).
Proof.
  intros [g Hg]%reachable_gate Hp Hops s2.
  cbn [step] in Hp. unfold pause in Hp.
  rewrite (admin_refines _ _ _ _ _ g (gate_pause h e)) in Hp by auto using pause_txn_refines.
  unfold wrap, admin_answer in Hp. cbn [fst snd] in Hp. injection Hp as Hp Hs1.
  apply bind_ok in Hp as (g1 & Hg1 & Hp). rewrite Hg1 in Hs1. cbn [gate_after] in Hs1.
  assert (Hh1 : g_holder g1 = Some h).
  { apply bind_ok in Hg1 as ([] & _ & Hg1). unfold gate_pause in Hg1.
    destruct (g_holder g) as [h'|] eqn:E; case_match; inv_result; [|done].
    bools. congruence. }
  assert (Ha1 : at_gate g1 s1) by by rewrite <- Hs1.
  assert (H2 : ∃ g2, at_gate g2 s2 ∧ g_holder g2 = Some h).
  { apply (final_inv_if (step cfg) (λ op, ∀ later' e', op ≠ OpResume later' h e')
      (λ s, ∃ g2, at_gate g2 s ∧ g_holder g2 = Some h)); [|done|by exists g1].
    intros op s3 Hop (g3 & Hg3 & Hh3). exists (gate_next op g3).
    split; [by apply gate_step_ok|by apply gate_stays_closed]. }
  destruct H2 as (g2 & Hg2 & Hh2). clear Hops.
  pose proof (at_gate_meta _ _ Hg2) as (Hpa & _).
  split_and!.
  - rewrite Hg1 in Hp. cbn [gate_after] in Hp. rewrite Hs1 in Hp.
    apply bind_ok in Hp as (st' & Hst & [= <-]). unfold status_sync in Hst. inv_result. cbn.
    apply at_gate_meta in Ha1 as (Hpa1 & _). rewrite Hpa1, Hh1 in Hv. by injection Hv.
  - intros now lease token Hl. cbn [step]. unfold claim_next. rewrite Hl.
    unfold transact, claim_body_txn. by rewrite Hpa, Hh2.
  - assert (Hs : with_meta (gate_meta g2) s2 = s2) by (rewrite <- Hg2; by destruct s2).
    intros later' h' e' Hne. cbn [step]. unfold pause, resume.
    rewrite (admin_refines _ _ _ _ _ g2 (gate_pause h' e')) by auto using pause_txn_refines.
    rewrite (admin_refines _ _ _ _ _ g2 (gate_resume h' e')) by auto using resume_txn_refines.
    unfold gate_pause, gate_resume. rewrite Hh2, (bool_decide_false (h = h')) by done.
    destruct (validate_admin_cas h' e') as [[]|x] eqn:E;
      cbn [mbind result_bind gate_after negb orb andb]; rewrite Hs; [done|].
    unfold validate_admin_cas in E. apply bind_err in E as [E|(? & _ & E)];
      by apply require_err in E as [_ <-].
Qed.
