(* ===== verification/TeamsNavigator.v ===== *)
(** * Teams connector: admission at the Navigator and the delivery worker

    [NavigatorEventClient.submit_body] of [teams_connector/navigator.py]: the
    signed request, and how an HTTP response becomes an [AdmissionResult] or a
    [NavigatorAdmissionUnavailable].  [NavigatorDeliveryWorker._forward] and
    [_run] of [teams_connector/delivery_spool.py]: what one pass of the delivery
    loop does to the spool.  What the HTTP client returns is an argument. *)

From Stdlib Require Import ZArith NArith SpecFloat.
From S2P Require Import Prelude PyFloat PyFloatText PyText Json Sha256 TeamsIdentity TeamsSpool.

#[local] Open Scope Z_scope.

(** ** Retry delays *)

(** [_retry_after_seconds] *)
Definition retry_after_seconds (value : option pystr) : option pyfloat :=
  match value with
  | None => None
  | Some text =>
      match py_float text with
      | None => None
      | Some seconds =>
          if flt seconds (f_of_Z 0) || flt (f_of_Z (24 * 60 * 60)) seconds
          then None else Some seconds
      end
  end.

(** ** The request *)

Definition EVENT_ROUTE : pystr := lit "/internal/v1/connectors/teams/events".

Record request := Request {
  req_body : pybytes;
  req_key_id : pystr;
  req_timestamp : pystr;
  req_signature : pystr
}.

Record navigator := Navigator { nav_key_id : pystr; nav_hmac_key : pybytes }.

(** [NavigatorEventClient.__init__]'s check of the key. *)
Definition make_navigator (key_id : pystr) (key : pybytes) : result spool_error navigator :=
  _ ← require (negb (len key <? 32)) ValueErr; Ok (Navigator key_id key).

(** The headers of [submit_body]; [time] is [int(self._clock())], whose decimal
    text is ASCII. *)
Definition sign_request (nav : navigator) (time : Z) (raw_body : pybytes) : request :=
  let timestamp := str_of_Z time in
  {| req_body := raw_body; req_key_id := nav_key_id nav; req_timestamp := timestamp;
     req_signature :=
       lit "v1=" ++ hexdigest (hmac_sha256 (nav_hmac_key nav) (timestamp ++ 46%N :: raw_body)) |}.

(** ** The response *)

Record response := Response {
  status_code : Z;
  json_body : option json;  (* [response.json()]; [None] when it raises *)
  retry_after : option pystr  (* the [Retry-After] header *)
}.

(** How the POST ends: a response, [TimeoutError], [httpx.HTTPError] or another
    exception. *)
Inductive http_outcome :=
  | Answered (r : response)
  | TimedOut
  | HttpError
  | OtherError.

Record AdmissionResult := Admission {
  accepted : bool;
  adm_duplicate : bool;
  adm_status_code : Z;
  terminal_rejection : bool;
  adm_code : option pystr
}.

Inductive submit_error :=
  | NavigatorAdmissionUnavailable (retryable : bool) (status : option Z)
      (code : option pystr) (retry_after : option pyfloat)
  | SubmitValueError
  | SubmitOther.

Definition TERMINAL_BUSINESS_REJECTIONS : list pystr :=
  [lit "TEAMS_TENANT_NOT_ALLOWED"; lit "TEAMS_TEAM_NOT_ALLOWED";
   lit "WORK_TEAMS_PRIVATE_INSTALLATION_FORBIDDEN"].

(** [_response_error_facts]: the three fields of an object, or [{}]. *)
Definition response_error_facts (r : response) : json :=
  match json_body r with
  | Some (JObj kvs) =>
      let field k := (lit k, default JNull (assoc (lit k) kvs)) in
      JObj [field "code"; field "terminal"; field "sourceAuthenticated"]
  | _ => JObj []
  end.

Definition is_true (v : option json) : bool :=
  match v with Some (JBool true) => true | _ => false end.

(** [re.fullmatch(r"[A-Z0-9_.-]{1,100}", code)], else ["UNKNOWN"]. *)
Definition safe_code (v : option json) : pystr :=
  match v with
  | Some (JStr code) =>
      if (1 <=? len code) && (len code <=? 100) && forallb code_char code
      then code else lit "UNKNOWN"
  | _ => lit "UNKNOWN"
  end.

(** What [submit_body] makes of a response. *)
Definition classify (r : response) : result submit_error AdmissionResult :=
  if (200 <=? status_code r) && (status_code r <? 300) then
    Ok (Admission true
          match json_body r with
          | Some (JObj kvs) => is_true (json_get (lit "duplicate") (JObj kvs))
          | _ => false
          end (status_code r) false None)
  else
    let body := response_error_facts r in
    let code := safe_code (json_get (lit "code") body) in
    let authenticated := is_true (json_get (lit "sourceAuthenticated") body) in
    if (status_code r =? 403) && is_true (json_get (lit "terminal") body) && authenticated
       && bool_decide (code ∈ TERMINAL_BUSINESS_REJECTIONS)
    then Ok (Admission false false (status_code r) true (Some code))
    else
      let source_auth_retry :=
        (status_code r =? 401) || ((status_code r =? 403) && negb authenticated) in
      let retryable :=
        source_auth_retry
        || ((300 <=? status_code r) && (status_code r <? 400))
        || ((status_code r =? 408) || (status_code r =? 425) || (status_code r =? 429))
        || (500 <=? status_code r) in
      Err (NavigatorAdmissionUnavailable retryable (Some (status_code r)) (Some code)
             (retry_after_seconds (retry_after r))).

(** [submit_body], with [post] the HTTP client. *)
Definition submit_body (nav : navigator) (time : Z) (post : request → http_outcome)
    (raw_body : pybytes) : result submit_error AdmissionResult :=
  if bool_decide (raw_body = []) then Err SubmitValueError else
  match post (sign_request nav time raw_body) with
  | Answered r => classify r
  | TimedOut | HttpError => Err (NavigatorAdmissionUnavailable true None None None)
  | OtherError => Err SubmitOther
  end.

(** ** The worker *)

(** What [self._submit_body(claim.body)] under [asyncio.timeout] gives; the
    worker's own deadline raises [TimeoutError]. *)
Inductive submit_outcome :=
  | Submitted (r : result submit_error AdmissionResult)
  | DeadlineExceeded
  | Cancelled.

(** How [_forward] leaves: normally, or with an exception. *)
Inductive forward_error := ForwardCancelled | ForwardSpool (e : spool_error).

Definition spool_result (p : result spool_error bool * spool)
  : result forward_error bool * spool :=
  match p with
  | (Ok b, s) => (Ok b, s)
  | (Err e, s) => (Err (ForwardSpool e), s)
  end.

(** [_forward] *)
Definition forward (now : pyfloat) (c : DeliveryClaim) (o : submit_outcome) (s : spool)
  : result forward_error bool * spool :=
  match o with
  | Submitted (Err (NavigatorAdmissionUnavailable retryable status code ra)) =>
      if retryable then
        spool_result (mark_retry now c (retry_delay_seconds (claim_attempt c) ra) status code s)
      else spool_result (mark_dead now c status code s)
  | Cancelled => (Err ForwardCancelled, s)
  | DeadlineExceeded =>
      spool_result (mark_retry now c (retry_delay_seconds (claim_attempt c) None) None
                      (Some (lit "NAVIGATOR_TOTAL_TIMEOUT")) s)
  | Submitted (Err (SubmitValueError | SubmitOther)) =>
      spool_result (mark_retry now c (retry_delay_seconds (claim_attempt c) None) None
                      (Some (lit "DELIVERY_CLIENT_ERROR")) s)
  | Submitted (Ok a) =>
      if accepted a then spool_result (mark_delivered now c s)
      else if terminal_rejection a then
        spool_result (mark_rejected now c (adm_status_code a) (adm_code a) s)
      else
        spool_result (mark_dead now c (Some (adm_status_code a))
          (match adm_code a with
           | None | Some [] => Some (lit "UNEXPECTED_NAVIGATOR_RESULT")
           | code => code
           end) s)
  end.

(** The surroundings of one pass of [_run]: the clock when it claims and when it
    completes, the lease token, and what submitting a body gives. *)
Record pass := Pass {
  claim_time : pyfloat;
  finish_time : pyfloat;
  lease_token : pystr;
  submit : pybytes → submit_outcome
}.

(** How a pass of the loop ends. *)
Inductive pass_end := Waited | Forwarded (c : DeliveryClaim) | SpoolFailed | Stopped.

(** One pass of [_run]'s loop: an exception of the spool is logged and the loop
    goes on; [CancelledError] ends it.  [ValueErr] and [UnicodeError] are no
    [DeliverySpoolError], so they end it too. *)
Definition caught (e : spool_error) : bool :=
  match e with UnicodeError | ValueErr => false | _ => true end.

Definition run_pass (lease_seconds : pyfloat) (p : pass) (s : spool) : pass_end * spool :=
  let failed e := if caught e then SpoolFailed else Stopped in
  match meta_paused s with
  | Err e => (failed e, s)
  | Ok true => (Waited, s)
  | Ok false =>
      match claim_next (claim_time p) lease_seconds (lease_token p) s with
      | (Err e, s) => (failed e, s)
      | (Ok None, s) => (Waited, s)
      | (Ok (Some c), s) =>
          match forward (finish_time p) c (submit p (claim_body c)) s with
          | (Ok _, s) => (Forwarded c, s)
          | (Err (ForwardSpool e), s) => (failed e, s)
          | (Err ForwardCancelled, s) => (Stopped, s)
          end
      end
  end.

(** [__init__]'s lease time: [max(15.0, timeout * 2.0 + 1.0)]. *)
Definition worker_lease_seconds (timeout : pyfloat) : pyfloat :=
  py_max (f_of_Z 15) (fadd (fmul timeout (f_of_Z 2)) (f_of_Z 1)).
