(* ===== verification/TeamsWorkerFacts.v ===== *)
(** * Teams connector: the delivery worker is correct

    How responses are classified, what a forward may do to the spool, and that a
    worker whose Navigator accepts drains the queue. *)

From Stdlib Require Import ZArith NArith Sorted.
From S2P Require Import Prelude PyFloat PyText Json Sha256 TeamsIdentity TeamsSpool TeamsSpoolFacts.
From S2P Require Import TeamsSpoolFencing TeamsNavigator.

#[local] Open Scope Z_scope.

(** ** Responses *)

Definition success (r : response) : Prop := 200 <= status_code r < 300.

(** A verified terminal business rejection. *)
Definition verified_rejection (r : response) : Prop :=
  status_code r = 403 ∧ ∃ kvs code, json_body r = Some (JObj kvs) ∧
    assoc (lit "terminal") kvs = Some (JBool true) ∧
    assoc (lit "sourceAuthenticated") kvs = Some (JBool true) ∧
    assoc (lit "code") kvs = Some (JStr code) ∧ code ∈ TERMINAL_BUSINESS_REJECTIONS.

Lemma is_true_spec v : is_true v = true ↔ v = Some (JBool true).
Proof. destruct v as [[]|]; cbn; try case_match; naive_solver. Qed.

Lemma safe_code_terminal v :
  safe_code v ∈ TERMINAL_BUSINESS_REJECTIONS ↔
  ∃ code, v = Some (JStr code) ∧ code ∈ TERMINAL_BUSINESS_REJECTIONS.
Proof.
  assert (Hu : lit "UNKNOWN" ∉ TERMINAL_BUSINESS_REJECTIONS) by by apply (bool_decide_unpack _).
  split.
  - destruct v as [[]|]; cbn [safe_code]; try done. case_match; [eauto|done].
  - intros (code & -> & Hc). cbn [safe_code]. case_match eqn:E; [done|]. exfalso.
    unfold TERMINAL_BUSINESS_REJECTIONS in Hc.
    repeat (apply elem_of_cons in Hc as [-> | Hc]; [by vm_compute in E|]).
    by apply elem_of_nil in Hc.
Qed.

Lemma facts_get r (k : string) v :
  k ∈ ["code"; "terminal"; "sourceAuthenticated"]%string → v ≠ JNull →
  json_get (lit k) (response_error_facts r) = Some v
  ↔ ∃ kvs, json_body r = Some (JObj kvs) ∧ assoc (lit k) kvs = Some v.
Proof.
  intros Hk Hv. unfold response_error_facts.
  destruct (json_body r) as [[| | | | | |kvs]|]; try (cbn; naive_solver).
  assert (Hg : json_get (lit k) (JObj
      [(lit "code", default JNull (assoc (lit "code") kvs));
       (lit "terminal", default JNull (assoc (lit "terminal") kvs));
       (lit "sourceAuthenticated", default JNull (assoc (lit "sourceAuthenticated") kvs))])
    = Some (default JNull (assoc (lit k) kvs))).
  { apply list_elem_of_In in Hk. destruct Hk as [<-|[<-|[<-|[]]]]; reflexivity. }
  cbv zeta. rewrite Hg. transitivity (assoc (lit k) kvs = Some v).
  - destruct (assoc (lit k) kvs); cbn; split; congruence.
  - naive_solver.
Qed.

Lemma classify_terminal r :
  ((status_code r =? 403) && is_true (json_get (lit "terminal") (response_error_facts r))
  && is_true (json_get (lit "sourceAuthenticated") (response_error_facts r))
  && bool_decide ((safe_code (json_get (lit "code") (response_error_facts r)))
                     ∈ TERMINAL_BUSINESS_REJECTIONS)) = true
  ↔ verified_rejection r.
Proof.
  rewrite !andb_true_iff, Z.eqb_eq, !is_true_spec, bool_decide_eq_true, safe_code_terminal,
    !facts_get by (done || (by apply (bool_decide_unpack _))). unfold verified_rejection.
  setoid_rewrite facts_get; [|by apply (bool_decide_unpack _)|done]. naive_solver.
Qed.

(** A permanent refusal: a status that is neither a success, a redirect, a
    timeout or throttling, a server error nor an authentication failure. *)
Definition permanent (r : response) : Prop :=
  (status_code r < 200 ∨ 400 <= status_code r < 500)
  ∧ status_code r ≠ 401 ∧ status_code r ≠ 408 ∧ status_code r ≠ 425 ∧ status_code r ≠ 429
  ∧ (status_code r = 403 →
       is_true (json_get (lit "sourceAuthenticated") (response_error_facts r)) = true).

(** C5. The classification of responses is exact: a 2xx is an acceptance; a
    rejection is reported only for a source-authenticated terminal 403 with one
    of the three business codes; a response is given up as permanent only when
    it is no success, redirect, throttling, server error or authentication
    failure; everything else is retried. *)
Theorem classify_correct r :
  match classify r with
  | Ok a => (accepted a = true ∧ success r ∧ terminal_rejection a = false)
            ∨ (accepted a = false ∧ terminal_rejection a = true ∧ verified_rejection r)
  | Err (NavigatorAdmissionUnavailable retryable status code ra) =>
      ¬ success r ∧ ¬ verified_rejection r ∧ status = Some (status_code r)
      ∧ ra = retry_after_seconds (retry_after r)
      ∧ (retryable = false ↔ permanent r)
  | Err _ => False
  end.
Proof.
  unfold classify, success, permanent. cbv zeta.
  destruct (_ && _) eqn:E2; [left; bools; rewrite Z.leb_le, Z.ltb_lt in *; split_and!; done|].
  assert (Hns : ¬ 200 <= status_code r < 300).
  { intros [H1%Z.leb_le H2%Z.ltb_lt]. by rewrite H1, H2 in E2. }
  pose proof (classify_terminal r) as Ht.
  set (b := response_error_facts r) in *.
  match goal with |- context [if ?c then _ else _] => destruct c eqn:E end.
  { right. split_and!; [done..|]. by apply Ht. }
  assert (Hnt : ¬ verified_rejection r) by by intros ?%Ht.
  split_and!; [done..|].
  generalize (is_true (json_get (lit "sourceAuthenticated") b)). intros a.
  revert Hns. generalize (status_code r). clear. intros n Hns.
  rewrite !orb_false_iff, !andb_false_iff, negb_false_iff, !Z.eqb_neq, !Z.leb_gt, Z.ltb_ge.
  destruct a; lia.
Qed.

(** ** What a forward may do *)

Definition acknowledged (r : response) : Prop := success r ∨ verified_rejection r.

(** The outcome of submitting the claimed body at a navigator. *)
Definition delivery_outcome nav time post (c : DeliveryClaim) : submit_outcome :=
  Submitted (submit_body nav time post (claim_body c)).

Lemma submit_ok nav time post b a :
  submit_body nav time post b = Ok a →
  ∃ r, post (sign_request nav time b) = Answered r ∧ acknowledged r.
Proof.
  unfold submit_body. case_match; [done|]. destruct (post _) as [r| | |]; try done.
  intros H1. pose proof (classify_correct r) as Hc. rewrite H1 in Hc.
  exists r. split; [done|]. unfold acknowledged. naive_solver.
Qed.

(** A forward is one completion of the claim, and an erasing one only for an
    acknowledged submission; cancelled, it is nothing. *)
Lemma forward_step cfg now c o s :
  snd (forward now c o s) = s ∨
  ∃ op, snd (forward now c o s) = snd (step cfg op s) ∧ completes c op ∧
    (may_erase op = None ∨ ∃ a, o = Submitted (Ok a)).
Proof.
  assert (Hs : ∀ p, snd (spool_result p) = snd p) by by intros [[] ?].
  destruct o as [[a|[retryable st code ra| |]]| |]; cbn [forward]; [| | | | |by left];
    try case_match; try case_match; rewrite ?Hs; right.
  - exists (OpDelivered now c). split; [reflexivity|]. cbn. eauto.
  - exists (OpRejected now c (adm_status_code a) (adm_code a)). split; [reflexivity|]. cbn. eauto.
  - eexists (OpDead now c _ _). split; [reflexivity|]. cbn. eauto.
  - eexists (OpRetry now c _ _ _). split; [reflexivity|]. cbn. eauto.
  - eexists (OpDead now c _ _). split; [reflexivity|]. cbn. eauto.
  - eexists (OpRetry now c _ _ _). split; [reflexivity|]. cbn. eauto.
  - eexists (OpRetry now c _ _ _). split; [reflexivity|]. cbn. eauto.
  - eexists (OpRetry now c _ _ _). split; [reflexivity|]. cbn. eauto.
Qed.

(** No event is lost at the Navigator: forwarding a claim keeps every body of
    the spool, but for the claimed delivery's own when the Navigator answered
    the signed request with a 2xx or a verified terminal rejection. *)
Lemma erased_only_when_acknowledged rows bytes cfg s now c nav time post r b :
  make_config rows bytes = Ok cfg → reachable cfg s →
  r ∈ deliveries s → body r = Some b →
  (∃ r', r' ∈ deliveries (snd (forward now c (delivery_outcome nav time post c) s)) ∧
     delivery_id r' = delivery_id r ∧ thread_key r' = thread_key r ∧ body r' = Some b)
  ∨ (delivery_id r = claim_delivery_id c ∧
     ∃ resp, post (sign_request nav time (claim_body c)) = Answered resp ∧ acknowledged resp).
Proof.
  intros Hc Hr Hin Hb. pose proof (reachable_inv _ _ _ _ Hc Hr) as Hi.
  assert (Hret : ∃ r', r' ∈ deliveries s ∧ retained (delivery_id r) (thread_key r) b r')
    by by exists r.
  destruct (forward_step cfg now c (delivery_outcome nav time post c) s)
    as [-> | (op & -> & Hop & He)]; [by left|].
  destruct (decide (may_erase op = Some (delivery_id r))) as [E|E].
  - right. destruct op; cbn [may_erase completes] in *; try done; injection E as E; subst.
    all: destruct He as [He|[a [= Ha%submit_ok]]]; done.
  - left. by apply (step_retained cfg op s).
Qed.

(** ** Draining *)

Lemma select_update_lt {R} (p q : R → bool) (f : R → R) rows row :
  (∀ r, p (f r) = false) → row ∈ rows → q row = true → p row = true →
  (length (select p (update_where q f rows)) < length (select p rows))%nat.
Proof.
  intros Hf. unfold select, update_where.
  induction rows as [|r rows IH]; [by intros ?%elem_of_nil|].
  assert (Hle : (length (List.filter p (map (λ r, if q r then f r else r) rows))
                 <= length (List.filter p rows))%nat).
  { clear -Hf. induction rows as [|r rows IH]; cbn; [lia|].
    destruct (q r); [rewrite Hf|]; destruct (p r); cbn; lia. }
  intros [->|Hin]%elem_of_cons Hq Hp; cbn.
  - rewrite Hq, Hf, Hp. cbn. lia.
  - specialize (IH Hin Hq Hp).
    destruct (q r); [rewrite Hf|]; destruct (p r); cbn; lia.
Qed.

Section Drain.
Context (cfg : config) (now lease : pyfloat).
Context (Hnan : is_nan (fadd now lease) = false) (Hlease : fle lease (f_of_Z 0) = false).

(** Everything that waits can be claimed at [now]. *)
Record drainable (s : spool) : Prop := {
  dr_inv : spool_inv cfg s;
  dr_open : meta_paused s = Ok false;
  dr_due : ∀ r, r ∈ deliveries s → pending r = true → due now r = true;
  dr_alive : ∀ r, r ∈ deliveries s → state r ≠ Dead
}.

Lemma pending_blocking r : state r ≠ Dead → pending r = blocking (state r).
Proof. unfold pending, in_state. by destruct (state r). Qed.

(** The first pending event can be claimed. *)
Lemma drainable_claimable s r :
  drainable s → r ∈ deliveries s → pending r = true →
  ∃ row, fetchone (claimable now (deliveries s)) (deliveries s) = Some row.
Proof.
  intros [Hi _ Hd Ha] Hr Hp. destruct (fetchone (claimable _ _) _) as [row|] eqn:E; [eauto|].
  exfalso. destruct (fetchone pending (deliveries s)) as [f|] eqn:Hf.
  - pose proof (fetchone_least _ _ _ (inv_sorted _ _ Hi) Hf) as Hl.
    apply fetchone_some in Hf as [Hf Hpf].
    pose proof (proj1 (fetchone_none _ _) E f Hf) as Hc. unfold claimable in Hc.
    rewrite (Hd f Hf Hpf) in Hc. cbn in Hc. apply negb_false_iff in Hc.
    unfold has_prior in Hc. apply existsb_exists in Hc as (p & Hin%list_elem_of_In & Hc).
    bools. rewrite Z.ltb_lt in *.
    assert (pending p = true) as Hpp by by rewrite pending_blocking by auto.
    specialize (Hl p Hin Hpp). lia.
  - by rewrite (proj1 (fetchone_none _ _) Hf r Hr) in Hp.
Qed.

Definition delivered_row (token : pystr) (at_ : pyfloat) (row : delivery) : delivery :=
  finish_row Delivered None None at_ (claimed_row now lease token row).

(** Claiming a row and completing the claim. *)
Lemma claim_then_deliver s token at_ row :
  drainable s → fetchone (claimable now (deliveries s)) (deliveries s) = Some row →
  ∃ c s1, claim_next now lease token s = (Ok (Some c), s1) ∧
    mark_delivered at_ c s1 =
      (Ok true, Spool (update_where (has_id (delivery_id row))
                         (λ _, delivered_row token at_ row) (deliveries s))
                  (next_sequence s) (delivery_meta s)).
Proof.
  intros [Hi Ho _ _] Hf. rewrite (claim_next_cases cfg) by done. rewrite Ho, Hf.
  eexists _, _. split; [reflexivity|].
  apply fetchone_some in Hf as [Hin Hcl]. unfold claimable in Hcl. bools.
  pose proof (inv_row_check _ _ Hi row Hin) as Hck.
  unfold mark_delivered, finish_sync, transact. cbn [terminal negb deliveries].
  set (c := {| claim_delivery_id := _ |}). set (row1 := claimed_row _ _ _ _).
  assert (Hh1 : holds c row1 = true).
  { unfold holds, has_id, in_state. cbn. by rewrite !bool_decide_true, Z.eqb_refl. }
  assert (Hh : ∀ r, r ∈ update_where (has_id (delivery_id row)) (λ _, row1) (deliveries s) →
    holds c r = true → r = row1).
  { intros r (r0 & _ & ->)%elem_of_update_where Hr.
    destruct (has_id (delivery_id row) r0) eqn:E; [done|].
    unfold holds in Hr. cbn in Hr. by rewrite E in Hr. }
  assert (Hu : update_where (holds c) (finish_row Delivered None None at_)
      (update_where (has_id (delivery_id row)) (λ _, row1) (deliveries s))
    = update_where (has_id (delivery_id row)) (λ _, delivered_row token at_ row) (deliveries s)).
  { unfold update_where. rewrite map_map. apply map_ext. intros r.
    destruct (has_id (delivery_id row) r) eqn:E; [by rewrite Hh1|].
    unfold holds. cbn. by rewrite E. }
  assert (Hn : rowcount (holds c)
    (update_where (has_id (delivery_id row)) (λ _, row1) (deliveries s)) = 1).
  { apply (rowcount_unique _ _ row1); auto.
    - replace (map delivery_id _) with (map delivery_id (deliveries s)); [apply (inv_ids _ _ Hi)|].
      unfold update_where. rewrite map_map. apply map_ext. intros r.
      by destruct (has_id _ r) eqn:E; [apply bool_decide_eq_true in E|].
    - apply elem_of_update_where. exists row. split; [done|].
      unfold has_id. by rewrite bool_decide_true. }
  replace (sql_update _ _ _) with (@Ok spool_error _
    (update_where (has_id (delivery_id row)) (λ _, delivered_row token at_ row)
       (deliveries s), 1)); [done|].
  symmetry. apply sql_update_ok. split_and!; [|done|done].
  apply forallb_forall. intros r' (r & <- & Hr)%in_map_iff.
  apply list_elem_of_In, elem_of_select in Hr as [Hr Hr'].
  rewrite (Hh r Hr' Hr). unfold row_check in *. bools. cbn.
  rewrite !andb_true_iff. split_and!; auto; apply Z.leb_le; rewrite Z.leb_le in *;
    unfold MAX_RECORDED_ATTEMPTS; lia.
Qed.

(** A pass of a worker whose Navigator accepts whatever it submits. *)
Definition accepting (p : pass) : Prop :=
  claim_time p = now ∧ ∀ b, ∃ a, submit p b = Submitted (Ok a) ∧ accepted a = true.

Definition after_delivery (token : pystr) (at_ : pyfloat) (row : delivery) (s : spool) :=
  Spool (update_where (has_id (delivery_id row)) (λ _, delivered_row token at_ row)
           (deliveries s)) (next_sequence s) (delivery_meta s).

Lemma pass_delivers p s r :
  drainable s → accepting p → r ∈ deliveries s → pending r = true →
  ∃ c row, row ∈ deliveries s ∧ pending row = true ∧
    run_pass lease p s
    = (Forwarded c, after_delivery (lease_token p) (finish_time p) row s).
Proof.
  intros Hs [Ht Hsub] Hr Hp. destruct (drainable_claimable _ _ Hs Hr Hp) as [row Hf].
  destruct (claim_then_deliver s (lease_token p) (finish_time p) row Hs Hf)
    as (c & s1 & Hc & Hm).
  apply fetchone_some in Hf as [Hin Hcl]. unfold claimable in Hcl. bools.
  exists c, row. split_and!; [done| |].
  { unfold due in *. unfold pending, in_state. by destruct (state row). }
  unfold run_pass. rewrite (dr_open _ Hs), Ht, Hc.
  destruct (Hsub (claim_body c)) as (a & -> & Ha). cbn [forward]. by rewrite Ha, Hm.
Qed.

Lemma pass_idle p s :
  drainable s → accepting p → (∀ r, r ∈ deliveries s → pending r = false) →
  run_pass lease p s = (Waited, s).
Proof.
  intros Hs [Ht _] Hp. unfold run_pass. rewrite (dr_open _ Hs), Ht.
  rewrite (claim_next_cases cfg) by (apply Hs || done). rewrite (dr_open _ Hs).
  assert (fetchone (claimable now (deliveries s)) (deliveries s) = None) as ->; [|done].
  apply fetchone_none. intros r Hr. specialize (Hp r Hr).
  unfold claimable, due. unfold pending, in_state in Hp. by destruct (state r).
Qed.

Lemma after_delivery_drainable p s row c :
  drainable s → run_pass lease p s
    = (Forwarded c, after_delivery (lease_token p) (finish_time p) row s) →
  spool_inv cfg (after_delivery (lease_token p) (finish_time p) row s) →
  drainable (after_delivery (lease_token p) (finish_time p) row s).
Proof.
  intros [Hi Ho Hd Ha] _ Hi2. split; [done|done|..]; cbn [deliveries after_delivery];
    intros r (r0 & Hr & ->)%elem_of_update_where; destruct (has_id _ r0); auto; done.
Qed.

Lemma forward_inv at_ c o s : spool_inv cfg s → spool_inv cfg (snd (forward at_ c o s)).
Proof.
  intros Hi. destruct (forward_step cfg at_ c o s) as [-> | (op & -> & _)]; [done|].
  by apply step_inv.
Qed.

Lemma run_pass_inv p s : spool_inv cfg s → spool_inv cfg (snd (run_pass lease p s)).
Proof.
  intros Hi. unfold run_pass. destruct (meta_paused s) as [[]|]; [done| |done].
  pose proof (step_inv cfg (OpClaim (claim_time p) lease (lease_token p)) s Hi) as H1.
  cbn [step wrap snd] in H1. destruct (claim_next _ _ _ _) as [[[c|]|e] s1]; [|done..].
  pose proof (forward_inv (finish_time p) c (submit p (claim_body c)) s1 H1) as H2.
  by destruct (forward _ _ _ _) as [[|[|e]] s2].
Qed.

(** The number of passes needed is the number of pending events. *)
Lemma drain_passes ps s :
  drainable s → Forall accepting ps → rowcount pending (deliveries s) <= len ps →
  let s' := final (run_pass lease) ps s in
  (∀ r, r ∈ deliveries s' → state r = Delivered ∨ state r = Rejected) ∧
  (∀ r, r ∈ deliveries s → ∃ r', r' ∈ deliveries s' ∧ delivery_id r' = delivery_id r ∧
     state r' = if pending r then Delivered else state r).
Proof.
  cbv zeta. revert s. induction ps as [|p ps IH]; intros s Hs Hps Hn.
  - assert (Hz : ∀ r, r ∈ deliveries s → pending r = false).
    { apply rowcount_zero. unfold rowcount, len in *. cbn in Hn. lia. }
    unfold final. cbn. split.
    + intros r Hr. pose proof (Hz r Hr) as Hp. pose proof (dr_alive _ Hs r Hr).
      unfold pending, in_state in Hp. destruct (state r); auto; done.
    + intros r Hr. exists r. by rewrite Hz.
  - apply Forall_cons in Hps as [Hp Hps]. rewrite final_cons.
    destruct (fetchone pending (deliveries s)) as [r|] eqn:Hf.
    + apply fetchone_some in Hf as [Hr Hpr].
      destruct (pass_delivers p s r Hs Hp Hr Hpr) as (c & row & Hrow & Hprow & Hrun).
      pose proof (run_pass_inv p s (dr_inv _ Hs)) as Hi2. rewrite Hrun in Hi2 |- *.
      cbn [snd] in *. pose proof (after_delivery_drainable _ _ _ _ Hs Hrun Hi2) as Hs2.
      destruct (IH _ Hs2 Hps) as [H1 H2].
      { pose proof (select_update_lt pending (has_id (delivery_id row))
          (λ _, delivered_row (lease_token p) (finish_time p) row) (deliveries s) row) as Hlt.
        unfold rowcount, len in *. cbn [deliveries after_delivery length] in *.
        unfold has_id in *. rewrite bool_decide_true in Hlt by done.
        specialize (Hlt (λ _, eq_refl) Hrow eq_refl Hprow). lia. }
      split; [done|]. intros r0 Hr0.
      destruct (has_id (delivery_id row) r0) eqn:E.
      * apply bool_decide_eq_true in E.
        assert (r0 = row) as -> by
          (apply (NoDup_map_inj delivery_id (deliveries s)); auto; apply (inv_ids _ _ (dr_inv _ Hs))).
        destruct (H2 (delivered_row (lease_token p) (finish_time p) row))
          as (r' & Hr' & Hid & Hst); [|exists r'; by rewrite Hprow].
        apply elem_of_update_where. exists row. unfold has_id. by rewrite bool_decide_true.
      * apply (H2 r0). apply elem_of_update_where. exists r0. by rewrite E.
    + rewrite fetchone_none in Hf. rewrite pass_idle by done.
      apply IH; [done|done|]. rewrite (proj2 (rowcount_zero _ _)) by done.
      unfold len. lia.
Qed.
End Drain.

(** C6. The worker makes progress: with the gate open, no dead event, and every
    waiting event due, as many passes as there are pending events deliver all of
    them when the Navigator accepts, whatever the tokens and completion times. *)
Theorem worker_drains rows bytes cfg s now lease ps :
  make_config rows bytes = Ok cfg → reachable cfg s →
  is_nan (fadd now lease) = false → fle lease (f_of_Z 0) = false →
  meta_paused s = Ok false →
  (∀ r, r ∈ deliveries s → state r ≠ Dead ∧ (pending r = true → due now r = true)) →
  Forall (accepting now) ps → rowcount pending (deliveries s) <= len ps →
  let s' := final (run_pass lease) ps s in
  (∀ r, r ∈ deliveries s' → state r = Delivered ∨ state r = Rejected) ∧
  (∀ r, r ∈ deliveries s → ∃ r', r' ∈ deliveries s' ∧ delivery_id r' = delivery_id r ∧
     state r' = if pending r then Delivered else state r).
Proof.
  intros Hc Hr Hn Hl Ho Hd. apply (drain_passes cfg); [done|done|].
  split; [by eapply reachable_inv|done|..]; intros r Hin; by apply Hd.
Qed.

(** ** Retry delays *)

Lemma backoff_ge_one z : 1 <= z <= 300 → fle (f_of_Z 1) (f_of_Z z) = true.
Proof.
  assert (H : forallb (λ z, fle (f_of_Z 1) (f_of_Z z)) (map Z.of_nat (seq 1 300)) = true)
    by by vm_compute.
  intros Hz. rewrite forallb_forall in H. apply H, in_map_iff. exists (Z.to_nat z).
  split; [lia|]. apply in_seq. lia.
Qed.

(** C7. A retry is never immediate nor later than five minutes, whatever the
    [Retry-After] header says (a NaN included); without one the delay doubles
    from one second up to five minutes, and [mark_retry]'s clamp never changes
    it. *)
Theorem retry_delay_bounded attempt ra :
  let d := retry_delay_seconds attempt ra in
  fle (f_of_Z 1) d = true ∧ fle d (f_of_Z 300) = true ∧ bounded_delay d = d ∧
  (ra = None → 1 <= attempt → d = f_of_Z (Z.min (2 ^ (attempt - 1)) 300)).
Proof.
  cbv zeta. set (d := retry_delay_seconds attempt ra).
  assert (Hd : fle (f_of_Z 1) d = true ∧ fle d (f_of_Z 300) = true).
  { pose proof (retry_backoff_range attempt) as Hb.
    assert (H1 : fle (f_of_Z 1) (f_of_Z (retry_backoff attempt)) = true) by by apply backoff_ge_one.
    destruct (small_int_le (retry_backoff attempt)) as [_ H2]; [lia|].
    pose proof H1 as (_ & Hn & _)%fle_rank.
    unfold d, retry_delay_seconds. destruct ra as [x|]; [|done]. split.
    - apply py_min_glb; [done|]. eapply fle_trans; [exact H1|]. by apply py_max_ge.
    - by apply py_min_le. }
  destruct Hd as [H1 H2]. split_and!; [done|done|..].
  - unfold bounded_delay, py_max, py_min, MAX_RETRY_DELAY_SECONDS.
    change (5 * 60) with 300.
    pose proof H2 as (Hn & _ & _)%fle_rank. rewrite (flt_not_fle (f_of_Z 300)) by (exact Hn || by vm_compute).
    rewrite H2. cbn [negb].
    by rewrite (flt_fle_trans (f_of_Z 0) (f_of_Z 1) d).
  - intros -> Hat. subst d. unfold retry_delay_seconds, retry_backoff. f_equal.
    unfold MAX_RETRY_DELAY_SECONDS. destruct (Z.le_gt_cases (attempt - 1) 9).
    + by rewrite Z.max_r, (Z.min_l (attempt - 1)) by lia.
    + rewrite Z.max_r, (Z.min_r (attempt - 1)) by lia.
      assert (2 ^ 9 <= 2 ^ (attempt - 1)) by (apply Z.pow_le_mono_r; lia).
      change (2 ^ 9) with 512 in *. lia.
Qed.
