(* ===== verification/TeamsExamples.v ===== *)
(** * Teams connector: a concrete run

    A spool with two events of one channel thread, and the theorems of the
    connector applied to it. *)

From Stdlib Require Import ZArith NArith Sorted.
From S2P Require Import Prelude PyFloat PyText Json Sha256 TeamsIdentity TeamsSpool TeamsSpoolFacts.
From S2P Require Import TeamsSpoolFencing TeamsSpoolGate TeamsNavigator TeamsWorkerFacts.

#[local] Open Scope Z_scope.

Definition str (s : string) : json := JStr (lit s).

Definition channel_event (message conversation : string) : json :=
  JObj [(lit "trust", JObj [(lit "provider", str "teams"); (lit "tenant_id", str "t1");
          (lit "team_id", str "g1"); (lit "channel_id", str "c1"); (lit "bot_app_id", str "b1");
          (lit "message_id", str message); (lit "root_thread_id", str "r1")]);
        (lit "payload", JObj [(lit "conversation",
          JObj [(lit "conversation_id", str conversation)])])].

Definition event1 : json := channel_event "m1" "19:x".
Definition event2 : json := channel_event "m2" "19:x;messageid=9".

Definition t (n : Z) : pyfloat := f_of_Z n.
Definition ex_cfg : config := Config 10 10000.
Definition ops1 : list spool_op := [OpEnqueue (t 1) event1; OpEnqueue (t 2) event2].
Definition spool1 : spool := Eval vm_compute in final (step ex_cfg) ops1 empty_spool.

Lemma spool1_reachable : reachable ex_cfg spool1.
Proof. exists ops1. by vm_compute. Qed.

(** The first claim, and the spool after it. *)
Definition claim1 : DeliveryClaim :=
  Eval vm_compute in
    match fst (claim_next (t 3) (t 15) (lit "k1") spool1) with
    | Ok (Some c) => c | _ => Claim [] [] [] [] 0 0 end.
Definition spool2 : spool :=
  Eval vm_compute in snd (claim_next (t 3) (t 15) (lit "k1") spool1).

Lemma spool2_reachable : reachable ex_cfg spool2.
Proof. exists (ops1 ++ [OpClaim (t 3) (t 15) (lit "k1")]). by vm_compute. Qed.

Lemma claim_next_correct_witness :
  claim_next (t 3) (t 15) (lit "k1") spool1 = (Ok (Some claim1), spool2) ∧
  ∃ r, r ∈ deliveries spool1 ∧ delivery_id r = claim_delivery_id claim1 ∧
    body r = Some (claim_body claim1).
Proof.
  pose proof (claim_next_correct 10 10000 ex_cfg spool1 (t 3) (t 15) (lit "k1")
    eq_refl spool1_reachable eq_refl eq_refl) as H.
  assert (E : claim_next (t 3) (t 15) (lit "k1") spool1 = (Ok (Some claim1), spool2))
    by by vm_compute.
  split; [exact E|]. rewrite E in H. destruct H as (_ & r & H1 & H2 & _ & H3 & _). exists r; exact (conj H1 (conj H2 H3)).
Defined.

Lemma thread_in_order_example :
  map state (deliveries spool2) = [Leased; Queued] ∧
  ∀ r1 r2, deliveries spool2 = [r1; r2] →
    (state r1 = Leased → state r2 = Leased → r1 = r2) ∧
    (sequence r1 < sequence r2 → state r2 ≠ Queued → state r1 = Delivered ∨ state r1 = Rejected).
Proof.
  split; [by vm_compute|]. intros r1 r2 E.
  apply (thread_in_order 10 10000 ex_cfg spool2 r1 r2 eq_refl spool2_reachable);
    [rewrite E; set_solver..|]. cbv in E. by injection E as <- <-.
Defined.

(** The first worker's lease expires; a second worker takes the delivery. *)
Definition claim2 : DeliveryClaim :=
  Eval vm_compute in
    match fst (claim_next (t 30) (t 15) (lit "k2") spool2) with
    | Ok (Some c) => c | _ => Claim [] [] [] [] 0 0 end.
Definition spool3 : spool :=
  Eval vm_compute in snd (claim_next (t 30) (t 15) (lit "k2") spool2).

Lemma lease_fencing_witness :
  claim_delivery_id claim2 = claim_delivery_id claim1 ∧
  step ex_cfg (OpDelivered (t 31) claim1) spool3 = (OutDone (Ok false), spool3).
Proof.
  split; [by vm_compute|].
  apply (lease_fencing 10 10000 ex_cfg spool2 (OpClaim (t 30) (t 15) (lit "k2"))
    claim1 (OutClaim (Ok (Some claim2))) spool3 [] (OpDelivered (t 31) claim1)
    eq_refl spool2_reachable); [by vm_compute| |constructor|reflexivity].
  right. exists (t 30), (t 15), claim2. split_and!; [reflexivity|reflexivity|by vm_compute|].
  by apply (bool_decide_unpack _).
Defined.

Lemma accepted_event_durable_witness :
  ∃ b, canonical_event_body event1 = Ok b ∧
    ∃ row, row ∈ deliveries (final (step ex_cfg)
      [OpEnqueue (t 2) event2; OpClaim (t 3) (t 15) (lit "k1")] 
      (snd (enqueue ex_cfg (t 1) event1 empty_spool))) ∧ body row = Some b.
Proof.
  pose (r := match fst (enqueue ex_cfg (t 1) event1 empty_spool) with
             | Ok r => r | Err _ => Enqueued [] true end).
  assert (E : enqueue ex_cfg (t 1) event1 empty_spool
              = (Ok r, snd (enqueue ex_cfg (t 1) event1 empty_spool))) by by vm_compute.
  assert (R : reachable ex_cfg empty_spool) by by exists [].
  destruct (accepted_event_durable 10 10000 ex_cfg empty_spool (t 1) event1 r _ eq_refl R E)
    as (b & th & Hb & _ & _ & Hops); [by vm_compute|].
  exists b. split; [exact Hb|].
  destruct (Hops [OpEnqueue (t 2) event2; OpClaim (t 3) (t 15) (lit "k1")])
    as [(row & H1 & _ & _ & H2) _]; [by repeat constructor|]. exists row; exact (conj H1 H2).
Defined.

Definition holder : pystr := lit "ops".
Definition paused_spool : spool :=
  Eval vm_compute in snd (step ex_cfg (OpPause (t 4) holder 0) spool1).
Definition paused_status : DeliveryStatus :=
  Eval vm_compute in
    match fst (pause (t 4) holder 0 spool1) with
    | Ok (_, st) => st
    | Err _ => Status false 0 0 0 0 0 0 0 0 0 0 None None
    end.

Lemma pause_is_exclusive_example :
  step ex_cfg (OpClaim (t 5) (t 15) (lit "k3")) paused_spool = (OutClaim (Ok None), paused_spool)
  ∧ step ex_cfg (OpPause (t 5) (lit "other") 1) paused_spool
    = (OutAdmin (Err DeliveryAdminConflict), paused_spool).
Proof.
  destruct (pause_is_exclusive ex_cfg spool1 (t 4) holder 0 paused_status paused_spool []
    spool1_reachable) as (_ & H1 & H2); [by vm_compute|constructor|].
  split; [apply (H1 (t 5) (t 15) (lit "k3")); by vm_compute|].
  apply (H2 (t 5) (lit "other") 1). by apply (bool_decide_unpack _).
Defined.

Definition nav : navigator := Navigator (lit "key") (repeat 7%N 32).
Definition unavailable (_ : request) : http_outcome := Answered (Response 503 None None).

Lemma erased_only_when_acknowledged_example :
  ∃ b r', body r' = Some b ∧ b ≠ [] ∧
    r' ∈ deliveries (snd (forward (t 4) claim1 (delivery_outcome nav 4 unavailable claim1) spool2)).
Proof.
  pose (r := hd (new_delivery 0 [] [] [] [] (t 0)) (deliveries spool2)).
  destruct (erased_only_when_acknowledged 10 10000 ex_cfg spool2 (t 4) claim1 nav 4 unavailable r
    (claim_body claim1) eq_refl spool2_reachable) as [(r' & H1 & _ & _ & H2)|(_ & resp & H1 & H2)].
  - by left.
  - by vm_compute.
  - exists (claim_body claim1), r'. split_and!; [exact H2|done|exact H1].
  - exfalso. injection H1 as <-. destruct H2 as [[H2 H3]|[H2 _]]; cbn in *; lia.
Defined.

Definition accepting_pass (n : Z) (token : string) : pass :=
  Pass (t 50) (t n) (lit token) (λ _, Submitted (Ok (Admission true false 202 false None))).

Lemma worker_drains_witness :
  map state (deliveries (final (run_pass (t 15))
    [accepting_pass 51 "k4"; accepting_pass 52 "k5"] spool2)) = [Delivered; Delivered] ∧
  ∀ r, r ∈ deliveries (final (run_pass (t 15))
    [accepting_pass 51 "k4"; accepting_pass 52 "k5"] spool2) →
    state r = Delivered ∨ state r = Rejected.
Proof.
  split; [by vm_compute|].
  apply (worker_drains 10 10000 ex_cfg spool2 (t 50) (t 15)
    [accepting_pass 51 "k4"; accepting_pass 52 "k5"] eq_refl spool2_reachable);
    [by vm_compute|by vm_compute|by vm_compute|..|by vm_compute].
  - intros r Hr. unfold spool2 in Hr. cbn [deliveries] in Hr.
    apply elem_of_cons in Hr as [-> | Hr]; [by vm_compute|].
    apply elem_of_cons in Hr as [-> | Hr]; [by vm_compute|]. by apply elem_of_nil in Hr.
  - repeat constructor; intros b; eexists; split; reflexivity.
Defined.

Definition id1 : pystr :=
  Eval vm_compute in match stable_delivery_id event1 with Ok d => d | Err _ => [] end.

Lemma delivery_id_identifies_example :
  stable_delivery_id event1 = Ok id1 ∧ length id1 = 64%nat.
Proof.
  assert (E : stable_delivery_id event1 = Ok id1) by by vm_compute.
  split; [exact E|].
  apply (delivery_id_identifies event1 event1 id1); [|exact E|exact E].
  intros p1 p2 b1 b2 [= <-] [= <-] H1 H2 _. congruence.
Defined.

Lemma thread_key_ignores_reply_suffix_example :
  stable_thread_key event1 = stable_thread_key event2.
Proof.
  assert (E : stable_thread_key (channel_event "m2" "19:x") = stable_thread_key event2).
  { apply (thread_key_ignores_reply_suffix _ _ (lit "19:x") (lit "messageid") (lit "9"));
      try reflexivity; try done.
    - intros c Hc. by apply (proj1 (Forall_forall (λ c, c ≠ 59%N ∧ c ≠ 61%N) (lit "messageid"))
        ltac:(by apply (bool_decide_unpack _)) c).
    - intros c Hc. by apply (proj1 (Forall_forall (λ c, c ≠ 59%N) (lit "9"))
        ltac:(by apply (bool_decide_unpack _)) c). }
  rewrite <- E. by vm_compute.
Defined.
