(* ===== verification/Scoped.v ===== *)
(** * Rows of a scope and keyset paging

    Two stores key their tables by a scope (a tenant, or a tenant and a
    namespace) and an identifier, and page through a scope in identifier
    order.  Here are the rows of a scope, the query of one page, and the
    argument that following the page tokens of an unchanged table visits every
    matching row exactly once.  Nothing here depends on what the rows or the
    tokens are. *)

From Stdlib Require Import ZArith NArith Sorted Permutation.
From stdpp Require Import sorting.
From S2P Require Import Prelude PyText Json.

#[local] Open Scope Z_scope.

(** [SELECT ... WHERE <scope columns> = ?], as (id, row) pairs. *)
Definition in_scope {Sc R} `{Countable Sc} (sc : Sc) (m : gmap (Sc * pystr) R) : list (pystr * R) :=
  omap (λ '(k, r), if bool_decide (k.1 = sc) then Some (k.2, r) else None) (map_to_list m).

(** ** Keyset paging *)

(** [WHERE ... AND id > ? ORDER BY id LIMIT n] *)
Definition keyset {R} (p : pystr * R → bool) (after : pystr) (n : Z) (rows : list (pystr * R))
  : list (pystr * R) :=
  take (Z.to_nat n) (sort_items (List.filter (λ r, str_ltb after r.1 && p r) rows)).

(** The first [size] rows, and the token of the last when more follow. *)
Definition page {E R} (encode : pystr → result E pystr) (size : Z) (rows : list (pystr * R))
  : result E (list (pystr * R) * pystr) :=
  let selected := take (Z.to_nat size) rows in
  if size <? len rows then
    match last selected with
    | Some r => token ← encode r.1; Ok (selected, token)
    | None => Ok (selected, [])
    end
  else Ok (selected, []).

(** ** The rows of a scope *)

Section InScope.
Context {Sc R : Type} `{HE : !EqDecision Sc} `{HC : !Countable Sc}.
Implicit Types (m : gmap (Sc * pystr) R) (sc : Sc).

Lemma elem_in_scope sc m id r : (id, r) ∈ in_scope sc m ↔ m !! (sc, id) = Some r.
Proof.
  unfold in_scope. rewrite list_elem_of_omap. split.
  - intros ([[sc' id'] r'] & Hin%elem_of_map_to_list & He). cbn in He.
    case_bool_decide; [|done]. subst. by injection He as <- <-.
  - intros H. exists ((sc, id), r). cbn. rewrite bool_decide_true by done.
    by rewrite elem_of_map_to_list.
Qed.

Lemma nodup_in_scope sc m : NoDup (in_scope sc m).*1.
Proof.
  assert (H : ∀ l : list ((Sc * pystr) * R), NoDup l.*1 →
    NoDup (omap (λ '(k, r), if bool_decide (k.1 = sc) then Some (k.2, r) else None) l).*1).
  { induction l as [|[[sc' id] r] l IH]; cbn; [constructor|]. intros [Hn Hnd]%NoDup_cons.
    case_bool_decide as E; [|auto]. cbn. apply NoDup_cons. split; [|auto].
    intros Hin. apply Hn. apply list_elem_of_fmap in Hin as ([id' r'] & -> & Hin).
    apply list_elem_of_omap in Hin as ([[sc'' id''] r''] & Hin & He). cbn in He, E.
    case_bool_decide as E'; [|done]. cbn in E'. injection He as -> ->. subst.
    apply list_elem_of_fmap. by exists ((sc, id'), r'). }
  apply H, NoDup_fst_map_to_list.
Qed.

Lemma in_scope_same sc m m' :
  (∀ id, m !! (sc, id) = m' !! (sc, id)) → in_scope sc m ≡ₚ in_scope sc m'.
Proof.
  intros H. apply NoDup_Permutation.
  - eapply NoDup_fmap_1, nodup_in_scope.
  - eapply NoDup_fmap_1, nodup_in_scope.
  - intros [id r]. by rewrite !elem_in_scope, H.
Qed.

Lemma in_scope_insert_fresh sc m id r :
  m !! (sc, id) = None → in_scope sc (<[(sc, id) := r]> m) ≡ₚ (id, r) :: in_scope sc m.
Proof.
  intros Hf. apply NoDup_Permutation.
  - eapply NoDup_fmap_1, nodup_in_scope.
  - apply NoDup_cons. split; [by rewrite elem_in_scope, Hf|].
    eapply NoDup_fmap_1, nodup_in_scope.
  - intros [id' r']. rewrite elem_of_cons, !elem_in_scope.
    destruct (decide (id' = id)) as [->|Hne].
    + rewrite lookup_insert_eq. naive_solver.
    + rewrite lookup_insert_ne by congruence. naive_solver.
Qed.

Definition count sc m : Z := len (in_scope sc m).

Lemma count_insert sc m id r :
  count sc (<[(sc, id) := r]> m)
  = count sc m + (if bool_decide (is_Some (m !! (sc, id))) then 0 else 1).
Proof.
  unfold count, len. destruct (m !! (sc, id)) as [r0|] eqn:E.
  - rewrite bool_decide_true by eauto.
    assert (Hm : m = <[(sc, id) := r0]> (delete (sc, id) m))
      by by rewrite insert_delete_eq, insert_id.
    rewrite Hm at 1. rewrite insert_insert_eq. rewrite Hm at 2.
    rewrite !in_scope_insert_fresh by by rewrite lookup_delete_eq. cbn. lia.
  - rewrite bool_decide_false by by intros []. rewrite in_scope_insert_fresh by done.
    cbn. lia.
Qed.

Lemma count_le sc m m' :
  (∀ id r, m !! (sc, id) = Some r → is_Some (m' !! (sc, id))) → count sc m <= count sc m'.
Proof.
  intros H. unfold count, len. apply inj_le.
  rewrite <- (length_fmap fst (in_scope sc m)), <- (length_fmap fst (in_scope sc m')).
  apply submseteq_length, NoDup_submseteq; [apply nodup_in_scope|].
  intros ? ([id r] & -> & [r' Hr]%elem_in_scope%H)%list_elem_of_fmap.
  apply list_elem_of_fmap. exists (id, r'). split; [done|]. by apply elem_in_scope.
Qed.

(** Writing rows one after the other. *)
Definition put_all sc (rows : list (pystr * R)) m : gmap (Sc * pystr) R :=
  foldl (λ m row, <[(sc, row.1) := row.2]> m) m rows.

Lemma put_all_cons sc id r rows m :
  put_all sc ((id, r) :: rows) m = put_all sc rows (<[(sc, id) := r]> m).
Proof. done. Qed.

Lemma put_all_other sc rows m k : k.1 ≠ sc → put_all sc rows m !! k = m !! k.
Proof.
  intros Hk. revert m. induction rows as [|[id r] rows IH]; intros m; [done|].
  rewrite put_all_cons, IH. rewrite lookup_insert_ne; [done|]. by intros <-.
Qed.

Lemma put_all_notin sc rows m id :
  id ∉ rows.*1 → put_all sc rows m !! (sc, id) = m !! (sc, id).
Proof.
  revert m. induction rows as [|[id' r] rows IH]; intros m Hn; [done|].
  cbn in Hn. rewrite put_all_cons, IH by set_solver. rewrite lookup_insert_ne; [done|]. set_solver.
Qed.

Lemma put_all_in sc rows m id r :
  NoDup rows.*1 → (id, r) ∈ rows → put_all sc rows m !! (sc, id) = Some r.
Proof.
  revert m. induction rows as [|[id' r'] rows IH]; intros m Hnd Hin;
    [by apply elem_of_nil in Hin|].
  cbn in Hnd. apply NoDup_cons in Hnd as [Hn Hnd]. rewrite put_all_cons.
  apply elem_of_cons in Hin as [[= -> ->]|Hin]; [|by apply IH].
  by rewrite put_all_notin, lookup_insert_eq.
Qed.

Lemma count_put_all sc rows m :
  NoDup rows.*1 →
  count sc (put_all sc rows m)
  = count sc m + len (List.filter (λ id, negb (bool_decide (is_Some (m !! (sc, id))))) rows.*1).
Proof.
  revert m. induction rows as [|[id r] rows IH]; intros m Hnd; [unfold len; cbn; lia|].
  cbn in Hnd. apply NoDup_cons in Hnd as [Hn Hnd].
  rewrite put_all_cons, IH, count_insert by done.
  replace (List.filter (λ id0, negb (bool_decide (is_Some (<[(sc, id) := r]> m !! (sc, id0))))) rows.*1)
    with (List.filter (λ id0, negb (bool_decide (is_Some (m !! (sc, id0))))) rows.*1).
  - cbn [fmap list_fmap fst List.filter].
    destruct (bool_decide (is_Some (m !! (sc, id)))); unfold len; cbn; lia.
  - apply filter_ext_in. intros id' Hin%list_elem_of_In.
    rewrite lookup_insert_ne; [done|]. set_solver.
Qed.

Lemma put_all_none sc rows m id :
  NoDup rows.*1 → put_all sc rows m !! (sc, id) = None ↔ m !! (sc, id) = None ∧ id ∉ rows.*1.
Proof.
  intros Hnd. destruct (decide (id ∈ rows.*1)) as [Hin|Hin].
  - pose proof Hin as ([id' r] & -> & Hr)%list_elem_of_fmap.
    rewrite (put_all_in _ _ _ _ r) by done. naive_solver.
  - rewrite put_all_notin by done. naive_solver.
Qed.

(** Into an empty scope, exactly the rows put there. *)
Lemma put_all_exact sc rows m id r :
  NoDup rows.*1 → (∀ id, m !! (sc, id) = None) →
  put_all sc rows m !! (sc, id) = Some r ↔ (id, r) ∈ rows.
Proof.
  intros Hnd He. split; [|by apply put_all_in]. intros H.
  destruct (decide (id ∈ rows.*1)) as [Hin|Hin].
  - apply list_elem_of_fmap in Hin as ([id' r'] & -> & Hin).
    rewrite (put_all_in _ _ _ _ r') in H by done. by injection H as <-.
  - by rewrite put_all_notin, He in H.
Qed.
End InScope.

(** ** Filters *)

Lemma nodup_filter_keys {R} (p : pystr * R → bool) l : NoDup l.*1 → NoDup (List.filter p l).*1.
Proof.
  induction l as [|x l IH]; cbn; [done|]. intros [Hn Hnd]%NoDup_cons.
  destruct (p x); cbn; [|auto]. apply NoDup_cons. split; [|auto].
  intros Hin. apply Hn. apply list_elem_of_fmap in Hin as (y & -> & Hy).
  apply list_elem_of_In, filter_In in Hy as [Hy _].
  apply list_elem_of_fmap. exists y. by rewrite list_elem_of_In.
Qed.

(** ** Following tokens *)

(** A client that asks for pages until no token comes back. *)
Fixpoint collect {E A} (stuck : E) (fetch : option pystr → result E (list A * pystr))
    (fuel : nat) (token : option pystr) : result E (list A) :=
  '(records, next) ← fetch token;
  match next, fuel with
  | [], _ => Ok records
  | _ :: _, O => Err stuck
  | _ :: _, S fuel => rest ← collect stuck fetch fuel (Some next); Ok (records ++ rest)
  end.

Lemma collect_S {E A} (stuck : E) (fetch : option pystr → result E (list A * pystr)) fuel token :
  collect stuck fetch (S fuel) token
  = '(records, next) ← fetch token;
    match next with
    | [] => Ok records
    | _ :: _ => rest ← collect stuck fetch fuel (Some next); Ok (records ++ rest)
    end.
Proof. cbn. destruct (fetch token) as [[records next]|]; [|done]. by destruct next. Qed.

Lemma mapR_app {E A B} (f : A → result E B) l1 l2 :
  mapR f (l1 ++ l2) = ys ← mapR f l1; zs ← mapR f l2; Ok (ys ++ zs).
Proof.
  induction l1 as [|x l1 IH]; cbn [app mapR mbind result_bind].
  - by destruct (mapR f l2).
  - destruct (f x); [|done]. cbn [mbind result_bind]. rewrite IH.
    destruct (mapR f l1); [|done]. cbn [mbind result_bind]. by destruct (mapR f l2).
Qed.

Section Pages.
Context {E R A : Type} (stuck : E) (p : pystr * R → bool) (rows : list (pystr * R)) (size : Z).
Context (conv : pystr * R → result E A) (encode : pystr → result E pystr) (decode : option pystr → result E pystr).

(** A page query. *)
Definition fetch_page (token : option pystr) : result E (list A * pystr) :=
  after ← decode token;
  '(selected, next) ← page encode size (keyset p after (size + 1) rows);
  records ← mapR conv selected;
  Ok (records, next).

(** Every matching row, in id order. *)
Definition matching : list (pystr * R) := sort_items (List.filter p rows).

Context (Hnodup : NoDup rows.*1).
Context (Hsize : 1 <= size).
Context (Hids : ∀ r, r ∈ matching → r.1 ≠ [] ∧ is_ok (encode r.1) = true).
Context (Hfirst : decode None = Ok []).
Context (Hnext : ∀ r tok, r ∈ matching → encode r.1 = Ok tok →
  tok ≠ [] ∧ decode (Some tok) = Ok r.1).

Lemma matching_sorted : StronglySorted key_lt matching.
Proof. by apply sort_items_sorted, nodup_filter_keys. Qed.

Lemma sorted_filter (q : pystr * R → bool) l :
  StronglySorted key_lt l → StronglySorted key_lt (List.filter q l).
Proof.
  induction 1 as [|x l Hs IH Hx]; cbn; [constructor|]. destruct (q x); [|done].
  constructor; [done|]. apply Forall_forall. intros y Hy.
  apply list_elem_of_In, filter_In in Hy as [Hy _]. rewrite Forall_forall in Hx.
  apply Hx. by apply list_elem_of_In.
Qed.

Lemma keyset_filter after n :
  keyset p after n rows = take (Z.to_nat n) (List.filter (λ r, str_ltb after r.1) matching).
Proof.
  unfold keyset. f_equal. apply key_sorted_unique.
  - by apply sort_items_sorted, nodup_filter_keys.
  - apply sorted_filter, matching_sorted.
  - rewrite sort_items_perm. unfold matching.
    rewrite (filter_perm _ (sort_items _) (List.filter p rows)) by apply sort_items_perm.
    assert (He : List.filter (λ r, str_ltb after r.1 && p r) rows
                 = List.filter (λ r, str_ltb after r.1) (List.filter p rows)); [|by rewrite He].
    clear. induction rows as [|r l IH]; cbn; [done|].
    destruct (p r); cbn; [|by rewrite andb_false_r]. rewrite andb_true_r.
    destruct (str_ltb after r.1); by rewrite IH.
Qed.

(** After a row, the rows behind it. *)
Lemma keyset_after l1 r l2 n :
  matching = l1 ++ r :: l2 → keyset p r.1 n rows = take (Z.to_nat n) l2.
Proof.
  intros Hm. rewrite keyset_filter, Hm. f_equal.
  pose proof matching_sorted as Hs. rewrite Hm in Hs. clear -Hs.
  rewrite List.filter_app. cbn [List.filter]. rewrite str_ltb_irrefl.
  apply StronglySorted_app in Hs as (Hcross & _ & Hs).
  apply StronglySorted_inv in Hs as [_ Hr].
  assert (H1 : List.filter (λ x, str_ltb r.1 x.1) l1 = []).
  { induction l1 as [|x l1 IH]; cbn; [done|].
    rewrite (str_ltb_asym x.1 r.1); [|apply (Hcross x r); [by left|by left]].
    apply IH. intros a b Ha Hb. apply Hcross; [by right|done]. }
  rewrite H1. cbn. clear H1 Hcross. induction Hr as [|x l Hx Hr IH]; cbn; [done|].
  unfold key_lt in Hx. by rewrite Hx, IH.
Qed.

Lemma keyset_start n : keyset p [] n rows = take (Z.to_nat n) matching.
Proof.
  rewrite keyset_filter. f_equal.
  assert (H : ∀ l, (∀ r, r ∈ l → r.1 ≠ []) → List.filter (λ r : pystr * R, str_ltb [] r.1) l = l).
  { induction l as [|x l IH]; intros Hl; [done|].
    cbn [List.filter]. rewrite str_ltb_nil by (apply Hl; by left). f_equal. apply IH. intros r Hr.
    apply Hl. by right. }
  apply H. intros r Hr. by apply Hids.
Qed.

(** Fetching from where a suffix of the matching rows starts. *)
Lemma collect_suffix fuel token l1 l2 :
  matching = l1 ++ l2 → (length l2 <= fuel)%nat →
  (∃ after, decode token = Ok after ∧ ∀ n, keyset p after n rows = take (Z.to_nat n) l2) →
  collect stuck fetch_page fuel token = mapR conv l2.
Proof.
  revert token l1 l2. induction fuel as [|fuel IH]; intros token l1 l2 Hm Hf (after & Hd & Hk).
  - destruct l2; [|cbn in Hf; lia]. cbn. unfold fetch_page. rewrite Hd. cbn [mbind result_bind].
    rewrite Hk, take_nil. unfold page.
    rewrite (proj2 (Z.ltb_ge size (len _))) by (unfold len; cbn; lia). by rewrite take_nil.
  - rewrite collect_S.
    assert (Hfp : fetch_page token =
      '(selected, next) ← page encode size (keyset p after (size + 1) rows);
      records ← mapR conv selected; Ok (records, next)) by (unfold fetch_page; by rewrite Hd).
    rewrite Hfp, Hk. unfold page.
    assert (Hlen : len (take (Z.to_nat (size + 1)) l2) = Z.min (size + 1) (len l2))
      by (unfold len; rewrite length_take; lia).
    rewrite Hlen, take_take, Nat.min_l by lia.
    destruct (size <? Z.min (size + 1) (len l2)) eqn:Esz.
    + apply Z.ltb_lt in Esz. set (k := Z.to_nat size) in *.
      assert (Hl2 : (k < length l2)%nat) by (unfold len in *; lia).
      destruct (last (take k l2)) as [r|] eqn:Hlast.
      2: { apply last_None in Hlast. apply (f_equal length) in Hlast.
           rewrite length_take in Hlast. cbn in Hlast. lia. }
      apply last_Some in Hlast as [l' Hl'].
      assert (Hl2' : l2 = l' ++ r :: drop k l2).
      { rewrite <- (take_drop k l2) at 1. rewrite Hl', <- app_assoc. done. }
      assert (Hr : r ∈ matching).
      { rewrite Hm, Hl2'. apply elem_of_app. right. apply elem_of_app. right. by left. }
      destruct (Hids r Hr) as [Hne Hok]. destruct (encode r.1) as [tok|] eqn:He; [|done].
      destruct (Hnext _ _ Hr He) as [Htok Hdec]. cbn [mbind result_bind].
      rewrite <- (take_drop k l2) at 2. rewrite mapR_app.
      destruct (mapR conv (take k l2)) as [records|e]; [|done]. cbn [mbind result_bind].
      destruct tok as [|c tok]; [done|].
      rewrite (IH (Some (c :: tok)) (l1 ++ l' ++ [r]) (drop k l2)).
      * done.
      * rewrite Hm, Hl2' at 1. by rewrite <- !app_assoc.
      * rewrite length_drop. lia.
      * exists r.1. split; [done|]. intros n. apply (keyset_after (l1 ++ l')).
        rewrite Hm, Hl2' at 1. by rewrite <- !app_assoc.
    + apply Z.ltb_ge in Esz. rewrite take_ge by (unfold len in *; lia).
      cbn [mbind result_bind]. by destruct (mapR conv l2).
Qed.

Lemma collect_all fuel :
  (length matching <= fuel)%nat → collect stuck fetch_page fuel None = mapR conv matching.
Proof.
  intros Hf. apply (collect_suffix _ _ []); [done|done|].
  exists []. split; [done|]. apply keyset_start.
Qed.
End Pages.

Lemma matching_in_scope {Sc R} `{HE : !EqDecision Sc} `{HC : !Countable Sc} (p : pystr * R → bool)
    (sc : Sc) (m : gmap (Sc * pystr) R) (r : pystr * R) :
  r ∈ matching p (in_scope sc m) → p r = true ∧ m !! (sc, r.1) = Some r.2.
Proof.
  unfold matching. rewrite sort_items_perm. intros [Hr Hp]%list_elem_of_In%filter_In.
  destruct r as [id r]. apply list_elem_of_In, elem_in_scope in Hr. done.
Qed.

Lemma length_matching {R} (p : pystr * R → bool) rows :
  (length (matching p rows) <= length rows)%nat.
Proof. unfold matching. rewrite sort_items_perm. apply filter_length_le. Qed.

Lemma collect_ext {E A} (stuck : E) (f1 f2 : option pystr → result E (list A * pystr)) fuel token :
  (∀ t, f1 t = f2 t) → collect stuck f1 fuel token = collect stuck f2 fuel token.
Proof.
  intros H. revert token. induction fuel as [|fuel IH]; intros token.
  - cbn. by rewrite H.
  - rewrite !collect_S, H. apply bind_ext. intros [records next] _.
    destruct next; [done|]. by rewrite IH.
Qed.
