(* ===== verification/KnowledgeCursor.v ===== *)
(** * Knowledge graph: page cursors

    The signed page tokens of [knowledge_graph_provider/sqlite_store.py]:
    [_encode_cursor], [_decode_cursor] and their callers.  A token is base64 of
    the canonical JSON of its fields followed by an HMAC of it. *)

From Stdlib Require Import ZArith NArith.
From S2P Require Import Prelude PyText Json Base64 Sha256.

#[local] Open Scope Z_scope.

(** [GraphStoreError] by its code; the last two are a [UnicodeEncodeError] and a
    [JSONDecodeError], which the store does not translate. *)
Inductive kg_error :=
  | INVALID_INPUT
  | QUOTA_EXCEEDED
  | NOT_FOUND
  | TENANT_MISMATCH
  | STORAGE_FAILED
  | KgUnicodeError
  | KgJsonError.

#[export] Instance kg_error_eq_dec : EqDecision kg_error.
Proof. solve_decision. Defined.

Abbreviation K := (result kg_error).

Definition MAX_IDENTIFIER_LENGTH : Z := 256.
Definition MAX_PAGE_TOKEN_CHARS : Z := 2048.
Definition MAX_PAGE_TOKEN_PAYLOAD_BYTES : Z := 1024.

(** ["\x00" in s] *)
Definition has_nul (s : pystr) : bool := existsb (N.eqb 0) s.

(** [.encode("utf-8")] *)
Definition kg_utf8 (s : pystr) : K pybytes :=
  match utf8_encode s with Some b => Ok b | None => Err KgUnicodeError end.

Record cursor := Cursor {
  c_stream : pystr;
  c_phase : pystr;
  c_after : pystr;
  c_scope : pystr
}.

#[export] Instance cursor_eq_dec : EqDecision cursor.
Proof. solve_decision. Defined.

Definition cursor_fields (c : cursor) : list (pystr * json) :=
  [(lit "v", JInt 1); (lit "stream", JStr (c_stream c)); (lit "phase", JStr (c_phase c));
   (lit "after", JStr (c_after c)); (lit "scope", JStr (c_scope c))].

(** [_encode_cursor] *)
Definition encode_cursor (c : cursor) (key : pybytes) : K pystr :=
  _ ← require (negb ((MAX_IDENTIFIER_LENGTH <? len (c_after c)) || has_nul (c_after c)))
        INVALID_INPUT;
  payload ← kg_utf8 (dumps_sorted (JObj (cursor_fields c)));
  _ ← require (len payload <=? MAX_PAGE_TOKEN_PAYLOAD_BYTES) INVALID_INPUT;
  let token := b64url_encode (payload ++ hmac_sha256 key payload) in
  _ ← require (len token <=? MAX_PAGE_TOKEN_CHARS) INVALID_INPUT;
  Ok token.

(** The hook [unique_pairs]. *)
Definition unique_pairs (kvs : list (pystr * json)) : option json :=
  if bool_decide (NoDup kvs.*1) then Some (JObj kvs) else None.

Definition text_field (k : string) (kvs : list (pystr * json)) : option pystr :=
  match assoc (lit k) kvs with Some (JStr s) => Some s | _ => None end.

Definition cursor_keys : list pystr :=
  [lit "v"; lit "stream"; lit "phase"; lit "after"; lit "scope"].

(** The checks on the decoded object; [None] when one fails. *)
Definition cursor_of_json (j : json) : option cursor :=
  match j with
  | JObj kvs =>
      if negb (bool_decide (list_to_set kvs.*1 =@{gset pystr} list_to_set cursor_keys)) then None
      else
        match assoc (lit "v") kvs with
        | Some (JInt 1) =>
            stream ← text_field "stream" kvs;
            phase ← text_field "phase" kvs;
            after ← text_field "after" kvs;
            scope ← text_field "scope" kvs;
            if (MAX_IDENTIFIER_LENGTH <? len after) || has_nul after
               || negb ((len scope =? 64) && forallb is_hex_lower scope)
            then None else Some (Cursor stream phase after scope)
        | _ => None
        end
  | _ => None
  end.

Definition of_option {A} (o : option A) : K A :=
  match o with Some a => Ok a | None => Err INVALID_INPUT end.

(** [_decode_cursor] *)
Definition decode_cursor (token : pystr) (key : pybytes) : K cursor :=
  _ ← require (negb ((MAX_PAGE_TOKEN_CHARS <? len token) || bool_decide (token = [])
                     || negb (forallb is_b64url token))) INVALID_INPUT;
  raw ← of_option (b64url_decode token);
  _ ← require (bool_decide (b64url_encode raw = token)) INVALID_INPUT;
  _ ← require (negb ((len raw <=? 32) || (MAX_PAGE_TOKEN_PAYLOAD_BYTES + 32 <? len raw)))
        INVALID_INPUT;
  let payload := take (length raw - 32) raw in
  let signature := drop (length raw - 32) raw in
  _ ← require (bool_decide (signature = hmac_sha256 key payload)) INVALID_INPUT;
  text ← of_option (utf8_decode payload);
  decoded ← of_option (loads_with unique_pairs text);
  c ← of_option (cursor_of_json decoded);
  again ← kg_utf8 (dumps_sorted decoded);
  _ ← require (bool_decide (again = payload)) INVALID_INPUT;
  Ok c.

(** [_encode_page_token] *)
Definition encode_page_token (stream after scope : pystr) (key : pybytes) : K pystr :=
  encode_cursor (Cursor stream (lit "records") after scope) key.

(** [_decode_page_token]; the token is [None] or a text. *)
Definition decode_page_token (token : option pystr) (stream scope : pystr) (key : pybytes)
  : K pystr :=
  match token with
  | None | Some [] => Ok []
  | Some token =>
      c ← decode_cursor token key;
      _ ← require (bool_decide (c_stream c = stream) && bool_decide (c_phase c = lit "records")
                   && bool_decide (c_scope c = scope) && negb (bool_decide (c_after c = [])))
            INVALID_INPUT;
      Ok (c_after c)
  end.

(** [_encode_export_token] *)
Definition encode_export_token (phase after scope : pystr) (key : pybytes) : K pystr :=
  encode_cursor (Cursor (lit "export") phase after scope) key.

(** [_decode_export_token]: the phase and the id to continue after. *)
Definition decode_export_token (token : option pystr) (scope : pystr) (key : pybytes)
  : K (pystr * pystr) :=
  match token with
  | None | Some [] => Ok (lit "nodes", [])
  | Some token =>
      c ← decode_cursor token key;
      _ ← require (bool_decide (c_stream c = lit "export")
                   && (bool_decide (c_phase c = lit "nodes") || bool_decide (c_phase c = lit "edges"))
                   && bool_decide (c_scope c = scope)
                   && negb (bool_decide (c_phase c = lit "nodes") && bool_decide (c_after c = [])))
            INVALID_INPUT;
      Ok (c_phase c, c_after c)
  end.

(** [_cursor_scope] *)
Definition cursor_scope (stream tenant namespace : pystr) (filters : list (pystr * json))
  : K pystr :=
  payload ← kg_utf8 (dumps_sorted (JObj
    [(lit "stream", JStr stream); (lit "tenant_id", JStr tenant);
     (lit "namespace", JStr namespace); (lit "filters", JObj filters)]));
  Ok (sha256_hex payload).

(** ** Tokens are canonical *)

Lemma kg_utf8_ok s b : kg_utf8 s = Ok b ↔ utf8_encode s = Some b.
Proof. unfold kg_utf8. destruct (utf8_encode s); naive_solver. Qed.

Lemma of_option_ok {A} (o : option A) a : of_option o = Ok a ↔ o = Some a.
Proof. unfold of_option. destruct o; naive_solver. Qed.

Lemma cursor_fields_ok c : json_ok (JObj (cursor_fields c)) = true.
Proof. cbn [json_ok cursor_fields fmap list_fmap fst]. by rewrite bool_decide_true
  by by apply (bool_decide_unpack (NoDup cursor_keys)). Qed.

Lemma text_field_elem k kvs s : text_field k kvs = Some s → (lit k, JStr s) ∈ kvs.
Proof.
  unfold text_field. destruct (assoc _ kvs) as [[]|] eqn:E; try done.
  intros [= <-]. by apply assoc_elem.
Qed.

Lemma cursor_of_json_ok j c :
  cursor_of_json j = Some c →
  ∃ kvs, j = JObj kvs ∧ (list_to_set kvs.*1 =@{gset pystr} list_to_set cursor_keys) ∧
    (∀ kv, kv ∈ cursor_fields c → kv ∈ kvs) ∧
    len (c_after c) <= MAX_IDENTIFIER_LENGTH ∧ has_nul (c_after c) = false ∧
    length (c_scope c) = 64%nat ∧ forallb is_hex_lower (c_scope c) = true.
Proof.
  intros H. destruct j as [| | | | | |kvs]; try done. exists kvs. split; [done|].
  cbn [cursor_of_json] in H. case_match eqn:Hs; [done|]. apply negb_false_iff in Hs.
  apply bool_decide_eq_true in Hs. split; [done|].
  destruct (assoc (lit "v") kvs) as [[| |[|[]|]| | | |]|] eqn:Hv; try done.
  destruct (text_field "stream" kvs) as [st|] eqn:H1; [|done].
  destruct (text_field "phase" kvs) as [ph|] eqn:H2; [|done].
  destruct (text_field "after" kvs) as [af|] eqn:H3; [|done].
  destruct (text_field "scope" kvs) as [sc|] eqn:H4; [|done]. cbn in H.
  case_match eqn:Hc; [done|]. injection H as <-. bools. rewrite Z.ltb_ge, Z.eqb_eq in *.
  cbn [c_after c_scope]. unfold len in *. split_and!; [|done|done|lia|done].
  intros kv Hkv. unfold cursor_fields in Hkv. cbn [c_stream c_phase c_after c_scope] in Hkv.
  apply text_field_elem in H1, H2, H3, H4. apply assoc_elem in Hv.
  rewrite !elem_of_cons, elem_of_nil in Hkv. naive_solver.
Qed.

(** An object comes out of the hook. *)
Lemma p_value_object hook fuel s kvs r :
  p_value hook fuel s = Some (JObj kvs, r) → ∃ l, hook l = Some (JObj kvs).
Proof.
  assert (Hw : ∀ w j t, j ≠ JObj kvs → p_word w j t ≠ Some (JObj kvs, r)).
  { intros w j t Hj. unfold p_word. destruct (strip_prefix w t); cbn; congruence. }
  destruct fuel as [|fuel]; [done|]. cbn [p_value]. destruct s as [|c s]; [done|].
  destruct (c =? 34)%N; [by destruct (p_str s) as [[]|]|].
  destruct (c =? 123)%N.
  { destruct (skip_ws s) as [|d r']; [done|]. destruct (d =? 125)%N.
    - destruct (hook []) as [j|] eqn:E; [|done]. intros [= -> ->]. eauto.
    - destruct (p_members _ _ _) as [[l r'']|]; [|done]. cbn.
      destruct (hook l) as [j|] eqn:E; [|done]. intros [= -> ->]. eauto. }
  destruct (c =? 91)%N.
  { destruct (skip_ws s) as [|d r']; [done|]. destruct (d =? 93)%N; [done|].
    by destruct (p_elems _ _ _) as [[]|]. }
  do 5 (match goal with |- (if ?b then _ else _) = _ → _ => destruct b end;
        [by intros []%Hw|]).
  destruct (strip_prefix _ _); [done|]. unfold p_number.
  match goal with |- (let '(_, _) := ?x in _) = _ → _ => destruct x as [neg s1] end.
  destruct (p_int_part s1) as [[ds s2]|]; [|done]. cbn.
  destruct (p_frac s2) as [fr s3], (p_exp s3) as [ex s4].
  destruct (fr ++ ex); [|done]. by destruct (Z_of_str (neg ++ ds)).
Qed.

(** The hook lets no key appear twice. *)
Lemma loads_unique_nodup s kvs :
  loads_with unique_pairs s = Some (JObj kvs) → NoDup kvs.*1.
Proof.
  unfold loads_with. destruct (p_value _ _ _) as [[j r]|] eqn:E; [|done]. cbn.
  case_match; [|done]. intros [= ->]. apply p_value_object in E as [l Hl].
  unfold unique_pairs in Hl. case_bool_decide; [|done]. by injection Hl as <-.
Qed.

Lemma dumps_sorted_perm kvs kvs' :
  NoDup kvs.*1 → kvs ≡ₚ kvs' → dumps_sorted (JObj kvs) = dumps_sorted (JObj kvs').
Proof.
  intros Hnd Hp. unfold dumps_sorted. cbn [json_sort]. do 2 f_equal.
  apply sort_items_unique; [|by apply Permutation_map].
  assert (Hk : (map (λ '(k, v), (k, json_sort v)) kvs).*1 = kvs.*1); [|by rewrite Hk].
  clear. induction kvs as [|[k v] kvs IH]; cbn; [done|by f_equal].
Qed.

Lemma cursor_fields_perm c kvs :
  NoDup kvs.*1 → (list_to_set kvs.*1 =@{gset pystr} list_to_set cursor_keys) →
  (∀ kv, kv ∈ cursor_fields c → kv ∈ kvs) → kvs ≡ₚ cursor_fields c.
Proof.
  intros Hnd Hk Hf. apply NoDup_Permutation.
  - by eapply NoDup_fmap_1.
  - apply (NoDup_fmap_1 fst). by apply (bool_decide_unpack (NoDup cursor_keys)).
  - intros [k v]. split; [|apply Hf]. intros Hin.
    assert (Hkk : k ∈ (cursor_fields c).*1).
    { change ((cursor_fields c).*1) with cursor_keys.
      apply (elem_of_list_to_set (C := gset pystr)). rewrite <- Hk.
      apply elem_of_list_to_set, list_elem_of_fmap. by exists (k, v). }
    apply list_elem_of_fmap in Hkk as ([k' v'] & -> & Hin'). cbn in *.
    pose proof (NoDup_map_inj fst kvs (k', v) (k', v') Hnd Hin (Hf _ Hin') eq_refl) as [= ->].
    done.
Qed.

(** C8. Page tokens are canonical and authenticated: a token that is accepted is
    the very text the store would issue for the cursor it decodes to, so it was
    signed with the store's key, and no second spelling of a cursor exists. *)
Theorem accepted_token_canonical token key c :
  decode_cursor token key = Ok c →
  encode_cursor c key = Ok token ∧
  ∃ payload, b64url_decode token = Some (payload ++ hmac_sha256 key payload).
Proof.
  unfold decode_cursor. intros H. inv_result.
  repeat match goal with H : of_option _ = Ok _ |- _ => apply of_option_ok in H end.
  rename v0 into raw, v4 into text, v5 into decoded, v7 into again.
  bools. subst again. rewrite Z.ltb_ge, Z.leb_gt in *.
  apply cursor_of_json_ok in Hv6 as (kvs & -> & Hkeys & Hf & Hafter & Hnul & _ & _).
  apply loads_unique_nodup in Hv5. apply kg_utf8_ok in Hv7.
  rewrite (dumps_sorted_perm kvs (cursor_fields c)) in Hv7
    by (done || by apply cursor_fields_perm).
  set (payload := take (length raw - 32) raw) in *.
  assert (Hraw : raw = payload ++ hmac_sha256 key payload)
    by (rewrite <- Hv3; unfold payload; by rewrite take_drop).
  split; [|by exists payload; rewrite <- Hraw]. unfold encode_cursor.
  rewrite (proj2 (Z.ltb_ge _ (len (c_after c)))), Hnul by done. cbn [orb negb require mbind result_bind].
  apply kg_utf8_ok in Hv7. rewrite Hv7. cbn [mbind result_bind].
  assert (Hp : len payload <= MAX_PAGE_TOKEN_PAYLOAD_BYTES).
  { unfold payload, len, MAX_PAGE_TOKEN_PAYLOAD_BYTES in *. rewrite length_take. lia. }
  rewrite (proj2 (Z.leb_le (len payload) _) Hp). cbn [require mbind result_bind].
  rewrite <- Hraw, Hv1, (proj2 (Z.leb_le (len token) _)) by done. done.
Qed.

(** A cursor the store encodes: its scope is a digest. *)
Definition cursor_scoped (c : cursor) : Prop :=
  length (c_scope c) = 64%nat ∧ forallb is_hex_lower (c_scope c) = true.

(** What [encode_cursor] issued, [decode_cursor] reads back. *)
Lemma issued_decodes c key token :
  cursor_scoped c → encode_cursor c key = Ok token → decode_cursor token key = Ok c.
Proof.
  intros [Hs1 Hs2]. unfold encode_cursor. intros H. inv_result. rename v0 into payload.
  bools. rewrite Z.ltb_ge, Z.leb_le in *. apply kg_utf8_ok in Hv0.
  set (raw := payload ++ hmac_sha256 key payload) in *.
  pose proof (length_hmac_sha256 key payload) as Hh.
  assert (Hr : length raw = (length payload + 32)%nat) by (unfold raw; by rewrite length_app, Hh).
  assert (Hp0 : payload ≠ []).
  { intros ->. apply utf8_decode_encode in Hv0. injection Hv0 as Hv0. discriminate Hv0. }
  assert (Hb : b64url_decode (b64url_encode raw) = Some raw).
  { apply b64url_decode_encode, Forall_app. split; [by eapply utf8_encode_bytes|].
    apply hmac_sha256_ok. }
  assert (Hn : b64url_encode raw ≠ []).
  { intros Hnil%b64url_encode_nil. rewrite Hnil in Hr. cbn in Hr. lia. }
  unfold decode_cursor. rewrite (proj2 (Z.ltb_ge _ _)) by done.
  rewrite (bool_decide_false _ Hn), b64url_encode_alphabet, Hb.
  cbn [orb negb require mbind result_bind of_option].
  rewrite (bool_decide_true (b64url_encode raw = _)) by done.
  assert (Hl : (len raw <=? 32) || (MAX_PAGE_TOKEN_PAYLOAD_BYTES + 32 <? len raw) = false).
  { apply orb_false_iff. unfold len in *. rewrite Z.leb_gt, Z.ltb_ge, Hr.
    destruct payload; [done|]. cbn [length] in *. lia. }
  rewrite Hl. cbn [negb require mbind result_bind].
  replace (length raw - 32)%nat with (length payload) by lia.
  unfold raw. rewrite take_app_length, drop_app_length. rewrite (bool_decide_true (hmac_sha256 _ _ = _)) by done.
  cbn [require mbind result_bind]. apply utf8_decode_encode in Hv0 as Hd. rewrite Hd.
  cbn [of_option mbind result_bind].
  assert (Hlo : loads_with unique_pairs (dumps_sorted (JObj (cursor_fields c)))
                = Some (json_sort (JObj (cursor_fields c)))).
  { apply loads_with_dumps; [|by apply json_sort_ok, cursor_fields_ok].
    intros kvs Hnd. unfold unique_pairs. by rewrite bool_decide_true. }
  rewrite Hlo.
  cbn [of_option mbind result_bind].
  assert (Hc : cursor_of_json (json_sort (JObj (cursor_fields c))) = Some c).
  { destruct c as [st ph af sc]. cbn [c_after c_scope] in *.
    change (json_sort _) with (JObj [(lit "after", JStr af); (lit "phase", JStr ph);
      (lit "scope", JStr sc); (lit "stream", JStr st); (lit "v", JInt 1)]).
    unfold cursor_of_json. cbn [fmap list_fmap fst].
    replace (bool_decide _) with true by (symmetry; vm_compute; reflexivity).
    cbn [negb]. change (assoc (lit "v") _) with (Some (JInt 1)).
    unfold text_field. change (assoc (lit "stream") _) with (Some (JStr st)).
    change (assoc (lit "phase") _) with (Some (JStr ph)).
    change (assoc (lit "after") _) with (Some (JStr af)).
    change (assoc (lit "scope") _) with (Some (JStr sc)). cbn [mbind option_bind].
    assert (Hls : (len sc =? 64) = true) by (unfold len; by rewrite Hs1).
    by rewrite (proj2 (Z.ltb_ge _ (len af))), H0, Hls, Hs2. }
  rewrite Hc. cbn [of_option mbind result_bind].
  change (dumps_sorted (json_sort (JObj (cursor_fields c))))
    with (dumps_sorted (JObj (cursor_fields c))).
  apply kg_utf8_ok in Hv0. rewrite Hv0. cbn [mbind result_bind].
  by rewrite bool_decide_true.
Qed.

(** Page tokens round trip: what [encode_cursor] issued, [decode_cursor]
    accepts and returns unchanged. *)
Lemma issued_token_accepted c key token :
  cursor_scoped c → encode_cursor c key = Ok token → decode_cursor token key = Ok c.
Proof. apply issued_decodes. Qed.
