(* ===== verification/KnowledgeGraph.v ===== *)
(** * Knowledge graph: the store

    [SQLiteGraphStore] of [knowledge_graph_provider/sqlite_store.py].  The tables
    [graph_nodes] and [graph_edges] are finite maps from their primary keys
    (tenant, namespace, id); an [ORDER BY] on the id is [sort_items], since
    SQLite's BINARY collation of UTF-8 text is code point order.  Each method is
    its validation followed by one transaction.  Texts are Unicode without lone
    surrogates and times are 64-bit, as the protobuf codec delivers them. *)

From Stdlib Require Import ZArith NArith Sorted.
From S2P Require Import Prelude PyText Json Sha256 Scoped KnowledgeCursor.

#[local] Open Scope Z_scope.

Definition MAX_TEXT_LENGTH : Z := 32768.
Definition MAX_METADATA_ITEMS : Z := 128.
Definition MAX_SOURCE_REFS : Z := 1000.
Definition DEFAULT_PAGE_SIZE : Z := 100.
Definition MAX_RELATION_FILTERS : Z := 64.

(** ** Data *)

Record GraphNode := MkNode {
  gn_node_id : pystr;
  gn_tenant_id : pystr;
  gn_namespace : pystr;
  gn_kind : pystr;
  gn_label : pystr;
  gn_description : option pystr;
  gn_metadata : list (pystr * pystr);
  gn_source_refs : list pystr;
  gn_created_at_ms : Z;
  gn_updated_at_ms : Z
}.

Record GraphEdge := MkEdge {
  ge_edge_id : pystr;
  ge_tenant_id : pystr;
  ge_namespace : pystr;
  ge_source_node_id : pystr;
  ge_target_node_id : pystr;
  ge_relation : pystr;
  ge_metadata : list (pystr * pystr);
  ge_source_refs : list pystr;
  ge_created_at_ms : Z;
  ge_updated_at_ms : Z
}.

(** The columns that are not the key. *)
Record node_row := NodeRow {
  nr_kind : pystr;
  nr_label : pystr;
  nr_description : option pystr;
  nr_metadata_json : pystr;
  nr_source_refs_json : pystr;
  nr_created_at_ms : Z;
  nr_updated_at_ms : Z
}.

Record edge_row := EdgeRow {
  er_source_node_id : pystr;
  er_target_node_id : pystr;
  er_relation : pystr;
  er_metadata_json : pystr;
  er_source_refs_json : pystr;
  er_created_at_ms : Z;
  er_updated_at_ms : Z
}.

(** A tenant and a namespace. *)
Abbreviation scope := (pystr * pystr)%type.
(** A primary key. *)
Abbreviation gkey := (scope * pystr)%type.

Record graph := Graph {
  graph_nodes : gmap gkey node_row;
  graph_edges : gmap gkey edge_row
}.

Definition empty_graph : graph := Graph ∅ ∅.

Record limits := Limits {
  max_nodes_per_namespace : Z;
  max_edges_per_namespace : Z;
  max_batch_items : Z;
  max_page_size : Z;
  max_expand_depth : Z;
  max_expand_nodes : Z;
  max_expand_edges : Z
}.

(** ** Validation *)

(** [_required_text] *)
Definition required_text (max_length : Z) (value : pystr) : K () :=
  require (negb (bool_decide (strip value = []) || has_nul value || (max_length <? len value)))
    INVALID_INPUT.

Definition validate_scope (sc : scope) : K () :=
  _ ← required_text MAX_IDENTIFIER_LENGTH sc.1;
  required_text MAX_IDENTIFIER_LENGTH sc.2.

Fixpoint each {A} (f : A → K ()) (l : list A) : K () :=
  match l with [] => Ok () | x :: l => _ ← f x; each f l end.

Definition validate_metadata (md : list (pystr * pystr)) : K () :=
  _ ← require (negb (MAX_METADATA_ITEMS <? len md)) INVALID_INPUT;
  each (λ '(k, v), _ ← required_text 256 k; required_text 4096 v) md.

Definition validate_source_refs (refs : list pystr) : K () :=
  _ ← require (negb (MAX_SOURCE_REFS <? len refs)) INVALID_INPUT;
  each (required_text 2048) refs.

Definition validate_timestamps (created updated : Z) : K () :=
  _ ← require (negb (created <? 0)) INVALID_INPUT;
  require (negb (updated <? 0)) INVALID_INPUT.

Definition validate_node (sc : scope) (n : GraphNode) : K GraphNode :=
  _ ← require (bool_decide (gn_tenant_id n = sc.1) && bool_decide (gn_namespace n = sc.2))
        TENANT_MISMATCH;
  _ ← each (required_text MAX_IDENTIFIER_LENGTH)
        [gn_node_id n; gn_tenant_id n; gn_namespace n; gn_kind n];
  _ ← required_text 1024 (gn_label n);
  _ ← match gn_description n with
      | Some d => required_text MAX_TEXT_LENGTH d
      | None => Ok ()
      end;
  _ ← validate_metadata (gn_metadata n);
  _ ← validate_source_refs (gn_source_refs n);
  _ ← validate_timestamps (gn_created_at_ms n) (gn_updated_at_ms n);
  Ok n.

Definition validate_edge (sc : scope) (e : GraphEdge) : K GraphEdge :=
  _ ← require (bool_decide (ge_tenant_id e = sc.1) && bool_decide (ge_namespace e = sc.2))
        TENANT_MISMATCH;
  _ ← each (required_text MAX_IDENTIFIER_LENGTH)
        [ge_edge_id e; ge_tenant_id e; ge_namespace e; ge_source_node_id e;
         ge_target_node_id e; ge_relation e];
  _ ← validate_metadata (ge_metadata e);
  _ ← validate_source_refs (ge_source_refs e);
  _ ← validate_timestamps (ge_created_at_ms e) (ge_updated_at_ms e);
  Ok e.

Definition require_unique_ids (ids : list pystr) : K () :=
  require (bool_decide (NoDup ids)) INVALID_INPUT.

Definition require_batch (lim : limits) (n : Z) : K () :=
  require (negb (max_batch_items lim <? n)) QUOTA_EXCEEDED.

(** [_page_size]; [None] and [0] mean the default. *)
Definition page_size (lim : limits) (value : option Z) : K Z :=
  let size := match value with
              | None | Some 0 => Z.min DEFAULT_PAGE_SIZE (max_page_size lim)
              | Some n => n
              end in
  _ ← require ((1 <=? size) && (size <=? max_page_size lim)) INVALID_INPUT;
  Ok size.

(** ** Writing *)

(** [_enforce_count_limit] on distinct ids. *)
Definition enforce_count_limit {R} (sc : scope) (m : gmap gkey R) (ids : list pystr)
    (maximum : Z) : K () :=
  let new_count := len (List.filter (λ id, negb (bool_decide (is_Some (m !! (sc, id)))))
                          (remove_dups ids)) in
  require (negb (maximum <? len (in_scope sc m) + new_count)) QUOTA_EXCEEDED.

(** [a or b] on integers. *)
Definition or_else (a b : Z) : Z := if a =? 0 then b else a.

(** The row the INSERT of [_upsert_nodes] leaves, given the row it finds; on
    conflict the creation time stays. *)
Definition new_node_row (now : Z) (existing : option node_row) (n : GraphNode) : node_row :=
  let found := nr_created_at_ms <$> existing in
  let created := or_else (gn_created_at_ms n) (default now found) in
  {| nr_kind := gn_kind n; nr_label := gn_label n; nr_description := gn_description n;
     nr_metadata_json := dumps_sorted (JMap (gn_metadata n));
     nr_source_refs_json := dumps_sorted (JStrs (gn_source_refs n));
     nr_created_at_ms := default created found;
     nr_updated_at_ms := or_else (gn_updated_at_ms n) now |}.

(** One round of [_upsert_nodes]. *)
Definition upsert_node (now : Z) (g : graph) (n : GraphNode) : graph :=
  let key := ((gn_tenant_id n, gn_namespace n), gn_node_id n) in
  Graph (<[key := new_node_row now (graph_nodes g !! key) n]> (graph_nodes g)) (graph_edges g).

Definition upsert_nodes_rows (now : Z) (ns : list GraphNode) (g : graph) : graph :=
  foldl (upsert_node now) g ns.

(** The same for [_upsert_edges]. *)
Definition new_edge_row (now : Z) (existing : option edge_row) (e : GraphEdge) : edge_row :=
  let found := er_created_at_ms <$> existing in
  let created := or_else (ge_created_at_ms e) (default now found) in
  {| er_source_node_id := ge_source_node_id e; er_target_node_id := ge_target_node_id e;
     er_relation := ge_relation e;
     er_metadata_json := dumps_sorted (JMap (ge_metadata e));
     er_source_refs_json := dumps_sorted (JStrs (ge_source_refs e));
     er_created_at_ms := default created found;
     er_updated_at_ms := or_else (ge_updated_at_ms e) now |}.

(** One round of [_upsert_edges]; the foreign keys are checked by the INSERT. *)
Definition upsert_edge (now : Z) (g : graph) (e : GraphEdge) : K graph :=
  let sc := (ge_tenant_id e, ge_namespace e) in
  let key := (sc, ge_edge_id e) in
  _ ← require (bool_decide (is_Some (graph_nodes g !! (sc, ge_source_node_id e)))
               && bool_decide (is_Some (graph_nodes g !! (sc, ge_target_node_id e))))
        INVALID_INPUT;
  Ok (Graph (graph_nodes g)
    (<[key := new_edge_row now (graph_edges g !! key) e]> (graph_edges g))).

Fixpoint upsert_edges_rows (now : Z) (es : list GraphEdge) (g : graph) : K graph :=
  match es with
  | [] => Ok g
  | e :: es => g ← upsert_edge now g e; upsert_edges_rows now es g
  end.

Abbreviation gtxn A := (txn graph kg_error A).

(** A method: its validation, and the transaction that uses its result. *)
Definition method {A B} (check : K A) (body : A → gtxn B) (g : graph) : K B * graph :=
  match check with
  | Err e => (Err e, g)
  | Ok a => transact (body a) g
  end.

(** [upsert_nodes] *)
Definition upsert_nodes (lim : limits) (now : Z) (sc : scope) (ns : list GraphNode)
  : graph → K Z * graph :=
  method
    (_ ← validate_scope sc; _ ← require_batch lim (len ns);
     validated ← mapR (validate_node sc) ns;
     _ ← require_unique_ids (map gn_node_id validated); Ok validated)
    (λ validated g,
      _ ← enforce_count_limit sc (graph_nodes g) (map gn_node_id validated)
            (max_nodes_per_namespace lim);
      Ok (len validated, upsert_nodes_rows now validated g)).

(** [upsert_edges] *)
Definition upsert_edges (lim : limits) (now : Z) (sc : scope) (es : list GraphEdge)
  : graph → K Z * graph :=
  method
    (_ ← validate_scope sc; _ ← require_batch lim (len es);
     validated ← mapR (validate_edge sc) es;
     _ ← require_unique_ids (map ge_edge_id validated); Ok validated)
    (λ validated g,
      _ ← enforce_count_limit sc (graph_edges g) (map ge_edge_id validated)
            (max_edges_per_namespace lim);
      g ← upsert_edges_rows now validated g;
      Ok (len validated, g)).

Definition incident (id : pystr) (e : edge_row) : bool :=
  bool_decide (er_source_node_id e = id) || bool_decide (er_target_node_id e = id).

(** [delete_node]: the DELETE and its ON DELETE CASCADE. *)
Definition delete_node (sc : scope) (id : pystr) : graph → K bool * graph :=
  method (_ ← validate_scope sc; required_text MAX_IDENTIFIER_LENGTH id)
    (λ _ g, Ok (bool_decide (is_Some (graph_nodes g !! (sc, id))),
      Graph (delete (sc, id) (graph_nodes g))
        (filter (λ '(k, e), ¬ (k.1 = sc ∧ incident id e = true)) (graph_edges g)))).

(** [delete_edge] *)
Definition delete_edge (sc : scope) (id : pystr) : graph → K bool * graph :=
  method (_ ← validate_scope sc; required_text MAX_IDENTIFIER_LENGTH id)
    (λ _ g, Ok (bool_decide (is_Some (graph_edges g !! (sc, id))),
      Graph (graph_nodes g) (delete (sc, id) (graph_edges g)))).

(** [import_batch]'s two DELETEs; the second finds no edge to cascade to. *)
Definition clear_scope (sc : scope) (g : graph) : graph :=
  Graph (filter (λ '(k, _), k.1 ≠ sc) (graph_nodes g))
    (filter (λ '(k, _), k.1 ≠ sc) (graph_edges g)).

(** [import_batch]; [now] and [now'] are the clock in the two upserts. *)
Definition import_batch (lim : limits) (now now' : Z) (sc : scope) (ns : list GraphNode)
    (es : list GraphEdge) (overwrite : bool) : graph → K (Z * Z) * graph :=
  method
    (_ ← validate_scope sc; _ ← require_batch lim (len ns + len es);
     ns' ← mapR (validate_node sc) ns;
     es' ← mapR (validate_edge sc) es;
     _ ← require_unique_ids (map gn_node_id ns');
     _ ← require_unique_ids (map ge_edge_id es'); Ok (ns', es'))
    (λ '(ns', es') g,
      let g := if overwrite : bool then clear_scope sc g else g in
      _ ← enforce_count_limit sc (graph_nodes g) (map gn_node_id ns')
            (max_nodes_per_namespace lim);
      _ ← enforce_count_limit sc (graph_edges g) (map ge_edge_id es')
            (max_edges_per_namespace lim);
      let g := upsert_nodes_rows now ns' g in
      g ← upsert_edges_rows now' es' g;
      Ok ((len ns', len es'), g)).
