(* ===== verification/KnowledgeQuery.v ===== *)
(** * Knowledge graph: reading

    The queries of [knowledge_graph_provider/sqlite_store.py]: [get_node],
    [get_edge], [search_nodes], [search_edges], [export_batch] and [expand].
    SQLite's [json_extract] is an argument. *)

From Stdlib Require Import ZArith NArith Sorted.
From S2P Require Import Prelude PyText Json Sha256 Scoped KnowledgeCursor KnowledgeGraph.

#[local] Open Scope Z_scope.

(** ** Records *)

Record node_record := NodeRecord {
  rn_node_id : pystr;
  rn_scope : scope;
  rn_kind : pystr;
  rn_label : pystr;
  rn_description : option pystr;
  rn_metadata : json;
  rn_source_refs : json;
  rn_created_at_ms : Z;
  rn_updated_at_ms : Z
}.

Record edge_record := EdgeRecord {
  re_edge_id : pystr;
  re_scope : scope;
  re_source_node_id : pystr;
  re_target_node_id : pystr;
  re_relation : pystr;
  re_metadata : json;
  re_source_refs : json;
  re_created_at_ms : Z;
  re_updated_at_ms : Z
}.

(** [json.loads] on a column. *)
Definition column_json (text : pystr) : K json :=
  match loads text with Some j => Ok j | None => Err KgJsonError end.

(** [_node_from_row] *)
Definition node_from_row (sc : scope) (row : pystr * node_row) : K node_record :=
  md ← column_json (nr_metadata_json row.2);
  refs ← column_json (nr_source_refs_json row.2);
  Ok {| rn_node_id := row.1; rn_scope := sc; rn_kind := nr_kind row.2;
        rn_label := nr_label row.2; rn_description := nr_description row.2;
        rn_metadata := md; rn_source_refs := refs;
        rn_created_at_ms := nr_created_at_ms row.2;
        rn_updated_at_ms := nr_updated_at_ms row.2 |}.

(** [_edge_from_row] *)
Definition edge_from_row (sc : scope) (row : pystr * edge_row) : K edge_record :=
  md ← column_json (er_metadata_json row.2);
  refs ← column_json (er_source_refs_json row.2);
  Ok {| re_edge_id := row.1; re_scope := sc; re_source_node_id := er_source_node_id row.2;
        re_target_node_id := er_target_node_id row.2; re_relation := er_relation row.2;
        re_metadata := md; re_source_refs := refs;
        re_created_at_ms := er_created_at_ms row.2;
        re_updated_at_ms := er_updated_at_ms row.2 |}.

(** [get_node] *)
Definition get_node (sc : scope) (id : pystr) (g : graph) : K (option node_record) :=
  _ ← validate_scope sc;
  _ ← required_text MAX_IDENTIFIER_LENGTH id;
  match graph_nodes g !! (sc, id) with
  | Some r => n ← node_from_row sc (id, r); Ok (Some n)
  | None => Ok None
  end.

(** [get_edge] *)
Definition get_edge (sc : scope) (id : pystr) (g : graph) : K (option edge_record) :=
  _ ← validate_scope sc;
  _ ← required_text MAX_IDENTIFIER_LENGTH id;
  match graph_edges g !! (sc, id) with
  | Some r => e ← edge_from_row sc (id, r); Ok (Some e)
  | None => Ok None
  end.

(** ** Searching *)

(** SQLite's [lower], which folds ASCII. *)
Definition sql_lower (s : pystr) : pystr :=
  map (λ c, if is_upper_ascii c then (c + 32)%N else c) s.

Fixpoint starts_with (p s : pystr) : bool :=
  match p, s with
  | [], _ => true
  | c :: p, d :: s => (c =? d)%N && starts_with p s
  | _, [] => false
  end.

(** [instr(s, p) > 0] *)
Fixpoint contains (p s : pystr) : bool :=
  starts_with p s || match s with [] => false | _ :: s => contains p s end.

Record node_query := NodeQuery {
  nq_query : pystr;
  nq_kind : option pystr;
  nq_metadata : list (pystr * pystr);
  nq_page_size : option Z;
  nq_page_token : option pystr
}.

Definition opt_json (o : option pystr) : json :=
  match o with Some s => JStr s | None => JNull end.

Section SearchNodes.
(** [json_extract(text, path)] as text. *)
Context (json_extract : pystr → pystr → option pystr).

(** The conditions [search_nodes] adds to the WHERE clause. *)
Definition node_matches (q : node_query) (row : pystr * node_row) : bool :=
  (bool_decide (nq_query q = [])
   || contains (sql_lower (nq_query q))
        (sql_lower (nr_label row.2 ++ lit " " ++ default [] (nr_description row.2))))
  && match nq_kind q with
     | Some (c :: k) => bool_decide (nr_kind row.2 = c :: k)
     | _ => true
     end
  && forallb (λ '(k, v), bool_decide
       (json_extract (nr_metadata_json row.2) (lit "$." ++ dump_str k) = Some v))
     (sort_items (nq_metadata q)).

(** [search_nodes]'s filters, hashed into the cursor's scope. *)
Definition node_filters (q : node_query) (size : Z) : list (pystr * json) :=
  [(lit "query", JStr (nq_query q)); (lit "kind", opt_json (nq_kind q));
   (lit "metadata_filters", JMap (sort_items (nq_metadata q)));
   (lit "page_size", JInt size)].

Definition check_node_query (sc : scope) (q : node_query) : K () :=
  _ ← validate_scope sc;
  _ ← require (negb (MAX_TEXT_LENGTH <? len (nq_query q))) INVALID_INPUT;
  _ ← match nq_kind q with
      | Some kind => required_text MAX_IDENTIFIER_LENGTH kind
      | None => Ok ()
      end;
  _ ← require (negb (MAX_METADATA_ITEMS <? len (nq_metadata q))) INVALID_INPUT;
  each (λ '(k, v), _ ← required_text 256 k; required_text 4096 v) (nq_metadata q).

(** [search_nodes] *)
Definition search_nodes (lim : limits) (key : pybytes) (sc : scope) (q : node_query) (g : graph)
  : K (list node_record * pystr) :=
  _ ← check_node_query sc q;
  size ← page_size lim (nq_page_size q);
  cs ← cursor_scope (lit "search_nodes") sc.1 sc.2 (node_filters q size);
  after ← decode_page_token (nq_page_token q) (lit "search_nodes") cs key;
  let rows := keyset (node_matches q) after (size + 1) (in_scope sc (graph_nodes g)) in
  '(selected, token) ←
    page (λ id, encode_page_token (lit "search_nodes") id cs key) size rows;
  records ← mapR (node_from_row sc) selected;
  Ok (records, token).
End SearchNodes.

Record edge_query := EdgeQuery {
  eq_node_id : option pystr;
  eq_relation : option pystr;
  eq_page_size : option Z;
  eq_page_token : option pystr
}.

Definition edge_matches (q : edge_query) (row : pystr * edge_row) : bool :=
  match eq_node_id q with Some (c :: id) => incident (c :: id) row.2 | _ => true end
  && match eq_relation q with
     | Some (c :: r) => bool_decide (er_relation row.2 = c :: r)
     | _ => true
     end.

Definition edge_filters (q : edge_query) (size : Z) : list (pystr * json) :=
  [(lit "node_id", opt_json (eq_node_id q)); (lit "relation", opt_json (eq_relation q));
   (lit "page_size", JInt size)].

Definition check_text (o : option pystr) : K () :=
  match o with Some s => required_text MAX_IDENTIFIER_LENGTH s | None => Ok () end.

(** [search_edges] *)
Definition search_edges (lim : limits) (key : pybytes) (sc : scope) (q : edge_query) (g : graph)
  : K (list edge_record * pystr) :=
  _ ← validate_scope sc;
  _ ← check_text (eq_node_id q);
  _ ← check_text (eq_relation q);
  size ← page_size lim (eq_page_size q);
  cs ← cursor_scope (lit "search_edges") sc.1 sc.2 (edge_filters q size);
  after ← decode_page_token (eq_page_token q) (lit "search_edges") cs key;
  let rows := keyset (edge_matches q) after (size + 1) (in_scope sc (graph_edges g)) in
  '(selected, token) ←
    page (λ id, encode_page_token (lit "search_edges") id cs key) size rows;
  records ← mapR (edge_from_row sc) selected;
  Ok (records, token).

(** ** Exporting *)

Definition all {R} (_ : pystr * R) : bool := true.

(** [export_batch] *)
Definition export_batch (lim : limits) (key : pybytes) (sc : scope) (psize : option Z)
    (token : option pystr) (g : graph)
  : K (list node_record * list edge_record * pystr) :=
  _ ← validate_scope sc;
  size ← page_size lim psize;
  cs ← cursor_scope (lit "export") sc.1 sc.2 [(lit "page_size", JInt size)];
  '(phase, after) ← decode_export_token token cs key;
  let in_nodes := bool_decide (phase = lit "nodes") in
  let nodes := keyset all (if in_nodes then after else []) (size + 1)
                 (in_scope sc (graph_nodes g)) in
  if in_nodes && (size <? len nodes) then
    '(selected, token) ← page (λ id, encode_export_token (lit "nodes") id cs key) size nodes;
    records ← mapR (node_from_row sc) selected;
    Ok (records, [], token)
  else
    node_records ← (if in_nodes then mapR (node_from_row sc) nodes else Ok []);
    let remaining := size - len node_records in
    let edge_after := if bool_decide (phase = lit "edges") then after else [] in
    if remaining =? 0 then
      token ← (if bool_decide (in_scope sc (graph_edges g) = []) then Ok []
               else encode_export_token (lit "edges") [] cs key);
      Ok (node_records, [], token)
    else
      let edges := keyset all edge_after (remaining + 1) (in_scope sc (graph_edges g)) in
      '(selected, token) ← page (λ id, encode_export_token (lit "edges") id cs key) remaining edges;
      records ← mapR (edge_from_row sc) selected;
      Ok (node_records, records, token).

(** ** Expansion *)

(** [list(dict.fromkeys(l))] *)
Fixpoint dedup (l : list pystr) : list pystr :=
  match l with
  | [] => []
  | x :: l => x :: List.filter (λ y, negb (bool_decide (y = x))) (dedup l)
  end.

(** [_load_nodes] *)
Definition load_nodes (sc : scope) (ids : gset pystr) (g : graph) : gmap pystr node_row :=
  list_to_map (List.filter (λ r, bool_decide (r.1 ∈ ids)) (in_scope sc (graph_nodes g))).

(** The expansion's state; [visited] is the key set of the loaded nodes. *)
Record expansion := Expansion {
  x_nodes : gmap pystr node_row;
  x_frontier : gset pystr;
  x_edges : list (pystr * edge_row)
}.

Section Expand.
Context (lim : limits) (sc : scope) (relations : list pystr) (node_limit : Z) (g : graph).

(** The rows the query of one level returns. *)
Definition level_matches (x : expansion) (row : pystr * edge_row) : bool :=
  (bool_decide (er_source_node_id row.2 ∈ x_frontier x)
   || bool_decide (er_target_node_id row.2 ∈ x_frontier x))
  && negb (bool_decide (row.1 ∈ (x_edges x).*1))
  && (bool_decide (relations = []) || bool_decide (er_relation row.2 ∈ relations)).

Definition level_rows (x : expansion) : list (pystr * edge_row) :=
  take (Z.to_nat (max_expand_edges lim - len (x_edges x) + 1))
    (sort_items (List.filter (level_matches x) (in_scope sc (graph_edges g)))).

(** The loop over those rows: the edges found and the next frontier. *)
Fixpoint scan_rows (x : expansion) (rows : list (pystr * edge_row))
    (found : list (pystr * edge_row)) (next : gset pystr)
  : K (list (pystr * edge_row) * gset pystr) :=
  match rows with
  | [] => Ok (found, next)
  | row :: rows =>
      _ ← require (negb (max_expand_edges lim <=? len found)) QUOTA_EXCEEDED;
      let other_id := if bool_decide (er_source_node_id row.2 ∈ x_frontier x)
                      then er_target_node_id row.2 else er_source_node_id row.2 in
      let visited := dom (x_nodes x) in
      if negb (bool_decide (other_id ∈ visited)) && negb (bool_decide (other_id ∈ next)) then
        _ ← require (negb (node_limit <=? Z.of_nat (size visited) + Z.of_nat (size next)))
              QUOTA_EXCEEDED;
        scan_rows x rows (found ++ [row]) ({[other_id]} ∪ next)
      else scan_rows x rows (found ++ [row]) next
  end.

Definition expand_level (x : expansion) : K expansion :=
  '(found, next) ← scan_rows x (level_rows x) (x_edges x) ∅;
  if bool_decide (next = ∅) then Ok (Expansion (x_nodes x) ∅ found)
  else
    let loaded := load_nodes sc next g in
    _ ← require (bool_decide (dom loaded = next)) STORAGE_FAILED;
    Ok (Expansion (loaded ∪ x_nodes x) next found).

Fixpoint expand_levels (depth : nat) (x : expansion) : K expansion :=
  match depth with
  | O => Ok x
  | S depth =>
      if bool_decide (x_frontier x = ∅) then Ok x
      else x ← expand_level x; expand_levels depth x
  end.
End Expand.

(** [expand], up to the records: the node rows and edge rows in id order. *)
Definition expand_rows (lim : limits) (sc : scope) (seed_node_ids relation_filters : list pystr)
    (max_depth node_limit : option Z) (g : graph)
  : K (list (pystr * node_row) * list (pystr * edge_row)) :=
  _ ← validate_scope sc;
  let depth_limit := default (max_expand_depth lim) max_depth in
  let result_limit := default (max_expand_nodes lim) node_limit in
  _ ← require ((1 <=? depth_limit) && (depth_limit <=? max_expand_depth lim)) INVALID_INPUT;
  _ ← require ((1 <=? result_limit) && (result_limit <=? max_expand_nodes lim)) INVALID_INPUT;
  _ ← each (required_text MAX_IDENTIFIER_LENGTH) seed_node_ids;
  let seeds := dedup seed_node_ids in
  _ ← require (negb (bool_decide (seeds = []))) INVALID_INPUT;
  _ ← require (negb (result_limit <? len seeds)) QUOTA_EXCEEDED;
  _ ← each (required_text MAX_IDENTIFIER_LENGTH) relation_filters;
  let relations := dedup relation_filters in
  _ ← require (negb (MAX_RELATION_FILTERS <? len relations)) INVALID_INPUT;
  let frontier := list_to_set seeds : gset pystr in
  let nodes := load_nodes sc frontier g in
  _ ← require (bool_decide (frontier ⊆ dom nodes)) NOT_FOUND;
  x ← expand_levels lim sc relations result_limit g (Z.to_nat depth_limit)
        (Expansion nodes frontier []);
  let visited := dom (x_nodes x) in
  let filtered_edges := List.filter (λ e, bool_decide (er_source_node_id e.2 ∈ visited)
                                          && bool_decide (er_target_node_id e.2 ∈ visited))
                          (x_edges x) in
  Ok (sort_items (map_to_list (x_nodes x)), sort_items filtered_edges).

(** [expand] *)
Definition expand (lim : limits) (sc : scope) (seed_node_ids relation_filters : list pystr)
    (max_depth node_limit : option Z) (g : graph) : K (list node_record * list edge_record) :=
  '(ns, es) ← expand_rows lim sc seed_node_ids relation_filters max_depth node_limit g;
  nodes ← mapR (node_from_row sc) ns;
  edges ← mapR (edge_from_row sc) es;
  Ok (nodes, edges).
