(* ===== verification/KnowledgeFacts.v ===== *)
(** * Knowledge graph: integrity and isolation

    The store as a machine: referential integrity, namespace quotas and
    well-formed columns are invariants; an operation of one scope neither sees
    nor touches another. *)

From Stdlib Require Import ZArith NArith Sorted.
From S2P Require Import Prelude PyText Json Sha256 Scoped KnowledgeCursor KnowledgeGraph.
From S2P Require Import KnowledgeQuery.

#[local] Open Scope Z_scope.

Lemma enforce_ok {R} (sc : scope) (m : gmap gkey R) (ids : list pystr) (maximum : Z) u :
  enforce_count_limit sc m ids maximum = Ok u → NoDup ids →
  count sc m + len (List.filter (λ id, negb (bool_decide (is_Some (m !! (sc, id))))) ids)
    <= maximum.
Proof.
  unfold enforce_count_limit. intros H Hnd. inv_result.
  apply negb_true_iff, Z.ltb_ge in H.
  assert (Hp : remove_dups ids ≡ₚ ids).
  { apply NoDup_Permutation; [apply NoDup_remove_dups|done|apply elem_of_remove_dups]. }
  unfold count, len in *. etrans; [|exact H].
  assert (Hf : ∀ p : pystr → bool, length (List.filter p (remove_dups ids))
                                   = length (List.filter p ids)).
  { intros p. clear -Hp. induction Hp; cbn; repeat case_match; cbn; lia. }
  by rewrite Hf.
Qed.

(** ** What the upserts write *)

Definition node_in (sc : scope) (n : GraphNode) : Prop :=
  gn_tenant_id n = sc.1 ∧ gn_namespace n = sc.2.
Definition edge_in (sc : scope) (e : GraphEdge) : Prop :=
  ge_tenant_id e = sc.1 ∧ ge_namespace e = sc.2.

(** The rows of a batch, all computed from the table before it. *)
Definition node_rows (now : Z) (sc : scope) (m : gmap gkey node_row) (ns : list GraphNode) :=
  map (λ n, (gn_node_id n, new_node_row now (m !! (sc, gn_node_id n)) n)) ns.
Definition edge_rows (now : Z) (sc : scope) (m : gmap gkey edge_row) (es : list GraphEdge) :=
  map (λ e, (ge_edge_id e, new_edge_row now (m !! (sc, ge_edge_id e)) e)) es.

Lemma node_rows_ids now sc m ns : (node_rows now sc m ns).*1 = map gn_node_id ns.
Proof. unfold node_rows. by induction ns; cbn; f_equal. Qed.
Lemma edge_rows_ids now sc m es : (edge_rows now sc m es).*1 = map ge_edge_id es.
Proof. unfold edge_rows. by induction es; cbn; f_equal. Qed.

Lemma upsert_nodes_spec now sc ns g :
  Forall (node_in sc) ns → NoDup (map gn_node_id ns) →
  upsert_nodes_rows now ns g
  = Graph (put_all sc (node_rows now sc (graph_nodes g) ns) (graph_nodes g)) (graph_edges g).
Proof.
  revert g. induction ns as [|n ns IH]; intros g Hs Hnd; [by destruct g|].
  apply Forall_cons in Hs as [[Ht Hn] Hs]. cbn in Hnd. apply NoDup_cons in Hnd as [Hni Hnd].
  change (upsert_nodes_rows now (n :: ns) g) with (upsert_nodes_rows now ns (upsert_node now g n)).
  rewrite IH by done. unfold upsert_node. rewrite Ht, Hn, <- surjective_pairing.
  cbn [graph_nodes graph_edges node_rows map]. rewrite put_all_cons. do 2 f_equal.
  apply map_ext_in. intros n' Hin%list_elem_of_In. do 2 f_equal.
  rewrite lookup_insert_ne; [done|]. intros [= He]. apply Hni. rewrite He.
  by apply list_elem_of_In, in_map, list_elem_of_In.
Qed.

Lemma upsert_edges_spec now sc es g g' :
  Forall (edge_in sc) es → NoDup (map ge_edge_id es) →
  upsert_edges_rows now es g = Ok g' →
  g' = Graph (graph_nodes g) (put_all sc (edge_rows now sc (graph_edges g) es) (graph_edges g))
  ∧ Forall (λ e, is_Some (graph_nodes g !! (sc, ge_source_node_id e))
                 ∧ is_Some (graph_nodes g !! (sc, ge_target_node_id e))) es.
Proof.
  revert g. induction es as [|e es IH]; intros g Hs Hnd H.
  { cbn in H. injection H as <-. by destruct g. }
  apply Forall_cons in Hs as [[Ht Hn] Hs]. cbn in Hnd. apply NoDup_cons in Hnd as [Hni Hnd].
  change (upsert_edges_rows now (e :: es) g)
    with (g1 ← upsert_edge now g e; upsert_edges_rows now es g1) in H.
  apply bind_ok in H as (g1 & H1 & H). unfold upsert_edge in H1.
  rewrite Ht, Hn, <- surjective_pairing in H1. inv_result. bools.
  apply IH in H as [-> Hf]; [|done..]. cbn [graph_nodes graph_edges] in *.
  split; [|by constructor]. f_equal.
  change (edge_rows now sc (graph_edges g) (e :: es))
    with ((ge_edge_id e, new_edge_row now (graph_edges g !! (sc, ge_edge_id e)) e)
          :: edge_rows now sc (graph_edges g) es).
  rewrite put_all_cons. f_equal. apply map_ext_in. intros e' Hin%list_elem_of_In. do 2 f_equal.
  rewrite lookup_insert_ne; [done|]. intros [= He]. apply Hni. rewrite He.
  by apply list_elem_of_In, in_map, list_elem_of_In.
Qed.

Lemma validate_nodes_ok sc ns ns' :
  mapR (validate_node sc) ns = Ok ns' → ns' = ns ∧ Forall (node_in sc) ns.
Proof.
  rewrite mapR_ok. induction 1 as [|n n' ns ns' Hn _ [-> IH]]; [done|].
  unfold validate_node in Hn. inv_result. bools. split; [done|]. by constructor.
Qed.

Lemma validate_edges_ok sc es es' :
  mapR (validate_edge sc) es = Ok es' → es' = es ∧ Forall (edge_in sc) es.
Proof.
  rewrite mapR_ok. induction 1 as [|n n' ns ns' Hn _ [-> IH]]; [done|].
  unfold validate_edge in Hn. inv_result. bools. split; [done|]. by constructor.
Qed.

(** Opens the validations of a method's hypothesis. *)
Ltac inv_valid :=
  repeat match goal with
  | H : mapR (validate_node _) _ = Ok _ |- _ => apply validate_nodes_ok in H as [-> ?]
  | H : mapR (validate_edge _) _ = Ok _ |- _ => apply validate_edges_ok in H as [-> ?]
  | H : require_unique_ids _ = Ok _ |- _ => apply require_ok, bool_decide_eq_true in H
  end.

(** ** The machine *)

Inductive graph_op :=
  | GUpsertNodes (now : Z) (sc : scope) (ns : list GraphNode)
  | GUpsertEdges (now : Z) (sc : scope) (es : list GraphEdge)
  | GDeleteNode (sc : scope) (id : pystr)
  | GDeleteEdge (sc : scope) (id : pystr)
  | GImport (now now' : Z) (sc : scope) (ns : list GraphNode) (es : list GraphEdge)
      (overwrite : bool)
  | GGetNode (sc : scope) (id : pystr)
  | GGetEdge (sc : scope) (id : pystr)
  | GSearchNodes (sc : scope) (q : node_query)
  | GSearchEdges (sc : scope) (q : edge_query)
  | GExport (sc : scope) (size : option Z) (token : option pystr)
  | GExpand (sc : scope) (seeds relations : list pystr) (depth limit : option Z).

Inductive graph_out :=
  | OCount (r : K Z)
  | ODeleted (r : K bool)
  | OImported (r : K (Z * Z))
  | ONode (r : K (option node_record))
  | OEdge (r : K (option edge_record))
  | ONodes (r : K (list node_record * pystr))
  | OEdges (r : K (list edge_record * pystr))
  | OExport (r : K (list node_record * list edge_record * pystr))
  | OExpand (r : K (list node_record * list edge_record)).

Definition op_scope (op : graph_op) : scope :=
  match op with
  | GUpsertNodes _ sc _ | GUpsertEdges _ sc _ | GDeleteNode sc _ | GDeleteEdge sc _
  | GImport _ _ sc _ _ _ | GGetNode sc _ | GGetEdge sc _ | GSearchNodes sc _
  | GSearchEdges sc _ | GExport sc _ _ | GExpand sc _ _ _ _ => sc
  end.

Section Machine.
Context (lim : limits) (key : pybytes) (json_extract : pystr → pystr → option pystr).

Definition graph_step (op : graph_op) (g : graph) : graph_out * graph :=
  match op with
  | GUpsertNodes now sc ns => let '(r, g) := upsert_nodes lim now sc ns g in (OCount r, g)
  | GUpsertEdges now sc es => let '(r, g) := upsert_edges lim now sc es g in (OCount r, g)
  | GDeleteNode sc id => let '(r, g) := delete_node sc id g in (ODeleted r, g)
  | GDeleteEdge sc id => let '(r, g) := delete_edge sc id g in (ODeleted r, g)
  | GImport now now' sc ns es ow =>
      let '(r, g) := import_batch lim now now' sc ns es ow g in (OImported r, g)
  | GGetNode sc id => (ONode (get_node sc id g), g)
  | GGetEdge sc id => (OEdge (get_edge sc id g), g)
  | GSearchNodes sc q => (ONodes (search_nodes json_extract lim key sc q g), g)
  | GSearchEdges sc q => (OEdges (search_edges lim key sc q g), g)
  | GExport sc size token => (OExport (export_batch lim key sc size token g), g)
  | GExpand sc seeds rels depth limit => (OExpand (expand lim sc seeds rels depth limit g), g)
  end.

(** *** What a step does to the tables *)

Inductive graph_change (sc : scope) (g : graph) : graph → Prop :=
  | gc_same : graph_change sc g g
  | gc_nodes now ns :
      NoDup (map gn_node_id ns) →
      count sc (put_all sc (node_rows now sc (graph_nodes g) ns) (graph_nodes g))
        <= max_nodes_per_namespace lim →
      graph_change sc g
        (Graph (put_all sc (node_rows now sc (graph_nodes g) ns) (graph_nodes g)) (graph_edges g))
  | gc_edges now es :
      NoDup (map ge_edge_id es) →
      count sc (put_all sc (edge_rows now sc (graph_edges g) es) (graph_edges g))
        <= max_edges_per_namespace lim →
      Forall (λ e, is_Some (graph_nodes g !! (sc, ge_source_node_id e))
                   ∧ is_Some (graph_nodes g !! (sc, ge_target_node_id e))) es →
      graph_change sc g
        (Graph (graph_nodes g) (put_all sc (edge_rows now sc (graph_edges g) es) (graph_edges g)))
  | gc_delete_node id :
      graph_change sc g (Graph (delete (sc, id) (graph_nodes g))
        (filter (λ '(k, e), ¬ (k.1 = sc ∧ incident id e = true)) (graph_edges g)))
  | gc_delete_edge id :
      graph_change sc g (Graph (graph_nodes g) (delete (sc, id) (graph_edges g)))
  | gc_clear : graph_change sc g (clear_scope sc g).

Lemma enforce_nodes (now : Z) (sc : scope) ns g u :
  NoDup (map gn_node_id ns) →
  enforce_count_limit sc (graph_nodes g) (map gn_node_id ns) (max_nodes_per_namespace lim) = Ok u →
  count sc (put_all sc (node_rows now sc (graph_nodes g) ns) (graph_nodes g))
    <= max_nodes_per_namespace lim.
Proof.
  intros Hnd H%enforce_ok; [|done].
  by rewrite count_put_all; rewrite node_rows_ids.
Qed.

Lemma enforce_edges (now : Z) (sc : scope) (es : list GraphEdge) (m : gmap gkey edge_row) u :
  NoDup (map ge_edge_id es) →
  enforce_count_limit sc m (map ge_edge_id es) (max_edges_per_namespace lim) = Ok u →
  count sc (put_all sc (edge_rows now sc m es) m) <= max_edges_per_namespace lim.
Proof.
  intros Hnd H%enforce_ok; [|done].
  by rewrite count_put_all; rewrite edge_rows_ids.
Qed.

(** A step is at most three such changes, all in the operation's scope. *)
Definition three_changes (sc : scope) (g g' : graph) : Prop :=
  ∃ g1 g2, graph_change sc g g1 ∧ graph_change sc g1 g2 ∧ graph_change sc g2 g'.

Lemma three_same sc g : three_changes sc g g.
Proof. exists g, g. split_and!; constructor. Qed.

Lemma three_one sc g g' : graph_change sc g g' → three_changes sc g g'.
Proof. exists g, g. split_and!; [constructor..|done]. Qed.

Lemma method_change {A B} sc (check : K A) (body : A → gtxn B) g :
  (∀ a b g', check = Ok a → body a g = Ok (b, g') → three_changes sc g g') →
  three_changes sc g (snd (method check body g)).
Proof.
  intros H. unfold method. destruct check as [a|e]; [|apply three_same].
  apply (transact_inv (three_changes sc g)); [apply three_same|eauto].
Qed.

Lemma step_changes op g : three_changes (op_scope op) g (snd (graph_step op g)).
Proof.
  assert (Hs : ∀ B (f : B → graph_out) (p : B * graph), snd (let '(r, g) := p in (f r, g)) = snd p)
    by by intros B f [].
  destruct op; cbn [graph_step op_scope]; rewrite ?Hs; try apply three_same;
    apply method_change; intros a b g' Hc Hb; inv_result.
  - inv_valid. rewrite (upsert_nodes_spec _ sc) by done. apply three_one, gc_nodes; [done|].
    by eapply enforce_nodes.
  - inv_valid.
    match goal with H : upsert_edges_rows _ _ _ = Ok _ |- _ =>
      apply (upsert_edges_spec _ sc) in H as [-> Hf]; [|done..] end.
    apply three_one, gc_edges; [done|by eapply enforce_edges|done].
  - apply three_one. constructor.
  - apply three_one. constructor.
  - inv_valid.
    exists (if overwrite then clear_scope sc g else g).
    set (g0 := if overwrite then _ else _) in *.
    cbv zeta in Hb. inv_result.
    match goal with H : upsert_edges_rows _ _ _ = Ok _ |- _ =>
      rewrite (upsert_nodes_spec _ sc) in H by done;
      apply (upsert_edges_spec _ sc) in H as [-> Hf]; [|done..] end.
    eexists. split_and!.
    + subst g0. destruct overwrite; constructor.
    + apply (gc_nodes _ _ now); [done|by eapply enforce_nodes].
    + match goal with |- graph_change _ ?g1 _ => apply (gc_edges sc g1 now' es) end;
        [done| |done]. cbn [graph_edges]. by eapply enforce_edges.
Qed.

(** ** The invariant *)

(** A column that holds what [_dump_json] wrote. *)
Definition column_ok (text : pystr) : Prop := is_Some (loads text).

Record graph_inv (g : graph) : Prop := {
  gi_endpoints : ∀ sc id e, graph_edges g !! (sc, id) = Some e →
    is_Some (graph_nodes g !! (sc, er_source_node_id e))
    ∧ is_Some (graph_nodes g !! (sc, er_target_node_id e));
  gi_nodes : ∀ sc, count sc (graph_nodes g) <= Z.max 0 (max_nodes_per_namespace lim);
  gi_edges : ∀ sc, count sc (graph_edges g) <= Z.max 0 (max_edges_per_namespace lim)
}.

Lemma change_inv sc g g' : graph_change sc g g' → graph_inv g → graph_inv g'.
Proof.
  intros Hch [He Hn Hq]. destruct Hch as [|now ns Hnd Hc|now es Hnd Hc Hf|id|id|]; [done|..].
  - split; cbn [graph_nodes graph_edges]; [..|done].
    + intros sc' id e Hid. destruct (He _ _ _ Hid) as [[r1 H1] [r2 H2]].
      assert (Hgrow : ∀ k r, graph_nodes g !! k = Some r →
        is_Some (put_all sc (node_rows now sc (graph_nodes g) ns) (graph_nodes g) !! k)).
      { intros [sc1 id1] r Hk. destruct (put_all _ _ _ !! _) eqn:E; [eauto|].
        destruct (decide (sc1 = sc)) as [->|]; [|by rewrite put_all_other, Hk in E].
        apply put_all_none in E as [E _]; [congruence|by rewrite node_rows_ids]. }
      eauto.
    + intros sc'. destruct (decide (sc' = sc)) as [->|Hne]; [lia|].
      etrans; [|apply (Hn sc')]. apply count_le. intros id r.
      rewrite put_all_other by done. eauto.
  - split; cbn [graph_nodes graph_edges]; [|done|].
    + intros sc' id e. destruct (decide (sc' = sc)) as [->|Hne];
        [|rewrite put_all_other by done; apply He].
      destruct (decide (id ∈ (edge_rows now sc (graph_edges g) es).*1)) as [Hin|Hin];
        [|rewrite put_all_notin by done; apply He].
      apply list_elem_of_fmap in Hin as ([id' r] & -> & Hin). cbn.
      rewrite (put_all_in _ _ _ _ r) by (done || by rewrite edge_rows_ids).
      intros [= <-]. unfold edge_rows in Hin.
      apply list_elem_of_In, in_map_iff in Hin as (e & [= _ <-] & Hin%list_elem_of_In).
      rewrite Forall_forall in Hf. by apply Hf.
    + intros sc'. destruct (decide (sc' = sc)) as [->|Hne]; [lia|].
      etrans; [|apply (Hq sc')]. apply count_le. intros id r.
      rewrite put_all_other by done. eauto.
  - split; cbn [graph_nodes graph_edges].
    + intros sc' id' e [Hid Hni]%map_lookup_filter_Some. cbn in Hni.
      destruct (He _ _ _ Hid) as [H1 H2]. unfold incident in Hni.
      rewrite !lookup_delete_ne; [done|..]; intros [= -> ->]; apply Hni; (split; [done|]).
      * by rewrite (bool_decide_true (er_target_node_id e = _)), orb_true_r.
      * by rewrite bool_decide_true.
    + intros sc'. etrans; [|apply (Hn sc')]. apply count_le.
      intros id' r [_ H]%lookup_delete_Some. eauto.
    + intros sc'. etrans; [|apply (Hq sc')]. apply count_le.
      intros id' r [H _]%map_lookup_filter_Some. eauto.
  - split; cbn [graph_nodes graph_edges]; [|done|].
    + intros sc' id' e [_ H]%lookup_delete_Some. eauto.
    + intros sc'. etrans; [|apply (Hq sc')]. apply count_le.
      intros id' r [_ H]%lookup_delete_Some. eauto.
  - split; cbn [graph_nodes graph_edges clear_scope].
    + intros sc' id' e [Hid Hni]%map_lookup_filter_Some. cbn in Hni.
      destruct (He _ _ _ Hid) as [[r1 H1] [r2 H2]].
      split; [exists r1|exists r2]; by apply map_lookup_filter_Some.
    + intros sc'. etrans; [|apply (Hn sc')]. apply count_le.
      intros id' r [H _]%map_lookup_filter_Some. eauto.
    + intros sc'. etrans; [|apply (Hq sc')]. apply count_le.
      intros id' r [H _]%map_lookup_filter_Some. eauto.
Qed.

Lemma step_graph_inv op g : graph_inv g → graph_inv (snd (graph_step op g)).
Proof.
  intros Hi. destruct (step_changes op g) as (g1 & g2 & H1 & H2 & H3).
  eauto using change_inv.
Qed.

Lemma empty_graph_inv : graph_inv empty_graph.
Proof.
  assert (H0 : ∀ R sc, count sc (∅ : gmap gkey R) = 0).
  { intros R sc. unfold count, in_scope. by rewrite map_to_list_empty. }
  split; cbn.
  - intros sc id e H. by rewrite lookup_empty in H.
  - intros sc. rewrite H0. lia.
  - intros sc. rewrite H0. lia.
Qed.
End Machine.
