(* ===== verification/KnowledgeScope.v ===== *)
(** * Knowledge graph: what callers can rely on

    Integrity of the stored graph, isolation of scopes, and that what is written
    is what is read back. *)

From Stdlib Require Import ZArith NArith Sorted.
From S2P Require Import Prelude PyText Json Sha256 Scoped KnowledgeCursor KnowledgeGraph.
From S2P Require Import KnowledgeQuery KnowledgeFacts.

#[local] Open Scope Z_scope.

(** C9. The stored graph is sound: after any operations from an empty database,
    every edge connects two nodes of its own tenant and namespace, and no
    namespace holds more nodes or edges than its quota. *)
Theorem graph_integrity lim key json_extract ops sc id e :
  let g := final (graph_step lim key json_extract) ops empty_graph in
  (graph_edges g !! (sc, id) = Some e →
     is_Some (graph_nodes g !! (sc, er_source_node_id e))
     ∧ is_Some (graph_nodes g !! (sc, er_target_node_id e)))
  ∧ len (in_scope sc (graph_nodes g)) <= Z.max 0 (max_nodes_per_namespace lim)
  ∧ len (in_scope sc (graph_edges g)) <= Z.max 0 (max_edges_per_namespace lim).
Proof.
  cbv zeta.
  assert (H : graph_inv lim (final (graph_step lim key json_extract) ops empty_graph)).
  { apply final_inv; [intros; by apply step_graph_inv|apply empty_graph_inv]. }
  destruct H as [H1 H2 H3]. split_and!; [apply H1|apply H2|apply H3].
Qed.

(** ** Scopes

    Two databases that agree on a scope. *)

Definition same_scope (sc : scope) (g g' : graph) : Prop :=
  ∀ id, graph_nodes g !! (sc, id) = graph_nodes g' !! (sc, id)
        ∧ graph_edges g !! (sc, id) = graph_edges g' !! (sc, id).

#[export] Instance same_scope_equivalence sc : Equivalence (same_scope sc).
Proof.
  split.
  - intros g id. done.
  - intros g g' H id. destruct (H id) as [-> ->]. done.
  - intros g1 g2 g3 H1 H2 id. destruct (H1 id) as [-> ->]. apply H2.
Qed.

Section Same.
Context (lim : limits) (key : pybytes) (json_extract : pystr → pystr → option pystr).
Context (sc : scope).

Lemma same_nodes g g' :
  same_scope sc g g' → in_scope sc (graph_nodes g) ≡ₚ in_scope sc (graph_nodes g').
Proof. intros H. apply in_scope_same. apply H. Qed.

Lemma same_edges g g' :
  same_scope sc g g' → in_scope sc (graph_edges g) ≡ₚ in_scope sc (graph_edges g').
Proof. intros H. apply in_scope_same. apply H. Qed.

Lemma sort_filter_same {R} (p : pystr * R → bool) (m m' : gmap gkey R) :
  (∀ id, m !! (sc, id) = m' !! (sc, id)) →
  sort_items (List.filter p (in_scope sc m)) = sort_items (List.filter p (in_scope sc m')).
Proof.
  intros H. apply sort_items_unique; [apply nodup_filter_keys, nodup_in_scope|].
  by apply filter_perm, in_scope_same.
Qed.

#[export] Instance get_node_same id : Proper (same_scope sc ==> eq) (get_node sc id).
Proof. intros g g' H. unfold get_node. by rewrite (proj1 (H id)). Qed.

#[export] Instance get_edge_same id : Proper (same_scope sc ==> eq) (get_edge sc id).
Proof. intros g g' H. unfold get_edge. by rewrite (proj2 (H id)). Qed.

Lemma keyset_same {R} (p : pystr * R → bool) (after : pystr) (n : Z) (m m' : gmap gkey R) :
  (∀ id, m !! (sc, id) = m' !! (sc, id)) →
  keyset p after n (in_scope sc m) = keyset p after n (in_scope sc m').
Proof. intros H. unfold keyset. by rewrite (sort_filter_same _ _ m'). Qed.

#[export] Instance search_nodes_same q :
  Proper (same_scope sc ==> eq) (search_nodes json_extract lim key sc q).
Proof.
  intros g g' H. unfold search_nodes. do 4 (apply bind_ext; intros ? _).
  by rewrite (keyset_same _ _ _ _ (graph_nodes g') (λ id, proj1 (H id))).
Qed.

#[export] Instance search_edges_same q :
  Proper (same_scope sc ==> eq) (search_edges lim key sc q).
Proof.
  intros g g' H. unfold search_edges. do 6 (apply bind_ext; intros ? _).
  by rewrite (keyset_same _ _ _ _ (graph_edges g') (λ id, proj2 (H id))).
Qed.

#[export] Instance export_same size token :
  Proper (same_scope sc ==> eq) (export_batch lim key sc size token).
Proof.
  intros g g' H. unfold export_batch. do 3 (apply bind_ext; intros ? _).
  apply bind_ext. intros [phase after] _.
  rewrite (keyset_same _ _ _ _ (graph_nodes g') (λ id, proj1 (H id))).
  destruct (_ && _); [done|]. apply bind_ext. intros records _. cbv zeta.
  rewrite (keyset_same _ _ _ _ (graph_edges g') (λ id, proj2 (H id))).
  destruct (_ =? 0); [|done]. pose proof (same_edges _ _ H) as Hp.
  destruct (in_scope sc (graph_edges g)) as [|r l] eqn:E, (in_scope sc (graph_edges g'))
    as [|r' l'] eqn:E'; try done.
  - by apply Permutation_nil_l in Hp.
  - by apply Permutation_nil_r in Hp.
Qed.

Lemma load_nodes_same ids g g' :
  same_scope sc g g' → load_nodes sc ids g = load_nodes sc ids g'.
Proof.
  intros H. unfold load_nodes. apply list_to_map_proper.
  - apply nodup_filter_keys, nodup_in_scope.
  - by apply filter_perm, same_nodes.
Qed.

Lemma expand_levels_same rels limit depth x g g' :
  same_scope sc g g' →
  expand_levels lim sc rels limit g depth x = expand_levels lim sc rels limit g' depth x.
Proof.
  intros H. revert x. induction depth as [|depth IH]; intros x; cbn; [done|].
  case_match; [done|].
  assert (He : expand_level lim sc rels limit g x = expand_level lim sc rels limit g' x).
  { unfold expand_level, level_rows. rewrite (sort_filter_same _ _ (graph_edges g'))
      by apply H. apply bind_ext. intros [found next] _.
    by rewrite (load_nodes_same _ g g'). }
  rewrite He. apply bind_ext. auto.
Qed.

#[export] Instance expand_same seeds rels depth limit :
  Proper (same_scope sc ==> eq) (expand lim sc seeds rels depth limit).
Proof.
  intros g g' H. unfold expand, expand_rows.
  assert (Hx : ∀ (A B : Type) (m m' : K A) (f : A → K B), m = m' → m ≫= f = m' ≫= f)
    by by intros ????? ->.
  apply Hx. apply bind_ext; intros ? _. cbv zeta. do 7 (apply bind_ext; intros ? _).
  rewrite (load_nodes_same _ g g') by done. apply bind_ext; intros ? _.
  by rewrite (expand_levels_same _ _ _ _ g g').
Qed.

End Same.

Section SameWrites.
Context (sc : scope).


Lemma enforce_same {R} (m m' : gmap gkey R) ids maximum :
  (∀ id, m !! (sc, id) = m' !! (sc, id)) →
  enforce_count_limit sc m ids maximum = enforce_count_limit sc m' ids maximum.
Proof.
  intros H. unfold enforce_count_limit, len. rewrite (in_scope_same _ _ _ H).
  do 4 f_equal. do 2 f_equal. apply filter_ext. intros id. by rewrite H.
Qed.

Lemma upsert_nodes_rows_same now ns g g' :
  Forall (node_in sc) ns → same_scope sc g g' →
  same_scope sc (upsert_nodes_rows now ns g) (upsert_nodes_rows now ns g').
Proof.
  intros Hin. revert g g'. induction ns as [|n ns IH]; intros g g' H; [done|].
  apply Forall_cons in Hin as [[Ht Hn] Hin].
  change (upsert_nodes_rows now (n :: ns)) with
    (λ g, upsert_nodes_rows now ns (upsert_node now g n)). cbv beta.
  apply IH; [done|]. intros id. unfold upsert_node.
  rewrite Ht, Hn, <- surjective_pairing. cbn [graph_nodes graph_edges].
  rewrite (proj1 (H (gn_node_id n))). split; [|apply H].
  destruct (decide (id = gn_node_id n)) as [->|Hne]; [by rewrite !lookup_insert_eq|].
  rewrite !lookup_insert_ne by congruence. apply H.
Qed.

(** Two results with the same answer, and databases that agree. *)
Definition same_result {A} (r r' : K (A * graph)) : Prop :=
  match r, r' with
  | Ok (a, g), Ok (a', g') => a = a' ∧ same_scope sc g g'
  | Err e, Err e' => e = e'
  | _, _ => False
  end.

Lemma upsert_edges_rows_same now es g g' :
  Forall (edge_in sc) es → same_scope sc g g' →
  same_result (g1 ← upsert_edges_rows now es g; Ok ((), g1))
    (g1 ← upsert_edges_rows now es g'; Ok ((), g1)).
Proof.
  intros Hin. revert g g'. induction es as [|e es IH]; intros g g' H; [done|].
  apply Forall_cons in Hin as [[Ht Hn] Hin]. specialize (IH Hin).
  cbn [upsert_edges_rows]. unfold upsert_edge. rewrite Ht, Hn, <- !surjective_pairing.
  rewrite !(proj1 (H _)). destruct (bool_decide _ && bool_decide _); [|done].
  cbn [require mbind result_bind]. rewrite (proj2 (H (ge_edge_id e))).
  apply IH. intros id. cbn [graph_nodes graph_edges]. split; [apply H|].
  destruct (decide (id = ge_edge_id e)) as [->|Hne]; [by rewrite !lookup_insert_eq|].
  rewrite !lookup_insert_ne by congruence. apply H.
Qed.

Lemma cleared {R} (m : gmap gkey R) id :
  filter (λ '(k, _), k.1 ≠ sc) m !! (sc, id) = None.
Proof. apply map_lookup_filter_None. right. intros r _ Hr. by apply Hr. Qed.

Lemma clear_scope_same g g' : same_scope sc (clear_scope sc g) (clear_scope sc g').
Proof. intros id. unfold clear_scope. cbn [graph_nodes graph_edges]. by rewrite !cleared. Qed.

Lemma method_same {A B} (check : K A) (body : A → gtxn B) g g' :
  same_scope sc g g' →
  (∀ a, check = Ok a → same_result (body a g) (body a g')) →
  fst (method check body g) = fst (method check body g')
  ∧ same_scope sc (snd (method check body g)) (snd (method check body g')).
Proof.
  intros H Hb. unfold method. destruct check as [a|e]; [|done].
  specialize (Hb a eq_refl). unfold transact, same_result in *.
  destruct (body a g) as [[b g1]|e], (body a g') as [[b' g1']|e']; try done; naive_solver.
Qed.
End SameWrites.

Lemma filter_other {R} (P : gkey * R → Prop) `{!∀ x, Decision (P x)} (m : gmap gkey R) k :
  (∀ r, P (k, r)) → filter P m !! k = m !! k.
Proof.
  intros HP. destruct (m !! k) as [r|] eqn:E.
  - by apply map_lookup_filter_Some.
  - apply map_lookup_filter_None. by left.
Qed.

(** A change in one scope keeps the rows of the others. *)
Lemma change_other lim sc g1 g2 sc' id :
  graph_change lim sc g1 g2 → sc' ≠ sc →
  graph_nodes g2 !! (sc', id) = graph_nodes g1 !! (sc', id)
  ∧ graph_edges g2 !! (sc', id) = graph_edges g1 !! (sc', id).
Proof.
  intros [| | | | |] Hne; cbn [graph_nodes graph_edges clear_scope];
    rewrite ?put_all_other, ?lookup_delete_ne by (done || congruence); try done;
    (split; [done || (by apply filter_other)|]); apply filter_other; [by intros r []|done].
Qed.

(** *** The mutations answer and write alike on graphs that agree on the scope *)

Definition acts_alike {A} (sc : scope) (f : graph → A * graph) : Prop :=
  ∀ g g', same_scope sc g g' → fst (f g) = fst (f g') ∧ same_scope sc (snd (f g)) (snd (f g')).

Lemma upsert_nodes_alike lim now sc ns : acts_alike sc (upsert_nodes lim now sc ns).
Proof.
  intros g g' H. unfold upsert_nodes. apply method_same; [done|]. intros ns' Hc. inv_result. inv_valid.
  rewrite (enforce_same sc (graph_nodes g) (graph_nodes g')) by apply H.
  destruct (enforce_count_limit _ _ _ _); [|done]. cbn. split; [done|]. by apply upsert_nodes_rows_same.
Qed.

Lemma upsert_edges_alike lim now sc es : acts_alike sc (upsert_edges lim now sc es).
Proof.
  intros g g' H. unfold upsert_edges. apply method_same; [done|]. intros ns' Hc. inv_result. inv_valid.
  rewrite (enforce_same sc (graph_edges g) (graph_edges g')) by apply H.
  destruct (enforce_count_limit _ _ _ _); [|done]. cbn [mbind result_bind].
  pose proof (upsert_edges_rows_same sc now es g g') as He.
  specialize (He ltac:(done) H).
  destruct (upsert_edges_rows now es g), (upsert_edges_rows now es g'); try done.
  cbn in *. naive_solver.
Qed.

Lemma delete_node_alike sc id : acts_alike sc (delete_node sc id).
Proof.
  intros g g' H. unfold delete_node. apply method_same; [done|]. intros _ _. cbn. rewrite (proj1 (H id)).
  split; [done|]. intros id'. cbn [graph_nodes graph_edges]. split.
  - destruct (decide (id' = id)) as [->|]; [by rewrite !lookup_delete_eq|].
    rewrite !lookup_delete_ne by congruence. apply H.
  - destruct (graph_edges g' !! (sc, id')) as [e|] eqn:E.
    + destruct (incident id e) eqn:Hi.
      * transitivity (@None edge_row); [|symmetry]; apply map_lookup_filter_None; right;
          rewrite ?(proj2 (H id')), E; intros r [= <-] []; done.
      * transitivity (Some e); [|symmetry]; apply map_lookup_filter_Some;
          rewrite ?(proj2 (H id')), E; (split; [done|]); intros [_ Hi']; congruence.
    + transitivity (@None edge_row); [|symmetry]; apply map_lookup_filter_None; left;
        by rewrite ?(proj2 (H id')).
Qed.

Lemma delete_edge_alike sc id : acts_alike sc (delete_edge sc id).
Proof.
  intros g g' H. unfold delete_edge. apply method_same; [done|]. intros _ _. cbn. rewrite (proj2 (H id)).
  split; [done|]. intros id'. cbn [graph_nodes graph_edges]. split; [apply H|].
  destruct (decide (id' = id)) as [->|]; [by rewrite !lookup_delete_eq|].
  rewrite !lookup_delete_ne by congruence. apply H.
Qed.

Lemma import_batch_alike lim now now' sc ns es overwrite :
  acts_alike sc (import_batch lim now now' sc ns es overwrite).
Proof.
  intros g g' H. unfold import_batch. apply method_same; [done|]. intros [ns' es'] Hc. inv_result.
  inv_valid. cbv zeta.
  assert (Hcl : same_scope sc (if overwrite then clear_scope sc g else g)
                 (if overwrite then clear_scope sc g' else g'))
    by (destruct overwrite; [apply clear_scope_same|done]).
  set (g0 := if overwrite then _ else g) in *. set (g0' := if overwrite then _ else g') in *.
  rewrite (enforce_same sc (graph_nodes g0) (graph_nodes g0')) by apply Hcl.
  destruct (enforce_count_limit _ (graph_nodes _) _ _); [|done]. cbn [mbind result_bind].
  rewrite (enforce_same sc (graph_edges g0) (graph_edges g0')) by apply Hcl.
  destruct (enforce_count_limit _ (graph_edges _) _ _); [|done]. cbn [mbind result_bind].
  pose proof (upsert_edges_rows_same sc now' es (upsert_nodes_rows now ns g0)
    (upsert_nodes_rows now ns g0')) as He.
  specialize (He ltac:(done) ltac:(by apply upsert_nodes_rows_same)).
  destruct (upsert_edges_rows now' es _), (upsert_edges_rows now' es _); try done.
  cbn in *. naive_solver.
Qed.

Lemma alike_step {A} sc (f : graph → A * graph) (out : A → graph_out) :
  acts_alike sc f → acts_alike sc (λ g, let '(r, g) := f g in (out r, g)).
Proof.
  intros Hf g g' H. destruct (Hf g g' H) as [H1 H2]. destruct (f g), (f g'). cbn in *. by subst.
Qed.

Lemma read_alike {A} sc (f : graph → A) (out : A → graph_out) :
  Proper (same_scope sc ==> eq) f → acts_alike sc (λ g, (out (f g), g)).
Proof. intros Hf g g' H. split; [|done]. cbn. f_equal. by apply Hf. Qed.

Lemma step_alike lim key json_extract op :
  acts_alike (op_scope op) (graph_step lim key json_extract op).
Proof.
  destruct op; cbn [op_scope].
  - apply (alike_step sc), upsert_nodes_alike.
  - apply (alike_step sc), upsert_edges_alike.
  - apply (alike_step sc), delete_node_alike.
  - apply (alike_step sc), delete_edge_alike.
  - apply (alike_step sc), import_batch_alike.
  - apply (read_alike sc), get_node_same.
  - apply (read_alike sc), get_edge_same.
  - apply (read_alike sc), search_nodes_same.
  - apply (read_alike sc), search_edges_same.
  - apply (read_alike sc), export_same.
  - apply (read_alike sc), expand_same.
Qed.

(** C10. Scopes are isolated: an operation of one tenant and namespace leaves
    every row of the others as it is, and neither what it answers nor what it
    leaves in its own scope depends on them. *)
Theorem scope_isolation lim key json_extract op g g' :
  let sc := op_scope op in
  let run := graph_step lim key json_extract op in
  (∀ sc' id, sc' ≠ sc →
     graph_nodes (snd (run g)) !! (sc', id) = graph_nodes g !! (sc', id)
     ∧ graph_edges (snd (run g)) !! (sc', id) = graph_edges g !! (sc', id))
  ∧ (same_scope sc g g' → fst (run g) = fst (run g') ∧ same_scope sc (snd (run g)) (snd (run g'))).
Proof.
  cbv zeta. split; [|apply step_alike]. intros sc' id Hne.
  destruct (step_changes lim key json_extract op g) as (g1 & g2 & H1 & H2 & H3).
  destruct (change_other _ _ _ _ sc' id H1 Hne) as [<- <-], (change_other _ _ _ _ sc' id H2 Hne) as [<- <-].
  by eapply change_other.
Qed.

(** ** Reading back *)

Lemma column_map md :
  NoDup md.*1 → column_json (dumps_sorted (JMap md)) = Ok (JMap (sort_items md)).
Proof.
  intros Hnd. unfold column_json. rewrite loads_dumps_sorted by by apply JMap_ok.
  by rewrite json_sort_JMap.
Qed.

Lemma column_strs l : column_json (dumps_sorted (JStrs l)) = Ok (JStrs l).
Proof.
  unfold column_json. rewrite loads_dumps_sorted by apply JStrs_ok. do 2 f_equal.
  cbn. f_equal. rewrite map_map. done.
Qed.

Lemma validated_id sc n n' :
  validate_node sc n = Ok n' → required_text MAX_IDENTIFIER_LENGTH (gn_node_id n) = Ok ().
Proof.
  unfold validate_node. intros H. inv_result. cbn [each] in *. inv_result.
  by match goal with H : required_text _ (gn_node_id _) = Ok ?u |- _ => destruct u end.
Qed.

(** The record of a node just written over [old]. *)
Definition written_node (now : Z) (sc : scope) (old : option node_row) (n : GraphNode)
  : node_record :=
  {| rn_node_id := gn_node_id n; rn_scope := sc; rn_kind := gn_kind n; rn_label := gn_label n;
     rn_description := gn_description n; rn_metadata := JMap (sort_items (gn_metadata n));
     rn_source_refs := JStrs (gn_source_refs n);
     rn_created_at_ms := match old with
                         | Some r => nr_created_at_ms r
                         | None => or_else (gn_created_at_ms n) now
                         end;
     rn_updated_at_ms := or_else (gn_updated_at_ms n) now |}.

(** What [upsert_nodes] accepted is what [get_node] returns: the batch is
    stored whole, each record reads back with its metadata and references
    through their JSON columns, an updated node keeps its creation time, and no
    other node changes; a refused batch changes nothing. *)
Lemma upsert_nodes_reads_back lim now sc ns g r g' :
  upsert_nodes lim now sc ns g = (r, g') →
  match r with
  | Err _ => g' = g
  | Ok k =>
      k = len ns ∧ graph_edges g' = graph_edges g ∧
      (∀ n, n ∈ ns → NoDup (gn_metadata n).*1 →
         get_node sc (gn_node_id n) g'
         = Ok (Some (written_node now sc (graph_nodes g !! (sc, gn_node_id n)) n))) ∧
      (∀ sc' id, sc' ≠ sc ∨ id ∉ map gn_node_id ns →
         graph_nodes g' !! (sc', id) = graph_nodes g !! (sc', id))
  end.
Proof.
  intros H. assert (Hv : ∀ ns', mapR (validate_node sc) ns = Ok ns' →
    ∀ n, n ∈ ns → required_text MAX_IDENTIFIER_LENGTH (gn_node_id n) = Ok ()).
  { intros ns' Hm%mapR_ok n Hn. apply list_elem_of_lookup in Hn as [i Hi].
    eapply Forall2_lookup_l in Hm as (n' & _ & Hn); [|exact Hi]. by eapply validated_id. }
  unfold upsert_nodes, method in H. case_match eqn:Hc; [|by injection H as <- <-].
  inv_result. specialize (Hv _ ltac:(eassumption)).
  destruct r as [k|e]; [|by apply transact_err in H as [_ ->]].
  apply transact_ok in H. inv_result. inv_valid.
  rewrite (upsert_nodes_spec _ sc) by done. cbn [graph_nodes graph_edges].
  split_and!; [done|done|..].
  - intros n Hn Hmd. unfold get_node.
    match goal with H : validate_scope sc = Ok ?u |- _ => rewrite H end.
    rewrite (Hv n Hn). cbn [mbind result_bind graph_nodes].
    rewrite (put_all_in _ _ _ _ (new_node_row now (graph_nodes g !! (sc, gn_node_id n)) n)).
    + unfold node_from_row, new_node_row. cbn [fst snd nr_metadata_json nr_source_refs_json].
      rewrite column_map, column_strs by done. cbn [mbind result_bind].
      unfold written_node. cbn. by destruct (graph_nodes g !! (sc, gn_node_id n)).
    + by rewrite node_rows_ids.
    + apply list_elem_of_In, in_map_iff. exists n. by rewrite <- list_elem_of_In.
  - intros sc' id [Hne|Hni]; [by apply put_all_other|].
    destruct (decide (sc' = sc)) as [->|]; [|by apply put_all_other].
    apply put_all_notin. by rewrite node_rows_ids.
Qed.

(** An overwriting import is a replacement: afterwards the scope holds the
    nodes and edges of the batch and nothing else; a refused import changes
    nothing. *)
Lemma import_replaces lim now now' sc ns es g r g' :
  import_batch lim now now' sc ns es true g = (r, g') →
  match r with
  | Err _ => g' = g
  | Ok counts =>
      counts = (len ns, len es) ∧
      (∀ id row, graph_nodes g' !! (sc, id) = Some row ↔
         ∃ n, n ∈ ns ∧ gn_node_id n = id ∧ row = new_node_row now None n) ∧
      (∀ id row, graph_edges g' !! (sc, id) = Some row ↔
         ∃ e, e ∈ es ∧ ge_edge_id e = id ∧ row = new_edge_row now' None e)
  end.
Proof.
  intros H. unfold import_batch, method in H. case_match eqn:Hc; [|by injection H as <- <-].
  inv_result. inv_valid. destruct r as [k|e]; [|by apply transact_err in H as [_ ->]].
  apply transact_ok in H. cbv zeta in H. inv_result.
  match goal with H : upsert_edges_rows _ _ _ = Ok _ |- _ =>
    rewrite (upsert_nodes_spec _ sc) in H by done;
    apply (upsert_edges_spec _ sc) in H as [-> _]; [|done..] end.
  cbn [graph_nodes graph_edges clear_scope]. split; [done|]. split; intros id row.
  - rewrite put_all_exact by (by rewrite node_rows_ids || apply cleared).
    unfold node_rows. rewrite list_elem_of_In, in_map_iff.
    setoid_rewrite <- list_elem_of_In. setoid_rewrite cleared. naive_solver.
  - rewrite put_all_exact by (by rewrite edge_rows_ids || apply cleared).
    unfold edge_rows. rewrite list_elem_of_In, in_map_iff.
    setoid_rewrite <- list_elem_of_In. setoid_rewrite cleared. naive_solver.
Qed.
