(* ===== verification/KnowledgePaging.v ===== *)
(** * Knowledge graph: paging is complete

    Following the page tokens of an unchanged database visits every matching row
    exactly once, in id order: the argument of [Scoped] for [search_nodes] and
    [search_edges]. *)

From Stdlib Require Import ZArith NArith Sorted Permutation.
From stdpp Require Import sorting.
From S2P Require Import Prelude PyText Json Sha256 Base64 Scoped KnowledgeCursor KnowledgeGraph.
From S2P Require Import KnowledgeQuery KnowledgeFacts KnowledgeScope.

#[local] Open Scope Z_scope.

(** ** The two searches *)

Lemma issued_token stream scope after key tok :
  cursor_scoped (Cursor stream (lit "records") after scope) → after ≠ [] →
  encode_page_token stream after scope key = Ok tok →
  tok ≠ [] ∧ decode_page_token (Some tok) stream scope key = Ok after.
Proof.
  intros Hs Hne He. pose proof (issued_decodes _ _ _ Hs He) as Hd.
  destruct tok as [|c tok]; [done|]. split; [done|].
  unfold decode_page_token. rewrite Hd. cbn [mbind result_bind c_stream c_phase c_scope c_after].
  by rewrite !bool_decide_true, (bool_decide_false (after = [])) by done.
Qed.

Lemma cursor_scope_shape stream t n filters cs :
  cursor_scope stream t n filters = Ok cs → ∀ st ph af, cursor_scoped (Cursor st ph af cs).
Proof.
  unfold cursor_scope. intros H st ph af. inv_result.
  split; cbn; [apply length_sha256_hex|apply sha256_hex_chars].
Qed.

Definition with_node_token (q : node_query) (token : option pystr) : node_query :=
  NodeQuery (nq_query q) (nq_kind q) (nq_metadata q) (nq_page_size q) token.
Definition with_edge_token (q : edge_query) (token : option pystr) : edge_query :=
  EdgeQuery (eq_node_id q) (eq_relation q) (eq_page_size q) token.

Lemma page_size_pos lim v size : page_size lim v = Ok size → 1 <= size.
Proof. unfold page_size. intros H. inv_result. bools. by apply Z.leb_le. Qed.

(** C11. Searching nodes page by page returns every node that matches, once, in id
    order: a client that follows the tokens of a valid query gets exactly the
    matching rows of the scope, whatever the page size, when the identifiers
    fit in a token. *)
Theorem search_nodes_complete lim key json_extract sc q g size cs fuel :
  check_node_query sc q = Ok () → page_size lim (nq_page_size q) = Ok size →
  cursor_scope (lit "search_nodes") sc.1 sc.2 (node_filters q size) = Ok cs →
  (∀ id r, graph_nodes g !! (sc, id) = Some r → id ≠ [] ∧
     is_ok (encode_page_token (lit "search_nodes") id cs key) = true) →
  (length (in_scope sc (graph_nodes g)) <= fuel)%nat →
  collect STORAGE_FAILED (λ token, search_nodes json_extract lim key sc (with_node_token q token) g) fuel None
  = mapR (node_from_row sc)
      (sort_items (List.filter (node_matches json_extract q) (in_scope sc (graph_nodes g)))).
Proof.
  intros Hq Hsize Hcs Hids Hf.
  set (decode := λ token, decode_page_token token (lit "search_nodes") cs key).
  set (encode := λ id, encode_page_token (lit "search_nodes") id cs key).
  rewrite (collect_ext _ _ (fetch_page (node_matches json_extract q) (in_scope sc (graph_nodes g))
    size (node_from_row sc) encode decode)).
  - apply collect_all.
    + apply nodup_in_scope.
    + by eapply page_size_pos.
    + intros r [_ Hr]%matching_in_scope. by apply (Hids r.1 r.2).
    + done.
    + intros r tok [_ Hr]%matching_in_scope He. apply Hids in Hr as [Hne _].
      apply issued_token; [by eapply cursor_scope_shape|done|done].
    + etrans; [apply length_matching|done].
  - intros token. unfold search_nodes, fetch_page. unfold check_node_query in *.
    cbn [nq_query nq_kind nq_metadata nq_page_size nq_page_token with_node_token].
    rewrite Hq. cbn [mbind result_bind]. rewrite Hsize. cbn [mbind result_bind].
    change (node_filters (with_node_token q token) size) with (node_filters q size).
    by rewrite Hcs.
Qed.

(** The same for edges. *)
Theorem search_edges_complete lim key sc q g size cs fuel :
  validate_scope sc = Ok () → check_text (eq_node_id q) = Ok () →
  check_text (eq_relation q) = Ok () → page_size lim (eq_page_size q) = Ok size →
  cursor_scope (lit "search_edges") sc.1 sc.2 (edge_filters q size) = Ok cs →
  (∀ id r, graph_edges g !! (sc, id) = Some r → id ≠ [] ∧
     is_ok (encode_page_token (lit "search_edges") id cs key) = true) →
  (length (in_scope sc (graph_edges g)) <= fuel)%nat →
  collect STORAGE_FAILED (λ token, search_edges lim key sc (with_edge_token q token) g) fuel None
  = mapR (edge_from_row sc)
      (sort_items (List.filter (edge_matches q) (in_scope sc (graph_edges g)))).
Proof.
  intros Hsc Hn Hr Hsize Hcs Hids Hf.
  rewrite (collect_ext _ _ (fetch_page (edge_matches q) (in_scope sc (graph_edges g))
    size (edge_from_row sc) (λ id, encode_page_token (lit "search_edges") id cs key)
    (λ token, decode_page_token token (lit "search_edges") cs key))).
  - apply collect_all.
    + apply nodup_in_scope.
    + by eapply page_size_pos.
    + intros r [_ Hm]%matching_in_scope. by apply (Hids r.1 r.2).
    + done.
    + intros r tok [_ Hm]%matching_in_scope He. apply Hids in Hm as [Hne _].
      apply issued_token; [by eapply cursor_scope_shape|done|done].
    + etrans; [apply length_matching|done].
  - intros token. unfold search_edges, fetch_page.
    cbn [eq_node_id eq_relation eq_page_size eq_page_token with_edge_token].
    rewrite Hsc, Hn, Hr. cbn [mbind result_bind]. rewrite Hsize. cbn [mbind result_bind].
    change (edge_filters (with_edge_token q token) size) with (edge_filters q size).
    by rewrite Hcs.
Qed.

(** Not every identifier the store accepts fits in a token: a node id of 256
    characters outside the Basic Multilingual Plane is valid, but no token can be
    issued for it, so a search or export whose page ends at that node fails
    instead of continuing. *)
Lemma wide_identifier_has_no_token :
  let id := repeat 128512%N 256 in
  required_text MAX_IDENTIFIER_LENGTH id = Ok () ∧
  ∀ stream phase scope key, is_ok (encode_cursor (Cursor stream phase id scope) key) = false.
Proof.
  cbv zeta. split; [by vm_compute|]. intros stream phase scope key.
  set (id := repeat 128512%N 256). unfold encode_cursor.
  destruct (require _ _); [|done]. cbn [mbind result_bind].
  destruct (kg_utf8 _) as [payload|] eqn:E; [|done]. cbn [mbind result_bind].
  apply kg_utf8_ok in E.
  assert (Hd : ∃ pre post, dumps_sorted (JObj (cursor_fields (Cursor stream phase id scope)))
                           = pre ++ id ++ post ∧ pre ≠ []).
  { exists (123%N :: dump_str (lit "after") ++ [58%N; 34%N]).
    assert (Hj : ∃ rest, dumps_sorted (JObj (cursor_fields (Cursor stream phase id scope)))
      = 123%N :: ((dump_str (lit "after") ++ 58%N :: dump_str id) ++ rest) ++ [125%N])
      by (eexists; reflexivity).
    destruct Hj as [rest ->]. exists ([34%N] ++ rest ++ [125%N]). split; [|done].
    assert (Hid : dump_str id = 34%N :: id ++ [34%N]) by by vm_compute.
    rewrite Hid. cbn [app]. rewrite <- !app_assoc. cbn [app]. by rewrite <- !app_assoc. }
  destruct Hd as (pre & post & Hd & Hpre). rewrite Hd, !utf8_encode_app in E.
  assert (He : ∃ b, utf8_encode id = Some b ∧ length b = 1024%nat)
    by (eexists; split; [vm_compute; reflexivity|by vm_compute]).
  destruct He as (b & He & Hb). rewrite He in E.
  destruct (utf8_encode pre) as [b1|] eqn:E1; [|done].
  destruct (utf8_encode post) as [b2|]; [|done]. injection E as <-.
  assert (Hb1 : b1 ≠ []) by (intros ->; apply utf8_decode_encode in E1; by injection E1 as <-).
  assert (Hl : len (b1 ++ b ++ b2) <=? MAX_PAGE_TOKEN_PAYLOAD_BYTES = false); [|by rewrite Hl].
  apply Z.leb_gt. unfold len, MAX_PAGE_TOKEN_PAYLOAD_BYTES. rewrite !length_app, Hb.
  destruct b1; [done|]. cbn [length]. lia.
Qed.
