(* ===== verification/KnowledgeExpand.v ===== *)
(** * Knowledge graph: bounded expansion

    [expand] computes the undirected neighbourhood of its seeds: exactly the
    nodes within the depth and the edges met on the way, or an error when that
    exceeds a bound. *)

From Stdlib Require Import ZArith NArith Sorted Permutation.
From S2P Require Import Prelude PyText Json Sha256 Scoped KnowledgeCursor KnowledgeGraph.
From S2P Require Import KnowledgeQuery KnowledgeFacts KnowledgeScope.

#[local] Open Scope Z_scope.

Section Expansion.
Context (lim : limits) (sc : scope) (relations : list pystr) (node_limit : Z) (g : graph).
Context (Hends : ∀ id e, graph_edges g !! (sc, id) = Some e →
  is_Some (graph_nodes g !! (sc, er_source_node_id e))
  ∧ is_Some (graph_nodes g !! (sc, er_target_node_id e))).
Context (seeds : gset pystr).

(** The edges an expansion may follow. *)
Definition follows (row : pystr * edge_row) : Prop :=
  graph_edges g !! (sc, row.1) = Some row.2
  ∧ (relations = [] ∨ er_relation row.2 ∈ relations).

Definition endpoint (row : pystr * edge_row) (u : pystr) : Prop :=
  u = er_source_node_id row.2 ∨ u = er_target_node_id row.2.

(** At most [k] edges away from a seed. *)
Fixpoint within (k : nat) (v : pystr) : Prop :=
  match k with
  | O => v ∈ seeds
  | S k => within k v ∨ ∃ row u, follows row ∧ endpoint row u ∧ endpoint row v ∧ within k u
  end.

Lemma within_le j k v : (j <= k)%nat → within j v → within k v.
Proof. induction 1; cbn; auto. Qed.

(** The state after [k] levels. *)
Record level_inv (k : nat) (x : expansion) : Prop := {
  li_dom : ∀ v, v ∈ dom (x_nodes x) ↔ within k v;
  li_rows : ∀ v r, x_nodes x !! v = Some r → graph_nodes g !! (sc, v) = Some r;
  li_front : ∀ v, v ∈ x_frontier x → within k v;
  li_cover : ∀ v, within k v → v ∈ x_frontier x ∨ ∃ j, (j < k)%nat ∧ within j v;
  li_edges : ∀ row, row ∈ x_edges x ↔
    follows row ∧ ∃ u j, endpoint row u ∧ (j < k)%nat ∧ within j u;
  li_closed : ∀ row u, row ∈ x_edges x → endpoint row u → within k u;
  li_nodup : NoDup (x_edges x).*1;
  li_count : len (x_edges x) <= max_expand_edges lim;
  li_size : Z.of_nat (size (dom (x_nodes x))) <= node_limit
}.

Definition other (x : expansion) (row : pystr * edge_row) : pystr :=
  if bool_decide (er_source_node_id row.2 ∈ x_frontier x)
  then er_target_node_id row.2 else er_source_node_id row.2.

(** Too many nodes, or too many edges, within [k] levels. *)
Definition overflows (k : nat) : Prop :=
  (∃ s : gset pystr, node_limit < Z.of_nat (size s) ∧ ∀ v, v ∈ s → within k v)
  ∨ (∃ l : list (pystr * edge_row), max_expand_edges lim < len l ∧ NoDup l.*1 ∧
       ∀ row, row ∈ l → follows row ∧ ∃ u j, endpoint row u ∧ (j < k)%nat ∧ within j u).

Lemma scan_rows_spec x rows found next :
  len found <= max_expand_edges lim →
  (∀ v, v ∈ next → v ∉ dom (x_nodes x)) →
  Z.of_nat (size (dom (x_nodes x))) + Z.of_nat (size next) <= node_limit →
  match scan_rows lim node_limit x rows found next with
  | Ok (found', next') =>
      found' = found ++ rows ∧ len found' <= max_expand_edges lim
      ∧ (∀ v, v ∈ next' ↔ v ∈ next ∨ ∃ row, row ∈ rows ∧ v = other x row ∧ v ∉ dom (x_nodes x))
      ∧ Z.of_nat (size (dom (x_nodes x))) + Z.of_nat (size next') <= node_limit
  | Err e =>
      e = QUOTA_EXCEEDED ∧
      (max_expand_edges lim < len (found ++ rows)
       ∨ ∃ s : gset pystr, node_limit < Z.of_nat (size (dom (x_nodes x))) + Z.of_nat (size s)
           ∧ ∀ v, v ∈ s → (v ∉ dom (x_nodes x)) ∧ (v ∈ next ∨ ∃ row, row ∈ rows ∧ v = other x row))
  end.
Proof.
  revert found next. induction rows as [|row rows IH]; intros found next Hf Hd Hs.
  { cbn. rewrite app_nil_r. split_and!; [done|done| |done]. intros v. split; [auto|].
    by intros [?|(? & ?%elem_of_nil & _)]. }
  cbn [scan_rows]. destruct (max_expand_edges lim <=? len found) eqn:E.
  { cbn. split; [done|]. left. apply Z.leb_le in E. unfold len in *.
    rewrite length_app. cbn. lia. }
  apply Z.leb_gt in E. cbn [negb require mbind result_bind].
  fold (other x row).
  assert (Hf' : len (found ++ [row]) <= max_expand_edges lim)
    by (unfold len in *; rewrite length_app; cbn; lia).
  destruct (negb _ && negb _) eqn:En.
  - bools. destruct (node_limit <=? _) eqn:El; cbn [negb require mbind result_bind].
    { split; [done|]. right. exists ({[other x row]} ∪ next).
      apply Z.leb_le in El. rewrite size_union by set_solver. rewrite size_singleton.
      split; [lia|]. intros v [->%elem_of_singleton|Hv]%elem_of_union.
      - split; [done|]. right. exists row. split; [by left|done].
      - split; [by apply Hd|by left]. }
    apply Z.leb_gt in El. specialize (IH (found ++ [row]) ({[other x row]} ∪ next)).
    rewrite size_union, size_singleton in IH by set_solver.
    specialize (IH Hf' ltac:(set_solver) ltac:(lia)).
    destruct (scan_rows _ _ _ _ _ _) as [[found' next']|e].
    + destruct IH as (-> & H1 & H2 & H3). rewrite <- app_assoc in *.
      split_and!; [done|done| |done]. intros v. rewrite H2. set_solver.
    + rewrite <- app_assoc in IH. destruct IH as (-> & [H1|(s & H1 & H2)]).
      * split; [done|]. by left.
      * split; [done|]. right. exists s. split; [done|]. intros v Hv.
        destruct (H2 v Hv) as [H3 H4]. split; [done|]. set_solver.
  - specialize (IH (found ++ [row]) next Hf' Hd Hs).
    destruct (scan_rows _ _ _ _ _ _) as [[found' next']|e].
    + destruct IH as (-> & H1 & H2 & H3). rewrite <- app_assoc in *.
      split_and!; [done|done| |done]. intros v. rewrite H2.
      apply andb_false_iff in En. rewrite !negb_false_iff, !bool_decide_eq_true in En.
      set_solver.
    + rewrite <- app_assoc in IH. destruct IH as (-> & [H1|(s & H1 & H2)]).
      * split; [done|]. by left.
      * split; [done|]. right. exists s. split; [done|]. intros v Hv.
        destruct (H2 v Hv) as [H3 H4]. split; [done|]. set_solver.
Qed.

Lemma load_nodes_spec (ids : gset pystr) v r :
  load_nodes sc ids g !! v = Some r ↔ v ∈ ids ∧ graph_nodes g !! (sc, v) = Some r.
Proof.
  unfold load_nodes. rewrite <- elem_of_list_to_map by apply nodup_filter_keys, nodup_in_scope.
  rewrite list_elem_of_In, filter_In, <- list_elem_of_In, elem_in_scope, bool_decide_eq_true.
  cbn. tauto.
Qed.

(** The whole result of a level's query, before its LIMIT. *)
Definition level_all (x : expansion) : list (pystr * edge_row) :=
  sort_items (List.filter (level_matches relations x) (in_scope sc (graph_edges g))).

Lemma level_all_spec x row :
  (∀ row, row ∈ x_edges x → follows row) →
  row ∈ level_all x ↔ follows row ∧ (row ∉ x_edges x) ∧
    (er_source_node_id row.2 ∈ x_frontier x ∨ er_target_node_id row.2 ∈ x_frontier x).
Proof.
  intros Hx. unfold level_all. rewrite sort_items_perm, list_elem_of_In, filter_In,
    <- list_elem_of_In. destruct row as [id e]. rewrite elem_in_scope.
  unfold level_matches, follows. cbn [fst snd].
  rewrite !andb_true_iff, !orb_true_iff, negb_true_iff, !bool_decide_eq_true,
    bool_decide_eq_false.
  assert (Hid : graph_edges g !! (sc, id) = Some e → (id ∈ (x_edges x).*1 ↔ (id, e) ∈ x_edges x)).
  { intros He. rewrite list_elem_of_fmap. split.
    - intros ([id' e'] & -> & Hin). cbn in *. destruct (Hx _ Hin) as [He' _]. cbn in He'.
      congruence.
    - intros Hin. by exists (id, e). }
  naive_solver.
Qed.

Lemma level_all_nodup x : NoDup (level_all x).*1.
Proof.
  unfold level_all. rewrite sort_items_perm. apply nodup_filter_keys, nodup_in_scope.
Qed.

Lemma level_rows_take x :
  level_rows lim sc relations g x
  = take (Z.to_nat (max_expand_edges lim - len (x_edges x) + 1)) (level_all x).
Proof. done. Qed.

Lemma level_extend k x row :
  level_inv k x → row ∈ level_all x →
  follows row ∧ ∃ u j, endpoint row u ∧ (j < S k)%nat ∧ within j u.
Proof.
  intros Hi Hr. apply level_all_spec in Hr as (Hf & _ & Hu);
    [|intros r Hr'; by apply (li_edges _ _ Hi)].
  split; [done|].
  destruct Hu as [Hu|Hu]; apply (li_front _ _ Hi) in Hu; unfold endpoint; eauto 10.
Qed.

Lemma other_within k x row :
  level_inv k x → row ∈ level_all x → within (S k) (other x row).
Proof.
  intros Hi Hr. apply level_all_spec in Hr as (Hf & _ & Hu);
    [|intros r Hr'; by apply (li_edges _ _ Hi)].
  unfold other. cbn. right. exists row. case_bool_decide as E.
  - exists (er_source_node_id row.2). unfold endpoint.
    split_and!; auto. by apply (li_front _ _ Hi).
  - destruct Hu as [Hu|Hu]; [done|]. exists (er_target_node_id row.2). unfold endpoint.
    split_and!; auto. by apply (li_front _ _ Hi).
Qed.

Lemma found_or_not k x row : level_inv k x → follows row → row ∈ x_edges x ∨ row ∉ x_edges x.
Proof.
  intros Hi [Hf _]. destruct (decide (row.1 ∈ (x_edges x).*1)) as [Hin|Hin].
  - left. apply list_elem_of_fmap in Hin as (row' & Hid & Hin).
    pose proof (proj1 (proj1 (li_edges _ _ Hi row') Hin)) as [H' _].
    destruct row, row'; cbn in *. subst. congruence.
  - right. intros Hin'. apply Hin, list_elem_of_fmap. eauto.
Qed.

(** The far ends of a frontier node's edges are visited or found. *)
Lemma neighbour_found k x row u v :
  level_inv k x → follows row → endpoint row u → endpoint row v → within k u →
  within k v ∨ ∃ row', row' ∈ level_all x ∧ v = other x row'.
Proof.
  intros Hi Hf Hu Hv Hw.
  destruct (found_or_not k x row Hi Hf) as [Hin|Hin];
    [left; by apply (li_closed _ _ Hi row)|].
  destruct (li_cover _ _ Hi u Hw) as [Hfr|(j & Hj & Hwj)].
  2: { exfalso. apply Hin, (li_edges _ _ Hi). split; [done|]. eauto 10. }
  assert (Hl : row ∈ level_all x).
  { apply level_all_spec; [intros r Hr; by apply (li_edges _ _ Hi)|].
    split_and!; [done|done|]. destruct Hu as [-> | ->]; auto. }
  assert (Ho : er_source_node_id row.2 ∈ x_frontier x → er_target_node_id row.2 = other x row)
    by (intros H; unfold other; by rewrite bool_decide_true).
  destruct Hu as [-> | ->], Hv as [-> | ->]; [by left|right; eauto| |by left].
  destruct (decide (er_source_node_id row.2 ∈ x_frontier x)) as [E|E].
  - left. by apply (li_front _ _ Hi).
  - right. exists row. split; [done|]. unfold other. by rewrite bool_decide_false.
Qed.

(** The edges known after a level are those met one edge further. *)
Lemma level_edges k x row :
  level_inv k x →
  row ∈ x_edges x ++ level_all x ↔
  follows row ∧ ∃ u j, endpoint row u ∧ (j < S k)%nat ∧ within j u.
Proof.
  intros Hi. rewrite elem_of_app. split.
  - intros [Hr|Hr]; [|by apply (level_extend k x)].
    apply (li_edges _ _ Hi) in Hr as (Hf & u & j & Hu & Hj & Hwj).
    split; [done|]. exists u, j. auto with lia.
  - intros (Hf & u & j & Hu & Hj & Hwj).
    assert (Hwk : within k u) by (apply (within_le j); [lia|done]).
    destruct (found_or_not k x row Hi Hf) as [Hin|Hn]; [by left|right].
    apply level_all_spec; [intros r Hr; by apply (li_edges _ _ Hi)|].
    split_and!; [done|done|].
    destruct (li_cover _ _ Hi u Hwk) as [Hfr|(j' & Hj' & Hw')].
    + destruct Hu as [-> | ->]; auto.
    + exfalso. apply Hn, (li_edges _ _ Hi). split; [done|]. eauto 10.
Qed.

Lemma level_nodup k x n : level_inv k x → NoDup (x_edges x ++ take n (level_all x)).*1.
Proof.
  intros Hi. assert (Hall : NoDup (x_edges x ++ level_all x).*1).
  - rewrite fmap_app. apply NoDup_app.
    split_and!; [apply (li_nodup _ _ Hi)| |apply level_all_nodup].
    intros id (r1 & -> & H1)%list_elem_of_fmap (r2 & He & H2)%list_elem_of_fmap.
    apply level_all_spec in H2 as ([H2' _] & Hn2 & _);
      [|intros r Hr; by apply (li_edges _ _ Hi)].
    apply Hn2. pose proof (proj1 (proj1 (li_edges _ _ Hi r1) H1)) as [H1' _].
    destruct r1 as [i1 e1], r2 as [i2 e2]; cbn in *. subst. congruence.
  - rewrite <- (take_drop n (level_all x)), app_assoc, fmap_app in Hall.
    by apply NoDup_app in Hall as (? & _).
Qed.

(** The nodes one edge further are those found. *)
Lemma level_within k x next :
  level_inv k x →
  (∀ v, v ∈ next ↔ v ∈ (∅ : gset pystr) ∨ ∃ row, row ∈ level_all x ∧ v = other x row
                   ∧ v ∉ dom (x_nodes x)) →
  ∀ v, within (S k) v ↔ within k v ∨ v ∈ (next : gset pystr).
Proof.
  intros Hi Hnext v. split.
  - intros [Hv|(row & u & Hf & Hu & Hv & Hwu)]; [by left|].
    destruct (neighbour_found k x row u v) as [?|(row' & Hr & ->)]; auto.
    destruct (decide (other x row' ∈ dom (x_nodes x))) as [Hd|Hd].
    + left. by apply (li_dom _ _ Hi).
    + right. apply Hnext. right. eauto.
  - intros [Hv|Hv]; [by left|]. apply Hnext in Hv as [Hv|(row & Hr & -> & _)];
      [by apply elem_of_empty in Hv|]. by apply other_within.
Qed.

(** Every node that was found exists. *)
Lemma load_next k x next :
  level_inv k x →
  (∀ v, v ∈ next → ∃ row, row ∈ level_all x ∧ v = other x row) →
  dom (load_nodes sc next g) = next.
Proof.
  intros Hi Hnext. apply set_eq. intros v. rewrite elem_of_dom. split.
  - intros [r Hr%load_nodes_spec]. tauto.
  - intros Hv. destruct (Hnext v Hv) as (row & Hr & ->).
    apply level_all_spec in Hr as ([Hg _] & _); [|intros r Hr'; by apply (li_edges _ _ Hi)].
    destruct (Hends _ _ Hg) as [[r1 H1] [r2 H2]]. unfold other in *.
    case_bool_decide; [exists r2|exists r1]; by apply load_nodes_spec.
Qed.

Lemma level_closed k x row u :
  level_inv k x → row ∈ x_edges x ++ level_all x → endpoint row u → within (S k) u.
Proof.
  intros Hi (Hf & u' & j & Hu' & Hj & Hwj)%(level_edges k) Hu; [|done].
  right. exists row, u'. split_and!; auto. apply (within_le j); [lia|done].
Qed.

(** One level. *)
Lemma expand_level_inv k x :
  level_inv k x →
  match expand_level lim sc relations node_limit g x with
  | Ok x' => level_inv (S k) x'
  | Err e => e = QUOTA_EXCEEDED ∧ overflows (S k)
  end.
Proof.
  intros Hi. unfold expand_level.
  pose proof (scan_rows_spec x (level_rows lim sc relations g x) (x_edges x) ∅) as Hs.
  specialize (Hs (li_count _ _ Hi) ltac:(set_solver)).
  rewrite size_empty in Hs. specialize (Hs ltac:(pose proof (li_size _ _ Hi); lia)).
  assert (Hsub : ∀ row, row ∈ level_rows lim sc relations g x → row ∈ level_all x).
  { intros row. rewrite level_rows_take. apply subseteq_take. }
  destruct (scan_rows _ _ _ _ _ _) as [[found next]|e]; cbn [mbind result_bind].
  - destruct Hs as (-> & Hcount & Hnext & Hsize).
    (* no row was cut off by the LIMIT *)
    assert (Hall : level_rows lim sc relations g x = level_all x).
    { rewrite level_rows_take in Hcount |- *. apply take_ge.
      unfold len in *. rewrite length_app, length_take in Hcount. lia. }
    rewrite Hall in Hnext, Hcount |- *. pose proof (level_within k x next Hi Hnext) as Hw.
    pose proof (level_nodup k x (length (level_all x)) Hi) as Hnd.
    rewrite take_ge in Hnd by done.
    assert (Hcover : ∀ v, within (S k) v → v ∈ next ∨ ∃ j, (j < S k)%nat ∧ within j v).
    { intros v [Hv|Hv]%Hw; [right; exists k; auto with lia|by left]. }
    case_bool_decide as En.
    + subst next. split; cbn [x_nodes x_frontier x_edges].
      * intros v. rewrite Hw, <- (li_dom _ _ Hi). set_solver.
      * apply (li_rows _ _ Hi).
      * set_solver.
      * exact Hcover.
      * intros row. by apply level_edges.
      * intros row u. by apply level_closed.
      * exact Hnd.
      * exact Hcount.
      * apply (li_size _ _ Hi).
    + assert (Hdn : dom (load_nodes sc next g) = next).
      { apply (load_next k x); [done|]. intros v Hv.
        apply Hnext in Hv as [Hv|(row & Hr & -> & _)]; [set_solver|eauto]. }
      rewrite bool_decide_true by done. cbn [require mbind result_bind].
      assert (Hdisj : next ## dom (x_nodes x)).
      { intros v Hv Hd. apply Hnext in Hv as [Hv|(row & _ & _ & Hv)]; set_solver. }
      split; cbn [x_nodes x_frontier x_edges].
      * intros v. rewrite dom_union_L, Hdn, Hw, <- (li_dom _ _ Hi). set_solver.
      * intros v r [Hr|[_ Hr]]%lookup_union_Some_raw; [|by apply (li_rows _ _ Hi)].
        apply load_nodes_spec in Hr. tauto.
      * intros v Hv. apply Hw. by right.
      * exact Hcover.
      * intros row. by apply level_edges.
      * intros row u. by apply level_closed.
      * exact Hnd.
      * exact Hcount.
      * rewrite dom_union_L, Hdn, size_union by done. lia.
  - destruct Hs as (-> & Hs). split; [done|].
    destruct Hs as [Hs|(s & Hs & Hd)]; [right|left].
    + exists (x_edges x ++ level_rows lim sc relations g x).
      split_and!; [done|rewrite level_rows_take; by apply (level_nodup k)|].
      intros row Hr. apply (proj1 (level_edges k x row Hi)). apply elem_of_app in Hr as [Hr|Hr%Hsub];
        apply elem_of_app; auto.
    + exists (dom (x_nodes x) ∪ s). rewrite size_union by (intros v ??; by apply (Hd v)).
      split; [lia|]. intros v [Hv|Hv]%elem_of_union; [left; by apply (li_dom _ _ Hi)|].
      destruct (Hd v Hv) as [_ [Hv'|(row & Hr%Hsub & ->)]]; [set_solver|].
      by apply other_within.
Qed.

Lemma expand_levels_inv depth k x :
  level_inv k x →
  match expand_levels lim sc relations node_limit g depth x with
  | Ok x' => level_inv (depth + k) x'
  | Err e => e = QUOTA_EXCEEDED ∧ overflows (depth + k)
  end.
Proof.
  revert k x. induction depth as [|depth IH]; intros k x Hi; [done|].
  cbn [expand_levels]. case_bool_decide as E.
  - (* an empty frontier: nothing more is within reach *)
    assert (Hst : ∀ d v, within (d + k) v ↔ within k v).
    { induction d as [|d IHd]; [done|]. intros v. cbn [Nat.add]. split.
      - intros [Hv|(row & u & Hf & Hu & Hv & Hwu)]; [by apply IHd|].
        apply IHd in Hwu. destruct (neighbour_found k x row u v) as [?|(row' & Hr & _)]; auto.
        apply level_all_spec in Hr as (_ & _ & Hr);
          [|intros r Hr'; by apply (li_edges _ _ Hi)]. rewrite E in Hr. set_solver.
      - intros Hv. left. by apply IHd. }
    assert (Hcov : ∀ v, within k v → ∃ j, (j < k)%nat ∧ within j v).
    { intros v Hv. destruct (li_cover _ _ Hi v Hv) as [Hf|?]; [|done].
      rewrite E in Hf. set_solver. }
    change (S depth + k)%nat with (S (depth + k)).
    pose proof (Hst (S depth)) as HstS. cbn [Nat.add] in HstS.
    split.
    + intros v. rewrite HstS. apply (li_dom _ _ Hi).
    + apply (li_rows _ _ Hi).
    + intros v Hv. apply HstS. by apply (li_front _ _ Hi).
    + intros v Hv%HstS. right. destruct (Hcov v Hv) as (j & Hj & Hw). exists j. auto with lia.
    + intros row. rewrite (li_edges _ _ Hi). split; intros (Hf & u & j & Hu & Hj & Hw);
        (split; [done|]).
      * exists u, j. auto with lia.
      * destruct (Hcov u) as (j' & Hj' & Hw'); [|eauto 10].
        apply HstS, (within_le j); [lia|done].
    + intros row u Hr Hu. apply HstS. by apply (li_closed _ _ Hi row).
    + apply (li_nodup _ _ Hi).
    + apply (li_count _ _ Hi).
    + apply (li_size _ _ Hi).
  - pose proof (expand_level_inv k x Hi) as Hl. destruct (expand_level _ _ _ _ _ x) as [x'|e].
    + cbn [mbind result_bind]. specialize (IH (S k) x' Hl).
      by replace (S depth + k)%nat with (depth + S k)%nat by lia.
    + cbn [mbind result_bind]. destruct Hl as [-> Ho]. split; [done|].
      destruct Ho as [(s & Hs & Hw)|(l & Hl & Hnd & Hw)]; [left; exists s|right; exists l].
      * split; [done|]. intros v Hv. apply (within_le (S k)); [lia|auto].
      * split_and!; [done|done|]. intros row Hr.
        destruct (Hw row Hr) as (Hf & u & j & Hu & Hj & Hwj).
        split; [done|]. exists u, j. auto with lia.
Qed.
End Expansion.

Lemma elem_of_dedup l x : x ∈ dedup l ↔ x ∈ l.
Proof.
  induction l as [|y l IH]; cbn; [done|]. rewrite !elem_of_cons, list_elem_of_In, filter_In,
    <- list_elem_of_In, IH, negb_true_iff, bool_decide_eq_false.
  destruct (decide (x = y)); naive_solver.
Qed.

Lemma NoDup_dedup l : NoDup (dedup l).
Proof.
  induction l as [|y l IH]; cbn; constructor.
  - rewrite list_elem_of_In, filter_In, bool_decide_true by done. by intros [_ [=]].
  - clear -IH. induction IH as [|x l' Hn _ IH]; cbn; [constructor|].
    destruct (negb _); [|done]. constructor; [|done].
    rewrite list_elem_of_In, filter_In, <- list_elem_of_In. tauto.
Qed.

Lemma dedup_set l : (list_to_set (dedup l) : gset pystr) = list_to_set l.
Proof. apply set_eq. intros x. by rewrite !elem_of_list_to_set, elem_of_dedup. Qed.

Lemma each_err {A} (f : A → K ()) l e :
  (∀ x e, f x = Err e → e = INVALID_INPUT) → each f l = Err e → e = INVALID_INPUT.
Proof.
  intros Hf. induction l as [|x l IH]; cbn; [done|]. intros [H|(? & _ & H)]%bind_err; eauto.
Qed.

Lemma required_text_err n s e : required_text n s = Err e → e = INVALID_INPUT.
Proof. by intros [_ <-]%require_err. Qed.

Section Correct.
Context (lim : limits) (sc : scope) (g : graph).
Context (Hends : ∀ id e, graph_edges g !! (sc, id) = Some e →
  is_Some (graph_nodes g !! (sc, er_source_node_id e))
  ∧ is_Some (graph_nodes g !! (sc, er_target_node_id e))).
Context (Hmax : 0 <= max_expand_edges lim).
Context (seed_ids relation_filters : list pystr) (limit : Z).
Context (Hseeds : len (dedup seed_ids) <= limit).

Abbreviation start := (list_to_set (dedup seed_ids) : gset pystr).
Abbreviation near := (within sc (dedup relation_filters) g start).

Lemma start_inv :
  start ⊆ dom (load_nodes sc start g) →
  level_inv lim sc (dedup relation_filters) limit g start 0
    (Expansion (load_nodes sc start g) start []).
Proof.
  intros Hsub.
  assert (Hd : dom (load_nodes sc start g) = start).
  { apply set_eq. intros v. split; [|set_solver].
    intros [r Hr%load_nodes_spec]%elem_of_dom. tauto. }
  split; cbn [x_nodes x_frontier x_edges].
  - intros v. by rewrite Hd.
  - intros v r Hr%load_nodes_spec. tauto.
  - done.
  - by left.
  - intros row. split; [by intros ?%elem_of_nil|]. intros (_ & u & j & _ & Hj & _). lia.
  - by intros row u ?%elem_of_nil.
  - constructor.
  - done.
  - rewrite Hd, size_list_to_set by apply NoDup_dedup. done.
Qed.

Lemma expansion_result d x :
  (1 <= d)%nat → level_inv lim sc (dedup relation_filters) limit g start d x →
  let es := List.filter (λ e, bool_decide (er_source_node_id e.2 ∈ dom (x_nodes x))
                         && bool_decide (er_target_node_id e.2 ∈ dom (x_nodes x))) (x_edges x) in
  (∀ id r, (id, r) ∈ sort_items (map_to_list (x_nodes x)) ↔
     near d id ∧ graph_nodes g !! (sc, id) = Some r)
  ∧ (∀ row, row ∈ sort_items es ↔
       follows sc (dedup relation_filters) g row ∧ ∃ u, endpoint row u ∧ near (d - 1) u)
  ∧ StronglySorted key_lt (sort_items (map_to_list (x_nodes x)))
  ∧ StronglySorted key_lt (sort_items es)
  ∧ len (sort_items (map_to_list (x_nodes x))) <= limit
  ∧ len (sort_items es) <= max_expand_edges lim.
Proof.
  intros Hd Hi es.
  assert (Hes : es = x_edges x).
  { subst es. assert (H : ∀ l, (∀ row, row ∈ l → row ∈ x_edges x) →
      List.filter (λ e, bool_decide (er_source_node_id e.2 ∈ dom (x_nodes x))
                        && bool_decide (er_target_node_id e.2 ∈ dom (x_nodes x))) l = l).
    { induction l as [|row l IH]; intros Hl; cbn; [done|].
      rewrite !bool_decide_true; [cbn; f_equal; apply IH; intros; apply Hl; by right|..];
        apply (li_dom _ _ _ _ _ _ _ _ Hi), (li_closed _ _ _ _ _ _ _ _ Hi row);
        unfold endpoint; auto; apply Hl; by left. }
    by apply H. }
  rewrite Hes. clear es Hes. split_and!.
  - intros id r. rewrite sort_items_perm, elem_of_map_to_list, <- (li_dom _ _ _ _ _ _ _ _ Hi).
    rewrite elem_of_dom. split.
    + intros Hr. split; [eauto|]. by apply (li_rows _ _ _ _ _ _ _ _ Hi).
    + intros [[r' Hr'] Hr]. pose proof (li_rows _ _ _ _ _ _ _ _ Hi _ _ Hr'). congruence.
  - intros row. rewrite sort_items_perm, (li_edges _ _ _ _ _ _ _ _ Hi).
    split; intros (Hf & u & H); (split; [done|]).
    + destruct H as (j & Hu & Hj & Hw). exists u. split; [done|].
      apply (within_le _ _ _ _ j); [lia|done].
    + destruct H as [Hu Hw]. exists u, (d - 1)%nat. auto with lia.
  - apply sort_items_sorted, NoDup_fst_map_to_list.
  - apply sort_items_sorted, (li_nodup _ _ _ _ _ _ _ _ Hi).
  - unfold len. rewrite sort_items_perm, length_map_to_list, <- size_dom.
    apply (li_size _ _ _ _ _ _ _ _ Hi).
  - unfold len. rewrite sort_items_perm. apply (li_count _ _ _ _ _ _ _ _ Hi).
Qed.
End Correct.

(** C12. [expand] is exact and bounded. In a reachable database, when it answers,
    the nodes are those at most [max_depth] edges from a seed, in id order; the
    edges are those of the allowed relations with an end less than [max_depth]
    away, in id order; and both fit the limits. When it refuses, the input is
    invalid, a seed does not exist, or the neighbourhood really exceeds a limit:
    it never reports a storage failure. *)
Theorem expand_correct lim key json_extract ops sc seeds relations max_depth node_limit :
  0 <= max_expand_edges lim →
  let g := final (graph_step lim key json_extract) ops empty_graph in
  let d := Z.to_nat (default (max_expand_depth lim) max_depth) in
  let limit := default (max_expand_nodes lim) node_limit in
  let near := within sc (dedup relations) g (list_to_set (dedup seeds)) in
  match expand_rows lim sc seeds relations max_depth node_limit g with
  | Ok (ns, es) =>
      (∀ id r, (id, r) ∈ ns ↔ near d id ∧ graph_nodes g !! (sc, id) = Some r)
      ∧ (∀ row, row ∈ es ↔
           follows sc (dedup relations) g row ∧ ∃ u, endpoint row u ∧ near (d - 1)%nat u)
      ∧ StronglySorted key_lt ns ∧ StronglySorted key_lt es
      ∧ len ns <= limit ∧ len es <= max_expand_edges lim
  | Err e =>
      e = INVALID_INPUT
      ∨ (e = NOT_FOUND ∧ ∃ v, v ∈ seeds ∧ graph_nodes g !! (sc, v) = None)
      ∨ (e = QUOTA_EXCEEDED ∧
           (limit < len (dedup seeds)
            ∨ overflows lim sc (dedup relations) limit g (list_to_set (dedup seeds)) d))
  end.
Proof.
  intros Hmax g d limit near.
  assert (Hg : graph_inv lim g).
  { apply final_inv; [intros; by apply step_graph_inv|apply empty_graph_inv]. }
  destruct Hg as [Hends _ _]. specialize (Hends sc). clearbody g.
  unfold expand_rows. fold limit.
  destruct (validate_scope sc) as [[]|e] eqn:Hs1; cbn [mbind result_bind];
    [|left; unfold validate_scope in Hs1; apply bind_err in Hs1 as [H|(? & _ & H)]; exact (required_text_err _ _ _ H)].
  cbv zeta. fold d. destruct ((1 <=? default _ max_depth) && _) eqn:Hd; [|by left].
  destruct ((1 <=? limit) && _) eqn:Hl; [|by left]. cbn [require mbind result_bind].
  destruct (each _ seeds) as [[]|e] eqn:Hs2; cbn [mbind result_bind];
    [|left; exact (each_err _ _ _ (required_text_err _) Hs2)].
  destruct (negb (bool_decide (dedup seeds = []))); [|by left]. cbn [require mbind result_bind].
  destruct (limit <? len (dedup seeds)) eqn:Hn; cbn [negb require mbind result_bind];
    [right; right; apply Z.ltb_lt in Hn; auto|apply Z.ltb_ge in Hn].
  destruct (each _ relations) as [[]|e] eqn:Hs3; cbn [mbind result_bind];
    [|left; exact (each_err _ _ _ (required_text_err _) Hs3)].
  destruct (negb (_ <? len (dedup relations))); [|by left]. cbn [require mbind result_bind].
  set (start := list_to_set (dedup seeds)) in *.
  case_bool_decide as Hsub; cbn [require mbind result_bind].
  - pose proof (start_inv lim sc g Hends Hmax seeds relations limit Hn Hsub) as Hi.
    apply (expand_levels_inv lim sc (dedup relations) limit g Hends start d) in Hi.
    rewrite Nat.add_0_r in Hi. destruct (expand_levels _ _ _ _ _ _ _) as [x|e].
    + cbn [mbind result_bind]. apply (expansion_result lim sc g seeds relations limit);
        [|done]. bools. rewrite Z.leb_le in *. unfold d. lia.
    + destruct Hi as [-> Ho]. right; right. auto.
  - right; left. split; [done|].
    destruct (decide (Forall (λ v, is_Some (graph_nodes g !! (sc, v))) seeds)) as [Hall|Hex].
    + exfalso. apply Hsub. intros v Hv. apply elem_of_dom.
      pose proof Hv as Hv'. apply elem_of_list_to_set in Hv'. apply (proj1 (elem_of_dedup _ _)) in Hv'.
      rewrite Forall_forall in Hall. destruct (Hall v Hv') as [r Hr]. exists r.
      by apply load_nodes_spec.
    + apply not_Forall_Exists, Exists_exists in Hex as (v & Hv & Hnone); [|apply _].
      exists v. split; [done|]. by apply eq_None_not_Some.
Qed.
