(* ===== verification/KnowledgeExamples.v ===== *)
(** * Knowledge graph: a concrete database

    Three nodes and two edges of one namespace, and the theorems of the store
    applied to them. *)

From Stdlib Require Import ZArith NArith Sorted.
From S2P Require Import Prelude Scoped PyText Json Sha256 Base64 KnowledgeCursor KnowledgeGraph.
From S2P Require Import KnowledgeQuery KnowledgeFacts KnowledgeScope KnowledgePaging.
From S2P Require Import KnowledgeExpand.

#[local] Open Scope Z_scope.

Definition ex_limits : limits := Limits 10 10 10 5 3 10 10.
Definition ex_scope : scope := (lit "t1", lit "n1").
Definition ex_key : pybytes := repeat 7%N 32.

(** SQLite's [json_extract] on the one document of this database. *)
Definition ex_extract (text path : pystr) : option pystr :=
  if bool_decide (path = dump_str (lit "k")) then Some (lit "v") else None.

Definition ex_node (id : string) : GraphNode :=
  MkNode (lit id) ex_scope.1 ex_scope.2 (lit "person") (lit id) None [(lit "k", lit "v")] [] 0 0.
Definition ex_edge (id a b : string) : GraphEdge :=
  MkEdge (lit id) ex_scope.1 ex_scope.2 (lit a) (lit b) (lit "knows") [] [] 0 0.

Definition ex_ops : list graph_op :=
  [GUpsertNodes 5 ex_scope [ex_node "b"; ex_node "a"; ex_node "c"];
   GUpsertEdges 6 ex_scope [ex_edge "e1" "a" "b"; ex_edge "e2" "b" "c"]].
Definition ex_graph : graph :=
  Eval vm_compute in final (graph_step ex_limits ex_key ex_extract) ex_ops empty_graph.

Definition ex_digest : pystr := Eval vm_compute in sha256_hex (lit "x").
Definition ex_cursor : cursor := Cursor (lit "search_nodes") (lit "records") (lit "a") ex_digest.
Definition ex_token : pystr :=
  Eval vm_compute in match encode_cursor ex_cursor ex_key with Ok t => t | Err _ => [] end.

Lemma issued_token_accepted_example : decode_cursor ex_token ex_key = Ok ex_cursor.
Proof. apply issued_token_accepted; [by vm_compute|by vm_compute]. Defined.

Lemma accepted_token_canonical_witness : encode_cursor ex_cursor ex_key = Ok ex_token.
Proof.
  refine (proj1 (accepted_token_canonical ex_token ex_key ex_cursor _)). by vm_compute.
Defined.

Lemma upsert_nodes_reads_back_example :
  get_node ex_scope (lit "a") ex_graph
  = Ok (Some (written_node 5 ex_scope None (ex_node "a"))).
Proof.
  assert (E : upsert_nodes ex_limits 5 ex_scope [ex_node "b"; ex_node "a"; ex_node "c"] empty_graph
    = (Ok 3, snd (upsert_nodes ex_limits 5 ex_scope [ex_node "b"; ex_node "a"; ex_node "c"]
                    empty_graph))) by by vm_compute.
  pose proof (upsert_nodes_reads_back _ _ _ _ _ _ _ E) as (_ & _ & H & _).
  specialize (H (ex_node "a") ltac:(right; by left) ltac:(by repeat constructor; set_solver)).
  transitivity (get_node ex_scope (lit "a") (snd (upsert_nodes ex_limits 5 ex_scope
    [ex_node "b"; ex_node "a"; ex_node "c"] empty_graph))); [by vm_compute|exact H].
Defined.

Lemma import_replaces_example :
  let r := import_batch ex_limits 7 8 ex_scope [ex_node "z"] [] true ex_graph in
  let g' := snd r in
  fst r = Ok (1, 0) ∧ ∀ id, is_Some (graph_nodes g' !! (ex_scope, id)) → id = lit "z".
Proof.
  intros r g'. split; [by vm_compute|]. intros id [row Hrow].
  assert (E : import_batch ex_limits 7 8 ex_scope [ex_node "z"] [] true ex_graph = (Ok (1, 0), g'))
    by by vm_compute.
  apply import_replaces in E as (_ & H & _).
  apply H in Hrow as (n & Hn & <- & _). by apply list_elem_of_singleton in Hn as ->.
Defined.

Definition ex_query : node_query := NodeQuery (lit "") None [] (Some 1) None.
Definition ex_size : Z := 1.
Definition ex_cs : pystr :=
  Eval vm_compute in
    match cursor_scope (lit "search_nodes") ex_scope.1 ex_scope.2 (node_filters ex_query 1) with
    | Ok cs => cs | Err _ => [] end.

Lemma ex_node_ids id r : graph_nodes ex_graph !! (ex_scope, id) = Some r → id ∈ [lit "a"; lit "b"; lit "c"].
Proof.
  intros H%elem_in_scope%(list_elem_of_fmap_2 fst). cbn [fst] in H.
  assert (E : (in_scope ex_scope (graph_nodes ex_graph)).*1 ≡ₚ [lit "a"; lit "b"; lit "c"])
    by (apply (bool_decide_unpack _); by vm_compute).
  by rewrite E in H.
Qed.

Lemma search_nodes_complete_witness :
  collect STORAGE_FAILED (λ token, search_nodes ex_extract ex_limits ex_key ex_scope
             (with_node_token ex_query token) ex_graph) 3 None
  = mapR (node_from_row ex_scope) (sort_items (in_scope ex_scope (graph_nodes ex_graph))).
Proof.
  rewrite (search_nodes_complete ex_limits ex_key ex_extract ex_scope ex_query ex_graph 1 ex_cs 3);
    [by vm_compute|by vm_compute|by vm_compute|by vm_compute| |by vm_compute; lia].
  intros id r H%ex_node_ids.
  repeat (apply elem_of_cons in H as [-> | H]; [by vm_compute|]). by apply elem_of_nil in H.
Defined.

Definition ex_equery : edge_query := EdgeQuery (Some (lit "b")) None (Some 1) None.
Definition ex_ecs : pystr :=
  Eval vm_compute in
    match cursor_scope (lit "search_edges") ex_scope.1 ex_scope.2 (edge_filters ex_equery 1) with
    | Ok cs => cs | Err _ => [] end.

Lemma ex_edge_ids id r : graph_edges ex_graph !! (ex_scope, id) = Some r → id ∈ [lit "e1"; lit "e2"].
Proof.
  intros H%elem_in_scope%(list_elem_of_fmap_2 fst). cbn [fst] in H.
  assert (E : (in_scope ex_scope (graph_edges ex_graph)).*1 ≡ₚ [lit "e1"; lit "e2"])
    by (apply (bool_decide_unpack _); by vm_compute).
  by rewrite E in H.
Qed.

Lemma search_edges_example :
  collect STORAGE_FAILED (λ token, search_edges ex_limits ex_key ex_scope
             (with_edge_token ex_equery token) ex_graph) 2 None
  = mapR (edge_from_row ex_scope) (sort_items (in_scope ex_scope (graph_edges ex_graph))).
Proof.
  rewrite (search_edges_complete ex_limits ex_key ex_scope ex_equery ex_graph 1 ex_ecs 2);
    [by vm_compute|by vm_compute|by vm_compute|by vm_compute|by vm_compute|by vm_compute|
    |by vm_compute; lia].
  intros id r H%ex_edge_ids.
  repeat (apply elem_of_cons in H as [-> | H]; [by vm_compute|]). by apply elem_of_nil in H.
Defined.

(** From [a] with depth 1: the nodes [a] and [b], and the edge between them. *)
Lemma expand_correct_witness :
  match expand_rows ex_limits ex_scope [lit "a"] [] (Some 1) None ex_graph with
  | Ok (ns, es) => ns.*1 = [lit "a"; lit "b"] ∧ es.*1 = [lit "e1"] ∧ len ns <= 10
  | Err _ => False
  end.
Proof.
  pose proof (expand_correct ex_limits ex_key ex_extract ex_ops ex_scope [lit "a"] [] (Some 1) None
    ltac:(by vm_compute)) as H. cbv zeta in H.
  replace (final (graph_step ex_limits ex_key ex_extract) ex_ops empty_graph) with ex_graph in H
    by by vm_compute.
  destruct (expand_rows _ _ _ _ _ _ _) as [[ns es]|e] eqn:E; [|by vm_compute in E].
  destruct H as (_ & _ & _ & _ & H & _). split_and!; [| |exact H];
    vm_compute in E; injection E as <- <-; done.
Defined.
