(* ===== verification/ReplayGuard.v ===== *)
(** * Replay guards: at most one dispatch per release

    Three connectors keep a durable ledger so that a mutation with an external
    side effect is dispatched at most once per request identity: the e-mail
    submission ledger, the cloud write ledger and the Bilibili write receipts.
    The class states what such a ledger promises; the bound on dispatches is
    proved here once, from the laws. *)

From Stdlib Require Import ZArith.
From S2P Require Import Prelude.

(** The operations of a ledger and how a client reads them. *)
Class ReplayGuard (St Op Out K : Type) := {
  guard_step : Op → St → Out * St;
  (** the answer lets the caller dispatch the side effect of this key *)
  granted : Op → Out → option K;
  (** the operation makes the key dispatchable again *)
  releases : Op → St → K → bool;
  (** the ledger protects the key *)
  held : St → K → Prop
}.

(** A grant protects its key; a protected key stays so and is never granted
    until an operation releases it.  [inv] is the ledger's own invariant. *)
Class ReplayGuardLaws {St Op Out K : Type} (G : ReplayGuard St Op Out K)
    (inv : St → Prop) : Prop := {
  guard_inv (op : Op) (s : St) : inv s → inv (snd (guard_step op s));
  grant_holds (op : Op) (s : St) (k : K) :
    inv s → granted op (fst (guard_step op s)) = Some k →
    held (Out := Out) (Op := Op) (snd (guard_step op s)) k;
  held_stays (op : Op) (s : St) (k : K) :
    inv s → held (Out := Out) (Op := Op) s k → releases (Out := Out) op s k = false →
    held (Out := Out) (Op := Op) (snd (guard_step op s)) k;
  held_refuses (op : Op) (s : St) (k : K) :
    inv s → held (Out := Out) (Op := Op) s k → releases (Out := Out) op s k = false →
    granted op (fst (guard_step op s)) ≠ Some k
}.

Section Bound.
Context {St Op Out K : Type} `{!EqDecision K} {G : ReplayGuard St Op Out K}.

(** How often a key is granted and released along a run. *)
Fixpoint grants (k : K) (ops : list Op) (s : St) : nat :=
  match ops with
  | [] => 0
  | op :: ops =>
      (if bool_decide (granted op (fst (guard_step op s)) = Some k) then 1 else 0)
      + grants k ops (snd (guard_step op s))
  end.

Fixpoint release_count (k : K) (ops : list Op) (s : St) : nat :=
  match ops with
  | [] => 0
  | op :: ops =>
      (if releases op s k then 1 else 0) + release_count k ops (snd (guard_step op s))
  end.

Context {inv : St → Prop} {L : ReplayGuardLaws G inv}.

Lemma grants_bounded (k : K) (ops : list Op) (s : St) :
  inv s →
  grants k ops s <= 1 + release_count k ops s
  ∧ (held (Out := Out) (Op := Op) s k → grants k ops s <= release_count k ops s).
Proof.
  revert s. induction ops as [|op ops IH]; intros s Hi; cbn [grants release_count]; [lia|].
  destruct (IH (snd (guard_step op s))) as [H1 H2]; [by apply guard_inv|].
  case_bool_decide as Hg.
  - specialize (H2 (grant_holds _ _ _ Hi Hg)). split; [lia|]. intros Hh.
    destruct (releases op s k) eqn:Hr; [lia|]. by destruct (held_refuses _ _ _ Hi Hh Hr).
  - split; [lia|]. intros Hh. destruct (releases op s k) eqn:Hr; [lia|].
    specialize (H2 (held_stays _ _ _ Hi Hh Hr)). lia.
Qed.
End Bound.
