(* ===== verification/EmailLedger.v ===== *)
(** * E-mail connector: the submission ledger

    [SubmissionLedger] of [email_notification_connector/ledger.py]: the tables
    [email_submissions] and [email_submission_request_ids] and the three
    transactions on them.  Timestamps are arguments. *)

From Stdlib Require Import ZArith NArith.
From S2P Require Import Prelude PyText Sha256 ReplayGuard.

#[local] Open Scope Z_scope.

Inductive submission_status := SENDING | RETRYABLE | ACCEPTED | UNKNOWN | REJECTED.

#[export] Instance submission_status_eq_dec : EqDecision submission_status.
Proof. solve_decision. Defined.

(** [EmailSubmissionStatus] *)
Inductive email_status := EmAccepted | EmUnknown | EmRejected.

Definition status_value (s : email_status) : submission_status :=
  match s with EmAccepted => ACCEPTED | EmUnknown => UNKNOWN | EmRejected => REJECTED end.

(** [EmailSubmissionStatus(status)]; [None] is the [ValueError]. *)
Definition typed_status (s : submission_status) : option email_status :=
  match s with
  | ACCEPTED => Some EmAccepted
  | UNKNOWN => Some EmUnknown
  | REJECTED => Some EmRejected
  | SENDING | RETRYABLE => None
  end.

Record EmailSubmission := Submission {
  sub_request_ref : pystr;
  sub_status : email_status;
  sub_vendor_receipt_ref : option pystr;
  sub_delivery_confirmed : bool
}.

Record ReplayIdentity := Identity {
  identity_sha256 : pystr;
  request_id_sha256 : pystr;
  payload_sha256 : pystr;
  request_ref : pystr
}.

Record submission_row := SubmissionRow {
  er_payload_sha256 : pystr;
  er_status : submission_status;
  er_vendor_receipt_ref : option pystr;
  er_delivery_confirmed : bool;
  er_created_at : pystr;
  er_updated_at : pystr
}.

Record email_ledger := EmailLedger {
  email_submissions : gmap pystr submission_row;
  email_submission_request_ids : gmap pystr pystr
}.

Inductive ledger_error := LedgerFailure | ReplayConflict | IdentityError.

Abbreviation L := (result ledger_error).

(** [_validate_identity] *)
Definition is_digest (d : pystr) : bool := (len d =? 64) && forallb is_hex_lower d.
Definition validate_identity (i : ReplayIdentity) : L () :=
  _ ← require (is_digest (identity_sha256 i) && is_digest (request_id_sha256 i)
               && is_digest (payload_sha256 i)) IdentityError;
  require (negb (bool_decide (request_ref i = []))) IdentityError.

(** [_submission] *)
Definition submission (ref : pystr) (status : submission_status) (vendor : option pystr)
    (confirmed : bool) : L EmailSubmission :=
  match typed_status status with
  | None => Err LedgerFailure
  | Some EmAccepted => Ok (Submission ref EmAccepted vendor confirmed)
  | Some st => Ok (Submission ref st None false)
  end.

Definition set_status (status : submission_status) (now : pystr) (r : submission_row)
  : submission_row :=
  {| er_payload_sha256 := er_payload_sha256 r; er_status := status;
     er_vendor_receipt_ref := er_vendor_receipt_ref r;
     er_delivery_confirmed := er_delivery_confirmed r;
     er_created_at := er_created_at r; er_updated_at := now |}.

(** [INSERT INTO email_submission_request_ids] when the id is new. *)
Definition bind_request_id (found : option pystr) (i : ReplayIdentity) (m : gmap pystr pystr)
  : gmap pystr pystr :=
  match found with
  | None => <[request_id_sha256 i := identity_sha256 i]> m
  | Some _ => m
  end.

(** The request id is new, or bound to this identity. *)
Definition binding_ok (found : option pystr) (i : ReplayIdentity) : bool :=
  match found with
  | Some id => bool_decide (id = identity_sha256 i)
  | None => true
  end.

(** The transaction of [reserve]; [None] grants the send. *)
Definition reserve_txn (now : pystr) (i : ReplayIdentity)
  : txn email_ledger ledger_error (option EmailSubmission) := λ s,
  let bound := email_submission_request_ids s !! request_id_sha256 i in
  _ ← require (binding_ok bound i) ReplayConflict;
  match email_submissions s !! identity_sha256 i with
  | Some row =>
      _ ← require (bool_decide (er_payload_sha256 row = payload_sha256 i)) ReplayConflict;
      let ids := bind_request_id bound i (email_submission_request_ids s) in
      let update status :=
        EmailLedger (<[identity_sha256 i := set_status status now row]> (email_submissions s)) ids in
      match er_status row with
      | SENDING =>
          sub ← submission (request_ref i) UNKNOWN None false;
          Ok (Some sub, update UNKNOWN)
      | RETRYABLE => Ok (None, update SENDING)
      | status =>
          sub ← submission (request_ref i) status (er_vendor_receipt_ref row)
                  (er_delivery_confirmed row);
          Ok (Some sub, EmailLedger (email_submissions s) ids)
      end
  | None =>
      (* the request id's INSERT breaks its primary key when it is bound already *)
      _ ← require (bool_decide (bound = None)) LedgerFailure;
      Ok (None,
          EmailLedger
            (<[identity_sha256 i :=
                 SubmissionRow (payload_sha256 i) SENDING None false now now]> (email_submissions s))
            (<[request_id_sha256 i := identity_sha256 i]> (email_submission_request_ids s)))
  end.

(** [reserve] *)
Definition reserve (now : pystr) (i : ReplayIdentity) (s : email_ledger)
  : L (option EmailSubmission) * email_ledger :=
  match validate_identity i with
  | Err e => (Err e, s)
  | Ok _ => transact (reserve_txn now i) s
  end.

(** [status IN ('SENDING', 'UNKNOWN')], with the identity's payload. *)
Definition open_row (i : ReplayIdentity) (r : submission_row) : bool :=
  bool_decide (er_payload_sha256 r = payload_sha256 i)
  && match er_status r with SENDING | UNKNOWN => true | _ => false end.

Definition update_open (f : submission_row → submission_row) (i : ReplayIdentity)
    (m : gmap pystr submission_row) : gmap pystr submission_row :=
  match m !! identity_sha256 i with
  | Some r => if open_row i r then <[identity_sha256 i := f r]> m else m
  | None => m
  end.

(** [mark_retryable] *)
Definition mark_retryable (now : pystr) (i : ReplayIdentity) (s : email_ledger)
  : L () * email_ledger :=
  match validate_identity i with
  | Err e => (Err e, s)
  | Ok _ =>
      (Ok (), EmailLedger (update_open (set_status RETRYABLE now) i (email_submissions s))
                (email_submission_request_ids s))
  end.

(** The transaction of [complete]. *)
Definition complete_txn (now : pystr) (i : ReplayIdentity) (sub : EmailSubmission)
  : txn email_ledger ledger_error EmailSubmission := λ s,
  let rows := update_open
    (λ r, {| er_payload_sha256 := er_payload_sha256 r; er_status := status_value (sub_status sub);
             er_vendor_receipt_ref := sub_vendor_receipt_ref sub;
             er_delivery_confirmed := sub_delivery_confirmed sub;
             er_created_at := er_created_at r; er_updated_at := now |})
    i (email_submissions s) in
  match rows !! identity_sha256 i with
  | None => Err LedgerFailure
  | Some row =>
      stored ← submission (request_ref i) (er_status row) (er_vendor_receipt_ref row)
                 (er_delivery_confirmed row);
      Ok (stored, EmailLedger rows (email_submission_request_ids s))
  end.

(** [complete] *)
Definition complete (now : pystr) (i : ReplayIdentity) (sub : EmailSubmission) (s : email_ledger)
  : L EmailSubmission * email_ledger :=
  match
    (_ ← validate_identity i;
     require (bool_decide (sub_request_ref sub = request_ref i)
              && negb (sub_delivery_confirmed sub)
              && bool_decide (sub_vendor_receipt_ref sub = None)) LedgerFailure)
  with
  | Err e => (Err e, s)
  | Ok _ => transact (complete_txn now i sub) s
  end.

(** ** The machine *)

Inductive email_op :=
  | EmReserve (now : pystr) (i : ReplayIdentity)
  | EmMarkRetryable (now : pystr) (i : ReplayIdentity)
  | EmComplete (now : pystr) (i : ReplayIdentity) (sub : EmailSubmission).

Inductive email_out :=
  | EoReserve (r : L (option EmailSubmission))
  | EoDone (r : L ())
  | EoComplete (r : L EmailSubmission).

Definition email_step (op : email_op) (s : email_ledger) : email_out * email_ledger :=
  match op with
  | EmReserve now i => let '(r, s) := reserve now i s in (EoReserve r, s)
  | EmMarkRetryable now i => let '(r, s) := mark_retryable now i s in (EoDone r, s)
  | EmComplete now i sub => let '(r, s) := complete now i sub s in (EoComplete r, s)
  end.

Definition empty_ledger : email_ledger := EmailLedger ∅ ∅.

(** The key is held while its row is in any state but RETRYABLE; only
    [mark_retryable] on an open row with the identity's payload releases it. *)
#[export] Instance email_guard : ReplayGuard email_ledger email_op email_out pystr := {
  guard_step := email_step;
  granted op out :=
    match op, out with
    | EmReserve _ i, EoReserve (Ok None) => Some (identity_sha256 i)
    | _, _ => None
    end;
  releases op s k :=
    match op with
    | EmMarkRetryable _ i =>
        bool_decide (identity_sha256 i = k) && is_ok (validate_identity i)
        && match email_submissions s !! k with Some r => open_row i r | None => false end
    | _ => false
    end;
  held s k := ∃ r, email_submissions s !! k = Some r ∧ er_status r ≠ RETRYABLE
}.

(** The foreign key: a bound request id names a recorded submission. *)
Definition email_inv (s : email_ledger) : Prop :=
  ∀ q k, email_submission_request_ids s !! q = Some k → is_Some (email_submissions s !! k).

(** The moves of one submission's row: created in SENDING, then its status
    only, along the arrows of [status_move]. *)
Definition status_move (a b : submission_status) : bool :=
  match a, b with
  | (SENDING | UNKNOWN), SENDING => false
  | (SENDING | UNKNOWN), _ => true
  | RETRYABLE, SENDING => true
  | _, _ => false
  end.

Inductive row_move : option submission_row → option submission_row → Prop :=
  | move_stay o : row_move o o
  | move_new r : er_status r = SENDING → row_move None (Some r)
  | move_status r r' :
      er_payload_sha256 r' = er_payload_sha256 r →
      er_created_at r' = er_created_at r →
      status_move (er_status r) (er_status r') = true →
      row_move (Some r) (Some r').

(** What one operation may do to the ledger. *)
Record email_effect (s s' : email_ledger) : Prop := {
  eff_rows k : row_move (email_submissions s !! k) (email_submissions s' !! k);
  eff_ids : email_submission_request_ids s ⊆ email_submission_request_ids s';
  eff_inv : email_inv s → email_inv s'
}.

(** ** Every operation respects the row moves *)

Lemma email_effect_refl s : email_effect s s.
Proof. split; [constructor | done | done]. Qed.

Lemma row_moves_insert (m : gmap pystr submission_row) (k : pystr) (r : submission_row) :
  row_move (m !! k) (Some r) → ∀ k', row_move (m !! k') (<[k := r]> m !! k').
Proof.
  intros H k'. destruct (decide (k = k')) as [<-|Hne].
  - by rewrite lookup_insert_eq.
  - rewrite lookup_insert_ne by done. constructor.
Qed.

Lemma bind_request_id_grows found i m :
  found = m !! request_id_sha256 i → m ⊆ bind_request_id found i m.
Proof. intros ->. unfold bind_request_id. case_match; [done|]. by apply insert_subseteq. Qed.

(** Replacing a row that exists and binding the request id to it. *)
Lemma email_effect_put (s : email_ledger) (k : pystr) (r : submission_row) (ids' : gmap pystr pystr) :
  row_move (email_submissions s !! k) (Some r) →
  email_submission_request_ids s ⊆ ids' →
  (∀ q k', ids' !! q = Some k' → email_submission_request_ids s !! q = Some k' ∨ k' = k) →
  email_effect s (EmailLedger (<[k := r]> (email_submissions s)) ids').
Proof.
  intros Hm Hs Hi. split; cbn; [by apply row_moves_insert | done |].
  intros Hinv q k' Hq. cbn in *. destruct (decide (k = k')) as [<-|Hne].
  - rewrite lookup_insert_eq. eauto.
  - rewrite lookup_insert_ne by done. destruct (Hi _ _ Hq) as [H| ->]; [eauto | done].
Qed.

Lemma bind_request_id_cases found i m q k :
  bind_request_id found i m !! q = Some k → m !! q = Some k ∨ k = identity_sha256 i.
Proof.
  unfold bind_request_id. case_match; [auto|]. rewrite lookup_insert_Some. naive_solver.
Qed.

Lemma email_effect_update_open f s i :
  (∀ r, open_row i r = true → row_move (Some r) (Some (f r))) →
  email_effect s (EmailLedger (update_open f i (email_submissions s))
                    (email_submission_request_ids s)).
Proof.
  intros Hf. unfold update_open.
  destruct (email_submissions s !! identity_sha256 i) as [r|] eqn:Hr;
    [|destruct s; apply email_effect_refl].
  destruct (open_row i r) eqn:Ho; [|destruct s; apply email_effect_refl].
  apply email_effect_put; [rewrite Hr; auto | done | auto].
Qed.

Lemma open_row_move i r r' :
  open_row i r = true → er_payload_sha256 r' = er_payload_sha256 r →
  er_created_at r' = er_created_at r → er_status r' ≠ SENDING →
  row_move (Some r) (Some r').
Proof.
  unfold open_row. intros [_ Ho]%andb_true_iff Hp Hc Hs. apply move_status; [done..|].
  destruct (er_status r), (er_status r'); done.
Qed.

Lemma reserve_txn_effect now i s o s' :
  reserve_txn now i s = Ok (o, s') → email_effect s s'.
Proof.
  unfold reserve_txn. intros H. inv_result. clear Hv.
  destruct (email_submissions s !! identity_sha256 i) as [row|] eqn:Hr.
  - inv_result. bools.
    assert (Hids := bind_request_id_grows _ i _ eq_refl : email_submission_request_ids s ⊆ _).
    assert (Hput : ∀ st, status_move (er_status row) st = true → email_effect s
      (EmailLedger (<[identity_sha256 i := set_status st now row]> (email_submissions s))
         (bind_request_id (email_submission_request_ids s !! request_id_sha256 i) i
            (email_submission_request_ids s)))).
    { intros st Hst. apply email_effect_put; [|done|apply bind_request_id_cases].
      rewrite Hr. by apply move_status. }
    assert (Hsame : email_effect s (EmailLedger (email_submissions s)
         (bind_request_id (email_submission_request_ids s !! request_id_sha256 i) i
            (email_submission_request_ids s)))).
    { split; cbn; [constructor | done |]. intros Hinv q k Hq.
      destruct (bind_request_id_cases _ _ _ _ _ Hq) as [H| ->]; cbn; eauto. }
    destruct (er_status row) eqn:Hst; inv_result; auto.
  - inv_result. bools. apply email_effect_put; [rewrite Hr; by constructor | |].
    + by apply insert_subseteq.
    + intros q k. rewrite lookup_insert_Some. naive_solver.
Qed.

Lemma email_step_effect op s : email_effect s (snd (email_step op s)).
Proof.
  destruct op as [now i|now i|now i sub]; cbn [email_step].
  - unfold reserve. destruct (validate_identity i); [|apply email_effect_refl].
    unfold transact. destruct (reserve_txn now i s) as [[o s']|e] eqn:H; cbn;
      [by eapply reserve_txn_effect | apply email_effect_refl].
  - unfold mark_retryable. destruct (validate_identity i); [|apply email_effect_refl].
    cbn. apply email_effect_update_open. intros r Ho. by apply (open_row_move i).
  - unfold complete. destruct (validate_identity i ≫= _); [|apply email_effect_refl].
    unfold transact. destruct (complete_txn now i sub s) as [[o s']|e] eqn:H; cbn;
      [|apply email_effect_refl].
    unfold complete_txn in H. case_match eqn:Hl; [|done]. inv_result.
    apply email_effect_update_open. intros r Ho. apply (open_row_move i); [done..|].
    by destruct sub as [? [] ? ?].
Qed.

(** ** The ledger is a replay guard *)

Lemma reserve_granted now i s s' :
  reserve_txn now i s = Ok (None, s') →
  (∃ r, email_submissions s' !! identity_sha256 i = Some r ∧ er_status r = SENDING)
  ∧ (∀ r, email_submissions s !! identity_sha256 i = Some r → er_status r = RETRYABLE).
Proof.
  unfold reserve_txn. intros H. inv_result. clear Hv.
  destruct (email_submissions s !! identity_sha256 i) as [row|] eqn:Hr; inv_result.
  - destruct (er_status row) eqn:Hst; inv_result; try done; cbn. rewrite lookup_insert_eq.
    split; [eauto|]. by intros ? [= <-].
  - cbn. rewrite lookup_insert_eq. by split; [eauto|].
Qed.

Lemma email_granted op s k :
  granted op (fst (guard_step op s)) = Some k →
  (∃ r, email_submissions (snd (guard_step op s)) !! k = Some r ∧ er_status r = SENDING)
  ∧ (∀ r, email_submissions s !! k = Some r → er_status r = RETRYABLE).
Proof.
  destruct op as [now i|now i|now i sub]; cbn; [|by destruct (mark_retryable now i s)
    |by destruct (complete now i sub s)].
  unfold reserve. destruct (validate_identity i); [|done].
  unfold transact. destruct (reserve_txn now i s) as [[[o|] s']|e] eqn:H; cbn; [done| |done].
  intros [= <-]. by apply (reserve_granted now i s s').
Qed.

(** A row that turns RETRYABLE was released. *)
Lemma retryable_released op s k r r' :
  email_submissions s !! k = Some r → er_status r ≠ RETRYABLE →
  email_submissions (snd (email_step op s)) !! k = Some r' → er_status r' = RETRYABLE →
  releases op s k = true.
Proof.
  intros Hr Hn Hr' Hs'. destruct op as [now i|now i|now i sub]; cbn [email_step] in Hr'.
  - exfalso. unfold reserve in Hr'. destruct (validate_identity i); [|cbn in Hr'; congruence].
    unfold transact in Hr'.
    destruct (reserve_txn now i s) as [[o s']|e] eqn:H; cbn in Hr'; [|congruence].
    unfold reserve_txn in H. inv_result.
    destruct (email_submissions s !! identity_sha256 i) as [row|] eqn:He; inv_result.
    + destruct (er_status row) eqn:Hst; inv_result; cbn in Hr';
        try (congruence); apply lookup_insert_Some in Hr' as [[<- <-]|[? ?]];
        cbn in *; congruence.
    + cbn in Hr'. apply lookup_insert_Some in Hr' as [[<- <-]|[? ?]]; cbn in *; congruence.
  - cbn. unfold mark_retryable in Hr'.
    destruct (validate_identity i); cbn in *; [|congruence].
    unfold update_open in Hr'.
    destruct (email_submissions s !! identity_sha256 i) as [row|] eqn:He; [|congruence].
    destruct (open_row i row) eqn:Ho; [|congruence].
    apply lookup_insert_Some in Hr' as [[<- <-]|[? ?]]; [|congruence].
    rewrite bool_decide_true by done. by rewrite He.
  - exfalso. unfold complete in Hr'. destruct (_ ≫= _); [|cbn in Hr'; congruence].
    unfold transact in Hr'.
    destruct (complete_txn now i sub s) as [[o s']|e] eqn:H; cbn in Hr'; [|congruence].
    unfold complete_txn in H. case_match; [|done]. inv_result. cbn in Hr'.
    unfold update_open in Hr'.
    destruct (email_submissions s !! identity_sha256 i) as [row|] eqn:He; [|congruence].
    destruct (open_row i row); [|congruence].
    apply lookup_insert_Some in Hr' as [[<- <-]|[? ?]]; [|congruence].
    cbn in Hs'. by destruct (sub_status sub).
Qed.

#[export] Instance email_guard_laws : ReplayGuardLaws email_guard email_inv.
Proof.
  split.
  - intros op s. apply (eff_inv _ _ (email_step_effect op s)).
  - intros op s k _ [(r & Hr & Hs) _]%email_granted. exists r. by rewrite Hs.
  - intros op s k _ (r & Hr & Hs) Hrel. cbn.
    assert (Hm := eff_rows _ _ (email_step_effect op s) k). rewrite Hr in Hm.
    assert (Hr' : ∃ r', email_submissions (snd (email_step op s)) !! k = Some r')
      by (inversion Hm; eauto).
    destruct Hr' as [r' Hr']. exists r'. split; [done|]. intros Hs'.
    by rewrite (retryable_released op s k r r') in Hrel.
  - intros op s k _ (r & Hr & Hs) _ [_ Hg]%email_granted. auto.
Qed.

(** ** Properties *)

(** C13. A signed e-mail is handed to SMTP at most once, plus once for each
    time the transport confirmed a failure before DATA: along any interleaving
    of reservations, releases and completions from an empty ledger, the
    reservations that grant a send of one identity number at most one more than
    the [mark_retryable] calls that released an open row of it; and once its
    row exists in a state other than RETRYABLE, at most the releases. *)
Theorem email_sends_bounded (before ops : list email_op) (k : pystr) :
  let s := final email_step before empty_ledger in
  (grants (G := email_guard) k ops s <= 1 + release_count (G := email_guard) k ops s)%nat
  ∧ (∀ r, email_submissions s !! k = Some r → er_status r ≠ RETRYABLE →
       (grants (G := email_guard) k ops s <= release_count (G := email_guard) k ops s)%nat).
Proof.
  intros s.
  assert (Hi : email_inv s) 
    by (apply final_inv; [intros op s0; apply (eff_inv _ _ (email_step_effect op s0)) | done]).
  destruct (grants_bounded (L := email_guard_laws) k ops s Hi) as [H1 H2].
  split; [exact H1|]. intros r Hr Hs. apply H2. by exists r.
Qed.

Lemma reserve_settled now i s r st :
  email_submissions s !! identity_sha256 i = Some r →
  typed_status (er_status r) = Some st →
  validate_identity i = Ok () →
  fst (reserve now i s) =
    (if binding_ok (email_submission_request_ids s !! request_id_sha256 i) i
        && bool_decide (er_payload_sha256 r = payload_sha256 i)
     then Ok (Some (match st with
                    | EmAccepted =>
                        Submission (request_ref i) st (er_vendor_receipt_ref r)
                          (er_delivery_confirmed r)
                    | _ => Submission (request_ref i) st None false
                    end))
     else Err ReplayConflict).
Proof.
  intros Hr Ht Hv. unfold reserve. rewrite Hv. unfold transact, reserve_txn. rewrite Hr.
  destruct (binding_ok _ i); cbn [andb require mbind result_bind]; [|done].
  case_bool_decide; cbn [require mbind result_bind]; [|done].
  by revert Ht; destruct (er_status r); intros [= <-].
Qed.

(** A settled submission is final.  Once a row is ACCEPTED or REJECTED,
    no sequence of operations changes it (status, payload and evidence), and
    every later reservation of the identity answers with that outcome and
    never with a grant, unless its payload digest or its request id's binding
    differs, which is a [ReplayConflict]. *)
Lemma email_outcome_final (s : email_ledger) (ops : list email_op) (now : pystr)
    (i : ReplayIdentity) (r : submission_row) (st : email_status) :
  let s' := final email_step ops s in
  email_submissions s !! identity_sha256 i = Some r →
  typed_status (er_status r) = Some st → st ≠ EmUnknown →
  validate_identity i = Ok () →
  email_submissions s' !! identity_sha256 i = Some r
  ∧ fst (reserve now i s') =
      (if binding_ok (email_submission_request_ids s' !! request_id_sha256 i) i
          && bool_decide (er_payload_sha256 r = payload_sha256 i)
       then Ok (Some (Submission (request_ref i) st
                        (match st with EmAccepted => er_vendor_receipt_ref r | _ => None end)
                        (match st with EmAccepted => er_delivery_confirmed r | _ => false end)))
       else Err ReplayConflict).
Proof.
  intros s' Hr Ht Hst Hv.
  assert (Hr' : email_submissions s' !! identity_sha256 i = Some r).
  { unfold s'.
    apply (final_inv email_step (λ s, email_submissions s !! identity_sha256 i = Some r)); [|done].
    intros op s0 H0. assert (Hm := eff_rows _ _ (email_step_effect op s0) (identity_sha256 i)).
    rewrite H0 in Hm. inversion Hm as [| |? r1 ? ? Hmv]; subst; [congruence|].
    by revert Ht Hmv; destruct (er_status r); intros [= <-]. }
  split; [done|]. rewrite (reserve_settled now i s' r st Hr' Ht Hv). by destruct st.
Qed.
