(* ===== verification/CloudLedger.v ===== *)
(** * Cloud management provider: the write ledger

    [RequestLedger] of [cloud_management_provider/ledger.py]: the table
    [cloud_write_requests] and the transactions on it.  The clock readings and
    the size of the database files are arguments, [str.casefold] is a
    parameter.  [begin] runs two transactions, the compaction and the
    reservation, so each is a step of the machine. *)

From Stdlib Require Import ZArith NArith.
From S2P Require Import Prelude PyFloat PyText Json ReplayGuard.

#[local] Open Scope Z_scope.

Definition RESPONSE_RESERVATION_BYTES : Z := 65536.
Definition INSERT_RESERVATION_BYTES : Z := 16384.
Definition MIN_DATABASE_BYTES : Z := 65536.

Record ledger_config := LedgerConfig {
  max_rows : Z;
  max_bytes : Z;
  terminal_retention_seconds : Z
}.

(** [RequestLedger.__init__]'s check of the limits. *)
Definition config_ok (c : ledger_config) : bool :=
  negb ((max_rows c <? 1) || (max_bytes c <? MIN_DATABASE_BYTES)
        || (terminal_retention_seconds c <? 1)).

Record write_request := WriteRequest {
  wr_payload_sha256 : pystr;
  wr_operation_ref : pystr;
  wr_response_json : option pystr;
  wr_terminal : Z;
  wr_completed_at : option pyfloat
}.

(** [cloud_write_requests], by its primary key. *)
Abbreviation cloud_ledger := (gmap pystr write_request).

Record ExistingWrite := Existing {
  ex_payload_sha256 : pystr;
  ex_operation_ref : pystr;
  ex_response : option json
}.

Inductive cloud_error := CloudReplayConflict | LedgerCapacityError | DecodeError | EncodeError
  | UnhashableState.

Abbreviation CL := (result cloud_error).

(** [json.loads(response_json) if response_json is not None else None] *)
Definition load_response (t : option pystr) : CL (option json) :=
  match t with
  | None => Ok None
  | Some t => match loads t with Some j => Ok (Some j) | None => Err DecodeError end
  end.

Definition existing_write (r : write_request) : CL ExistingWrite :=
  response ← load_response (wr_response_json r);
  Ok (Existing (wr_payload_sha256 r) (wr_operation_ref r) response).

(** Python's truth of [response.get(k)]; the literal of a [float] is its [repr]. *)
Definition json_truthy (v : option json) : bool :=
  match v with
  | None | Some JNull | Some (JBool false) => false
  | Some (JInt z) => negb (z =? 0)
  | Some (JStr s) => negb (bool_decide (s = []))
  | Some (JArr l) => match l with [] => false | _ => true end
  | Some (JObj kvs) => match kvs with [] => false | _ => true end
  | Some (JFloat t) => negb (bool_decide (t = lit "0.0") || bool_decide (t = lit "-0.0"))
  | Some (JBool true) => true
  end.

Definition is_str (v : option json) (s : string) : bool :=
  match v with Some (JStr t) => bool_decide (t = lit s) | _ => false end.

Section Ledger.
(** [str.casefold] *)
Context (casefold : pystr → pystr).
Context (cfg : ledger_config).

(** [_is_terminal_response] *)
Definition is_terminal_response (response : json) : CL bool :=
  match response with
  | JObj kvs =>
      let state := assoc (lit "state") kvs in
      if is_str state "SUCCEEDED" then
        Ok (match assoc (lit "expected_state") kvs, assoc (lit "actual_state") kvs with
            | Some (JStr expected), Some (JStr actual) =>
                negb (negb (bool_decide (casefold expected = casefold actual))
                      && negb (match assoc (lit "release_confirmed") kvs with
                               | Some (JBool true) => true
                               | _ => false
                               end))
            | Some (JStr _), _ => negb (json_truthy (assoc (lit "operation_ref") kvs))
            | _, _ => true
            end)
      else if is_str state "FAILED" then Ok true
      else
        match state with
        | Some (JArr _) | Some (JObj _) => Err UnhashableState
        | _ =>
            if is_str state "COMMAND_COMPLETED" || is_str state "COMMAND_FAILED" then
              Ok (is_str (assoc (lit "remote_state") kvs) "NOT_APPLICABLE")
            else
              Ok (match assoc (lit "error") kvs with Some (JObj _) => true | _ => false end)
        end
  | _ => Ok false
  end.

(** The rows [_compact_expired_terminals] deletes. *)
Definition expired (cutoff : pyfloat) (r : write_request) : bool :=
  (wr_terminal r =? 1)
  && negb (bool_decide (wr_response_json r = None))
  && match wr_completed_at r with Some t => fle t cutoff | None => false end.

Definition cutoff (now : pyfloat) : pyfloat :=
  fsub now (f_of_Z (terminal_retention_seconds cfg)).

Definition compact_expired_terminals (now : pyfloat) (s : cloud_ledger) : cloud_ledger :=
  filter (λ kv, expired (cutoff now) kv.2 = false) s.

Definition row_count (s : cloud_ledger) : Z := Z.of_nat (size s).
Definition pending_count (s : cloud_ledger) : Z :=
  Z.of_nat (size (filter (λ kv, wr_response_json kv.2 = None) s)).

(** The second transaction of [begin]; [None] lets the caller dispatch. *)
Definition begin_txn (database_bytes : Z) (request_id payload_sha256 operation_ref : pystr)
  : txn cloud_ledger cloud_error (option ExistingWrite) := λ s,
  match s !! request_id with
  | Some row =>
      _ ← require (bool_decide (wr_payload_sha256 row = payload_sha256)) CloudReplayConflict;
      e ← existing_write row;
      Ok (Some e, s)
  | None =>
      let projected_bytes :=
        database_bytes + (pending_count s + 1) * RESPONSE_RESERVATION_BYTES
        + INSERT_RESERVATION_BYTES in
      _ ← require (negb ((max_rows cfg <=? row_count s) || (max_bytes cfg <? projected_bytes)))
            LedgerCapacityError;
      Ok (None, <[request_id := WriteRequest payload_sha256 operation_ref None 0 None]> s)
  end.

(** [begin], with no other caller between its transactions. *)
Definition begin_write (now : pyfloat) (database_bytes : Z)
    (request_id payload_sha256 operation_ref : pystr) (s : cloud_ledger)
  : CL (option ExistingWrite) * cloud_ledger :=
  transact (begin_txn database_bytes request_id payload_sha256 operation_ref)
    (compact_expired_terminals now s).

(** The result recorded when the response does not fit. *)
Definition tombstone (operation_ref : pystr) : json :=
  JObj [(lit "state", JStr (lit "UNKNOWN_RESULT"));
        (lit "reason_code", JStr (lit "LEDGER_RESPONSE_CAPACITY"));
        (lit "operation_ref", JStr operation_ref)].

Definition complete_fits (database_bytes : Z) (encoded : pybytes) (s : cloud_ledger) : bool :=
  negb (max_bytes cfg <? database_bytes + len encoded
          + Z.max 0 (pending_count s - 1) * RESPONSE_RESERVATION_BYTES
          + INSERT_RESERVATION_BYTES).

(** The transaction of [complete]. *)
Definition complete_txn (now : pyfloat) (database_bytes : Z) (request_id : pystr)
    (response : json) : txn cloud_ledger cloud_error json := λ s,
  match s !! request_id with
  | None => Err LedgerCapacityError
  | Some row =>
      match wr_response_json row with
      | Some t =>
          match loads t with Some j => Ok (j, s) | None => Err DecodeError end
      | None =>
          bytes ← (match utf8_encode (dumps response) with
                   | Some b => Ok b | None => Err EncodeError end);
          let '(stored_response, encoded) :=
            if complete_fits database_bytes bytes s then (response, dumps response)
            else (tombstone (wr_operation_ref row), dumps_ascii (tombstone (wr_operation_ref row)))
          in
          terminal ← is_terminal_response stored_response;
          Ok (stored_response,
              <[request_id :=
                  {| wr_payload_sha256 := wr_payload_sha256 row;
                     wr_operation_ref := wr_operation_ref row;
                     wr_response_json := Some encoded;
                     wr_terminal := if terminal : bool then 1 else 0;
                     wr_completed_at := sql_real now |}]> s)
      end
  end.

(** [complete] *)
Definition complete_write (now : pyfloat) (database_bytes : Z) (request_id : pystr)
    (response : json) (s : cloud_ledger) : CL json * cloud_ledger :=
  transact (complete_txn now database_bytes request_id response) s.

(** [get] *)
Definition get_write (request_id : pystr) (s : cloud_ledger) : CL (option ExistingWrite) :=
  match s !! request_id with
  | None => Ok None
  | Some row => e ← existing_write row; Ok (Some e)
  end.

(** [mark_terminal] *)
Definition mark_terminal (now : pyfloat) (request_id : pystr) (s : cloud_ledger) : cloud_ledger :=
  match s !! request_id with
  | Some row =>
      if bool_decide (wr_response_json row = None) then s
      else <[request_id :=
               {| wr_payload_sha256 := wr_payload_sha256 row;
                  wr_operation_ref := wr_operation_ref row;
                  wr_response_json := wr_response_json row;
                  wr_terminal := 1; wr_completed_at := sql_real now |}]> s
  | None => s
  end.

(** ** The machine *)

Inductive cloud_op :=
  | CoCompact (now : pyfloat)
  | CoBegin (database_bytes : Z) (request_id payload_sha256 operation_ref : pystr)
  | CoComplete (now : pyfloat) (database_bytes : Z) (request_id : pystr) (response : json)
  | CoGet (request_id : pystr)
  | CoMarkTerminal (now : pyfloat) (request_id : pystr).

Inductive cloud_out :=
  | CrDone
  | CrExisting (r : CL (option ExistingWrite))
  | CrResponse (r : CL json).

Definition cloud_step (op : cloud_op) (s : cloud_ledger) : cloud_out * cloud_ledger :=
  match op with
  | CoCompact now => (CrDone, compact_expired_terminals now s)
  | CoBegin bytes rid digest ref =>
      let '(r, s) := transact (begin_txn bytes rid digest ref) s in (CrExisting r, s)
  | CoComplete now bytes rid response =>
      let '(r, s) := complete_write now bytes rid response s in (CrResponse r, s)
  | CoGet rid => (CrExisting (get_write rid s), s)
  | CoMarkTerminal now rid => (CrDone, mark_terminal now rid s)
  end.

(** A request id is held while its row exists; only the compaction of its
    expired terminal row releases it. *)
Instance cloud_guard : ReplayGuard cloud_ledger cloud_op cloud_out pystr := {
  guard_step := cloud_step;
  granted op out :=
    match op, out with
    | CoBegin _ rid _ _, CrExisting (Ok None) => Some rid
    | _, _ => None
    end;
  releases op s k :=
    match op, s !! k with
    | CoCompact now, Some r => expired (cutoff now) r
    | _, _ => false
    end;
  held s k := is_Some (s !! k)
}.

(** A terminal row has its response; the table keeps to its row limit. *)
Definition cloud_inv (s : cloud_ledger) : Prop :=
  (∀ k r, s !! k = Some r → wr_terminal r = 1 → wr_response_json r ≠ None)
  ∧ (config_ok cfg = true → row_count s ≤ max_rows cfg).
End Ledger.

(** ** What one operation does to a row *)

Section Facts.
Context (casefold : pystr → pystr) (cfg : ledger_config).

Abbreviation step := (cloud_step casefold cfg).

(** A row keeps its digest and reference, and its response once recorded. *)
Definition row_grows (r r' : write_request) : Prop :=
  wr_payload_sha256 r' = wr_payload_sha256 r
  ∧ wr_operation_ref r' = wr_operation_ref r
  ∧ ∀ t, wr_response_json r = Some t → wr_response_json r' = Some t.

Lemma row_grows_refl r : row_grows r r.
Proof. by split_and!. Qed.

Lemma row_grows_trans r1 r2 r3 : row_grows r1 r2 → row_grows r2 r3 → row_grows r1 r3.
Proof. unfold row_grows. intros (? & ? & ?) (? & ? & ?). split_and!; [congruence..|auto]. Qed.

(** The change of one operation: an insertion of a pending row, an update
    of one row, the deletion of expired rows, or nothing. *)
Inductive cloud_change (op : cloud_op) (s : cloud_ledger) : cloud_ledger → Prop :=
  | change_none : cloud_change op s s
  | change_compact now :
      op = CoCompact now → cloud_change op s (compact_expired_terminals cfg now s)
  | change_begin bytes rid digest ref :
      op = CoBegin bytes rid digest ref → s !! rid = None → row_count s < max_rows cfg →
      cloud_change op s (<[rid := WriteRequest digest ref None 0 None]> s)
  | change_complete now bytes rid response r r' :
      op = CoComplete now bytes rid response →
      s !! rid = Some r → wr_response_json r = None → wr_response_json r' ≠ None →
      row_grows r r' → cloud_change op s (<[rid := r']> s)
  | change_mark now rid r r' :
      op = CoMarkTerminal now rid → s !! rid = Some r →
      wr_response_json r ≠ None → wr_response_json r' = wr_response_json r →
      row_grows r r' → cloud_change op s (<[rid := r']> s).

Lemma begin_txn_cases bytes rid digest ref s o s' :
  begin_txn cfg bytes rid digest ref s = Ok (o, s') →
  (∃ e, o = Some e ∧ s' = s ∧ is_Some (s !! rid))
  ∨ o = None ∧ s !! rid = None ∧ row_count s < max_rows cfg
    ∧ s' = <[rid := WriteRequest digest ref None 0 None]> s.
Proof.
  unfold begin_txn. destruct (s !! rid) as [row|] eqn:Hr; intros H; inv_result.
  - left. eauto.
  - right. bools. split_and!; [done..| lia | done].
Qed.

Lemma complete_txn_cases now bytes rid response s j s' :
  complete_txn casefold cfg now bytes rid response s = Ok (j, s') →
  ∃ r, s !! rid = Some r ∧
  ((∃ t, wr_response_json r = Some t ∧ loads t = Some j ∧ s' = s)
   ∨ wr_response_json r = None
     ∧ ∃ text terminal,
         (j = response ∧ text = dumps response
          ∨ j = tombstone (wr_operation_ref r) ∧ text = dumps_ascii j)
         ∧ is_terminal_response casefold j = Ok terminal
         ∧ s' = <[rid := WriteRequest (wr_payload_sha256 r) (wr_operation_ref r) (Some text)
                            (if terminal : bool then 1 else 0) (sql_real now)]> s).
Proof.
  unfold complete_txn. destruct (s !! rid) as [row|] eqn:Hr; intros H; [|done].
  exists row. split; [done|]. destruct (wr_response_json row) as [t|].
  - left. destruct (loads t) eqn:Hl; inv_result. eauto.
  - right. split; [done|]. inv_result.
    destruct (complete_fits _ _ _ _); inv_result; eexists _, _; split_and!; eauto.
Qed.

Lemma cloud_step_change op s : cloud_change op s (snd (step op s)).
Proof.
  destruct op as [now|bytes rid digest ref|now bytes rid response|rid|now rid]; cbn [cloud_step].
  - by eapply change_compact.
  - unfold transact. destruct (begin_txn cfg bytes rid digest ref s) as [[o s']|] eqn:H;
      cbn; [|constructor].
    apply begin_txn_cases in H as [(e & -> & -> & _)|(-> & Hn & Hc & ->)]; [constructor|].
    by eapply change_begin.
  - unfold complete_write, transact.
    destruct (complete_txn casefold cfg now bytes rid response s) as [[j s']|] eqn:H;
      cbn; [|constructor].
    apply complete_txn_cases in H as (r & Hr & [(t & _ & _ & ->)|(Hn & text & term & _ & _ & ->)]);
      [constructor|].
    eapply change_complete; [done..|]. split_and!; [done..|]. congruence.
  - constructor.
  - unfold mark_terminal. destruct (s !! rid) as [r|] eqn:Hr; [|constructor].
    case_bool_decide as Hn; [constructor|]. by eapply change_mark.
Qed.

Lemma lookup_compact now s k :
  compact_expired_terminals cfg now s !! k =
  (r ← s !! k; if expired (cutoff cfg now) r then None else Some r).
Proof.
  unfold compact_expired_terminals. rewrite map_lookup_filter.
  destruct (s !! k) as [r|]; cbn; [|done]. destruct (expired (cutoff cfg now) r); by cbn.
Qed.

Lemma cloud_row_kept op s k r :
  s !! k = Some r → releases (ReplayGuard := cloud_guard casefold cfg) op s k = false →
  ∃ r', snd (step op s) !! k = Some r' ∧ row_grows r r'.
Proof.
  intros Hr Hrel. assert (Hput : ∀ rid r0 r', s !! rid = Some r0 → row_grows r0 r' →
    ∃ r'', <[rid := r']> s !! k = Some r'' ∧ row_grows r r'').
  { intros rid r0 r' H0 Hg. destruct (decide (rid = k)) as [->|Hne].
    - rewrite lookup_insert_eq. exists r'. by simplify_eq.
    - rewrite lookup_insert_ne by done. eauto using row_grows_refl. }
  destruct (cloud_step_change op s) as [|now ->|bytes rid digest ref -> Hn _
    |now bytes rid resp r0 r' -> H0 _ _ Hg|now rid r0 r' -> H0 _ _ Hg].
  - eauto using row_grows_refl.
  - cbn in Hrel. rewrite Hr in Hrel. rewrite lookup_compact, Hr. cbn. rewrite Hrel.
    eauto using row_grows_refl.
  - rewrite lookup_insert_ne by congruence. eauto using row_grows_refl.
  - eauto.
  - eauto.
Qed.

Lemma row_count_insert s k r r0 :
  s !! k = Some r0 → row_count (<[k := r]> s) = row_count s.
Proof. intros H. unfold row_count. by rewrite map_size_insert_Some by done. Qed.

Lemma row_count_compact now s : row_count (compact_expired_terminals cfg now s) ≤ row_count s.
Proof.
  unfold row_count, compact_expired_terminals. apply Nat2Z.inj_le, map_subseteq_size,
    map_filter_subseteq.
Qed.

Lemma cloud_step_inv op s : cloud_inv cfg s → cloud_inv cfg (snd (step op s)).
Proof.
  intros [Ht Hc]. destruct (cloud_step_change op s) as [|now ->
    |bytes rid digest ref -> Hn Hlt|now bytes rid resp r0 r' -> H0 Hn Hs Hg
    |now rid r0 r' -> H0 Hn Hs Hg]; split; try done.
  - intros k r. rewrite lookup_compact. destruct (s !! k) as [r1|] eqn:Hk; cbn; [|done].
    case_match; [done|]. intros [= <-]. by apply (Ht k).
  - intros Hok. pose proof (row_count_compact now s). specialize (Hc Hok). lia.
  - intros k r [[<- <-]|[_ Hk]]%lookup_insert_Some; [done | by apply (Ht k)].
  - intros _. unfold row_count in *. rewrite map_size_insert_None by done. lia.
  - intros k r [[<- <-]|[_ Hk]]%lookup_insert_Some; [done | by apply (Ht k)].
  - intros Hok. rewrite (row_count_insert s rid r' r0) by done. auto.
  - intros k r [[<- <-]|[_ Hk]]%lookup_insert_Some; [congruence | by apply (Ht k)].
  - intros Hok. rewrite (row_count_insert s rid r' r0) by done. auto.
Qed.

Lemma cloud_inv_empty : cloud_inv cfg ∅.
Proof.
  split; [intros k r; by rewrite lookup_empty|]. unfold config_ok, row_count.
  rewrite map_size_empty. intros H%negb_true_iff. bools. lia.
Qed.

Lemma cloud_granted op s k :
  granted (ReplayGuard := cloud_guard casefold cfg) op (fst (step op s)) = Some k →
  s !! k = None ∧ is_Some (snd (step op s) !! k).
Proof.
  destruct op as [now|bytes rid digest ref|now bytes rid resp|rid|now rid]; cbn; try done.
  unfold transact. destruct (begin_txn cfg bytes rid digest ref s) as [[o s']|] eqn:H; cbn;
    [|done].
  apply begin_txn_cases in H as [(e & -> & _)|(-> & Hn & _ & ->)]; [done|].
  intros [= <-]. by rewrite lookup_insert_eq.
Qed.

Lemma cloud_guard_laws : ReplayGuardLaws (cloud_guard casefold cfg) (cloud_inv cfg).
Proof.
  split.
  - apply cloud_step_inv.
  - intros op s k _ [_ H]%cloud_granted. exact H.
  - intros op s k _ [r Hr] Hrel.
    destruct (cloud_row_kept op s k r Hr Hrel) as (r' & Hr' & _). by exists r'.
  - intros op s k _ [r Hr] _ [Hn _]%cloud_granted. cbn in Hr. congruence.
Qed.

(** ** A recorded receipt stays *)

Lemma run_kept (k : pystr) (ops : list cloud_op) (s : cloud_ledger) (r : write_request) :
  s !! k = Some r → release_count (G := cloud_guard casefold cfg) k ops s = 0%nat →
  ∃ r', final step ops s !! k = Some r' ∧ row_grows r r'.
Proof.
  revert s r. induction ops as [|op ops IH]; intros s r Hr Hc;
    [eauto using row_grows_refl|]. cbn [release_count] in Hc.
  destruct (releases op s k) eqn:Hrel; [done|]. rewrite final_cons.
  destruct (cloud_row_kept op s k r Hr Hrel) as (r1 & Hr1 & Hg1).
  destruct (IH _ r1 Hr1 Hc) as (r2 & Hr2 & Hg2). eauto using row_grows_trans.
Qed.

(** A row with a response that is not terminal is kept as it is. *)
Definition protected (k : pystr) (s : cloud_ledger) : Prop :=
  ∃ r, s !! k = Some r ∧ wr_terminal r = 0 ∧ wr_response_json r ≠ None.

Lemma step_protected k op s :
  (∀ now, op ≠ CoMarkTerminal now k) → protected k s →
  releases (ReplayGuard := cloud_guard casefold cfg) op s k = false
  ∧ protected k (snd (step op s)).
Proof.
  intros Hop (r & Hr & Ht & Hn).
  assert (Hexp : ∀ c, expired c r = false) by (intros c; unfold expired; by rewrite Ht).
  split.
  - destruct op; cbn; try done. rewrite Hr. apply Hexp.
  - destruct (cloud_step_change op s) as [|now ->|bytes rid digest ref -> Hk _
      |now bytes rid resp r0 r' -> H0 Hp _ _|now rid r0 r' -> H0 _ _ _].
    + by exists r.
    + exists r. by rewrite lookup_compact, Hr; cbn; rewrite Hexp.
    + exists r. by rewrite lookup_insert_ne by congruence.
    + exists r. by rewrite lookup_insert_ne by congruence.
    + assert (rid ≠ k) by (intros ->; by apply (Hop now)).
      exists r. by rewrite lookup_insert_ne.
Qed.

Lemma run_protected k ops s :
  (∀ now, CoMarkTerminal now k ∉ ops) → protected k s →
  release_count (G := cloud_guard casefold cfg) k ops s = 0%nat.
Proof.
  revert s. induction ops as [|op ops IH]; intros s Hops Hp; [done|].
  destruct (step_protected k op s) as [Hrel Hp']; [|done|].
  { intros now ->. by apply (Hops now), list_elem_of_here. }
  cbn [release_count]. rewrite Hrel. apply IH; [|done].
  intros now Hin. by apply (Hops now), list_elem_of_further.
Qed.

(** What a recorded response text reads back as. *)
Lemma loads_tombstone ref :
  forallb scalar ref = true → loads (dumps_ascii (tombstone ref)) = Some (tombstone ref).
Proof.
  intros Href.
  apply loads_dumps_ascii_plain; [done | | by repeat constructor].
  by apply (bool_decide_unpack _); vm_compute.
Qed.

(** A row that holds the response [j] answers every replay with it. *)
Lemma receipt_replayed k s r t j :
  s !! k = Some r → wr_response_json r = Some t → loads t = Some j →
  let e := Existing (wr_payload_sha256 r) (wr_operation_ref r) (Some j) in
  get_write k s = Ok (Some e)
  ∧ (∀ bytes digest ref,
       transact (begin_txn cfg bytes k digest ref) s =
       (if bool_decide (wr_payload_sha256 r = digest) then Ok (Some e)
        else Err CloudReplayConflict, s))
  ∧ (∀ now bytes response,
       complete_write casefold cfg now bytes k response s = (Ok j, s)).
Proof.
  intros Hr Ht Hj e. subst e.
  unfold get_write, transact, begin_txn, complete_write, transact, complete_txn, existing_write,
    load_response. rewrite Hr, Ht, Hj. split_and!; [done| |done].
  intros bytes digest ref. cbn [mbind result_bind]. by case_bool_decide.
Qed.

(** C14. One dispatch per signed request id.  Along any interleaving of
    compactions, reservations, completions and reconciliations of any
    number of callers, the [begin] calls that let a caller dispatch a request
    id exceed by at most one the compactions that purged its expired terminal
    receipt (by none once the row exists), and the table never has more than
    [max_rows] rows. *)
Theorem cloud_dispatch_bounded (before ops : list cloud_op) (k : pystr) :
  let s := final step before ∅ in
  let G := cloud_guard casefold cfg in
  (grants (G := G) k ops s <= 1 + release_count (G := G) k ops s)%nat
  ∧ (s !! k ≠ None → (grants (G := G) k ops s <= release_count (G := G) k ops s)%nat)
  ∧ (config_ok cfg = true → row_count s ≤ max_rows cfg).
Proof.
  intros s G.
  assert (Hi : cloud_inv cfg s)
    by (apply final_inv; [apply cloud_step_inv | apply cloud_inv_empty]).
  destruct (grants_bounded (L := cloud_guard_laws) k ops s Hi) as [H1 H2].
  split; [exact H1|]. split; [|by apply Hi]. intros Hs. apply H2.
  by apply not_eq_None_Some.
Qed.

(** A completed write keeps its receipt.  When [complete] records the
    result of a pending write, what it returns is the provider's response or,
    when that does not fit the storage, the UNKNOWN_RESULT tombstone of the
    row's operation reference.  From then on, through any operations that do
    not purge the row, [get] and every [begin] with the same digest return
    exactly that result, a [begin] with another digest conflicts, and a second
    [complete] returns the first result; and a result that is not terminal is
    never purged as long as nobody marks it terminal. *)
Lemma cloud_receipt_durable (s s1 : cloud_ledger) (ops : list cloud_op) (now : pyfloat)
    (bytes : Z) (rid : pystr) (response stored : json) (r : write_request) :
  s !! rid = Some r → wr_response_json r = None →
  json_ok response = true → forallb scalar (wr_operation_ref r) = true →
  complete_write casefold cfg now bytes rid response s = (Ok stored, s1) →
  let s2 := final step ops s1 in
  let e := Existing (wr_payload_sha256 r) (wr_operation_ref r) (Some stored) in
  let purges := release_count (G := cloud_guard casefold cfg) rid ops s1 in
  (stored = response ∨ stored = tombstone (wr_operation_ref r))
  ∧ (purges = 0%nat →
       get_write rid s2 = Ok (Some e)
       ∧ (∀ bytes' digest ref,
            transact (begin_txn cfg bytes' rid digest ref) s2 =
            (if bool_decide (wr_payload_sha256 r = digest) then Ok (Some e)
             else Err CloudReplayConflict, s2))
       ∧ (∀ now' bytes' response',
            complete_write casefold cfg now' bytes' rid response' s2 = (Ok stored, s2)))
  ∧ (is_terminal_response casefold stored = Ok false →
       (∀ now', CoMarkTerminal now' rid ∉ ops) → purges = 0%nat).
Proof.
  intros Hr Hn Hjs Href Hc s2 e purges.
  apply transact_ok, complete_txn_cases in Hc as (r0 & Hr0 & Hcase). simplify_eq.
  destruct Hcase as [(t & Ht & _)|(_ & text & term & Hst & Hterm & ->)]; [congruence|].
  assert (Hload : loads text = Some stored).
  { destruct Hst as [[-> ->]|[-> ->]]; [by apply loads_dumps | by apply loads_tombstone]. }
  set (r1 := WriteRequest _ _ _ _ _) in *. set (s1 := <[rid := r1]> s) in *.
  assert (Hr1 : s1 !! rid = Some r1) by (unfold s1; apply lookup_insert_eq).
  split; [naive_solver|]. split.
  - intros Hp. destruct (run_kept rid ops s1 r1 Hr1 Hp) as (r2 & Hr2 & H1 & H2 & H3).
    unfold e. rewrite <- (H1 : _ = wr_payload_sha256 r), <- (H2 : _ = wr_operation_ref r).
    apply (receipt_replayed rid s2 r2 text stored Hr2 (H3 text eq_refl) Hload).
  - intros Hf Hops. apply run_protected; [done|]. exists r1. split_and!; [done| |done].
    rewrite Hf in Hterm. by injection Hterm as <-.
Qed.
End Facts.
