(* ===== verification/BilibiliReceipts.v ===== *)
(** * Bilibili connector: login flows and write receipts

    [ReceiptStore] of [cyrene_bilibili/receipts.py]: the actor namespace
    [scope_key], the table [login_flows] (a list of rows) and the table
    [write_receipts] (by its primary key), with the methods on them.  Clock
    readings ([int(time.time())]) are arguments. *)

From Stdlib Require Import ZArith NArith.
From S2P Require Import Prelude PyText Json Sha256 ReplayGuard.

#[local] Open Scope Z_scope.

Inductive receipt_error := ReceiptStoreError | InvalidStatus | IntegrityError | JsonDecodeError
  | UnicodeError.

Abbreviation R := (result receipt_error).

(** ** Actor namespaces *)

(** A claim of the verified actor: absent, a string, or another value. *)
Definition scope_field (actor : list (pystr * json)) (name : string) : R (option pystr) :=
  match assoc (lit name) actor with
  | None | Some JNull => Ok None
  | Some (JStr s) => Ok (Some s)
  | Some _ => Err ReceiptStoreError
  end.

Definition scope_names : list string :=
  ["issuer"; "subject"; "organization_id"; "workspace_id"; "binding_id"]%string.

Definition present (f : option pystr) : bool :=
  match f with Some (_ :: _) => true | _ => false end.

(** The text that is signed: the fields separated by NUL. *)
Definition scope_payload (fields : list (option pystr)) : pystr :=
  join [0%N] (map (default []) fields).

Definition py_encode (s : pystr) : R pybytes :=
  match utf8_encode s with Some b => Ok b | None => Err UnicodeError end.

(** [scope_key] *)
Definition scope_key (hmac_key : pybytes) (actor : list (pystr * json)) : R pystr :=
  fields ← mapR (scope_field actor) scope_names;
  _ ← require (forallb present (take 3 fields)) ReceiptStoreError;
  payload ← py_encode (scope_payload fields);
  Ok (hexdigest (hmac_sha256 hmac_key payload)).

(** ** Data *)

Record LoginFlow := Flow {
  login_flow_id : pystr;
  fl_scope_key : pystr;
  profile_ref : pystr;
  link_session_ref : pystr;
  qrcode_key : pystr;
  qr_png_base64 : pystr;
  qr_png_sha256 : pystr;
  qr_cookies_json : pystr;
  expires_at : Z;
  fl_status : pystr;
  idempotency_key : pystr
}.

(** A row of [login_flows]. *)
Record flow_row := FlowRow {
  fr_flow : LoginFlow;
  fr_created_at : Z;
  fr_updated_at : option Z;
  fr_profile_json : option pystr
}.

Inductive write_status := IN_PROGRESS | SUCCEEDED | UNKNOWN_RESULT | REJECTED.

#[export] Instance write_status_eq_dec : EqDecision write_status.
Proof. solve_decision. Defined.

(** A row of [write_receipts]. *)
Record receipt_row := ReceiptRow {
  rr_profile_ref : pystr;
  rr_tool_id : pystr;
  rr_arguments_sha256 : pystr;
  rr_receipt_id : pystr;
  rr_status : write_status;
  rr_receipt_json : option pystr;
  rr_created_at : Z;
  rr_updated_at : Z
}.

Record receipt_store := Store {
  login_flows : list flow_row;
  write_receipts : gmap (pystr * pystr) receipt_row
}.

(** ** Login flows *)

Definition owns (scope flow_id : pystr) (r : flow_row) : bool :=
  bool_decide (login_flow_id (fr_flow r) = flow_id)
  && bool_decide (fl_scope_key (fr_flow r) = scope).

Definition same_begin (scope key : pystr) (r : flow_row) : bool :=
  bool_decide (fl_scope_key (fr_flow r) = scope)
  && bool_decide (idempotency_key (fr_flow r) = key).

(** [begin_flow]; [flow] holds the arguments, its status the literal PENDING. *)
Definition begin_flow_txn (now : Z) (flow : LoginFlow)
  : txn receipt_store receipt_error LoginFlow := λ s,
  match fetchone (same_begin (fl_scope_key flow) (idempotency_key flow)) (login_flows s) with
  | Some row =>
      _ ← require (bool_decide (profile_ref (fr_flow row) = profile_ref flow)) ReceiptStoreError;
      Ok (fr_flow row, s)
  | None =>
      _ ← require (negb (existsb (λ r, bool_decide (login_flow_id (fr_flow r) = login_flow_id flow))
                           (login_flows s))) IntegrityError;
      let stored :=
        Flow (login_flow_id flow) (fl_scope_key flow) (profile_ref flow) (link_session_ref flow)
          (qrcode_key flow) (qr_png_base64 flow) (qr_png_sha256 flow) (qr_cookies_json flow)
          (expires_at flow) (lit "PENDING") (idempotency_key flow) in
      Ok (stored, Store (login_flows s ++ [FlowRow stored now None None]) (write_receipts s))
  end.

Definition begin_flow (now : Z) (flow : LoginFlow) (s : receipt_store)
  : R LoginFlow * receipt_store := transact (begin_flow_txn now flow) s.

(** [get_flow] *)
Definition get_flow (scope flow_id : pystr) (s : receipt_store) : option LoginFlow :=
  fr_flow <$> fetchone (owns scope flow_id) (login_flows s).

Definition set_flow_status (status : pystr) (f : LoginFlow) : LoginFlow :=
  Flow (login_flow_id f) (fl_scope_key f) (profile_ref f) (link_session_ref f) (qrcode_key f)
    (qr_png_base64 f) (qr_png_sha256 f) (qr_cookies_json f) (expires_at f) status
    (idempotency_key f).

Definition flow_statuses : list pystr :=
  map lit ["PENDING"; "LINKED"; "EXPIRED"; "FAILED"; "UNKNOWN_RESULT"]%string.

(** [mark_flow] *)
Definition mark_flow (now : Z) (scope flow_id status : pystr) (s : receipt_store)
  : R () * receipt_store :=
  if bool_decide (status ∈ flow_statuses) then
    (Ok (), Store (update_where (owns scope flow_id)
                     (λ r, FlowRow (set_flow_status status (fr_flow r)) (fr_created_at r)
                             (Some now) (fr_profile_json r)) (login_flows s))
              (write_receipts s))
  else (Err InvalidStatus, s).

(** [json.dumps(dict(value), ...)] under a byte limit. *)
Definition encode_limited (limit : Z) (value : list (pystr * json)) : R pystr :=
  let encoded := dumps (JObj value) in
  bytes ← py_encode encoded;
  _ ← require (negb (limit <? len bytes)) ReceiptStoreError;
  Ok encoded.

(** [complete_flow] *)
Definition complete_flow (now : Z) (scope flow_id : pystr) (profile : list (pystr * json))
    (s : receipt_store) : R () * receipt_store :=
  match encode_limited 16384 profile with
  | Err e => (Err e, s)
  | Ok encoded =>
      (Ok (), Store (update_where (owns scope flow_id)
                       (λ r, FlowRow (set_flow_status (lit "LINKED") (fr_flow r)) (fr_created_at r)
                               (Some now) (Some encoded)) (login_flows s))
                (write_receipts s))
  end.

(** [_parse_json] *)
Definition parse_json (value : pystr) : R (list (pystr * json)) :=
  match loads value with
  | Some (JObj kvs) => Ok kvs
  | Some _ => Err ReceiptStoreError
  | None => Err JsonDecodeError
  end.

(** [get_linked_profile] *)
Definition get_linked_profile (scope flow_id : pystr) (s : receipt_store)
  : R (option (list (pystr * json))) :=
  match fetchone (λ r, owns scope flow_id r
                       && bool_decide (fl_status (fr_flow r) = lit "LINKED")) (login_flows s) with
  | Some r =>
      match fr_profile_json r with
      | Some text => kvs ← parse_json text; Ok (Some kvs)
      | None => Ok None
      end
  | None => Ok None
  end.

(** The expired flows [_initialize] deletes. *)
Definition purge_flows (now : Z) (s : receipt_store) : receipt_store :=
  Store (delete_where (λ r, expires_at (fr_flow r) <? now - 86400) (login_flows s))
    (write_receipts s).

(** ** Write receipts *)

Definition unknown_receipt (receipt_id : pystr) (error_code : string) : list (pystr * json) :=
  [(lit "status", JStr (lit "UNKNOWN_RESULT")); (lit "receipt_id", JStr receipt_id);
   (lit "error_code", JStr (lit error_code))].

(** What [start_write] answers: [("NEW", None)], or a prior outcome. *)
Inductive start_answer :=
  | New
  | Prior (status : write_status) (value : option (list (pystr * json))).

Definition set_receipt (status : write_status) (text : pystr) (now : Z) (r : receipt_row)
  : receipt_row :=
  ReceiptRow (rr_profile_ref r) (rr_tool_id r) (rr_arguments_sha256 r) (rr_receipt_id r)
    status (Some text) (rr_created_at r) now.

Definition same_operation (profile tool digest : pystr) (r : receipt_row) : bool :=
  bool_decide (rr_profile_ref r = profile) && bool_decide (rr_tool_id r = tool)
  && bool_decide (rr_arguments_sha256 r = digest).

Definition start_write_txn (now : Z) (scope key profile tool digest receipt_id : pystr)
  : txn receipt_store receipt_error start_answer := λ s,
  match write_receipts s !! (scope, key) with
  | Some row =>
      _ ← require (same_operation profile tool digest row) ReceiptStoreError;
      match rr_status row with
      | IN_PROGRESS =>
          if 60 <? now - rr_updated_at row then
            let value := unknown_receipt (rr_receipt_id row) "UNKNOWN_RESULT" in
            Ok (Prior UNKNOWN_RESULT (Some value),
                Store (login_flows s)
                  (<[(scope, key) := set_receipt UNKNOWN_RESULT (dumps_ascii (JObj value)) now row]>
                     (write_receipts s)))
          else Ok (Prior UNKNOWN_RESULT (Some (unknown_receipt (rr_receipt_id row) "IN_PROGRESS")), s)
      | status =>
          match rr_receipt_json row with
          | None => Ok (Prior status None, s)
          | Some text => kvs ← parse_json text; Ok (Prior status (Some kvs), s)
          end
      end
  | None =>
      Ok (New, Store (login_flows s)
                 (<[(scope, key) :=
                      ReceiptRow profile tool digest receipt_id IN_PROGRESS None now now]>
                    (write_receipts s)))
  end.

(** [start_write] *)
Definition start_write (now : Z) (scope key profile tool digest receipt_id : pystr)
    (s : receipt_store) : R start_answer * receipt_store :=
  transact (start_write_txn now scope key profile tool digest receipt_id) s.

(** The row [finish_write] and [cancel_write_claim] address. *)
Definition claimed_by (receipt_id : pystr) (r : receipt_row) : bool :=
  bool_decide (rr_receipt_id r = receipt_id) && bool_decide (rr_status r = IN_PROGRESS).

Definition claim (scope key receipt_id : pystr) (s : receipt_store) : option receipt_row :=
  r ← write_receipts s !! (scope, key); if claimed_by receipt_id r then Some r else None.

(** [finish_write] *)
Definition finish_write (now : Z) (scope key receipt_id : pystr) (status : write_status)
    (value : list (pystr * json)) (s : receipt_store) : R () * receipt_store :=
  match
    (_ ← require (negb (bool_decide (status = IN_PROGRESS))) InvalidStatus;
     encode_limited 65536 value)
  with
  | Err e => (Err e, s)
  | Ok encoded =>
      match claim scope key receipt_id s with
      | Some r =>
          (Ok (), Store (login_flows s)
                    (<[(scope, key) := set_receipt status encoded now r]> (write_receipts s)))
      | None => (Err ReceiptStoreError, s)
      end
  end.

(** [cancel_write_claim] *)
Definition cancel_write_claim (scope key receipt_id : pystr) (s : receipt_store) : receipt_store :=
  match claim scope key receipt_id s with
  | Some _ => Store (login_flows s) (delete (scope, key) (write_receipts s))
  | None => s
  end.

(** ** The machine *)

Inductive bili_op :=
  | BoBeginFlow (now : Z) (flow : LoginFlow)
  | BoMarkFlow (now : Z) (scope flow_id status : pystr)
  | BoCompleteFlow (now : Z) (scope flow_id : pystr) (profile : list (pystr * json))
  | BoStartWrite (now : Z) (scope key profile tool digest receipt_id : pystr)
  | BoFinishWrite (now : Z) (scope key receipt_id : pystr) (status : write_status)
      (value : list (pystr * json))
  | BoCancelWrite (scope key receipt_id : pystr)
  | BoRestart (now : Z).

Inductive bili_out :=
  | BrFlow (r : R LoginFlow)
  | BrUnit (r : R ())
  | BrStart (r : R start_answer).

Definition bili_step (op : bili_op) (s : receipt_store) : bili_out * receipt_store :=
  match op with
  | BoBeginFlow now flow => let '(r, s) := begin_flow now flow s in (BrFlow r, s)
  | BoMarkFlow now scope id st => let '(r, s) := mark_flow now scope id st s in (BrUnit r, s)
  | BoCompleteFlow now scope id p =>
      let '(r, s) := complete_flow now scope id p s in (BrUnit r, s)
  | BoStartWrite now scope key profile tool digest rid =>
      let '(r, s) := start_write now scope key profile tool digest rid s in (BrStart r, s)
  | BoFinishWrite now scope key rid st v =>
      let '(r, s) := finish_write now scope key rid st v s in (BrUnit r, s)
  | BoCancelWrite scope key rid => (BrUnit (Ok ()), cancel_write_claim scope key rid s)
  | BoRestart now => (BrUnit (Ok ()), purge_flows now s)
  end.

Definition empty_store : receipt_store := Store [] ∅.

(** The scope an operation acts for; [None] for the start-up purge. *)
Definition op_scope (op : bili_op) : option pystr :=
  match op with
  | BoBeginFlow _ flow => Some (fl_scope_key flow)
  | BoMarkFlow _ scope _ _ | BoCompleteFlow _ scope _ _ | BoStartWrite _ scope _ _ _ _ _
  | BoFinishWrite _ scope _ _ _ _ | BoCancelWrite scope _ _ => Some scope
  | BoRestart _ => None
  end.

(** An idempotency key is held while its receipt exists; cancelling the claim
    of a receipt still IN_PROGRESS releases it. *)
#[export] Instance bili_guard : ReplayGuard receipt_store bili_op bili_out (pystr * pystr) := {
  guard_step := bili_step;
  granted op out :=
    match op, out with
    | BoStartWrite _ scope key _ _ _ _, BrStart (Ok New) => Some (scope, key)
    | _, _ => None
    end;
  releases op s k :=
    match op with
    | BoCancelWrite scope key rid =>
        bool_decide ((scope, key) = k)
        && match claim scope key rid s with Some _ => true | None => false end
    | _ => false
    end;
  held s k := is_Some (write_receipts s !! k)
}.

(** ** What one operation does to the receipts *)

(** A receipt keeps the operation it was made for; once settled it does not
    change at all. *)
Definition receipt_grows (r r' : receipt_row) : Prop :=
  rr_profile_ref r' = rr_profile_ref r ∧ rr_tool_id r' = rr_tool_id r
  ∧ rr_arguments_sha256 r' = rr_arguments_sha256 r ∧ rr_receipt_id r' = rr_receipt_id r
  ∧ (rr_status r ≠ IN_PROGRESS → r' = r).

Inductive receipts_change (op : bili_op) (s s' : receipt_store) : Prop :=
  | rc_none : write_receipts s' = write_receipts s → receipts_change op s s'
  | rc_new now scope key profile tool digest rid :
      op = BoStartWrite now scope key profile tool digest rid →
      write_receipts s !! (scope, key) = None →
      write_receipts s' = <[(scope, key) := ReceiptRow profile tool digest rid IN_PROGRESS None now now]>
                            (write_receipts s) →
      receipts_change op s s'
  | rc_settle scope key r status text now :
      op_scope op = Some scope → (∀ i j k, op ≠ BoCancelWrite i j k) →
      write_receipts s !! (scope, key) = Some r → rr_status r = IN_PROGRESS → status ≠ IN_PROGRESS →
      write_receipts s' = <[(scope, key) := set_receipt status text now r]> (write_receipts s) →
      receipts_change op s s'
  | rc_cancel scope key rid r :
      op = BoCancelWrite scope key rid → claim scope key rid s = Some r →
      write_receipts s' = delete (scope, key) (write_receipts s) →
      receipts_change op s s'.

Lemma claim_some scope key rid s r :
  claim scope key rid s = Some r →
  write_receipts s !! (scope, key) = Some r ∧ rr_receipt_id r = rid ∧ rr_status r = IN_PROGRESS.
Proof.
  unfold claim. destruct (write_receipts s !! (scope, key)) as [r0|]; cbn; [|done].
  destruct (claimed_by rid r0) eqn:Hc; [|done]. intros [= <-]. unfold claimed_by in Hc. bools. done.
Qed.

(** The branches of [start_write]. *)
Lemma start_write_txn_cases now scope key profile tool digest rid s a s' :
  start_write_txn now scope key profile tool digest rid s = Ok (a, s') →
  (a = New ∧ write_receipts s !! (scope, key) = None
   ∧ s' = Store (login_flows s)
            (<[(scope, key) := ReceiptRow profile tool digest rid IN_PROGRESS None now now]>
               (write_receipts s)))
  ∨ ∃ r, write_receipts s !! (scope, key) = Some r ∧ same_operation profile tool digest r = true
     ∧ (∃ st v, a = Prior st v ∧ st ≠ IN_PROGRESS)
     ∧ (s' = s
        ∨ rr_status r = IN_PROGRESS ∧ ∃ text,
            s' = Store (login_flows s)
                   (<[(scope, key) := set_receipt UNKNOWN_RESULT text now r]> (write_receipts s))).
Proof.
  unfold start_write_txn. destruct (write_receipts s !! (scope, key)) as [r|] eqn:Hr; intros H.
  - right. exists r. inv_result. split; [done|]. split; [done|].
    destruct (rr_status r) eqn:Hs;
      [destruct (60 <? _); inv_result; split; eauto 6
      |destruct (rr_receipt_json r); inv_result; split; eauto 6..].
  - left. by injection H as <- <-.
Qed.

Lemma bili_step_receipts op s : receipts_change op s (snd (bili_step op s)).
Proof.
  destruct op as [now flow|now scope id st|now scope id p|now scope key profile tool digest rid
    |now scope key rid st v|scope key rid|now]; cbn [bili_step].
  - unfold begin_flow, transact. destruct (begin_flow_txn now flow s) as [[f s']|] eqn:H;
      cbn; [|by apply rc_none]. apply rc_none. unfold begin_flow_txn in H.
    destruct (fetchone _ _); inv_result; done.
  - unfold mark_flow. case_bool_decide; by apply rc_none.
  - unfold complete_flow. destruct (encode_limited _ _); by apply rc_none.
  - unfold start_write, transact.
    destruct (start_write_txn now scope key profile tool digest rid s) as [[a s']|] eqn:H;
      cbn; [|by apply rc_none].
    apply start_write_txn_cases in H as [(_ & Hn & ->)|(r & Hr & _ & _ & [->|(Hs & text & ->)])].
    + by eapply rc_new.
    + by apply rc_none.
    + by eapply (rc_settle _ _ _ scope key r UNKNOWN_RESULT text now).
  - unfold finish_write. destruct (require _ _ ≫= _) as [enc|] eqn:He; [|by apply rc_none].
    destruct (claim scope key rid s) as [r|] eqn:Hc; [|by apply rc_none].
    apply claim_some in Hc as (Hr & _ & Hs). inv_result. bools.
    by eapply (rc_settle _ _ _ scope key r st enc now).
  - unfold cancel_write_claim. destruct (claim scope key rid s) as [r|] eqn:Hc; [|by apply rc_none].
    by eapply rc_cancel.
  - by apply rc_none.
Qed.

Lemma bili_receipt_kept (op : bili_op) (s : receipt_store) (k : pystr * pystr) (r : receipt_row) :
  write_receipts s !! k = Some r → releases op s k = false →
  ∃ r', write_receipts (snd (bili_step op s)) !! k = Some r' ∧ receipt_grows r r'.
Proof.
  intros Hr Hrel.
  assert (Hsame : ∃ r', Some r = Some r' ∧ receipt_grows r r') by (exists r; by split_and!).
  destruct (bili_step_receipts op s) as [He|now scope key profile tool digest rid _ Hn He
    |scope key r0 st text now _ _ H0 Hs _ He|scope key rid r0 -> Hc He]; rewrite He.
  - by rewrite Hr.
  - rewrite lookup_insert_ne by congruence. by rewrite Hr.
  - destruct (decide ((scope, key) = k)) as [<-|Hne].
    + rewrite lookup_insert_eq. eexists; split; [done|]. by simplify_eq.
    + rewrite lookup_insert_ne by done. by rewrite Hr.
  - cbn in Hrel. rewrite Hc, andb_true_r in Hrel. apply bool_decide_eq_false in Hrel.
    rewrite lookup_delete_ne by done. by rewrite Hr.
Qed.

Lemma bili_granted op s k :
  granted op (fst (guard_step op s)) = Some k →
  write_receipts s !! k = None ∧ is_Some (write_receipts (snd (guard_step op s)) !! k).
Proof.
  destruct op as [now flow|now scope id st|now scope id p|now scope key profile tool digest rid
    |now scope key rid st v|scope key rid|now]; cbn; try done.
  unfold start_write, transact.
  destruct (start_write_txn now scope key profile tool digest rid s) as [[a s']|] eqn:H; cbn; [|done].
  apply start_write_txn_cases in H as [(-> & Hn & ->)|(r & _ & _ & (st & v & -> & _) & _)]; [|done].
  intros [= <-]. cbn. by rewrite lookup_insert_eq.
Qed.

#[export] Instance bili_guard_laws : ReplayGuardLaws bili_guard (λ _, True).
Proof.
  split.
  - done.
  - intros op s k _ [_ H]%bili_granted. exact H.
  - intros op s k _ [r Hr] Hrel.
    destruct (bili_receipt_kept op s k r Hr Hrel) as (r' & Hr' & _). by exists r'.
  - intros op s k _ [r Hr] _ [Hn _]%bili_granted. cbn in Hr. congruence.
Qed.

(** A Bilibili mutation is claimed at most once per actor and idempotency
    key: along any run of the store, the [start_write] calls answered NEW for a
    key exceed by at most one the [cancel_write_claim] calls that removed its
    unfinished claim, and by none when the key already has a receipt. *)
Lemma bili_claims_bounded (s : receipt_store) (ops : list bili_op) (k : pystr * pystr) :
  (grants k ops s <= 1 + release_count k ops s)%nat
  ∧ (write_receipts s !! k ≠ None → (grants k ops s <= release_count k ops s)%nat).
Proof.
  destruct (grants_bounded (L := bili_guard_laws) k ops s I) as [H1 H2].
  split; [exact H1|]. intros Hs. apply H2. by apply not_eq_None_Some.
Qed.

(** A settled receipt is not released, so no run changes it. *)
Lemma settled_not_released op s k r :
  write_receipts s !! k = Some r → rr_status r ≠ IN_PROGRESS → releases op s k = false.
Proof.
  intros Hr Hs. destruct op as [| | | | |scope key rid|]; try done. cbn.
  destruct (claim scope key rid s) as [r0|] eqn:Hc; [|by rewrite andb_false_r].
  apply claim_some in Hc as (H0 & _ & Hp). rewrite andb_true_r. apply bool_decide_eq_false.
  intros <-. congruence.
Qed.

Lemma settled_stays ops s k r :
  write_receipts s !! k = Some r → rr_status r ≠ IN_PROGRESS →
  write_receipts (final bili_step ops s) !! k = Some r.
Proof.
  intros Hr Hs.
  apply (final_inv bili_step (λ s, write_receipts s !! k = Some r)); [|done].
  intros op s0 H0.
  destruct (bili_receipt_kept op s0 k r H0) as (r' & Hr' & _ & _ & _ & _ & He).
  - by apply settled_not_released with r.
  - by rewrite Hr', He.
Qed.

Lemma start_write_settled now scope key profile tool digest rid s r text kvs :
  write_receipts s !! (scope, key) = Some r → rr_status r ≠ IN_PROGRESS →
  rr_receipt_json r = Some text → parse_json text = Ok kvs →
  start_write now scope key profile tool digest rid s =
  (if same_operation profile tool digest r then Ok (Prior (rr_status r) (Some kvs))
   else Err ReceiptStoreError, s).
Proof.
  intros Hr Hs Ht Hp. unfold start_write, transact, start_write_txn. rewrite Hr.
  destruct (same_operation _ _ _ r); cbn [require mbind result_bind]; [|done].
  rewrite Ht, Hp. by destruct (rr_status r).
Qed.

Lemma finish_write_settled now scope key rid st v s r :
  write_receipts s !! (scope, key) = Some r → rr_status r ≠ IN_PROGRESS →
  is_ok (fst (finish_write now scope key rid st v s)) = false
  ∧ snd (finish_write now scope key rid st v s) = s.
Proof.
  intros Hr Hs. unfold finish_write.
  destruct (require _ _ ≫= _); [|done].
  destruct (claim scope key rid s) as [r0|] eqn:Hc; [|done].
  apply claim_some in Hc as (H0 & _ & ?). congruence.
Qed.

Lemma parse_encoded value limit text :
  json_ok (JObj value) = true → encode_limited limit value = Ok text → parse_json text = Ok value.
Proof.
  unfold encode_limited, parse_json. 
  generalize (loads_dumps (JObj value)). generalize (dumps (JObj value)). intros d Hd Hj H.
  inv_result. by rewrite Hd.
Qed.

Lemma parse_unknown rid code :
  forallb scalar rid = true → forallb scalar (lit code) = true →
  parse_json (dumps_ascii (JObj (unknown_receipt rid code))) = Ok (unknown_receipt rid code).
Proof.
  intros Hr Hc. unfold parse_json.
  unfold unknown_receipt. rewrite loads_dumps_ascii_plain; [done..| |by repeat constructor].
  by apply (bool_decide_unpack _); vm_compute.
Qed.

(** The outcome of a mutation is recorded once.  After [finish_write]
    accepts an outcome for a claim, or after a replay more than 60 seconds after
    the claim turned it into UNKNOWN_RESULT, no further operations change the
    receipt: every replay of the same operation gets exactly that outcome and
    claims nothing, a replay with another profile, tool or argument digest is
    refused, and a (second or late) [finish_write] is refused without effect. *)
Lemma bili_outcome_final (s : receipt_store) (scope key profile tool digest rid : pystr)
    (r : receipt_row) (ops : list bili_op) (st : write_status) (value : list (pystr * json))
    (t : Z) (s1 : receipt_store) :
  write_receipts s !! (scope, key) = Some r → rr_status r = IN_PROGRESS →
  finish_write t scope key (rr_receipt_id r) st value s = (Ok (), s1)
    ∧ json_ok (JObj value) = true
  ∨ start_write t scope key (rr_profile_ref r) (rr_tool_id r) (rr_arguments_sha256 r) rid s
      = (Ok (Prior st (Some value)), s1)
    ∧ 60 < t - rr_updated_at r ∧ forallb scalar (rr_receipt_id r) = true →
  let s2 := final bili_step ops s1 in
  (∀ now rid', start_write now scope key profile tool digest rid' s2 =
     (if same_operation profile tool digest r then Ok (Prior st (Some value))
      else Err ReceiptStoreError, s2))
  ∧ (∀ now rid' st' value',
       is_ok (fst (finish_write now scope key rid' st' value' s2)) = false
       ∧ snd (finish_write now scope key rid' st' value' s2) = s2).
Proof.
  intros Hr Hs Hset s2.
  assert (Hrow : ∃ text, write_receipts s1 !! (scope, key) = Some (set_receipt st text t r)
                 ∧ st ≠ IN_PROGRESS ∧ parse_json text = Ok value).
  { destruct Hset as [[Hf Hj]|(Hst & Ht & Hsc)].
    - unfold finish_write in Hf. destruct (require _ _ ≫= _) as [enc|] eqn:He; [|done].
      assert (Hc : claim scope key (rr_receipt_id r) s = Some r).
      { unfold claim. rewrite Hr. cbn. unfold claimed_by. by rewrite !bool_decide_true. }
      rewrite Hc in Hf. injection Hf as <-. inv_result. bools.
      exists enc. cbn. rewrite lookup_insert_eq. split_and!; [done..|]. by eapply parse_encoded.
    - unfold start_write, transact, start_write_txn in Hst. rewrite Hr, Hs in Hst.
      unfold same_operation in Hst. rewrite !bool_decide_true in Hst by done.
      cbn [andb require mbind result_bind] in Hst. apply Z.ltb_lt in Ht. rewrite Ht in Hst.
      injection Hst as <- <- <-. eexists. cbn [write_receipts]. rewrite lookup_insert_eq.
      split_and!; [done..|]. by apply parse_unknown. }
  destruct Hrow as (text & H1 & Hn & Hp). assert (H2 := settled_stays ops s1 _ _ H1 Hn).
  split; intros.
  - by rewrite (start_write_settled now scope key profile tool digest rid' s2 _ text value H2 Hn).
  - by apply (finish_write_settled now scope key rid' st' value' s2 _ H2).
Qed.

(** ** Scopes are isolated *)

Definition in_scope (scope : pystr) (r : flow_row) : bool :=
  bool_decide (fl_scope_key (fr_flow r) = scope).

(** The part of the store that belongs to an actor. *)
Definition flows_of (scope : pystr) (s : receipt_store) : list flow_row :=
  select (in_scope scope) (login_flows s).

Definition same_view (scope : pystr) (s s' : receipt_store) : Prop :=
  flows_of scope s' = flows_of scope s
  ∧ ∀ key, write_receipts s' !! (scope, key) = write_receipts s !! (scope, key).

Lemma select_update_other {A} (p q : A → bool) (f : A → A) (rows : list A) :
  (∀ r, q r = true → p r = false ∧ p (f r) = false) →
  select p (update_where q f rows) = select p rows.
Proof.
  intros H. unfold select, update_where. induction rows as [|r rows IH]; cbn; [done|].
  destruct (q r) eqn:Hq; [destruct (H r Hq) as [-> ->] | destruct (p r)]; congruence.
Qed.

Lemma find_select {A} (p q : A → bool) (rows : list A) :
  (∀ r, p r = true → q r = true) → fetchone p rows = fetchone p (select q rows).
Proof.
  intros H. unfold fetchone, select. induction rows as [|r rows IH]; cbn; [done|].
  destruct (p r) eqn:Hp; [rewrite (H r Hp); cbn; by rewrite Hp|].
  destruct (q r); cbn; [by rewrite Hp | done].
Qed.

Lemma step_other_scope op s scope other :
  op_scope op = Some other → other ≠ scope → same_view scope s (snd (bili_step op s)).
Proof.
  intros Hop Hne. split.
  - unfold flows_of.
    assert (Hupd : ∀ id (f : flow_row → flow_row),
      (∀ r, fl_scope_key (fr_flow (f r)) = fl_scope_key (fr_flow r)) →
      select (in_scope scope) (update_where (owns other id) f (login_flows s))
      = select (in_scope scope) (login_flows s)).
    { intros id f Hf. apply select_update_other. intros r Ho. unfold owns in Ho. bools.
      unfold in_scope. by rewrite Hf, !bool_decide_false by congruence. }
    destruct op as [now flow|now sc id st|now sc id p|now sc key profile tool digest rid
      |now sc key rid st v|sc key rid|now]; cbn [op_scope] in Hop; simplify_eq; cbn [bili_step].
    + unfold begin_flow, transact. destruct (begin_flow_txn now flow s) as [[f s']|] eqn:H;
        cbn [snd]; [|done]. unfold begin_flow_txn in H.
      destruct (fetchone _ _); inv_result; [done|]. cbn [login_flows]. unfold select.
      rewrite List.filter_app. cbn. unfold in_scope at 2. cbn.
      rewrite bool_decide_false by done. by rewrite app_nil_r.
    + unfold mark_flow. case_bool_decide; [|done]. cbn. by apply Hupd.
    + unfold complete_flow. destruct (encode_limited _ _); [|done]. cbn. by apply Hupd.
    + unfold start_write, transact.
      destruct (start_write_txn now other key profile tool digest rid s) as [[a s']|] eqn:H;
        [|done]. cbn.
      by apply start_write_txn_cases in H as [(_ & _ & ->)|(? & _ & _ & _ & [->|(_ & ? & ->)])].
    + unfold finish_write. destruct (require _ _ ≫= _); [|done].
      by destruct (claim other key rid s).
    + unfold cancel_write_claim. by destruct (claim other key rid s).
  - intros key. destruct (bili_step_receipts op s) as [He|now sc k p t d rid -> _ He
      |sc k r0 st text now Hsc _ _ _ _ He|sc k rid r0 -> _ He]; rewrite He; [done|..];
      cbn in *; simplify_eq; rewrite ?lookup_insert_ne, ?lookup_delete_ne by congruence; done.
Qed.

Lemma run_other_scope ops s scope :
  Forall (λ op, ∃ other, op_scope op = Some other ∧ other ≠ scope) ops →
  same_view scope s (final bili_step ops s).
Proof.
  intros Hops.
  apply (final_inv_if bili_step (λ op, ∃ other, op_scope op = Some other ∧ other ≠ scope)
    (same_view scope s)); [|done|by split].
  intros op s0 (other & Hop & Hne) [H1 H2].
  destruct (step_other_scope op s0 scope other Hop Hne) as [H3 H4].
  split; [congruence|]. intros key. by rewrite H4.
Qed.

(** What an actor reads depends on its own part of the store. *)
Lemma owned_find (p : flow_row → bool) scope s s' :
  (∀ r, p r = true → in_scope scope r = true) → same_view scope s s' →
  fetchone p (login_flows s') = fetchone p (login_flows s).
Proof.
  intros Hp [Hf _]. unfold flows_of in Hf.
  by rewrite (find_select p (in_scope scope) (login_flows s') Hp),
    (find_select p (in_scope scope) (login_flows s) Hp), Hf.
Qed.

Lemma owns_in_scope scope id r : owns scope id r = true → in_scope scope r = true.
Proof. unfold owns, in_scope. by intros [_ H]%andb_true_iff. Qed.

(** Actors are isolated.  Whatever operations run for other actors (other
    scope keys), an actor's flows, linked profiles and write receipts read
    exactly as before, its [start_write] and its replayed [begin_flow] get the
    answer they would have got, and [get_flow] only ever returns a flow of the scope and the
    identifier asked for. *)
Lemma bili_scopes_isolated (s : receipt_store) (ops : list bili_op) (scope : pystr) :
  Forall (λ op, ∃ other, op_scope op = Some other ∧ other ≠ scope) ops →
  let s' := final bili_step ops s in
  (∀ id, get_flow scope id s' = get_flow scope id s
         ∧ get_linked_profile scope id s' = get_linked_profile scope id s)
  ∧ (∀ id f, get_flow scope id s' = Some f → fl_scope_key f = scope ∧ login_flow_id f = id)
  ∧ (∀ now key profile tool digest rid,
       fst (start_write now scope key profile tool digest rid s')
       = fst (start_write now scope key profile tool digest rid s))
  ∧ (∀ now flow row, fl_scope_key flow = scope →
       fetchone (same_begin scope (idempotency_key flow)) (login_flows s) = Some row →
       begin_flow now flow s' =
         (if bool_decide (profile_ref (fr_flow row) = profile_ref flow) then Ok (fr_flow row)
          else Err ReceiptStoreError, s')).
Proof.
  intros Hops s'. assert (Hv := run_other_scope ops s scope Hops : same_view scope s s').
  split_and!.
  - intros id. unfold get_flow, get_linked_profile.
    rewrite !(owned_find _ scope s s'); [done| |done| |done].
    + intros r [H _]%andb_true_iff. by eapply owns_in_scope.
    + apply owns_in_scope.
  - unfold get_flow. intros id f (r & Hr & ->)%fmap_Some.
    apply fetchone_some in Hr as [_ Ho]. unfold owns in Ho. by bools.
  - intros now key profile tool digest rid. unfold start_write, transact, start_write_txn.
    rewrite (proj2 Hv key). destruct (write_receipts s !! (scope, key)) as [r|]; [|done].
    destruct (same_operation _ _ _ r); cbn [require mbind result_bind]; [|done].
    destruct (rr_status r); [by destruct (60 <? _)|by destruct (rr_receipt_json r) as [x|];
      [cbn; destruct (parse_json x)|]..].
  - intros now flow row <- Hrow. unfold begin_flow, transact, begin_flow_txn.
    rewrite (owned_find (same_begin (fl_scope_key flow) (idempotency_key flow)) (fl_scope_key flow) s s');
      [|by intros r [H _]%andb_true_iff|done].
    rewrite Hrow. by case_bool_decide.
Qed.

(** ** Actor namespaces are separate *)

Lemma cut_inj {A} (c : A) (p1 p2 r1 r2 : list A) :
  c ∉ p1 → c ∉ p2 → p1 ++ c :: r1 = p2 ++ c :: r2 → p1 = p2 ∧ r1 = r2.
Proof.
  revert p2. induction p1 as [|x p1 IH]; intros [|y p2] H1 H2; cbn; intros He;
    injection He; clear He.
  - by intros ->.
  - intros _ ->. by destruct H2; left.
  - intros _ <-. by destruct H1; left.
  - intros Hr ->. apply not_elem_of_cons in H1 as [_ H1], H2 as [_ H2].
    by destruct (IH p2 H1 H2 Hr) as [-> ->].
Qed.

Lemma join_inj (c : N) (l1 l2 : list pystr) :
  length l1 = length l2 → Forall (λ p, c ∉ p) l1 → Forall (λ p, c ∉ p) l2 →
  join [c] l1 = join [c] l2 → l1 = l2.
Proof.
  revert l2. induction l1 as [|p1 l1 IH]; intros [|p2 l2] Hl H1 H2; try done.
  apply Forall_cons in H1 as [Hp1 H1]. apply Forall_cons in H2 as [Hp2 H2].
  injection Hl as Hl. destruct l1 as [|q1 l1], l2 as [|q2 l2]; try done.
  - cbn. by intros ->.
  - change (join [c] (p1 :: q1 :: l1)) with (p1 ++ c :: join [c] (q1 :: l1)).
    change (join [c] (p2 :: q2 :: l2)) with (p2 ++ c :: join [c] (q2 :: l2)).
    intros He. apply cut_inj in He as [-> He]; [|done..]. f_equal. by apply IH.
Qed.

(** Two actors share a namespace only if their five claims agree.  If
    [scope_key] gives two claim sets without NUL characters the same key, then
    issuer, subject, organisation, workspace and binding are equal (an absent
    claim counting as the empty string), or the two different texts it signed
    collide under HMAC-SHA-256; and a key is 64 hexadecimal digits. *)
Lemma scope_key_separates (hmac_key : pybytes) (a1 a2 : list (pystr * json))
    (f1 f2 : list (option pystr)) (k : pystr) :
  mapR (scope_field a1) scope_names = Ok f1 →
  mapR (scope_field a2) scope_names = Ok f2 →
  Forall (λ f, 0%N ∉ default [] f) f1 → Forall (λ f, 0%N ∉ default [] f) f2 →
  scope_key hmac_key a1 = Ok k → scope_key hmac_key a2 = Ok k →
  (map (default []) f1 = map (default []) f2
   ∨ ∃ m1 m2, utf8_encode (scope_payload f1) = Some m1 ∧ utf8_encode (scope_payload f2) = Some m2
              ∧ m1 ≠ m2 ∧ hmac_sha256 hmac_key m1 = hmac_sha256 hmac_key m2)
  ∧ length k = 64%nat ∧ forallb is_hex_lower k = true.
Proof.
  unfold scope_key, py_encode. intros Hf1 Hf2 Hn1 Hn2 Hk1 Hk2. rewrite Hf1 in Hk1. rewrite Hf2 in Hk2.
  cbn [mbind result_bind] in Hk1, Hk2. inv_result.
  destruct (utf8_encode (scope_payload f1)) as [m1|] eqn:E1; [|done].
  destruct (utf8_encode (scope_payload f2)) as [m2|] eqn:E2; [|done]. inv_result.
  split; [|apply hmac_hex_shape].
  rename select (hexdigest _ = hexdigest _) into Hk.
  apply hexdigest_inj in Hk; [|apply hmac_sha256_ok..].
  match type of Hk with hmac_sha256 _ ?x = hmac_sha256 _ ?y =>
    rename x into m1; rename y into m2; destruct (decide (m1 = m2)) as [Heq|Hne] end.
  - left. rewrite Heq in *. apply (join_inj 0%N); [|by apply Forall_map..|by eapply utf8_encode_inj].
    apply mapR_ok, Forall2_length in Hf1, Hf2. rewrite !length_map. congruence.
  - right. exists m1, m2. by split_and!.
Qed.
