(* ===== verification/LedgerExamples.v ===== *)
(** * Ledgers: concrete runs

    One e-mail, one cloud write and one Bilibili mutation, with the ledgers'
    theorems applied to them. *)

From Stdlib Require Import ZArith NArith.
From S2P Require Import Prelude PyFloat PyText Json Sha256 ReplayGuard EmailLedger CloudLedger.
From S2P Require Import BilibiliReceipts.

#[local] Open Scope Z_scope.

(** ** E-mail *)

Definition digest_of (c : N) : pystr := repeat c 64.
Definition mail : ReplayIdentity :=
  Identity (digest_of 97) (digest_of 98) (digest_of 99) (lit "req-1").
Definition t0 : pystr := lit "2024-01-01T00:00:00.000000Z".
Definition t1 : pystr := lit "2024-01-01T00:00:01.000000Z".
Definition accepted : EmailSubmission := Submission (lit "req-1") EmAccepted None false.

Definition mail_run : list email_op := [EmReserve t0 mail; EmComplete t1 mail accepted].
Definition mail_done : email_ledger := final email_step mail_run empty_ledger.

Example mail_granted_once :
  fst (runs email_step [EmReserve t0 mail; EmReserve t1 mail] empty_ledger)
  = [EoReserve (Ok None); EoReserve (Ok (Some (Submission (lit "req-1") EmUnknown None false)))].
Proof. by vm_compute. Qed.

Lemma email_outcome_final_example :
  email_submissions (final email_step [EmMarkRetryable t1 mail] mail_done) !! digest_of 97
  = Some (SubmissionRow (digest_of 99) ACCEPTED None false t0 t1).
Proof.
  refine (proj1 (email_outcome_final mail_done [EmMarkRetryable t1 mail] t1 mail
    (SubmissionRow (digest_of 99) ACCEPTED None false t0 t1) EmAccepted _ _ _ _));
    [by vm_compute..|done|by vm_compute].
Defined.

(** ** Cloud writes *)

(** Lower-cases ASCII. *)
Definition ascii_fold (s : pystr) : pystr :=
  map (λ c, if is_upper_ascii c then (c + 32)%N else c) s.

Definition cloud_cfg : ledger_config := LedgerConfig 2 1048576 90.
Definition clock (n : Z) : pyfloat := f_of_Z n.

Definition rid1 : pystr := lit "r1".
Definition ref1 : pystr := lit "op-1".
Definition pending1 : cloud_ledger :=
  final (cloud_step ascii_fold cloud_cfg)
    [CoCompact (clock 100); CoBegin 4096 rid1 (digest_of 97) ref1] ∅.
Definition response1 : json := JObj [(lit "state", JStr (lit "COMMAND_SENT"))].
Definition recorded1 : cloud_ledger :=
  snd (complete_write ascii_fold cloud_cfg (clock 101) 4096 rid1 response1 pending1).

Lemma cloud_receipt_durable_example :
  get_write rid1 (final (cloud_step ascii_fold cloud_cfg) [CoCompact (clock 99999)] recorded1)
  = Ok (Some (Existing (digest_of 97) ref1 (Some response1))).
Proof.
  refine (proj1 (proj1 (proj2 (cloud_receipt_durable ascii_fold cloud_cfg pending1 recorded1
    [CoCompact (clock 99999)] (clock 101) 4096 rid1 response1 response1
    (WriteRequest (digest_of 97) ref1 None 0 None) _ _ _ _ _)) _));
    [by vm_compute|done|by vm_compute..].
Defined.

(** ** Bilibili *)

Definition bili_claim : receipt_store :=
  snd (start_write 1000 (lit "alice") (lit "k") (lit "p") (lit "t") (digest_of 97) (lit "rc-1")
         empty_store).
Definition like_result : list (pystr * json) := [(lit "code", JInt 0)].
Definition bili_done : receipt_store :=
  snd (finish_write 1010 (lit "alice") (lit "k") (lit "rc-1") SUCCEEDED like_result bili_claim).

Lemma bili_outcome_final_example :
  start_write 5000 (lit "alice") (lit "k") (lit "p") (lit "t") (digest_of 97) (lit "rc-2")
    (final bili_step [BoCancelWrite (lit "alice") (lit "k") (lit "rc-1")] bili_done)
  = (Ok (Prior SUCCEEDED (Some like_result)),
     final bili_step [BoCancelWrite (lit "alice") (lit "k") (lit "rc-1")] bili_done).
Proof.
  refine (proj1 (bili_outcome_final bili_claim (lit "alice") (lit "k") (lit "p") (lit "t")
    (digest_of 97) (lit "rc-1")
    (ReceiptRow (lit "p") (lit "t") (digest_of 97) (lit "rc-1") IN_PROGRESS None 1000 1000)
    [BoCancelWrite (lit "alice") (lit "k") (lit "rc-1")] SUCCEEDED like_result 1010 bili_done
    _ _ _) 5000 (lit "rc-2")); [by vm_compute|done|].
  left. split; by vm_compute.
Defined.

Lemma bili_scopes_isolated_example :
  get_flow (lit "alice") (lit "f1") (final bili_step
    [BoMarkFlow 7 (lit "bob") (lit "f1") (lit "FAILED")] bili_done) = None.
Proof.
  rewrite (proj1 (proj1 (bili_scopes_isolated bili_done
    [BoMarkFlow 7 (lit "bob") (lit "f1") (lit "FAILED")] (lit "alice")
    ltac:(constructor; [exists (lit "bob"); split; [done | by vm_compute] | constructor]))
    (lit "f1"))).
  by vm_compute.
Defined.

Definition actor1 : list (pystr * json) :=
  [(lit "issuer", JStr (lit "i")); (lit "subject", JStr (lit "s"));
   (lit "organization_id", JStr (lit "o"))].
Definition fields1 : list (option pystr) :=
  [Some (lit "i"); Some (lit "s"); Some (lit "o"); None; None].

Lemma scope_key_separates_example :
  length (hexdigest (hmac_sha256 (repeat 7%N 32) (scope_payload fields1))) = 64%nat.
Proof.
  refine (proj1 (proj2 (scope_key_separates (repeat 7%N 32) actor1 actor1 fields1 fields1
    (hexdigest (hmac_sha256 (repeat 7%N 32) (scope_payload fields1))) _ _ _ _ _ _))).
  - by vm_compute.
  - by vm_compute.
  - apply (bool_decide_unpack _); by vm_compute.
  - apply (bool_decide_unpack _); by vm_compute.
  - reflexivity.
  - reflexivity.
Defined.
