(* ===== verification/MemoryStore.v ===== *)
(** * Memory provider: the SQLite store

    [SQLiteMemoryStore] of [memory_sqlite_provider/store.py].  The table
    [memory_records] is a finite map from (tenant, item id); an embedding BLOB
    is the list of its binary32 values.  The store keeps one connection for its
    lifetime, so the connection's state (the committed database and, while a
    transaction is open, the working one) is part of the model.  The clock,
    [uuid4().hex], [int(str)], the built-in [sum] of floats (whose rounding
    depends on the interpreter) and the order in which SQLite scans rows are
    arguments. *)

From Stdlib Require Import ZArith NArith SpecFloat.
From S2P Require Import Prelude PyFloat PyText PyFloat32 Json Base64 Sha256 Scoped.

#[local] Open Scope Z_scope.

Definition MAX_CONTENT_BYTES : Z := 1048576.
Definition MAX_METADATA_BYTES : Z := 65536.
Definition MAX_METADATA_ENTRIES : Z := 256.
Definition MAX_ITEM_ID_BYTES : Z := 256.
Definition MAX_BATCH_ITEMS : Z := 1000.
Definition MAX_TOP_K : Z := 1000.
Definition MODEL_ID_KEY : pystr := lit "cyrene.embedding.model_id".
Definition DIMENSIONS_KEY : pystr := lit "cyrene.embedding.dimensions".
Definition PROVIDER_MODEL_ID_KEY : pystr := lit "cyrene.embedding.provider_model_id".
Definition SCHEMA_VERSION : Z := 2.

(** ** Data *)

(** [MemoryStoreError(code, ...)], and the exceptions the code does not wrap. *)
Inductive mem_error :=
  | MemoryStoreError (code : Z)
  | ValueError
  | OverflowError
  | ZeroDivisionError.

Abbreviation E := (result mem_error).

Record StoredMemory := Stored {
  item_id : pystr;
  tenant_id : pystr;
  sm_scope : pystr;
  subject : pystr;
  content : pystr;
  embedding : list pyfloat;
  metadata : list (pystr * pystr);
  created_at_ms : Z;
  expires_at_ms : option Z;
  ttl_seconds : option Z
}.

Record ScoredMemory := Scored { sc_item : StoredMemory; sc_score : pyfloat }.

(** A row of [memory_records], without its primary key. *)
Record memory_row := MemoryRow {
  mr_scope : pystr;
  mr_subject : pystr;
  mr_content : pystr;
  mr_embedding : list pyfloat;
  mr_embedding_model_id : pystr;
  mr_embedding_dimensions : Z;
  mr_metadata_json : pystr;
  mr_created_at_ms : Z;
  mr_expires_at_ms : option Z;
  mr_ttl_seconds : option Z
}.

Abbreviation records := (gmap (pystr * pystr) memory_row).

(** The configured profile and limits. *)
Record profile := Profile {
  embedding_model_id : pystr;
  provider_model_id : pystr;
  embedding_dimensions : Z;
  document_prefix : pystr;
  query_prefix : pystr;
  max_top_k : Z
}.

(** ** Validation helpers *)

Definition byte_len (s : pystr) : E Z :=
  match utf8_encode s with Some b => Ok (len b) | None => Err ValueError end.

(** [_required_text] *)
Definition required_text (value : pystr) (maximum_bytes : Z) : E pystr :=
  _ ← require (negb (bool_decide (strip value = []))) ValueError;
  n ← byte_len value;
  _ ← require (n <=? maximum_bytes) ValueError;
  Ok (strip value).

(** [_required_tenant] *)
Definition required_tenant (value : pystr) : E pystr :=
  match required_text value 256 with
  | Ok t => Ok t
  | Err _ => Err (MemoryStoreError 2)
  end.

(** [_bounded_integer] *)
Definition bounded_integer (value minimum maximum : Z) : E Z :=
  _ ← require ((minimum <=? value) && (value <=? maximum)) ValueError; Ok value.

(** [_bounded_optional_text] *)
Definition bounded_optional_text (value : pystr) (maximum_bytes : Z) : E pystr :=
  n ← byte_len value; _ ← require (n <=? maximum_bytes) ValueError; Ok value.

(** [_bounded_similarity] *)
Definition bounded_similarity (value : pyfloat) : E pyfloat :=
  _ ← require (is_finite value && fle (f_of_Z 0) value && fle value (f_of_Z 1)) ValueError;
  Ok value.

(** ** Metadata *)

(** [_encode_metadata] *)
Definition encode_metadata (m : list (pystr * pystr)) : E pystr :=
  let encoded := dumps_sorted (JMap m) in
  n ← byte_len encoded;
  _ ← require (n <=? MAX_METADATA_BYTES) ValueError;
  Ok encoded.

Definition json_text (kv : pystr * json) : option (pystr * pystr) :=
  match kv.2 with JStr v => Some (kv.1, v) | _ => None end.

(** [_decode_metadata] *)
Definition decode_metadata (text : pystr) : E (list (pystr * pystr)) :=
  match loads text with
  | Some (JObj kvs) =>
      match mapM json_text kvs with
      | Some m => Ok m
      | None => Err (MemoryStoreError 5)
      end
  | _ => Err (MemoryStoreError 5)
  end.

Definition check_entry (kv : pystr * pystr) : E () :=
  _ ← require (negb (bool_decide (kv.1 = []))) ValueError;
  n ← byte_len kv.1; _ ← require (n <=? 256) ValueError;
  n ← byte_len kv.2; require (n <=? 4096) ValueError.

(** [_validated_metadata] *)
Definition validated_metadata (m : list (pystr * pystr)) : E (list (pystr * pystr)) :=
  _ ← require (len m <=? MAX_METADATA_ENTRIES) ValueError;
  _ ← mapR check_entry m;
  _ ← encode_metadata m;
  Ok m.

Definition declares_profile (m : list (pystr * pystr)) : bool :=
  forallb (λ k, bool_decide (is_Some (assoc k m)))
    [MODEL_ID_KEY; DIMENSIONS_KEY; PROVIDER_MODEL_ID_KEY].

(** [_with_profile_metadata] on the metadata. *)
Definition with_profile_metadata (m : list (pystr * pystr)) (model : pystr) (dims : Z)
    (provider : option pystr) : list (pystr * pystr) :=
  let m := dict_set DIMENSIONS_KEY (str_of_Z dims) (dict_set MODEL_ID_KEY model m) in
  dict_set PROVIDER_MODEL_ID_KEY
    (match provider with
     | Some ((_ :: _) as p) => p
     | _ => default model (assoc PROVIDER_MODEL_ID_KEY m)
     end) m.

(** ** Vectors *)

Definition FLOAT32_MAX : pyfloat := f_of_Z (16777215 * 2 ^ 104).
Definition nonzero (x : pyfloat) : bool := negb (feq x (f_of_Z 0)).

(** [_validated_vector] *)
Definition validated_vector (values : list pyfloat) (dims : Z) : E (list pyfloat) :=
  _ ← require (len values =? dims) (MemoryStoreError 3);
  _ ← require ((1 <=? len values) && (len values <=? 4096)) ValueError;
  _ ← require (forallb is_finite values) ValueError;
  _ ← require (negb (existsb (λ v, flt FLOAT32_MAX (SFabs v)) values)) ValueError;
  _ ← require (existsb nonzero values) ValueError;
  Ok values.

(** [_pack_vector]; [struct.pack] raises when a value rounds to infinity. *)
Definition pack_vector (values : list pyfloat) (dims : Z) : E (list pyfloat) :=
  vector ← validated_vector values dims;
  let quantized := map to_f32 vector in
  _ ← require (forallb is_finite quantized) OverflowError;
  let unpacked := map of_f32 quantized in
  _ ← require (forallb is_finite unpacked && existsb nonzero unpacked) ValueError;
  Ok quantized.

(** [_unpack_vector] *)
Definition unpack_vector (blob : list pyfloat) (dims : Z) : E (list pyfloat) :=
  _ ← bounded_integer dims 1 4096;
  _ ← require (len blob =? dims) (MemoryStoreError 5);
  let vector := map of_f32 blob in
  _ ← require (forallb is_finite vector && existsb nonzero vector) (MemoryStoreError 5);
  Ok vector.

Definition fsqrt (x : pyfloat) : pyfloat := SFsqrt f_prec f_emax x.

(** [_effective_expiry] *)
Definition effective_expiry (created : Z) (expires ttl : option Z) : option Z :=
  match ttl with
  | None => expires
  | Some ttl =>
      let ttl_expiry := created + ttl * 1000 in
      Some (match expires with None => ttl_expiry | Some e => Z.min e ttl_expiry end)
  end.

(** An [int] bound to an INTEGER parameter. *)
Definition sql_int (z : Z) : E Z :=
  _ ← require ((- 2 ^ 63 <=? z) && (z <? 2 ^ 63)) OverflowError; Ok z.
Definition sql_int_opt (o : option Z) : E (option Z) :=
  match o with Some z => z ← sql_int z; Ok (Some z) | None => Ok None end.

(** ** The connection *)

Record database := Database {
  memory_records : records;
  active_profile : option pystr
}.

(** [working] is the open transaction's view; without one, statements commit. *)
Record connection := Connection { committed : database; working : option database }.

Definition view (c : connection) : database := default (committed c) (working c).
Definition write (d : database) (c : connection) : connection :=
  match working c with
  | Some _ => Connection (committed c) (Some d)
  | None => Connection d None
  end.
Definition rollback (c : connection) : connection := Connection (committed c) None.

Definition with_records (m : records) (d : database) : database := Database m (active_profile d).

Definition unexpired (now : Z) (r : memory_row) : bool :=
  match mr_expires_at_ms r with Some e => now <? e | None => true end.

(** ** Page tokens *)

Definition token_json (after : pystr) (scope : option pystr) (tenant : pystr) : json :=
  JObj [(lit "after", JStr after);
        (lit "scope", match scope with Some s => JStr s | None => JNull end);
        (lit "tenant", JStr tenant)].

(** [_encode_page_token] *)
Definition encode_page_token (id tenant : pystr) (scope : option pystr) : E pystr :=
  match utf8_encode (dumps_ascii (token_json id scope tenant)) with
  | Some payload => Ok (b64url_encode payload)
  | None => Err ValueError
  end.

(** [base64.b64decode(padded, altchars=b"-_", validate=True)]: both alphabets,
    then exactly the padding that completes the last group. *)
Definition url_char (c : N) : N :=
  if (c =? 43)%N then 45%N else if (c =? 47)%N then 95%N else c.
Definition b64decode (padded : pystr) : option pybytes :=
  let '(data, rest) := span (λ c, negb (c =? 61)%N) padded in
  if bool_decide (rest = repeat 61%N (Z.to_nat (- len data mod 4)))
  then b64url_decode (map url_char data) else None.

(** The object in a token. *)
Definition token_fields (value : pystr) : option (list (pystr * json)) :=
  payload ← b64decode (value ++ repeat 61%N (Z.to_nat (- len value mod 4)));
  text ← utf8_decode payload;
  match loads text with Some (JObj kvs) => Some kvs | _ => None end.

Definition is_text (v : option json) (s : pystr) : bool :=
  match v with Some (JStr t) => bool_decide (t = s) | _ => false end.
Definition is_scope (v : option json) (scope : option pystr) : bool :=
  match scope with
  | Some s => is_text v s
  | None => match v with None | Some JNull => true | _ => false end
  end.

(** [_decode_page_token] *)
Definition decode_page_token (value : option pystr) (tenant : pystr) (scope : option pystr)
  : E (option pystr) :=
  match value with
  | None | Some [] => Ok None
  | Some value =>
      _ ← require (len value <=? 1024) ValueError;
      match token_fields value with
      | None => Err ValueError
      | Some kvs =>
          _ ← require (is_text (assoc (lit "tenant") kvs) tenant
                       && is_scope (assoc (lit "scope") kvs) scope) ValueError;
          match assoc (lit "after") kvs with
          | Some (JStr after) => after ← required_text after MAX_ITEM_ID_BYTES; Ok (Some after)
          | _ => Err ValueError
          end
      end
  end.

(** ** Operations *)

Section Store.
(** [int(text)]; [None] is the [ValueError]. *)
Context (py_int : pystr → option Z).
(** [sum(values)] of floats. *)
Context (float_sum : list pyfloat → pyfloat).
(** The order in which SQLite returns the rows of a scan. *)
Context (scan : list (pystr * memory_row) → list (pystr * memory_row)).
Context (prof : profile).

(** [_profile_from_metadata] *)
Definition profile_from_metadata (m : list (pystr * pystr)) : E (pystr * option Z) :=
  model ← required_text (default (embedding_model_id prof) (assoc MODEL_ID_KEY m)) 256;
  match assoc DIMENSIONS_KEY m with
  | None => Ok (model, None)
  | Some raw =>
      match py_int raw with
      | None => Err ValueError
      | Some d => d ← bounded_integer d 1 4096; Ok (model, Some d)
      end
  end.

Definition nonneg (o : option Z) : bool := match o with Some z => 0 <=? z | None => true end.

(** [_normalize_item], with the store's own profile as the expected one. *)
Definition normalize_item (fresh : pystr) (expected_tenant : pystr) (item : StoredMemory)
  : E StoredMemory :=
  tenant ← required_tenant (tenant_id item);
  expected ← required_tenant expected_tenant;
  _ ← require (bool_decide (tenant = expected)) (MemoryStoreError 2);
  let id := match strip (item_id item) with [] => lit "mem_" ++ fresh | s => s end in
  _ ← required_text id MAX_ITEM_ID_BYTES;
  _ ← require (negb (bool_decide (content item = []))) ValueError;
  n ← byte_len (content item);
  _ ← require (n <=? MAX_CONTENT_BYTES) ValueError;
  m ← validated_metadata (metadata item);
  _ ← require (declares_profile m) (MemoryStoreError 3);
  '(model, dims) ← profile_from_metadata m;
  let dims := default (embedding_dimensions prof) dims in
  _ ← require (bool_decide (model = embedding_model_id prof)) (MemoryStoreError 3);
  _ ← require (dims =? embedding_dimensions prof) (MemoryStoreError 3);
  provider ← required_text (default (provider_model_id prof) (assoc PROVIDER_MODEL_ID_KEY m)) 256;
  _ ← require (bool_decide (provider = provider_model_id prof)) (MemoryStoreError 3);
  _ ← require (dims =? len (embedding item)) (MemoryStoreError 3);
  let m := with_profile_metadata m model dims (Some provider) in
  _ ← require (nonneg (ttl_seconds item)) ValueError;
  _ ← require (nonneg (expires_at_ms item)) ValueError;
  scope ← bounded_optional_text (sm_scope item) 256;
  subj ← bounded_optional_text (subject item) 256;
  Ok (Stored id tenant scope subj (content item) (embedding item) m
        (Z.max 0 (created_at_ms item)) (expires_at_ms item) (ttl_seconds item)).

(** [record.created_at_ms or now_ms] *)
Definition or_now (created now : Z) : Z := if created =? 0 then now else created.

(** The row the INSERT binds; the last three parameters are INTEGERs. *)
Definition bound_row (now : Z) (item : StoredMemory) (blob : list pyfloat) (model : pystr)
    (dims : Z) (text : pystr) : E memory_row :=
  let created := or_now (created_at_ms item) now in
  created' ← sql_int created;
  expires ← sql_int_opt (effective_expiry created (expires_at_ms item) (ttl_seconds item));
  ttl ← sql_int_opt (ttl_seconds item);
  Ok (MemoryRow (sm_scope item) (subject item) (content item) blob model dims text created'
        expires ttl).

(** [store] *)
Definition store_checked (now : Z) (fresh tenant : pystr) (item : StoredMemory)
  : E (StoredMemory * memory_row) :=
  tenant ← required_tenant tenant;
  record ← normalize_item fresh tenant item;
  blob ← pack_vector (embedding record) (embedding_dimensions prof);
  text ← encode_metadata (metadata record);
  row ← bound_row now record blob (embedding_model_id prof) (embedding_dimensions prof) text;
  Ok (record, row).

Definition store (now : Z) (fresh tenant : pystr) (item : StoredMemory) (c : connection)
  : E pystr * connection :=
  match store_checked now fresh tenant item with
  | Err e => (Err e, c)
  | Ok (record, row) =>
      let d := view c in
      (Ok (item_id record),
       write (with_records (<[(tenant_id record, item_id record) := row]> (memory_records d)) d) c)
  end.

Definition set_default (k v : pystr) (m : list (pystr * pystr)) : list (pystr * pystr) :=
  match assoc k m with Some _ => m | None => m ++ [(k, v)] end.

(** [_record_from_row] *)
Definition record_from_row (tenant : pystr) (row : pystr * memory_row)
    (m : list (pystr * pystr)) : E StoredMemory :=
  let r := row.2 in
  let dims := mr_embedding_dimensions r in
  vector ← unpack_vector (mr_embedding r) dims;
  Ok (Stored row.1 tenant (mr_scope r) (mr_subject r) (mr_content r) vector
        (set_default PROVIDER_MODEL_ID_KEY (provider_model_id prof)
           (set_default DIMENSIONS_KEY (str_of_Z dims)
              (set_default MODEL_ID_KEY (mr_embedding_model_id r) m)))
        (mr_created_at_ms r) (mr_expires_at_ms r) (mr_ttl_seconds r)).

(** The same with the row's own metadata column (the vector is unpacked first). *)
Definition read_row (tenant : pystr) (row : pystr * memory_row) : E StoredMemory :=
  _ ← unpack_vector (mr_embedding row.2) (mr_embedding_dimensions row.2);
  m ← decode_metadata (mr_metadata_json row.2);
  record_from_row tenant row m.

(** [get] *)
Definition get (now : Z) (tenant id : pystr) (c : connection) : E (option StoredMemory) :=
  tenant ← required_tenant tenant;
  id ← required_text id MAX_ITEM_ID_BYTES;
  match memory_records (view c) !! (tenant, id) with
  | Some r =>
      if unexpired now r then item ← read_row tenant (id, r); Ok (Some item) else Ok None
  | None => Ok None
  end.

(** [delete] *)
Definition delete_item (tenant id : pystr) (c : connection) : E bool * connection :=
  match
    (tenant ← required_tenant tenant; id ← required_text id MAX_ITEM_ID_BYTES; Ok (tenant, id))
  with
  | Err e => (Err e, c)
  | Ok k =>
      let d := view c in
      (Ok (bool_decide (is_Some (memory_records d !! k))),
       write (with_records (delete k (memory_records d)) d) c)
  end.

(** The rows [prune] deletes. *)
Definition prunable (now : Z) (before : option Z) (r : memory_row) : bool :=
  match mr_expires_at_ms r with Some e => e <=? now | None => false end
  || match before with Some b => mr_created_at_ms r <? b | None => false end.

(** [prune] *)
Definition prune (now : Z) (before : option Z) (tenant : pystr) (c : connection)
  : E Z * connection :=
  match
    (tenant ← required_tenant tenant; _ ← sql_int_opt before; Ok tenant)
  with
  | Err e => (Err e, c)
  | Ok tenant =>
      let d := view c in
      let kept := filter (λ kr, ¬ (kr.1.1 = tenant ∧ prunable now before kr.2 = true))
                    (memory_records d) in
      (Ok (Z.of_nat (size (memory_records d)) - Z.of_nat (size kept)),
       write (with_records kept d) c)
  end.

(** ** Recall *)

(** [_cosine_similarity] *)
Definition cosine_similarity (left right : list pyfloat) : E pyfloat :=
  if negb (len left =? len right) || (len left =? 0) then Ok (f_of_Z 0) else
  let dot := float_sum (zip_with fmul left right) in
  let left_norm := fsqrt (float_sum (map (λ v, fmul v v) left)) in
  let right_norm := fsqrt (float_sum (map (λ v, fmul v v) right)) in
  if feq left_norm (f_of_Z 0) || feq right_norm (f_of_Z 0) then Ok (f_of_Z 0) else
  let product := fmul left_norm right_norm in
  _ ← require (negb (feq product (f_of_Z 0))) ZeroDivisionError;
  let cosine := py_max (f_of_Z (-1)) (py_min (f_of_Z 1) (fdiv dot product)) in
  Ok (fdiv (fadd cosine (f_of_Z 1)) (f_of_Z 2)).

(** A heap entry: score, sequence number, item. *)
Definition candidate : Type := pyfloat * Z * StoredMemory.
Definition c_score (x : candidate) : pyfloat := x.1.1.
Definition c_seq (x : candidate) : Z := x.1.2.

(** The order of the heap's tuples; sequence numbers are distinct. *)
Definition entry_lt (a b : candidate) : bool :=
  flt (c_score a) (c_score b)
  || (negb (flt (c_score b) (c_score a)) && (c_seq a <? c_seq b)).

(** A [heapq] heap, as the ascending list of its entries. *)
Fixpoint heap_push (x : candidate) (heap : list candidate) : list candidate :=
  match heap with
  | [] => [x]
  | y :: heap' => if entry_lt x y then x :: heap else y :: heap_push x heap'
  end.

(** [heapq.heappush] below the limit, [heapq.heapreplace] for a better score. *)
Definition offer (limit : Z) (x : candidate) (heap : list candidate) : list candidate :=
  if len heap <? limit then heap_push x heap
  else match heap with
       | y :: rest => if flt (c_score y) (c_score x) then heap_push x rest else heap
       | [] => heap
       end.

(** [key=lambda candidate: (-candidate[0], candidate[1])] *)
Definition ranked_lt (a b : candidate) : bool :=
  flt (c_score b) (c_score a)
  || (negb (flt (c_score a) (c_score b)) && (c_seq a <? c_seq b)).
Fixpoint insert_ranked (x : candidate) (l : list candidate) : list candidate :=
  match l with
  | [] => [x]
  | y :: l' => if ranked_lt x y then x :: l else y :: insert_ranked x l'
  end.
Definition sort_ranked (l : list candidate) : list candidate := foldr insert_ranked [] l.

Definition filters_match (filters m : list (pystr * pystr)) : bool :=
  forallb (λ kv, bool_decide (assoc kv.1 m = Some kv.2)) filters.

(** What the loop body makes of a row: skip it, or score it. *)
Definition score_row (tenant : pystr) (query : list pyfloat) (filters : list (pystr * pystr))
    (threshold : pyfloat) (row : pystr * memory_row) : E (option (pyfloat * StoredMemory)) :=
  m ← decode_metadata (mr_metadata_json row.2);
  if filters_match filters m then
    item ← record_from_row tenant row m;
    score ← cosine_similarity query (embedding item);
    Ok (if flt score threshold then None else Some (score, item))
  else Ok None.

(** The loop over the scanned rows, with the cancellation polled before each. *)
Fixpoint recall_loop (cancelled : nat → bool) (tenant : pystr) (query : list pyfloat)
    (filters : list (pystr * pystr)) (threshold : pyfloat) (limit : Z)
    (rows : list (pystr * memory_row)) (n : nat) (sequence : Z) (heap : list candidate)
  : E (list candidate) :=
  match rows with
  | [] => Ok heap
  | row :: rows =>
      _ ← require (negb (cancelled n)) (MemoryStoreError 5);
      scored ← score_row tenant query filters threshold row;
      match scored with
      | None =>
          recall_loop cancelled tenant query filters threshold limit rows (S n) sequence heap
      | Some (score, item) =>
          recall_loop cancelled tenant query filters threshold limit rows (S n) (sequence + 1)
            (offer limit (score, sequence + 1, item) heap)
      end
  end.

Definition text_is (o : option pystr) (v : pystr) : bool :=
  match o with Some s => bool_decide (v = s) | None => true end.

(** The WHERE clause of [recall]. *)
Definition eligible (now : Z) (scope subj : option pystr) (row : pystr * memory_row) : bool :=
  bool_decide (mr_embedding_model_id row.2 = embedding_model_id prof)
  && (mr_embedding_dimensions row.2 =? embedding_dimensions prof)
  && unexpired now row.2 && text_is scope (mr_scope row.2) && text_is subj (mr_subject row.2).

(** [recall] *)
Definition recall (now : Z) (cancelled : nat → bool) (tenant : pystr) (query : list pyfloat)
    (scope subj : option pystr) (filters : list (pystr * pystr)) (min_similarity : pyfloat)
    (top_k : Z) (c : connection) : E (list ScoredMemory) :=
  tenant ← required_tenant tenant;
  query ← validated_vector query (embedding_dimensions prof);
  threshold ← bounded_similarity min_similarity;
  limit ← bounded_integer top_k 1 (max_top_k prof);
  filters ← validated_metadata filters;
  let rows := scan (List.filter (eligible now scope subj)
                      (in_scope tenant (memory_records (view c)))) in
  heap ← recall_loop cancelled tenant query filters threshold limit rows 0 0 [];
  Ok (map (λ x, Scored x.2 (c_score x)) (sort_ranked heap)).

(** ** Export and import *)

Definition after_ok (after : option pystr) (id : pystr) : bool :=
  match after with Some a => str_ltb a id | None => true end.

(** The rows of [export_batch]'s query. *)
Definition export_rows (now : Z) (tenant : pystr) (scope after : option pystr) (n : Z)
    (c : connection) : list (pystr * memory_row) :=
  take (Z.to_nat n)
    (sort_items (List.filter (λ row, after_ok after row.1
                                     && (unexpired now row.2 && text_is scope (mr_scope row.2)))
                   (in_scope tenant (memory_records (view c))))).

(** [export_batch] *)
Definition export_batch (now : Z) (tenant : pystr) (scope : option pystr) (limit : option Z)
    (page_token : option pystr) (c : connection) : E (list StoredMemory * pystr) :=
  tenant ← required_tenant tenant;
  maximum ← (match limit with
             | None => Ok (max_top_k prof)
             | Some l => bounded_integer l 1 (max_top_k prof)
             end);
  after ← decode_page_token page_token tenant scope;
  '(selected, next) ← page (λ id, encode_page_token id tenant scope) maximum
                        (export_rows now tenant scope after (maximum + 1) c);
  items ← mapR (read_row tenant) selected;
  Ok (items, next).

(** The checks [import_batch] makes of one item before the transaction. *)
Definition import_check (fresh tenant : pystr) (item : StoredMemory) : E StoredMemory :=
  let m := metadata item in
  _ ← require (declares_profile m) (MemoryStoreError 3);
  '(model, dims) ← profile_from_metadata m;
  let dims := default (embedding_dimensions prof) dims in
  let provider := default (provider_model_id prof) (assoc PROVIDER_MODEL_ID_KEY m) in
  _ ← require (bool_decide (model = embedding_model_id prof)
               && (dims =? embedding_dimensions prof)
               && bool_decide (provider = provider_model_id prof)) (MemoryStoreError 3);
  normalize_item fresh tenant
    (Stored (item_id item) (tenant_id item) (sm_scope item) (subject item) (content item)
       (embedding item) (with_profile_metadata m model dims (Some provider))
       (created_at_ms item) (expires_at_ms item) (ttl_seconds item)).

(** The row of one item inside the transaction. *)
Definition import_row (now : Z) (item : StoredMemory) : E memory_row :=
  '(model, dims) ← profile_from_metadata (metadata item);
  let dims := default (len (embedding item)) dims in
  let m := with_profile_metadata (metadata item) model dims None in
  blob ← pack_vector (embedding item) dims;
  text ← encode_metadata m;
  bound_row now item blob model dims text.

(** The loop of the transaction: the count, or the exception, and the
    database as the statements left it. *)
Fixpoint import_rows (now : Z) (overwrite : bool) (tenant : pystr) (items : list StoredMemory)
    (inserted : Z) (m : records) : E Z * records :=
  match items with
  | [] => (Ok inserted, m)
  | item :: items =>
      match import_row now item with
      | Err e => (Err e, m)
      | Ok row =>
          let k := (tenant, item_id item) in
          if bool_decide (is_Some (m !! k)) && negb overwrite
          then import_rows now overwrite tenant items inserted m
          else import_rows now overwrite tenant items (inserted + 1) (<[k := row]> m)
      end
  end.

(** What the [except] clause of [import_batch] catches. *)
Definition caught (e : mem_error) : bool :=
  match e with MemoryStoreError _ | ValueError => true | _ => false end.

(** [import_batch]; each item comes with the identifier [uuid4] would give it.
    [BEGIN IMMEDIATE] fails inside an open transaction. *)
Definition import_batch (now : Z) (tenant : pystr) (items : list (pystr * StoredMemory))
    (overwrite : bool) (c : connection) : E Z * connection :=
  match
    (tenant ← required_tenant tenant;
     _ ← require (len items <=? MAX_BATCH_ITEMS) (MemoryStoreError 4);
     normalized ← mapR (λ '(fresh, item), import_check fresh tenant item) items;
     _ ← require (bool_decide (NoDup (map item_id normalized))) ValueError;
     Ok (tenant, normalized))
  with
  | Err e => (Err e, c)
  | Ok (tenant, normalized) =>
      match working c with
      | Some _ => (Err (MemoryStoreError 5), rollback c)
      | None =>
          let '(r, m) := import_rows now overwrite tenant normalized 0 (memory_records (committed c)) in
          let d := with_records m (committed c) in
          match r with
          | Ok n => (Ok n, Connection d None)
          | Err e => (Err e, if caught e then c else Connection (committed c) (Some d))
          end
      end
  end.

(** ** Opening the database *)

(** [_profile_fingerprint] *)
Definition profile_fingerprint : E pystr :=
  match utf8_encode (dumps_sorted (JObj
    [(lit "document_prefix", JStr (document_prefix prof));
     (lit "dimensions", JInt (embedding_dimensions prof));
     (lit "profile_id", JStr (embedding_model_id prof));
     (lit "provider_model_id", JStr (provider_model_id prof));
     (lit "query_prefix", JStr (query_prefix prof))])) with
  | Some payload => Ok (sha256_hex payload)
  | None => Err ValueError
  end.

(** A stored row that names another provider model. *)
Definition check_provider (row : memory_row) : E () :=
  m ← decode_metadata (mr_metadata_json row);
  require (match assoc PROVIDER_MODEL_ID_KEY m with
           | Some ((_ :: _) as p) => bool_decide (p = provider_model_id prof)
           | _ => true
           end) ValueError.

(** [_migrate] on a database of schema [version]. *)
Definition migrate (version : Z) (d : database) : E database :=
  fingerprint ← profile_fingerprint;
  _ ← require (version <=? SCHEMA_VERSION) ValueError;
  let rows := (map_to_list (memory_records d)).*2 in
  match active_profile d with
  | None =>
      _ ← require (bool_decide (rows = [])
                   || (bool_decide (document_prefix prof = []) && bool_decide (query_prefix prof = [])
                       && bool_decide (embedding_model_id prof = provider_model_id prof))) ValueError;
      _ ← require (forallb (λ r, bool_decide (mr_embedding_model_id r = embedding_model_id prof)
                                 && (mr_embedding_dimensions r =? embedding_dimensions prof)) rows)
            ValueError;
      _ ← mapR check_provider rows;
      Ok (Database (memory_records d) (Some fingerprint))
  | Some stored =>
      if bool_decide (stored = fingerprint) then Ok d else
      _ ← require (bool_decide (rows = [])) ValueError;
      Ok (Database (memory_records d) (Some fingerprint))
  end.

(** ** The machine *)

Inductive memory_op :=
  | MoStore (now : Z) (fresh tenant : pystr) (item : StoredMemory)
  | MoDelete (tenant id : pystr)
  | MoPrune (now : Z) (before : option Z) (tenant : pystr)
  | MoImport (now : Z) (tenant : pystr) (items : list (pystr * StoredMemory)) (overwrite : bool).

Inductive memory_out :=
  | MrStore (r : E pystr)
  | MrDelete (r : E bool)
  | MrCount (r : E Z).

Definition memory_step (op : memory_op) (c : connection) : memory_out * connection :=
  match op with
  | MoStore now fresh tenant item =>
      let '(r, c) := store now fresh tenant item c in (MrStore r, c)
  | MoDelete tenant id => let '(r, c) := delete_item tenant id c in (MrDelete r, c)
  | MoPrune now before tenant => let '(r, c) := prune now before tenant c in (MrCount r, c)
  | MoImport now tenant items overwrite =>
      let '(r, c) := import_batch now tenant items overwrite c in (MrCount r, c)
  end.
End Store.
