(* ===== verification/MemoryFacts.v ===== *)
(** * Memory provider: what a stored item reads back as

    [store] followed by [get], the isolation of tenants, and what the rows of
    other keys keep. *)

From Stdlib Require Import ZArith NArith SpecFloat.
From S2P Require Import Prelude PyFloat PyText PyFloat32 Json Scoped MemoryStore.

#[local] Open Scope Z_scope.

(** ** Texts *)

Lemma required_text_ok s n v :
  required_text s n = Ok v →
  v = strip s ∧ v ≠ [] ∧ ∃ k, byte_len s = Ok k ∧ k <= n.
Proof.
  unfold required_text. intros H. inv_result. bools. split_and!; [done|done|].
  eexists. split; [done|]. by apply Z.leb_le.
Qed.

(** Stripping a text that passed does not make it fail. *)
Lemma required_text_fixed s n k :
  strip s = s → s ≠ [] → byte_len s = Ok k → k <= n → required_text s n = Ok s.
Proof.
  intros Hs Hne Hk Hn. unfold required_text. rewrite Hs, bool_decide_false by done.
  cbn [require negb mbind result_bind]. rewrite Hk. cbn [mbind result_bind].
  by rewrite (proj2 (Z.leb_le k n)).
Qed.

(** A text that passed passes again as it came out. *)
Lemma required_text_again s n v : required_text s n = Ok v → required_text v n = Ok v.
Proof.
  intros (-> & Hne & k & Hk & Hn)%required_text_ok. unfold byte_len in Hk.
  destruct (utf8_encode s) as [b|] eqn:Hb; [|done]. injection Hk as <-.
  apply utf8_encode_strip in Hb as (b' & Hb' & Hl).
  apply (required_text_fixed _ _ (len b')); [apply strip_idem|done| |unfold len in *; lia].
  unfold byte_len. by rewrite Hb'.
Qed.

Lemma required_tenant_ok s t : required_tenant s = Ok t → t = strip s ∧ required_text s 256 = Ok t.
Proof.
  unfold required_tenant. destruct (required_text s 256) eqn:E; [|done].
  intros [= ->]. by apply required_text_ok in E as H; destruct H as [-> _].
Qed.

(** ** Metadata *)

Lemma mapM_json_text (m : list (pystr * pystr)) :
  mapM json_text (map (λ '(k, v), (k, JStr v)) m) = Some m.
Proof. induction m as [|[k v] m IH]; [done|]. cbn. by rewrite IH. Qed.

(** Metadata reads back sorted by key. *)
Lemma decode_encode_metadata m text :
  NoDup m.*1 → encode_metadata m = Ok text → decode_metadata text = Ok (sort_items m).
Proof.
  intros Hnd. unfold encode_metadata. intros H. inv_result. unfold decode_metadata.
  rewrite loads_dumps_sorted by by apply JMap_ok.
  rewrite json_sort_JMap. unfold JMap. by rewrite mapM_json_text.
Qed.

Lemma profile_metadata_nodup m model dims provider :
  NoDup m.*1 → NoDup (with_profile_metadata m model dims provider).*1.
Proof. intros. unfold with_profile_metadata. by repeat apply dict_set_nodup. Qed.

(** The three profile keys are always there. *)
Lemma profile_metadata_keys m model dims provider k :
  k ∈ [MODEL_ID_KEY; DIMENSIONS_KEY; PROVIDER_MODEL_ID_KEY] →
  is_Some (assoc k (with_profile_metadata m model dims provider)).
Proof.
  unfold with_profile_metadata. intros Hk.
  destruct (decide (k = PROVIDER_MODEL_ID_KEY)) as [->|H3]; [by rewrite assoc_dict_set_eq|].
  rewrite assoc_dict_set_ne by done.
  destruct (decide (k = DIMENSIONS_KEY)) as [->|H2]; [by rewrite assoc_dict_set_eq|].
  rewrite assoc_dict_set_ne by done.
  destruct (decide (k = MODEL_ID_KEY)) as [->|H1]; [by rewrite assoc_dict_set_eq|].
  rewrite !elem_of_cons in Hk. exfalso. destruct Hk as [?|[?|[?|?%elem_of_nil]]]; done.
Qed.

Lemma set_default_present k v m : is_Some (assoc k m) → set_default k v m = m.
Proof. unfold set_default. by intros [? ->]. Qed.

(** ** Vectors *)

Lemma unpack_pack_vector values dims blob :
  pack_vector values dims = Ok blob → unpack_vector blob dims = Ok (map quantized values).
Proof.
  unfold pack_vector. intros H. inv_result.
  match goal with Hv : validated_vector _ _ = Ok _ |- _ => rename Hv into Hval end.
  unfold validated_vector in Hval. inv_result. bools.
  unfold unpack_vector, bounded_integer. cbn zeta.
  rewrite !Z.eqb_eq, !Z.leb_le in *. subst dims.
  rewrite (proj2 (Z.leb_le 1 _)), (proj2 (Z.leb_le _ 4096)) by done. cbn [andb require mbind result_bind].
  unfold len in *. rewrite length_map, Z.eqb_refl. cbn [require mbind result_bind].
  match goal with Hf : forallb is_finite (map of_f32 _) = true |- _ => rewrite Hf end.
  match goal with He : existsb nonzero (map of_f32 _) = true |- _ => rewrite He end.
  cbn. by rewrite map_map.
Qed.

(** ** Storing and reading back *)

Section Facts.
Context (py_int : pystr → option Z) (prof : profile).
Implicit Types (c : connection) (item record : StoredMemory).

(** The identifier [uuid4().hex] gives has no white space at its ends. *)
Definition fresh_ok (fresh : pystr) : Prop := strip (lit "mem_" ++ fresh) = lit "mem_" ++ fresh.

Record normalized (t : pystr) (record : StoredMemory) : Prop := {
  nz_tenant : tenant_id record = t;
  nz_id : required_text (item_id record) MAX_ITEM_ID_BYTES = Ok (item_id record);
  nz_keys : NoDup (metadata record).*1;
  nz_profile : ∀ k, k ∈ [MODEL_ID_KEY; DIMENSIONS_KEY; PROVIDER_MODEL_ID_KEY] →
    is_Some (assoc k (metadata record))
}.

Lemma normalize_item_tenant fresh tenant t item record :
  required_tenant tenant = Ok t →
  normalize_item py_int prof fresh t item = Ok record → tenant_id record = t.
Proof.
  intros Ht H. unfold normalize_item in H. inv_result. bools.
  match goal with Hk : (let '(_, _) := ?p in _) = _ |- _ => destruct p end. inv_result.
  cbn [tenant_id]. apply required_tenant_ok in Ht as [-> _].
  match goal with Hx : required_tenant (strip _) = Ok _ |- _ =>
    apply required_tenant_ok in Hx as [Hx _]; rewrite strip_idem in Hx end. congruence.
Qed.

Lemma normalize_item_ok fresh tenant t item record :
  required_tenant tenant = Ok t → fresh_ok fresh → NoDup (metadata item).*1 →
  normalize_item py_int prof fresh t item = Ok record → normalized t record.
Proof.
  intros Ht Hfresh Hkeys H. pose proof (normalize_item_tenant _ _ _ _ _ Ht H) as Hten.
  unfold normalize_item in H. inv_result. bools.
  match goal with Hk : (let '(_, _) := ?p in _) = _ |- _ => destruct p end. inv_result.
  assert (Hm : v6 = metadata item) by (unfold validated_metadata in *; by inv_result).
  subst v6. split; cbn [tenant_id item_id metadata].
  - done.
  - match goal with Hx : required_text _ MAX_ITEM_ID_BYTES = Ok _ |- _ =>
      destruct (required_text_ok _ _ _ Hx) as (Hid & Hne & k & Hlen & Hle); clear Hx end.
    assert (Hs : strip (match strip (item_id item) with [] => lit "mem_" ++ fresh | n :: l => n :: l end)
                 = match strip (item_id item) with [] => lit "mem_" ++ fresh | n :: l => n :: l end).
    { destruct (strip (item_id item)) eqn:E; [done|]. by rewrite <- E, strip_idem. }
    rewrite Hs in *. subst. by apply (required_text_fixed _ _ k).
  - by apply profile_metadata_nodup.
  - intros k. apply profile_metadata_keys.
Qed.

(** What the store returns for a normalized item. *)
Definition as_stored (now : Z) (record : StoredMemory) : StoredMemory :=
  let created := or_now (created_at_ms record) now in
  Stored (item_id record) (tenant_id record) (sm_scope record) (subject record) (content record)
    (map quantized (embedding record)) (sort_items (metadata record)) created
    (effective_expiry created (expires_at_ms record) (ttl_seconds record)) (ttl_seconds record).

(** Neither the deadline nor the time to live of an item stored at [now] has
    passed at [now']. *)
Definition live (now now' : Z) (record : StoredMemory) : bool :=
  match expires_at_ms record with Some e => now' <? e | None => true end
  && match ttl_seconds record with
     | Some ttl => now' <? or_now (created_at_ms record) now + ttl * 1000
     | None => true
     end.

Lemma effective_expiry_live now created expires ttl :
  match effective_expiry created expires ttl with Some e => now <? e | None => true end
  = match expires with Some e => now <? e | None => true end
    && match ttl with Some t => now <? created + t * 1000 | None => true end.
Proof.
  destruct expires as [e|], ttl as [t|]; cbn [effective_expiry]; rewrite ?andb_true_r; try done.
  apply eq_true_iff_eq. rewrite andb_true_iff, !Z.ltb_lt. lia.
Qed.

Lemma sql_int_opt_ok o o' : sql_int_opt o = Ok o' → o' = o.
Proof. destruct o; cbn; intros H; [unfold sql_int in H|]; by inv_result. Qed.

Lemma bound_row_ok now record blob model dims text row :
  bound_row now record blob model dims text = Ok row →
  let created := or_now (created_at_ms record) now in
  row = MemoryRow (sm_scope record) (subject record) (content record) blob model dims text created
          (effective_expiry created (expires_at_ms record) (ttl_seconds record))
          (ttl_seconds record).
Proof.
  unfold bound_row. intros H. inv_result. unfold sql_int in Hv. inv_result.
  match goal with H1 : sql_int_opt _ = Ok ?a, H2 : sql_int_opt _ = Ok ?b |- _ =>
    apply sql_int_opt_ok in H1, H2; by subst end.
Qed.

(** Reading the row of a normalized item. *)
Lemma read_bound_row now t record blob text row dims :
  normalized t record →
  pack_vector (embedding record) dims = Ok blob →
  encode_metadata (metadata record) = Ok text →
  bound_row now record blob (embedding_model_id prof) dims text = Ok row →
  read_row prof t (item_id record, row) = Ok (as_stored now record)
  ∧ (∀ now', unexpired now' row = live now now' record).
Proof.
  intros [Ht Hid Hkeys Hprof] Hblob Htext Hrow%bound_row_ok. cbn zeta in Hrow. subst row.
  split; [|intros now'; apply effective_expiry_live].
  apply unpack_pack_vector in Hblob. apply (decode_encode_metadata _ _ Hkeys) in Htext.
  unfold read_row, record_from_row.
  cbn [mr_embedding mr_embedding_dimensions mr_metadata_json mr_embedding_model_id fst snd].
  rewrite Hblob, Htext. cbn [mbind result_bind].
  assert (Hd : ∀ k v m, k ∈ [MODEL_ID_KEY; DIMENSIONS_KEY; PROVIDER_MODEL_ID_KEY] →
    m = sort_items (metadata record) → set_default k v m = m).
  { intros k v m Hk ->. apply set_default_present.
    rewrite (assoc_perm k _ (metadata record)); [by apply Hprof| |apply sort_items_perm].
    by rewrite sort_items_perm. }
  rewrite (Hd MODEL_ID_KEY _ _ ltac:(set_solver) eq_refl).
  rewrite (Hd DIMENSIONS_KEY _ _ ltac:(set_solver) eq_refl).
  rewrite (Hd PROVIDER_MODEL_ID_KEY _ _ ltac:(set_solver) eq_refl).
  unfold as_stored. by rewrite Ht.
Qed.

Lemma view_write d c : view (write d c) = d.
Proof. unfold view, write. by destruct (working c). Qed.

(** What is stored is read back.  A [store] that returns an identifier has
    normalised the item; from then on a [get] of that identifier by the tenant
    returns the normalised item with the vector rounded to binary32, the
    metadata in key order, for as long as neither its deadline nor its time to
    live has passed, and nothing afterwards; every row of another identifier or another tenant is as it
    was. *)
Theorem store_get_roundtrip now fresh tenant item c id c' :
  fresh_ok fresh → NoDup (metadata item).*1 →
  store py_int prof now fresh tenant item c = (Ok id, c') →
  ∃ t record,
    required_tenant tenant = Ok t
    ∧ normalize_item py_int prof fresh t item = Ok record ∧ id = item_id record
    ∧ (∀ now', get prof now' tenant id c'
               = Ok (if live now now' record then Some (as_stored now record) else None))
    ∧ (∀ k, k ≠ (t, id) → memory_records (view c') !! k = memory_records (view c) !! k).
Proof.
  intros Hfresh Hkeys. unfold store.
  destruct (store_checked _ _ _ _ _ _) as [[record row]|] eqn:Hs; [|done].
  intros [= <- <-]. unfold store_checked in Hs. inv_result. rename v into t.
  pose proof (normalize_item_ok _ _ _ _ _ Hv Hfresh Hkeys Hv0) as Hn.
  destruct (read_bound_row _ t _ _ _ _ _ Hn Hv1 Hv2 Hv3) as [Hread Hlive].
  exists t, record. rewrite view_write. destruct Hn as [Ht Hid _ _].
  split_and!; try done.
  - intros now'. unfold get. rewrite Hv. cbn [mbind result_bind]. rewrite Hid.
    cbn [mbind result_bind]. rewrite view_write. cbn [with_records memory_records].
    rewrite <- Ht, lookup_insert_eq, Hlive. case_match; [|done].
    rewrite Ht, Hread. done.
  - intros k Hk. cbn. apply lookup_insert_ne. rewrite Ht. by intros <-.
Qed.
End Facts.
