(* ===== verification/MemoryRecall.v ===== *)
(** * Memory provider: recall returns a best selection

    The bounded heap of [recall] keeps the [top_k] best scores of the rows that
    match, whatever the order in which they are scanned. *)

From Stdlib Require Import ZArith NArith SpecFloat Sorted Permutation.
From stdpp Require Import sorting.
From S2P Require Import Prelude PyFloat PyText Json Scoped MemoryStore.

#[local] Open Scope Z_scope.

(** ** Selecting with a bounded heap *)

(** [better a b]: [a] scores at least as much as [b]. *)
Definition better (a b : candidate) : Prop := fle (c_score b) (c_score a) = true.
Definition scored_num (x : candidate) : Prop := num (c_score x).

Definition select_best (limit : Z) (xs heap : list candidate) : list candidate :=
  foldl (λ h x, offer limit x h) heap xs.

Section Heap.
Implicit Types (x y : candidate) (heap : list candidate).

Lemma not_flt_fle x y :
  scored_num x → scored_num y → flt (c_score x) (c_score y) = false → better x y.
Proof.
  intros Hx Hy H. unfold better. rewrite flt_not_fle in H by done.
  by apply negb_false_iff in H.
Qed.

Lemma better_trans x y z : better x y → better y z → better x z.
Proof. unfold better. intros H1 H2. by eapply fle_trans. Qed.

Lemma entry_lt_cases x y :
  scored_num x → scored_num y → if entry_lt x y then better y x else better x y.
Proof.
  intros Hx Hy. unfold entry_lt.
  destruct (flt (c_score x) (c_score y)) eqn:E1; cbn [orb]; [by apply flt_fle|].
  destruct (flt (c_score y) (c_score x)) eqn:E2; cbn [negb andb]; [by apply flt_fle|].
  case_match; by apply not_flt_fle.
Qed.

(** The heap's list is ascending in the score. *)
Abbreviation ascending := (StronglySorted (λ x y, better y x)).

Lemma heap_push_perm x heap : heap_push x heap ≡ₚ x :: heap.
Proof.
  induction heap as [|y heap IH]; cbn; [done|]. case_match; [done|].
  rewrite IH. apply perm_swap.
Qed.

Lemma heap_push_ascending x heap :
  scored_num x → Forall scored_num heap → ascending heap → ascending (heap_push x heap).
Proof.
  intros Hx. induction heap as [|y heap IH]; cbn; intros Hn Hs; [by repeat constructor|].
  apply Forall_cons in Hn as [Hy Hn]. apply StronglySorted_inv in Hs as [Hs Hall].
  pose proof (entry_lt_cases x y Hx Hy) as Hc. destruct (entry_lt x y).
  - constructor; [by constructor|]. constructor; [done|].
    eapply Forall_impl; [exact Hall|]. intros z Hz. cbn in Hz. by apply (better_trans _ y).
  - constructor; [by apply IH|]. rewrite heap_push_perm. by constructor.
Qed.

(** A heap that keeps the best [limit] of what was offered, with what it
    dropped. *)
Record keeps_best (limit : Z) (offered heap dropped : list candidate) : Prop := {
  kb_perm : offered ≡ₚ heap ++ dropped;
  kb_len : len heap = Z.min limit (len offered);
  kb_sorted : ascending heap;
  kb_best : ∀ x d, x ∈ heap → d ∈ dropped → better x d
}.

Lemma keeps_best_num limit offered heap dropped :
  keeps_best limit offered heap dropped → Forall scored_num offered →
  Forall scored_num heap ∧ Forall scored_num dropped.
Proof. intros [Hp _ _ _]. rewrite Hp. apply Forall_app. Qed.

Lemma offer_keeps_best limit offered heap dropped x :
  1 <= limit → scored_num x → Forall scored_num offered →
  keeps_best limit offered heap dropped →
  ∃ dropped', keeps_best limit (x :: offered) (offer limit x heap) dropped'.
Proof.
  intros Hl Hx Hn Hk. destruct (keeps_best_num _ _ _ _ Hk Hn) as [Hh _].
  destruct Hk as [Hp Hlen Hs Hb]. unfold offer.
  destruct (len heap <? limit) eqn:Hroom; rewrite ?Z.ltb_lt, ?Z.ltb_ge in Hroom.
  - assert (Hd : dropped = []).
    { apply Permutation_length in Hp.
      rewrite length_app in Hp. destruct dropped; [done|]. unfold len in *. cbn in Hp. lia. }
    subst dropped. exists []. rewrite app_nil_r in Hp. split.
    + by rewrite app_nil_r, heap_push_perm, Hp.
    + unfold len in *. rewrite (Permutation_length (heap_push_perm x heap)). cbn. lia.
    + by apply heap_push_ascending.
    + intros ? d _ Hd. by apply elem_of_nil in Hd.
  - destruct heap as [|y rest]; [unfold len in *; cbn in *; lia|].
    apply Forall_cons in Hh as [Hy Hr]. apply StronglySorted_inv in Hs as [Hs Hall].
    rewrite Forall_forall in Hall.
    destruct (flt (c_score y) (c_score x)) eqn:Hyx.
    + exists (y :: dropped). apply flt_fle in Hyx. split.
      * rewrite heap_push_perm, Hp. cbn. f_equiv. by rewrite Permutation_middle.
      * unfold len in *. rewrite (Permutation_length (heap_push_perm x rest)). cbn in *. lia.
      * by apply heap_push_ascending.
      * intros z d. rewrite heap_push_perm, !elem_of_cons.
        assert (Hyd : ∀ d, d ∈ dropped → better y d) by (intros; apply Hb; [by left|done]).
        intros [->|Hz] [->|Hd]; [done| |by apply Hall|apply Hb; [by right|done]].
        eapply better_trans; [exact Hyx | by apply Hyd].
    + apply not_flt_fle in Hyx; [|done..]. exists (x :: dropped). split.
      * by rewrite Hp, <- Permutation_middle.
      * unfold len in *. cbn in *. lia.
      * constructor; [done|]. by apply Forall_forall.
      * intros z d Hz. rewrite elem_of_cons. intros [->|Hd]; [|by apply Hb].
        apply elem_of_cons in Hz as [->|Hz]; [done|].
        apply (better_trans _ y); [by apply Hall | done].
Qed.

Lemma select_best_keeps limit xs offered heap dropped :
  1 <= limit → Forall scored_num xs → Forall scored_num offered →
  keeps_best limit offered heap dropped →
  ∃ dropped', keeps_best limit (rev xs ++ offered) (select_best limit xs heap) dropped'.
Proof.
  intros Hl. revert offered heap dropped.
  induction xs as [|x xs IH]; intros offered heap dropped Hxs Hn Hk; [by exists dropped|].
  apply Forall_cons in Hxs as [Hx Hxs].
  destruct (offer_keeps_best limit offered heap dropped x Hl Hx Hn Hk) as [d' Hk'].
  destruct (IH (x :: offered) _ d' Hxs ltac:(by constructor) Hk') as [d'' Hk''].
  exists d''. cbn [rev]. rewrite <- app_assoc. exact Hk''.
Qed.

(** ** The final sort *)

Lemma ranked_lt_cases x y :
  scored_num x → scored_num y → if ranked_lt x y then better x y else better y x.
Proof.
  intros Hx Hy. unfold ranked_lt.
  destruct (flt (c_score y) (c_score x)) eqn:E1; cbn [orb]; [by apply flt_fle|].
  destruct (flt (c_score x) (c_score y)) eqn:E2; cbn [negb andb]; [by apply flt_fle|].
  case_match; by apply not_flt_fle.
Qed.

Lemma insert_ranked_perm x l : insert_ranked x l ≡ₚ x :: l.
Proof.
  induction l as [|y l IH]; cbn; [done|]. case_match; [done|]. rewrite IH. apply perm_swap.
Qed.

Lemma sort_ranked_perm l : sort_ranked l ≡ₚ l.
Proof. induction l as [|x l IH]; cbn; [done|]. by rewrite insert_ranked_perm, IH. Qed.

Lemma insert_ranked_sorted x l :
  scored_num x → Forall scored_num l → StronglySorted better l →
  StronglySorted better (insert_ranked x l).
Proof.
  intros Hx. induction l as [|y l IH]; cbn; intros Hn Hs; [by repeat constructor|].
  apply Forall_cons in Hn as [Hy Hn]. apply StronglySorted_inv in Hs as [Hs Hall].
  pose proof (ranked_lt_cases x y Hx Hy) as Hc. destruct (ranked_lt x y).
  - constructor; [by constructor|]. constructor; [done|].
    eapply Forall_impl; [exact Hall|]. intros z Hz. cbn in Hz. by apply (better_trans _ y).
  - constructor; [by apply IH|]. rewrite insert_ranked_perm. by constructor.
Qed.

Lemma sort_ranked_sorted l : Forall scored_num l → StronglySorted better (sort_ranked l).
Proof.
  induction l as [|x l IH]; cbn; intros Hn; [constructor|].
  apply Forall_cons in Hn as [Hx Hn]. apply insert_ranked_sorted; [done| |by apply IH].
  by rewrite sort_ranked_perm.
Qed.
End Heap.

(** ** Scores *)

Section Recall.
Context (float_sum : list pyfloat → pyfloat).
Context (scan : list (pystr * memory_row) → list (pystr * memory_row)).
Context (prof : profile).

Lemma cosine_num left right s : cosine_similarity float_sum left right = Ok s → num s.
Proof.
  unfold cosine_similarity. case_match; [by intros [= <-]|].
  set (ln := fsqrt _). set (rn := fsqrt _). case_match; [by intros [= <-]|].
  destruct (require _ _); [|done]. cbn [mbind result_bind]. intros [= <-].
  apply (fdiv_num _ false 4503599627370496 (-51)), fadd_num; [apply clamp_finite | by vm_compute].
Qed.

Lemma score_row_spec tenant query filters threshold row s item :
  score_row float_sum prof tenant query filters threshold row = Ok (Some (s, item)) →
  num s ∧ flt s threshold = false.
Proof.
  unfold score_row. destruct (decode_metadata _); [|done]. cbn [mbind result_bind].
  case_match; [|done]. destruct (record_from_row _ _ _ _); [|done]. cbn [mbind result_bind].
  destruct (cosine_similarity _ _ _) eqn:Hc; [|done]. cbn [mbind result_bind].
  case_match; [done|]. intros [= <- <-]. split; [by eapply cosine_num | done].
Qed.

(** The scored rows with their sequence numbers. *)
Fixpoint number (sequence : Z) (l : list (pyfloat * StoredMemory)) : list candidate :=
  match l with
  | [] => []
  | (s, item) :: l => (s, sequence + 1, item) :: number (sequence + 1) l
  end.

Definition to_scored (x : candidate) : pyfloat * StoredMemory := (c_score x, x.2).

Lemma to_scored_number n l : map to_scored (number n l) = l.
Proof. revert n. induction l as [|[s i] l IH]; intros n; [done|]. cbn. by rewrite IH. Qed.

Lemma recall_loop_select tenant query filters threshold limit rows scored n sequence heap :
  mapR (score_row float_sum prof tenant query filters threshold) rows = Ok scored →
  recall_loop float_sum prof (λ _, false) tenant query filters threshold limit rows n sequence heap
  = Ok (select_best limit (number sequence (omap id scored)) heap).
Proof.
  revert n sequence heap scored.
  induction rows as [|row rows IH]; intros n sequence heap scored Hm; cbn in *; [by injection Hm as <-|].
  destruct (score_row _ _ _ _ _ _ row) as [x|]; [|done]. cbn [mbind result_bind] in *.
  destruct (mapR _ rows) as [xs|] eqn:Hr; [|done]. cbn in Hm. injection Hm as <-.
  destruct x as [[s item]|]; cbn; by apply IH.
Qed.

Lemma scored_nums tenant query filters threshold rows scored :
  mapR (score_row float_sum prof tenant query filters threshold) rows = Ok scored →
  Forall (λ x, num x.1 ∧ flt x.1 threshold = false) (omap id scored).
Proof.
  revert scored. induction rows as [|row rows IH]; cbn; intros scored Hm;
    [injection Hm as <-; constructor|].
  destruct (score_row _ _ _ _ _ _ row) as [x|] eqn:Hx; [|done]. cbn [mbind result_bind] in Hm.
  destruct (mapR _ rows) as [xs|]; [|done]. cbn in Hm. injection Hm as <-.
  destruct x as [[s item]|]; cbn; [|by apply IH].
  constructor; [|by apply IH]. by apply score_row_spec in Hx.
Qed.

Lemma number_nums n l : Forall (λ x, num x.1) l → Forall scored_num (number n l).
Proof.
  revert n. induction l as [|[s i] l IH]; intros n; cbn; [done|].
  intros [Hx Hl]%Forall_cons. constructor; [done | by apply IH].
Qed.

(** [recall]'s rows: what the WHERE clause leaves of the tenant. *)
Definition recall_rows (now : Z) (tenant : pystr) (scope subj : option pystr) (c : connection)
  : list (pystr * memory_row) :=
  List.filter (eligible prof now scope subj) (in_scope tenant (memory_records (view c))).

(** The first result in a list is the highest. *)
Definition descending : list ScoredMemory → Prop :=
  StronglySorted (λ a b, fle (sc_score b) (sc_score a) = true).

(** The arguments [recall] accepts, with the tenant it searches. *)
Definition recall_accepts (tenant t : pystr) (query : list pyfloat)
    (filters : list (pystr * pystr)) (min_similarity : pyfloat) (top_k : Z) : Prop :=
  required_tenant tenant = Ok t
  ∧ validated_vector query (embedding_dimensions prof) = Ok query
  ∧ bounded_similarity min_similarity = Ok min_similarity
  ∧ bounded_integer top_k 1 (max_top_k prof) = Ok top_k
  ∧ validated_metadata filters = Ok filters.

(** C35. Recall returns a best selection, whatever the order of the scan: for
    accepted arguments, when every row of the tenant that the query selects
    can be read and scored, [recall] returns; its results are scored rows of
    that tenant, in descending order of score and none under the threshold;
    there are [top_k] of them, or all when fewer match; and no matching row
    that was left out scores higher than one that was returned. *)
Theorem recall_top_k now tenant t query scope subj filters min_similarity top_k c scored :
  (∀ l, scan l ≡ₚ l) →
  recall_accepts tenant t query filters min_similarity top_k →
  mapR (score_row float_sum prof t query filters min_similarity)
    (recall_rows now t scope subj c) = Ok scored →
  ∃ results dropped,
    recall float_sum scan prof now (λ _, false) tenant query scope subj filters min_similarity
      top_k c = Ok results
    ∧ omap id scored ≡ₚ map (λ r, (sc_score r, sc_item r)) results ++ dropped
    ∧ descending results
    ∧ len results = Z.min top_k (len (omap id scored))
    ∧ (∀ r, r ∈ results → flt (sc_score r) min_similarity = false)
    ∧ (∀ r d, r ∈ results → d ∈ dropped → fle d.1 (sc_score r) = true).
Proof.
  intros Hscan (Ht & Hq & Hs & Hk & Hf) Hscored.
  assert (Hlim : 1 <= top_k).
  { revert Hk. unfold bounded_integer. destruct (require _ _) as [[]|] eqn:E; [|done].
    apply require_ok in E. lia. }
  destruct (mapR_perm _ _ _ _ (symmetry (Hscan (recall_rows now t scope subj c))) Hscored)
    as (scanned & Hscanned & Hperm).
  pose proof (scored_nums _ _ _ _ _ _ Hscanned) as Hnums.
  set (xs := number 0 (omap id scanned)).
  assert (Hxs : Forall scored_num xs).
  { apply number_nums. eapply Forall_impl; [exact Hnums|]. by intros x []. }
  destruct (select_best_keeps top_k xs [] [] [] Hlim Hxs ltac:(constructor)) as [dropped Hkeep].
  { split; [done|unfold len; cbn; lia|constructor|]. intros ? ? Hx%elem_of_nil. done. }
  rewrite app_nil_r in Hkeep.
  destruct (keeps_best_num _ _ _ _ Hkeep ltac:(by apply Forall_rev)) as [Hheap _].
  destruct Hkeep as [Hp Hlen _ Hbest]. set (heap := select_best top_k xs []) in *.
  exists (map (λ x, Scored x.2 (c_score x)) (sort_ranked heap)), (map to_scored dropped).
  rewrite !map_map, (map_ext _ to_scored) by by intros.
  split_and!.
  - unfold recall. rewrite Ht. cbn [mbind result_bind]. rewrite Hq. cbn [mbind result_bind].
    rewrite Hs. cbn [mbind result_bind]. rewrite Hk. cbn [mbind result_bind].
    rewrite Hf. cbn [mbind result_bind].
    fold (recall_rows now t scope subj c).
    by rewrite (recall_loop_select _ _ _ _ _ _ _ _ _ _ Hscanned).
  - rewrite <- map_app, sort_ranked_perm, <- Hp, <- (Permutation_rev xs).
    subst xs. by rewrite to_scored_number, Hperm.
  - apply (StronglySorted_fmap _ better); [done|]. by apply sort_ranked_sorted.
  - assert (Hxl : length (rev xs) = length (omap id scored)).
    { pose proof (f_equal length (to_scored_number 0 (omap id scanned))) as Hx.
      rewrite length_map in Hx. by rewrite length_rev, Hperm. }
    unfold len in *. rewrite length_map, sort_ranked_perm. by rewrite <- Hxl.
  - intros r (x & -> & Hx)%list_elem_of_fmap. rewrite sort_ranked_perm in Hx. cbn.
    assert (Hin : to_scored x ∈ omap id scanned).
    { rewrite <- (to_scored_number 0 (omap id scanned)). apply list_elem_of_fmap_2.
      fold xs. rewrite (Permutation_rev xs), Hp, elem_of_app. by left. }
    rewrite Forall_forall in Hnums. by apply Hnums in Hin as [_ ?].
  - intros r d (x & -> & Hx)%list_elem_of_fmap (y & -> & Hy)%list_elem_of_fmap.
    rewrite sort_ranked_perm in Hx. by apply Hbest.
Qed.
End Recall.
