(* ===== verification/MemoryExport.v ===== *)
(** * Memory provider: paging through an export

    The page tokens of [export_batch] read back as the identifier they were
    made from, so following them returns every live row of the tenant once. *)

From Stdlib Require Import ZArith NArith SpecFloat.
From S2P Require Import Prelude PyFloat PyText Json Base64 Scoped MemoryStore MemoryFacts.
From S2P Require Import MemoryRecall.

#[local] Open Scope Z_scope.

(** ** Tokens *)

Lemma url_char_id c : is_b64url c = true → url_char c = c ∧ (c =? 61)%N = false.
Proof.
  unfold url_char. intros H. destruct (N.eqb_spec c 43) as [->|_]; [done|].
  destruct (N.eqb_spec c 47) as [->|_]; [done|]. destruct (N.eqb_spec c 61) as [->|_]; done.
Qed.

Lemma span_padding t n :
  forallb is_b64url t = true →
  span (λ c, negb (c =? 61)%N) (t ++ repeat 61%N n) = (t, repeat 61%N n).
Proof.
  induction t as [|c t IH]; cbn; [by destruct n|]. intros [Hc Ht]%andb_true_iff.
  apply url_char_id in Hc as [_ Hc]. by rewrite Hc, IH.
Qed.

Lemma b64decode_encode bs :
  Forall byte_ok bs →
  let t := b64url_encode bs in
  b64decode (t ++ repeat 61%N (Z.to_nat (- len t mod 4))) = Some bs.
Proof.
  intros Hb. cbn zeta. pose proof (b64url_encode_alphabet bs) as Ha.
  unfold b64decode. rewrite span_padding by done. rewrite bool_decide_true by done.
  assert (Hm : map url_char (b64url_encode bs) = b64url_encode bs).
  { revert Ha. generalize (b64url_encode bs). intros t. induction t as [|c t IH]; cbn; [done|].
    intros [Hc Ht]%andb_true_iff. apply url_char_id in Hc as [-> _]. by rewrite IH. }
  rewrite Hm. by apply b64url_decode_encode.
Qed.

Lemma utf8_char_scalar c b : utf8_char c = Some b → scalar c = true.
Proof.
  unfold utf8_char, scalar, between. intros H.
  destruct (N.ltb_spec c 55296); [done|]. cbn [orb].
  rewrite !(proj2 (N.ltb_ge c _)) in H by lia.
  destruct (N.ltb_spec c 65536).
  - destruct (N.leb_spec 57344 c); cbn [andb]; [apply N.leb_le; lia|].
    rewrite (proj2 (N.leb_le 55296 c)), (proj2 (N.leb_le c 57343)) in H by lia. done.
  - destruct (N.ltb_spec c 1114112); [|done]. apply andb_true_iff. rewrite !N.leb_le. lia.
Qed.

Lemma byte_len_scalar s n : byte_len s = Ok n → forallb scalar s = true.
Proof.
  unfold byte_len. destruct (utf8_encode s) as [b|] eqn:E; [|done]. intros _.
  revert b E. induction s as [|c s IH]; cbn; intros b E; [done|].
  destruct (utf8_char c) as [b1|] eqn:Ec; [|done]. destruct (utf8_encode s) as [b2|] eqn:Es; [|done].
  apply utf8_char_scalar in Ec as ->. by eapply IH.
Qed.

Lemma required_text_scalar s n v : required_text s n = Ok v → forallb scalar v = true.
Proof.
  intros (-> & _ & k & Hk & _)%required_text_ok. by eapply strip_forallb, byte_len_scalar.
Qed.

Lemma token_fields_encode id tenant scope tok :
  forallb scalar id = true → forallb scalar tenant = true →
  match scope with Some s => forallb scalar s = true | None => True end →
  encode_page_token id tenant scope = Ok tok →
  token_fields tok
  = Some [(lit "after", JStr id); (lit "scope", match scope with Some s => JStr s | None => JNull end);
          (lit "tenant", JStr tenant)].
Proof.
  intros Hi Ht Hs. unfold encode_page_token.
  destruct (utf8_encode _) as [payload|] eqn:E; [|done]. intros [= <-].
  unfold token_fields. rewrite b64decode_encode by by eapply utf8_encode_bytes.
  cbn [mbind option_bind]. rewrite (utf8_decode_encode _ _ E). cbn [mbind option_bind].
  unfold token_json. rewrite loads_dumps_ascii_plain; [done..| |].
  - by apply (bool_decide_unpack _); vm_compute.
  - repeat constructor; cbn; try done. by destruct scope.
Qed.

(** A token that fits comes back as its identifier. *)
Lemma decode_encode_page_token id tenant scope tok :
  required_text id MAX_ITEM_ID_BYTES = Ok id → forallb scalar tenant = true →
  match scope with Some s => forallb scalar s = true | None => True end →
  encode_page_token id tenant scope = Ok tok → len tok <= 1024 →
  tok ≠ [] ∧ decode_page_token (Some tok) tenant scope = Ok (Some id).
Proof.
  intros Hid Ht Hs He Hlen.
  pose proof (token_fields_encode _ _ _ _ (required_text_scalar _ _ _ Hid) Ht Hs He) as Hf.
  destruct tok as [|c tok]; [done|]. split; [done|].
  unfold decode_page_token. rewrite (proj2 (Z.leb_le _ _)) by done. cbn [require mbind result_bind].
  rewrite Hf. set (kvs := [_; _; _]).
  assert (H1 : assoc (lit "tenant") kvs = Some (JStr tenant)) by done.
  assert (H2 : assoc (lit "scope") kvs = Some (match scope with Some s => JStr s | None => JNull end))
    by done.
  assert (H3 : assoc (lit "after") kvs = Some (JStr id)) by done.
  rewrite H1, H2, H3. cbn [is_text]. rewrite bool_decide_true by done.
  assert (Hsc : is_scope (Some (match scope with Some s => JStr s | None => JNull end)) scope = true).
  { destruct scope; cbn; [|done]. by rewrite bool_decide_true. }
  rewrite Hsc. cbn [andb require mbind result_bind]. by rewrite Hid.
Qed.

(** ** Following the tokens of an export *)

Section Exports.
Context (prof : profile).

Definition exported (now : Z) (scope : option pystr) (row : pystr * memory_row) : bool :=
  unexpired now row.2 && text_is scope (mr_scope row.2).

(** C36. An export is complete.  When the identifiers of the tenant's rows are
    the ones [store] accepts and their page tokens fit in the 1024 characters
    that are read back, following the page tokens of [export_batch] from the
    first page over an unchanged table returns exactly the live rows of the
    tenant that the scope filter selects, each once and in identifier order,
    whatever the page size. *)
Theorem export_complete now tenant t scope limit c fuel :
  required_tenant tenant = Ok t →
  match scope with Some s => forallb scalar s = true | None => True end →
  bounded_integer limit 1 (max_top_k prof) = Ok limit →
  (∀ id r, memory_records (view c) !! (t, id) = Some r →
     required_text id MAX_ITEM_ID_BYTES = Ok id
     ∧ ∃ tok, encode_page_token id t scope = Ok tok ∧ len tok <= 1024) →
  (length (in_scope t (memory_records (view c))) <= fuel)%nat →
  collect OverflowError
    (λ token, export_batch prof now tenant scope (Some limit) token c) fuel None
  = mapR (read_row prof t)
      (sort_items (List.filter (exported now scope) (in_scope t (memory_records (view c))))).
Proof.
  intros Ht Hscope Hlim Hids Hfuel.
  assert (Hpos : 1 <= limit).
  { revert Hlim. unfold bounded_integer. intros H. inv_result. bools. lia. }
  assert (Hts : forallb scalar t = true).
  { apply required_tenant_ok in Ht as [_ H]. by eapply required_text_scalar. }
  set (rows := in_scope t (memory_records (view c))) in *.
  rewrite (collect_ext _ _ (fetch_page (exported now scope) rows limit (read_row prof t)
    (λ id, encode_page_token id t scope)
    (λ token, after ← decode_page_token token t scope; Ok (default [] after)))).
  - apply collect_all; [apply nodup_in_scope|done| | | |].
    + intros r [_ Hr]%matching_in_scope. apply Hids in Hr as (Hid & tok & He & _). rewrite He.
      split; [|done]. by apply required_text_ok in Hid as (_ & ? & _).
    + done.
    + intros r tok [_ Hr]%matching_in_scope He. apply Hids in Hr as (Hid & tok' & He' & Hl).
      rewrite He in He'. injection He' as <-.
      destruct (decode_encode_page_token _ _ _ _ Hid Hts Hscope He Hl) as [Hne Hd].
      split; [done|]. by rewrite Hd.
    + etrans; [apply length_matching|done].
  - intros token. unfold export_batch, fetch_page. rewrite Ht. cbn [mbind result_bind].
    rewrite Hlim. cbn [mbind result_bind].
    destruct (decode_page_token token t scope) as [after|]; [|done]. cbn [mbind result_bind].
    unfold export_rows, keyset. do 4 f_equal. fold rows. apply filter_ext_in.
    intros [id r] Hr%list_elem_of_In%elem_in_scope. f_equal. destruct after as [a|]; [done|].
    cbn. symmetry. apply str_ltb_nil. apply Hids in Hr as [Hid _].
    by apply required_text_ok in Hid as (_ & ? & _).
Qed.
End Exports.

(** Not every identifier the store accepts can be exported past: an item id
    and a tenant of 256 bytes (the limits of both) with a scope filter as long
    make a page token of more than 1024 characters, which [export_batch] issues
    and then refuses to read. *)
Lemma long_page_token_refused :
  let text := repeat 97%N 256 in
  required_text text MAX_ITEM_ID_BYTES = Ok text
  ∧ ∃ token, encode_page_token text text (Some text) = Ok token
             ∧ decode_page_token (Some token) text (Some text) = Err ValueError.
Proof.
  cbv zeta. split; [by vm_compute|]. eexists. split; [vm_compute; reflexivity|]. by vm_compute.
Qed.

(** ** Tenants *)

Section Tenants.
Context (py_int : pystr → option Z) (float_sum : list pyfloat → pyfloat).
Context (scan : list (pystr * memory_row) → list (pystr * memory_row)) (prof : profile).

Definition op_tenant (op : memory_op) : pystr :=
  match op with
  | MoStore _ _ t _ | MoDelete t _ | MoPrune _ _ t | MoImport _ t _ _ => t
  end.

(** Only an import touches the open transaction of another call. *)
Definition is_import (op : memory_op) : bool := match op with MoImport _ _ _ _ => true | _ => false end.

Lemma import_rows_other now overwrite tenant items n m r m' k :
  import_rows py_int prof now overwrite tenant items n m = (r, m') → k.1 ≠ tenant →
  m' !! k = m !! k.
Proof.
  revert n m. induction items as [|it items IH]; cbn; intros n m H Hk; [by injection H as <- <-|].
  destruct (import_row _ _ _ _); [|by injection H as <- <-].
  case_match; [by eapply IH|]. rewrite (IH _ _ H Hk). apply lookup_insert_ne. by intros <-.
Qed.

Lemma step_other op c out c' t id :
  memory_step py_int prof op c = (out, c') →
  required_tenant (op_tenant op) ≠ Ok t → working c = None ∨ is_import op = false →
  memory_records (view c') !! (t, id) = memory_records (view c) !! (t, id).
Proof.
  intros Hstep Ht Hc. destruct op as [now fresh tenant item|tenant iid|now before tenant|now tenant items ow];
    cbn [memory_step op_tenant is_import] in *.
  - destruct (store _ _ _ _ _ _ _) as [r c1] eqn:E. injection Hstep as <- <-. unfold store in E.
    destruct (store_checked _ _ _ _ _ _) as [[record row]|] eqn:Hs; injection E as <- <-; [|done].
    rewrite view_write. cbn. apply lookup_insert_ne. intros [= Hr _]. apply Ht.
    unfold store_checked in Hs. inv_result. rewrite Hv. f_equal. symmetry.
    by eapply normalize_item_tenant.
  - destruct (delete_item _ _ _) as [r c1] eqn:E. injection Hstep as <- <-. unfold delete_item in E.
    destruct (required_tenant tenant) as [t'|]; [|by injection E as <- <-].
    cbn [mbind result_bind] in E. destruct (required_text _ _); [|by injection E as <- <-].
    cbn [mbind result_bind] in E. injection E as <- <-. rewrite view_write. cbn.
    apply lookup_delete_ne. intros [= -> _]. done.
  - destruct (prune _ _ _ _) as [r c1] eqn:E. injection Hstep as <- <-. unfold prune in E.
    destruct (required_tenant tenant) as [t'|]; [|by injection E as <- <-].
    cbn [mbind result_bind] in E. destruct (sql_int_opt _); [|by injection E as <- <-].
    cbn [mbind result_bind] in E. injection E as <- <-. rewrite view_write. cbn.
    apply option_eq. intros row. rewrite map_lookup_filter_Some. cbn.
    split; [by intros []|]. intros H. split; [done|]. intros [-> _]. done.
  - destruct Hc as [Hc|]; [|done].
    destruct (import_batch _ _ _ _ _ _ _) as [r c1] eqn:E. injection Hstep as <- <-.
    unfold import_batch in E. destruct (required_tenant tenant) as [t'|]; [|by injection E as <- <-].
    cbn [mbind result_bind] in E.
    match type of E with match ?chk with _ => _ end = _ => destruct chk as [[t'' items']|] eqn:Hchk end;
      [|by injection E as <- <-].
    assert (t'' = t') as -> by by inv_result.
    rewrite Hc in E. destruct (import_rows _ _ _ _ _ _ _ _) as [r' m'] eqn:Hrows.
    assert (Hm : m' !! (t, id) = memory_records (committed c) !! (t, id)).
    { eapply import_rows_other; [exact Hrows|]. cbn. intros ->. done. }
    assert (Hv : view c = committed c) by by unfold view; rewrite Hc.
    rewrite Hv. destruct r' as [n|e]; [|destruct (caught e)]; injection E as <- <-; try done.
    by rewrite Hv.
Qed.

(** C37. Tenants are isolated.  No operation, whatever its arguments and whether
    it succeeds, changes what another tenant can see: every [get], export page
    and deletion of the other tenant gives the same answer before
    and after, and a recall searches the same rows (an import does so when no
    transaction of an earlier call was left open). *)
Theorem tenants_isolated op c out c' tenant t :
  memory_step py_int prof op c = (out, c') →
  required_tenant tenant = Ok t → required_tenant (op_tenant op) ≠ Ok t →
  working c = None ∨ is_import op = false →
  (∀ now id, get prof now tenant id c' = get prof now tenant id c)
  ∧ (∀ now scope limit token,
       export_batch prof now tenant scope limit token c'
       = export_batch prof now tenant scope limit token c)
  ∧ (∀ id, (delete_item tenant id c').1 = (delete_item tenant id c).1)
  ∧ (∀ now scope subj, recall_rows prof now t scope subj c' ≡ₚ recall_rows prof now t scope subj c).
Proof.
  intros Hstep Ht Hne Hc.
  assert (Hrow : ∀ id, memory_records (view c') !! (t, id) = memory_records (view c) !! (t, id))
    by (intros id; by eapply step_other).
  assert (Hrows := in_scope_same t _ _ Hrow).
  split_and!.
  - intros now id. unfold get. rewrite Ht. cbn [mbind result_bind].
    destruct (required_text id _); [|done]. cbn [mbind result_bind]. by rewrite Hrow.
  - intros now scope limit token. unfold export_batch. rewrite Ht. cbn [mbind result_bind].
    apply bind_ext. intros maximum _. apply bind_ext. intros after _.
    unfold export_rows. do 3 f_equal. apply sort_items_unique; [|by apply filter_perm].
    apply nodup_filter_keys, nodup_in_scope.
  - intros id. unfold delete_item. rewrite Ht. cbn [mbind result_bind].
    destruct (required_text id _); [|done]. cbn [mbind result_bind fst]. by rewrite Hrow.
  - intros now scope subj. by apply filter_perm.
Qed.

(** Errors that [import_batch] turns into a rollback. *)
Abbreviation safe := (raises_only (λ e, caught e = true)).

Lemma safe_byte_len s : safe (byte_len s).
Proof. unfold byte_len. raises fail. Qed.

Lemma safe_required_tenant s : safe (required_tenant s).
Proof. unfold required_tenant. raises fail. Qed.

Ltac safe :=
  raises ltac:(first [apply safe_byte_len | apply safe_required_tenant]).

Lemma safe_required_text s n : safe (required_text s n).
Proof. unfold required_text. safe. Qed.

Lemma safe_bounded s n : safe (bounded_optional_text s n).
Proof. unfold bounded_optional_text. safe. Qed.

Lemma safe_validated_metadata m : safe (validated_metadata m).
Proof. unfold validated_metadata, check_entry, encode_metadata. cbn zeta. safe. Qed.

Lemma safe_profile_from_metadata m : safe (profile_from_metadata py_int prof m).
Proof.
  unfold profile_from_metadata, bounded_integer. raises ltac:(apply safe_required_text).
Qed.

Lemma safe_normalize_item fresh t item : safe (normalize_item py_int prof fresh t item).
Proof.
  unfold normalize_item. cbn zeta.
  raises ltac:(first
    [ apply safe_required_text | apply safe_bounded | apply safe_validated_metadata
    | apply safe_profile_from_metadata | apply safe_byte_len | apply safe_required_tenant ]).
Qed.

Lemma safe_import_check fresh t item : safe (import_check py_int prof fresh t item).
Proof.
  unfold import_check. cbn zeta.
  raises ltac:(first [apply safe_profile_from_metadata | apply safe_normalize_item]).
Qed.

(** An import that raises what it does not catch leaves its transaction open. *)
Lemma uncaught_import_open now tenant items ow c e c1 :
  working c = None → import_batch py_int prof now tenant items ow c = (Err e, c1) →
  caught e = false → ∃ d, c1 = Connection (committed c) (Some d).
Proof.
  intros Hw H He. unfold import_batch in H.
  match type of H with match ?chk with _ => _ end = _ =>
    assert (Hsafe : safe chk); [|destruct chk as [[t items']|e'] eqn:Hchk] end.
  - raises ltac:(first [apply safe_required_tenant | apply safe_import_check]).
  - rewrite Hw in H. destruct (import_rows _ _ _ _ _ _ _ _) as [[n|e'] m']; [done|].
    injection H as <- <-. rewrite He. by eexists.
  - injection H as -> <-. specialize (Hsafe e eq_refl). congruence.
Qed.

(** An import that ends in an OverflowError leaves its transaction open, and
    an item acknowledged afterwards, of whichever tenant, is lost: when an
    import on a connection without an open transaction raises OverflowError
    and a [store] then returns an identifier, even an empty import fails with
    a storage error and puts the connection back to the state before all three
    calls. *)
Lemma overflow_import_loses_store c c1 c2 now1 t1 items1 ow1 now2 fresh t2 item id now3 t3 t3' ow3 :
  working c = None →
  import_batch py_int prof now1 t1 items1 ow1 c = (Err OverflowError, c1) →
  store py_int prof now2 fresh t2 item c1 = (Ok id, c2) →
  required_tenant t3 = Ok t3' →
  import_batch py_int prof now3 t3 [] ow3 c2 = (Err (MemoryStoreError 5), c).
Proof.
  intros Hw Himp Hst Ht3.
  destruct (uncaught_import_open _ _ _ _ _ _ _ Hw Himp eq_refl) as [d ->].
  unfold store in Hst. destruct (store_checked _ _ _ _ _ _) as [[record row]|]; [|done].
  injection Hst as _ <-. unfold import_batch. rewrite Ht3. cbn.
  destruct c as [committed working]. cbn in Hw. by subst.
Qed.
End Tenants.
