(* ===== verification/MemoryExamples.v ===== *)
(** * Memory provider: concrete runs *)

From Stdlib Require Import ZArith NArith SpecFloat Permutation.
From S2P Require Import Prelude PyFloat PyText Json Scoped MemoryStore MemoryFacts MemoryRecall.
From S2P Require Import MemoryExport.

#[local] Open Scope Z_scope.

Definition ex_profile : profile := Profile (lit "m") (lit "m") 2 [] [] 10.
Definition ex_sum (l : list pyfloat) : pyfloat := foldl fadd (f_of_Z 0) l.
Definition ex_tenant : pystr := lit "acme".
Definition ex_metadata : list (pystr * pystr) :=
  [(MODEL_ID_KEY, lit "m"); (DIMENSIONS_KEY, lit "2"); (PROVIDER_MODEL_ID_KEY, lit "m");
   (lit "lang", lit "en")].
Definition ex_item (tenant id : pystr) (v : list pyfloat) (ttl : option Z) : StoredMemory :=
  Stored id tenant (lit "s") [] (lit "text") v ex_metadata 0 None ttl.

Definition ex_vec (x y : Z) : list pyfloat := [f_of_Z x; f_of_Z y].
Definition ex_empty : connection := Connection (Database ∅ None) None.
Definition ex_store (id : pystr) (v : list pyfloat) (c : connection) : E pystr * connection :=
  store Z_of_str ex_profile 1000 (lit "0") ex_tenant (ex_item ex_tenant id v None) c.
Definition ex_three : connection :=
  (ex_store (lit "c") (ex_vec 0 1)
     (ex_store (lit "b") (ex_vec 1 1) (ex_store (lit "a") (ex_vec 1 0) ex_empty).2).2).2.

(** The ids of what an operation returned. *)
Definition ids_of {A} (f : A → pystr) (r : E (list A)) : list pystr :=
  match r with Ok l => map f l | Err _ => [] end.
Definition found (r : E (option StoredMemory)) : option bool :=
  match r with Ok o => Some (bool_decide (is_Some o)) | Err _ => None end.

Definition ex_expiring : E pystr * connection :=
  store Z_of_str ex_profile 1000 (lit "0") ex_tenant (ex_item ex_tenant [] (ex_vec 1 0) (Some 5))
    ex_empty.

Lemma store_get_example :
  found (get ex_profile 5999 ex_tenant (lit "mem_0") ex_expiring.2) = Some true
  ∧ found (get ex_profile 6000 ex_tenant (lit "mem_0") ex_expiring.2) = Some false
  ∧ ∃ record, ∀ now, get ex_profile now ex_tenant (lit "mem_0") ex_expiring.2
      = Ok (if live 1000 now record then Some (as_stored 1000 record) else None).
Proof.
  split_and!; [by vm_compute..|].
  assert (H1 : ex_expiring.1 = Ok (lit "mem_0")) by by vm_compute.
  assert (Hr : ex_expiring = (Ok (lit "mem_0"), ex_expiring.2))
    by (rewrite <- H1; apply surjective_pairing).
  destruct (store_get_roundtrip Z_of_str ex_profile 1000 (lit "0") ex_tenant
    (ex_item ex_tenant [] (ex_vec 1 0) (Some 5)) ex_empty (lit "mem_0") ex_expiring.2)
    as (t & record & _ & _ & _ & Hg & _).
  - by vm_compute.
  - by apply (bool_decide_unpack _); vm_compute.
  - exact Hr.
  - by exists record.
Defined.

Definition ex_rows : E (list (option (pyfloat * StoredMemory))) :=
  mapR (score_row ex_sum ex_profile ex_tenant (ex_vec 1 0) [(lit "lang", lit "en")] (f_of_Z 0))
    (recall_rows ex_profile 2000 ex_tenant (Some (lit "s")) None ex_three).
Definition ex_recall : E (list ScoredMemory) :=
  recall ex_sum id ex_profile 2000 (λ _, false) ex_tenant (ex_vec 1 0) (Some (lit "s")) None
    [(lit "lang", lit "en")] (f_of_Z 0) 2 ex_three.

Lemma recall_top_k_witness :
  ids_of (λ r, item_id (sc_item r)) ex_recall = [lit "a"; lit "b"]
  ∧ ∃ results dropped,
      ex_recall = Ok results ∧ descending results
      ∧ map (λ d : pyfloat * StoredMemory, item_id d.2) dropped = [lit "c"].
Proof.
  assert (Hres : ids_of (λ r, item_id (sc_item r)) ex_recall = [lit "a"; lit "b"]) by by vm_compute.
  split; [done|].
  assert (Hall : match ex_rows with Ok l => map (λ d : pyfloat * StoredMemory, item_id d.2) (omap Datatypes.id l)
                 | Err _ => [] end = rev [lit "a"; lit "b"; lit "c"]) by by vm_compute.
  destruct ex_rows as [scored|] eqn:Hrows; [|done].
  assert (Hacc : recall_accepts ex_profile ex_tenant ex_tenant (ex_vec 1 0) [(lit "lang", lit "en")] (f_of_Z 0) 2)
    by (unfold recall_accepts; split_and!; by vm_compute).
  destruct (recall_top_k ex_sum id ex_profile 2000 ex_tenant ex_tenant (ex_vec 1 0) (Some (lit "s")) None
    [(lit "lang", lit "en")] (f_of_Z 0) 2 ex_three scored (λ l, reflexivity l) Hacc Hrows)
    as (results & dropped & Hr & Hp & Hd & _).
  exists results, dropped. split_and!; [done..|].
  change (recall _ _ _ _ _ _ _ _ _ _ _ _ _) with ex_recall in Hr. rewrite Hr in Hres. cbn [ids_of] in Hres.
  apply (Permutation_map (λ d : pyfloat * StoredMemory, item_id d.2)) in Hp.
  rewrite map_app, map_map in Hp. cbn [snd] in Hp. rewrite Hall, Hres, <- Permutation_rev in Hp.
  apply Permutation_cons_inv, Permutation_cons_inv in Hp. by apply Permutation_length_1_inv in Hp.
Defined.

Definition ex_fits (row : pystr * memory_row) : bool :=
  match required_text row.1 MAX_ITEM_ID_BYTES with Ok s => bool_decide (s = row.1) | Err _ => false end
  && match encode_page_token row.1 ex_tenant (Some (lit "s")) with
     | Ok token => len token <=? 1024
     | Err _ => false
     end.

Lemma export_complete_witness :
  ∃ items, collect OverflowError
      (λ token, export_batch ex_profile 2000 ex_tenant (Some (lit "s")) (Some 1) token ex_three) 3 None
    = Ok items ∧ map item_id items = [lit "a"; lit "b"; lit "c"].
Proof.
  rewrite (export_complete ex_profile 2000 ex_tenant ex_tenant (Some (lit "s")) 1 ex_three 3).
  - eexists. split; vm_compute; reflexivity.
  - by vm_compute.
  - by vm_compute.
  - by vm_compute.
  - intros id r H. apply elem_in_scope in H.
    assert (Hf : forallb ex_fits (in_scope ex_tenant (memory_records (view ex_three))) = true)
      by by vm_compute.
    rewrite forallb_forall in Hf. apply list_elem_of_In, Hf in H. unfold ex_fits in H. cbn [fst] in H.
    apply andb_true_iff in H as [H1 H2]. destruct (required_text id _) as [s|]; [|done].
    apply bool_decide_eq_true in H1 as ->. split; [done|].
    destruct (encode_page_token id ex_tenant (Some (lit "s"))) as [token|]; [|done].
    exists token. split; [done|]. by apply Z.leb_le.
  - vm_compute. lia.
Defined.

Lemma tenants_isolated_witness :
  let r := memory_step Z_of_str ex_profile (MoPrune 3000 (Some 5000) (lit "other")) ex_three in
  get ex_profile 4000 ex_tenant (lit "a") r.2 = get ex_profile 4000 ex_tenant (lit "a") ex_three.
Proof.
  cbv zeta. set (r := memory_step _ _ _ _).
  apply (tenants_isolated Z_of_str ex_profile (MoPrune 3000 (Some 5000) (lit "other")) ex_three r.1 r.2
    ex_tenant ex_tenant); [apply surjective_pairing|by vm_compute|by vm_compute|by left].
Defined.

Lemma overflow_import_loses_store_example :
  let bad := [(lit "0", ex_item (lit "b") (lit "x") (ex_vec 1 0) (Some (2 ^ 62)))] in
  let r1 := import_batch Z_of_str ex_profile 1000 (lit "b") bad false ex_empty in
  let r2 := ex_store (lit "a") (ex_vec 1 0) r1.2 in
  let r3 := import_batch Z_of_str ex_profile 1000 (lit "b") [] false r2.2 in
  r2.1 = Ok (lit "a")
  ∧ (∃ item, get ex_profile 2000 ex_tenant (lit "a") r2.2 = Ok (Some item))
  ∧ r3.2 = ex_empty
  ∧ get ex_profile 2000 ex_tenant (lit "a") r3.2 = Ok None.
Proof.
  cbv zeta. set (bad := [_]). set (r1 := import_batch _ _ _ _ bad _ _). set (r2 := ex_store _ _ _).
  assert (H1 : r1 = (Err OverflowError, r1.2)) by (vm_compute; reflexivity).
  assert (H2 : r2 = (Ok (lit "a"), r2.2)) by (vm_compute; reflexivity).
  rewrite (overflow_import_loses_store Z_of_str ex_profile ex_empty r1.2 r2.2 1000 (lit "b") bad false
    1000 (lit "0") ex_tenant (ex_item ex_tenant (lit "a") (ex_vec 1 0) None) (lit "a") 1000 (lit "b")
    (lit "b") false eq_refl H1 H2 eq_refl).
  split_and!; [by rewrite H2| |done|by vm_compute].
  eexists. vm_compute. reflexivity.
Defined.
