(* ===== verification/MemoryWire.v ===== *)
(** * Memory contracts: the protobuf wire format

    [cyrene_memory_provider_contracts/_wire.py]: varints, tags, length-delimited
    fields, packed floats, and the iteration over the fields of a message.  An
    offset into the payload is the rest of the payload.  [iter_fields] is a
    generator; the loops over it are [iterate], whose body runs on a field before
    the next one is read, so the first error is the program's. *)

From Stdlib Require Import ZArith NArith.
From S2P Require Import Prelude PyFloat PyText PyFloat32.

#[local] Open Scope Z_scope.

(** [WireFormatError], [MemoryCodecError], a string that UTF-8 cannot encode, a
    float that [struct.pack] refuses, the [TypeError] of a message constructed
    without a field that has no default.  [OutOfFuel] is no exception: it marks
    a loop cut short, and no loop is. *)
Inductive codec_error :=
  | WireFormatError
  | MemoryCodecError
  | CodecUnicodeError
  | PackOverflowError
  | MissingArgument
  | OutOfFuel.

#[export] Instance codec_error_eq_dec : EqDecision codec_error.
Proof. solve_decision. Defined.

Abbreviation W := (result codec_error).

Definition WIRE_VARINT : Z := 0.
Definition WIRE_FIXED64 : Z := 1.
Definition WIRE_LEN : Z := 2.
Definition WIRE_FIXED32 : Z := 5.

(** ** Encoding *)

Fixpoint varint_loop (fuel : nat) (value : Z) : pybytes :=
  match fuel with
  | O => [Z.to_N value]
  | S fuel =>
      if 128 <=? value
      then Z.to_N (Z.lor (Z.land value 127) 128) :: varint_loop fuel (Z.shiftr value 7)
      else [Z.to_N value]
  end.

(** [encode_varint] *)
Definition encode_varint (value : Z) : W pybytes :=
  _ ← require (0 <=? value) WireFormatError;
  Ok (varint_loop (Z.to_nat (Z.log2 value)) value).

(** [encode_tag] *)
Definition encode_tag (field_number wire_type : Z) : W pybytes :=
  encode_varint (Z.lor (Z.shiftl field_number 3) wire_type).

(** [encode_len_delimited] *)
Definition encode_len_delimited (field_number : Z) (payload : pybytes) : W pybytes :=
  tag ← encode_tag field_number WIRE_LEN;
  n ← encode_varint (len payload);
  Ok (tag ++ n ++ payload).

(** [value.encode("utf-8")] *)
Definition utf8 (value : pystr) : W pybytes :=
  match utf8_encode value with Some b => Ok b | None => Err CodecUnicodeError end.

(** [encode_string_field] *)
Definition encode_string_field (field_number : Z) (value : pystr) : W pybytes :=
  if bool_decide (value = []) then Ok []
  else b ← utf8 value; encode_len_delimited field_number b.

(** [struct.pack("<f", value)] *)
Definition pack_float (value : pyfloat) : W pybytes :=
  match pack_f32 value with Some b => Ok b | None => Err PackOverflowError end.

(** [encode_packed_floats] *)
Definition encode_packed_floats (field_number : Z) (values : list pyfloat) : W pybytes :=
  if bool_decide (values = []) then Ok []
  else bs ← mapR pack_float values; encode_len_delimited field_number (concat bs).

(** ** Decoding *)

(** [decode_varint] with the bits read so far. *)
Fixpoint decode_varint_from (data : pybytes) (value shift : Z) : W (Z * pybytes) :=
  match data with
  | [] => Err WireFormatError
  | byte :: data =>
      let value := Z.lor value (Z.shiftl (Z.land (Z.of_N byte) 127) shift) in
      if (byte <? 128)%N then Ok (value, data)
      else
        _ ← require (shift + 7 <=? 63) WireFormatError;
        decode_varint_from data value (shift + 7)
  end.

(** [decode_varint] *)
Definition decode_varint (data : pybytes) : W (Z * pybytes) := decode_varint_from data 0 0.

(** The value of a field: [int] or [bytes]. *)
Inductive wire_value :=
  | VInt (value : Z)
  | VBytes (value : pybytes).

Record wire_field := Field { f_number : Z; f_type : Z; f_value : wire_value }.

(** [data[offset:offset+n]] and what follows it, if there are [n] bytes. *)
Definition split_bytes (n : Z) (data : pybytes) : W (pybytes * pybytes) :=
  _ ← require (n <=? len data) WireFormatError;
  Ok (take (Z.to_nat n) data, drop (Z.to_nat n) data).

(** One turn of [iter_fields]. *)
Definition next_field (data : pybytes) : W (wire_field * pybytes) :=
  '(tag, data) ← decode_varint data;
  let number := Z.shiftr tag 3 in
  let wire_type := Z.land tag 7 in
  _ ← require (negb (number =? 0)) WireFormatError;
  if wire_type =? WIRE_VARINT then
    '(value, data) ← decode_varint data; Ok (Field number wire_type (VInt value), data)
  else if wire_type =? WIRE_LEN then
    '(length, data) ← decode_varint data;
    '(value, data) ← split_bytes length data;
    Ok (Field number wire_type (VBytes value), data)
  else if wire_type =? WIRE_FIXED64 then
    '(value, data) ← split_bytes 8 data; Ok (Field number wire_type (VBytes value), data)
  else if wire_type =? WIRE_FIXED32 then
    '(value, data) ← split_bytes 4 data; Ok (Field number wire_type (VBytes value), data)
  else Err WireFormatError.

Fixpoint for_fields {S : Type} (fuel : nat) (body : S → wire_field → W S) (data : pybytes) (s : S)
  : W S :=
  match data, fuel with
  | [], _ => Ok s
  | _ :: _, O => Err OutOfFuel
  | _ :: _, Datatypes.S fuel =>
      '(f, data) ← next_field data;
      s ← body s f;
      for_fields fuel body data s
  end.

(** [for number, wire_type, value in iter_fields(data): ...] *)
Definition iterate {S : Type} (body : S → wire_field → W S) (data : pybytes) (s : S) : W S :=
  for_fields (length data) body data s.

(** [decode_packed_floats] *)
Fixpoint decode_packed_floats (payload : pybytes) : W (list pyfloat) :=
  match payload with
  | [] => Ok []
  | a :: b :: c :: d :: payload =>
      match unpack_f32 [a; b; c; d] with
      | Some v => vs ← decode_packed_floats payload; Ok (v :: vs)
      | None => Err WireFormatError
      end
  | _ => Err WireFormatError
  end.
