(* ===== verification/MemoryWireFacts.v ===== *)
(** * Memory contracts: the wire format is read back

    Every loop ends, and the bytes of an encoded field, followed by anything,
    are read back as that field. *)

From Stdlib Require Import ZArith NArith.
From S2P Require Import Prelude PyFloat PyText PyFloat32 MemoryWire.

#[local] Open Scope Z_scope.

(** ** Termination *)

Lemma decode_varint_from_shorter data value shift v rest :
  decode_varint_from data value shift = Ok (v, rest) → (length rest < length data)%nat.
Proof.
  revert value shift. induction data as [|b data IH]; intros value shift H; [done|].
  cbn [decode_varint_from] in H. destruct (b <? 128)%N; [inv_result; cbn; lia|].
  inv_result. match goal with Hd : decode_varint_from _ _ _ = _ |- _ => apply IH in Hd end.
  cbn. lia.
Qed.

Lemma split_bytes_shorter n data a rest :
  split_bytes n data = Ok (a, rest) → (length rest <= length data)%nat.
Proof. unfold split_bytes. intros H. inv_result. rewrite length_drop. lia. Qed.

Lemma next_field_shorter data f rest :
  next_field data = Ok (f, rest) → (length rest < length data)%nat.
Proof.
  unfold next_field. intros H. apply bind_ok in H as ([tag d1] & H1 & H).
  apply decode_varint_from_shorter in H1. cbn zeta in H. inv_result.
  repeat case_match; inv_result;
    repeat match goal with
    | H : (let '(_, _) := ?p in _) = Ok _ |- _ => destruct p; inv_result
    | H : decode_varint _ = Ok (_, _) |- _ => apply decode_varint_from_shorter in H
    | H : split_bytes _ _ = Ok (_, _) |- _ => apply split_bytes_shorter in H
    end; lia.
Qed.

(** The exceptions of a decoder: [WireFormatError] and [MemoryCodecError]. *)
Definition decode_exception (e : codec_error) : bool :=
  match e with
  | WireFormatError | MemoryCodecError => true
  | CodecUnicodeError | PackOverflowError | MissingArgument | OutOfFuel => false
  end.
Abbreviation clean := (raises_only decode_exception).

Lemma clean_varint data value shift : clean (decode_varint_from data value shift).
Proof.
  revert value shift. induction data as [|b data IH]; intros value shift; cbn;
    [by apply raises_err|]. raises ltac:(apply IH).
Qed.

Lemma clean_next_field data : clean (next_field data).
Proof.
  unfold next_field, decode_varint, split_bytes. cbn zeta. raises ltac:(apply clean_varint).
Qed.

Section Loops.
Context {S : Type} (body : S → wire_field → W S).

(** More fuel than bytes makes no difference. *)
Lemma for_fields_fuel fuel1 fuel2 data s :
  (length data <= fuel1)%nat → (length data <= fuel2)%nat →
  for_fields fuel1 body data s = for_fields fuel2 body data s.
Proof.
  revert fuel2 data s. induction fuel1 as [|fuel1 IH]; intros fuel2 data s H1 H2;
    (destruct data as [|b data]; [by destruct fuel2|cbn in H1; try lia]).
  destruct fuel2 as [|fuel2]; [cbn in H2; lia|]. cbn [for_fields].
  apply bind_ext. intros [f rest] Hf. apply next_field_shorter in Hf. cbn [length] in *.
  apply bind_ext. intros s' _. apply IH; lia.
Qed.

Lemma iterate_cons data s f rest :
  next_field data = Ok (f, rest) → iterate body data s = s' ← body s f; iterate body rest s'.
Proof.
  intros Hf. pose proof (next_field_shorter _ _ _ Hf) as Hl. unfold iterate.
  destruct data as [|b data]; [cbn in Hl; lia|]. cbn [length for_fields]. rewrite Hf.
  cbn [mbind result_bind]. apply bind_ext. intros s' _. apply for_fields_fuel; cbn in Hl; lia.
Qed.

Lemma for_fields_clean fuel data s :
  (length data <= fuel)%nat → (∀ s f, clean (body s f)) →
  clean (for_fields fuel body data s).
Proof.
  intros Hf Hb. revert data s Hf. induction fuel as [|fuel IH]; intros [|b data] s Hf;
    cbn [for_fields]; try apply raises_ok; [cbn in Hf; lia|].
  intros e [H|([f rest] & Hn & H)]%bind_err; [by apply clean_next_field in H|].
  apply next_field_shorter in Hn. apply bind_err in H as [H|(s' & _ & H)]; [by apply Hb in H|].
  apply IH in H; [done|]. cbn [length] in *. lia.
Qed.

(** A loop over the fields of a payload ends. *)
Lemma iterate_clean data s :
  (∀ s f, clean (body s f)) → clean (iterate body data s).
Proof. by apply for_fields_clean. Qed.

(** [bs] takes the loop from [s] to [s'], whatever follows. *)
Definition runs (bs : pybytes) (s s' : S) : Prop :=
  ∀ rest, iterate body (bs ++ rest) s = iterate body rest s'.

Lemma runs_nil s : runs [] s s.
Proof. done. Qed.

Lemma runs_app bs1 bs2 s1 s2 s3 : runs bs1 s1 s2 → runs bs2 s2 s3 → runs (bs1 ++ bs2) s1 s3.
Proof. intros H1 H2 rest. by rewrite <- app_assoc, H1, H2. Qed.

Lemma runs_end bs s s' : runs bs s s' → iterate body bs s = Ok s'.
Proof. intros H. specialize (H []). by rewrite app_nil_r in H. Qed.

Lemma runs_field bs f s s' :
  (∀ rest, next_field (bs ++ rest) = Ok (f, rest)) → body s f = Ok s' → runs bs s s'.
Proof. intros Hf Hb rest. by rewrite (iterate_cons _ _ _ _ (Hf rest)), Hb. Qed.
End Loops.

(** ** Varints *)

Lemma lor_shiftl_add a x k :
  0 <= k → 0 <= a < 2 ^ k → 0 <= x → Z.lor a (Z.shiftl x k) = a + x * 2 ^ k.
Proof.
  intros Hk Ha Hx. rewrite Z.shiftl_mul_pow2 by done. symmetry. apply Z.add_nocarry_lor.
  rewrite <- Z.shiftl_mul_pow2 by done. apply Z.bits_inj'. intros n Hn.
  rewrite Z.land_spec, Z.bits_0. destruct (Z.lt_ge_cases n k) as [Hlt|Hge].
  - by rewrite Z.shiftl_spec_low, andb_false_r.
  - destruct (Z.eq_dec a 0) as [->|Ha0]; [by rewrite Z.bits_0|].
    rewrite (Z.bits_above_log2 a); [done|lia|].
    assert (Z.log2 a < k); [|lia]. apply Z.log2_lt_pow2; lia.
Qed.

Lemma varint_loop_read (fuel k : nat) v acc rest :
  0 <= v < 2 ^ (7 * Z.of_nat fuel + 7) → 0 <= acc < 2 ^ (7 * Z.of_nat k) → (k <= 9)%nat →
  v < 2 ^ (70 - 7 * Z.of_nat k) →
  decode_varint_from (varint_loop fuel v ++ rest) acc (7 * Z.of_nat k)
  = Ok (acc + v * 2 ^ (7 * Z.of_nat k), rest).
Proof.
  revert k v acc. induction fuel as [|fuel IH]; intros k v acc Hv Hacc Hk Hs.
  - cbn [varint_loop app decode_varint_from]. change (7 * Z.of_nat 0 + 7) with 7 in Hv.
    change (2 ^ 7) with 128 in Hv.
    assert (Hb : (Z.to_N v <? 128)%N = true) by (apply N.ltb_lt; lia). rewrite Hb, Z2N.id by lia.
    change 127 with (Z.ones 7). rewrite Z.land_ones, Z.mod_small by (try (change (2 ^ 7) with 128); lia).
    by rewrite lor_shiftl_add by lia.
  - cbn [varint_loop]. destruct (Z.leb_spec 128 v) as [Hge|Hlt].
    + cbn [app decode_varint_from].
      assert (Hlow : Z.land v 127 = v mod 128) by (change 127 with (Z.ones 7); by rewrite Z.land_ones).
      pose proof (Z.mod_pos_bound v 128 ltac:(lia)) as Hm.
      assert (Hor : Z.lor (v mod 128) 128 = v mod 128 + 128).
      { change 128 with (Z.shiftl 1 7) at 2. rewrite lor_shiftl_add by (change (2 ^ 7) with 128; lia). done. }
      assert (Hb : (Z.to_N (Z.lor (Z.land v 127) 128) <? 128)%N = false)
        by (rewrite Hlow, Hor; apply N.ltb_ge; lia).
      rewrite Hb, Hlow, Hor, Z2N.id by lia.
      assert (Hl2 : Z.land (v mod 128 + 128) 127 = v mod 128).
      { change 127 with (Z.ones 7). rewrite Z.land_ones by lia. change (2 ^ 7) with 128.
        rewrite Z.add_mod, Z.mod_same, Z.add_0_r, !Z.mod_mod by lia. done. }
      rewrite Hl2, lor_shiftl_add by lia.
      assert (Hk9 : (k < 9)%nat).
      { apply Nat.nle_gt. intros H9. assert (k = 9%nat) as -> by lia.
        change (70 - 7 * Z.of_nat 9) with 7 in Hs. change (2 ^ 7) with 128 in Hs. lia. }
      rewrite (proj2 (Z.leb_le _ 63)) by lia. cbn [require mbind result_bind].
      replace (7 * Z.of_nat k + 7) with (7 * Z.of_nat (S k)) by lia.
      rewrite Z.shiftr_div_pow2 by lia. change (2 ^ 7) with 128.
      assert (Hdm : v = 128 * (v / 128) + v mod 128) by (apply Z.div_mod; lia).
      assert (Hp : 2 ^ (7 * Z.of_nat (S k)) = 128 * 2 ^ (7 * Z.of_nat k)).
      { replace (7 * Z.of_nat (S k)) with (7 + 7 * Z.of_nat k) by lia. by rewrite Z.pow_add_r by lia. }
      assert (Hq : 0 <= v / 128) by (apply Z.div_pos; lia).
      rewrite IH.
      * f_equal. f_equal. rewrite Hp. nia.
      * split; [done|]. apply Z.div_lt_upper_bound; [lia|].
        replace (7 * Z.of_nat (S fuel) + 7) with (7 + (7 * Z.of_nat fuel + 7)) in Hv by lia.
        rewrite Z.pow_add_r in Hv by lia. change (2 ^ 7) with 128 in Hv. lia.
      * rewrite Hp. split; [nia|]. nia.
      * lia.
      * apply Z.div_lt_upper_bound; [lia|].
        replace (70 - 7 * Z.of_nat k) with (7 + (70 - 7 * Z.of_nat (S k))) in Hs by lia.
        rewrite Z.pow_add_r in Hs by lia. change (2 ^ 7) with 128 in Hs. lia.
    + cbn [app decode_varint_from].
      assert (Hb : (Z.to_N v <? 128)%N = true) by (apply N.ltb_lt; lia). rewrite Hb, Z2N.id by lia.
      change 127 with (Z.ones 7). rewrite Z.land_ones, Z.mod_small by (try (change (2 ^ 7) with 128); lia).
      by rewrite lor_shiftl_add by lia.
Qed.

(** A varint below 2^70 comes back. *)
Lemma decode_encode_varint v bs rest :
  v < 2 ^ 70 → encode_varint v = Ok bs → decode_varint (bs ++ rest) = Ok (v, rest).
Proof.
  intros Hv. unfold encode_varint. intros H. inv_result. apply Z.leb_le in Hv0.
  pose proof (varint_loop_read (Z.to_nat (Z.log2 v)) 0 v 0 rest) as Hr.
  change (7 * Z.of_nat 0) with 0 in Hr. rewrite Z.pow_0_r, Z.mul_1_r, Z.add_0_l in Hr.
  unfold decode_varint. rewrite Hr; [done| |lia|lia|by rewrite Z.sub_0_r].
  split; [done|]. destruct (Z.eq_dec v 0) as [->|Hn]; [by vm_compute|].
  destruct (Z.log2_spec v ltac:(lia)) as [_ Hl]. eapply Z.lt_le_trans; [exact Hl|].
  pose proof (Z.log2_nonneg v). apply Z.pow_le_mono_r; lia.
Qed.

(** ** Fields *)

(** Payloads below 2^63 bytes, and the field numbers of a schema. *)
Definition small (bs : pybytes) : Prop := len bs < 2 ^ 63.
Definition field_no (n : Z) : Prop := 1 <= n < 2 ^ 29.

Lemma small_app bs1 bs2 : small (bs1 ++ bs2) → small bs1 ∧ small bs2.
Proof. unfold small, len. rewrite length_app. lia. Qed.

Lemma decode_encode_tag n t bs rest :
  field_no n → 0 <= t < 8 → encode_tag n t = Ok bs →
  ∃ tag, decode_varint (bs ++ rest) = Ok (tag, rest) ∧ Z.shiftr tag 3 = n ∧ Z.land tag 7 = t.
Proof.
  intros [Hn Hn'] Ht He. exists (t + n * 2 ^ 3). unfold encode_tag in He.
  rewrite Z.lor_comm, lor_shiftl_add in He by (try (change (2 ^ 3) with 8); lia).
  change (2 ^ 3) with 8 in *. change (2 ^ 29) with 536870912 in Hn'.
  split; [|split].
  - apply decode_encode_varint; [|done]. assert (2 ^ 33 <= 2 ^ 70) by by apply Z.pow_le_mono_r.
    change (2 ^ 33) with 8589934592 in *. lia.
  - rewrite Z.shiftr_div_pow2 by done. change (2 ^ 3) with 8. rewrite Z.div_add by done.
    by rewrite Z.div_small by lia.
  - change 7 with (Z.ones 3). rewrite Z.land_ones by done. change (2 ^ 3) with 8.
    rewrite Z.mod_add by done. by apply Z.mod_small.
Qed.

Ltac read_tag Ht n t rest' :=
  let tag := fresh "tag" in let Hd := fresh in let H1 := fresh in let H2 := fresh in
  destruct (decode_encode_tag n t _ rest' ltac:(done) ltac:(unfold WIRE_LEN, WIRE_VARINT, WIRE_FIXED32; lia) Ht)
    as (tag & Hd & H1 & H2);
  unfold next_field; rewrite <- ?app_assoc, Hd; cbn [mbind result_bind]; cbn zeta; rewrite H1, H2.

Lemma next_field_len n payload bs rest :
  field_no n → small payload → encode_len_delimited n payload = Ok bs →
  next_field (bs ++ rest) = Ok (Field n WIRE_LEN (VBytes payload), rest).
Proof.
  intros Hn Hs. unfold encode_len_delimited. intros H. inv_result.
  rename Hv into Ht, Hv0 into Hl. read_tag Ht n WIRE_LEN (v0 ++ payload ++ rest).
  rewrite (proj2 (Z.eqb_neq n 0)) by (destruct Hn; lia). cbn [negb require mbind result_bind].
  change (WIRE_LEN =? WIRE_VARINT) with false. change (WIRE_LEN =? WIRE_LEN) with true. cbn iota.
  assert (Hlt : len payload < 2 ^ 70) by (etrans; [exact Hs | done]).
  rewrite (decode_encode_varint _ _ _ Hlt Hl).
  cbn [mbind result_bind]. unfold split_bytes, len. rewrite length_app.
  rewrite (proj2 (Z.leb_le _ _)) by lia. cbn [require mbind result_bind].
  by rewrite Nat2Z.id, take_app_length, drop_app_length.
Qed.

Lemma next_field_varint n value tag v rest :
  field_no n → value < 2 ^ 70 → encode_tag n WIRE_VARINT = Ok tag → encode_varint value = Ok v →
  next_field ((tag ++ v) ++ rest) = Ok (Field n WIRE_VARINT (VInt value), rest).
Proof.
  intros Hn Hv Ht He. read_tag Ht n WIRE_VARINT (v ++ rest).
  rewrite (proj2 (Z.eqb_neq n 0)) by (destruct Hn; lia). cbn [negb require mbind result_bind].
  change (WIRE_VARINT =? WIRE_VARINT) with true. cbn iota.
  by rewrite (decode_encode_varint _ _ _ Hv He).
Qed.

Lemma next_field_fixed32 n tag bs rest :
  field_no n → encode_tag n WIRE_FIXED32 = Ok tag → length bs = 4%nat →
  next_field ((tag ++ bs) ++ rest) = Ok (Field n WIRE_FIXED32 (VBytes bs), rest).
Proof.
  intros Hn Ht Hl. read_tag Ht n WIRE_FIXED32 (bs ++ rest).
  rewrite (proj2 (Z.eqb_neq n 0)) by (destruct Hn; lia). cbn [negb require mbind result_bind].
  change (WIRE_FIXED32 =? WIRE_VARINT) with false. change (WIRE_FIXED32 =? WIRE_LEN) with false.
  change (WIRE_FIXED32 =? WIRE_FIXED64) with false. change (WIRE_FIXED32 =? WIRE_FIXED32) with true.
  cbn iota. unfold split_bytes, len. rewrite length_app, Hl.
  rewrite (proj2 (Z.leb_le 4 _)) by lia. cbn [require mbind result_bind].
  change (Z.to_nat 4) with 4%nat. by rewrite take_app_length', drop_app_length' by done.
Qed.

Lemma encode_len_small n payload bs :
  encode_len_delimited n payload = Ok bs → small bs → small payload.
Proof.
  unfold encode_len_delimited. intros H. inv_result. unfold small, len in *.
  rewrite !length_app in *. lia.
Qed.

(** ** Floats *)

Lemma decode_packed_concat values bss :
  mapR pack_float values = Ok bss → decode_packed_floats (concat bss) = Ok (map quantized values).
Proof.
  revert bss. induction values as [|v values IH]; intros bss H; cbn in H; inv_result; [done|].
  unfold pack_float in Hv. destruct (pack_f32 v) as [b|] eqn:Hp; [|done]. injection Hv as <-.
  pose proof (length_pack_f32 _ _ Hp) as [Hl _]. apply unpack_pack_f32 in Hp.
  destruct b as [|a [|b [|c [|d [|]]]]]; try done. cbn [concat app decode_packed_floats].
  rewrite Hp, (IH _ Hv0). done.
Qed.
