(* ===== verification/MemoryCodec.v ===== *)
(** * Memory contracts: the messages

    [cyrene_memory_provider_contracts/memory.py]: the typed requests and
    responses of [memory.provider.v1] and their protobuf codecs.  A decoder is
    the loop of its source over the fields of the payload; the state of the loop
    is the message built so far. *)

From Stdlib Require Import ZArith NArith.
From S2P Require Import Prelude PyFloat PyText PyFloat32 Json MemoryWire.

#[local] Open Scope Z_scope.

(** ** Messages *)

Record MemoryItem := Item {
  mi_item_id : pystr;
  mi_tenant_id : pystr;
  mi_scope : pystr;
  mi_subject : pystr;
  mi_content : pystr;
  mi_embedding : list pyfloat;
  mi_metadata : list (pystr * pystr);
  mi_created_at_ms : Z;
  mi_expires_at_ms : option Z;
  mi_ttl_seconds : option Z
}.

Record MemoryMatch := Match { mm_item : MemoryItem; mm_score : pyfloat }.
Record MemoryError := MkError { me_code : Z; me_message : pystr; me_retryable : bool }.

Record StoreMemoryRequest := StoreRequest { sr_tenant_id : pystr; sr_item : MemoryItem }.
Record GetMemoryRequest := GetRequest { gr_tenant_id : pystr; gr_item_id : pystr }.
Record RecallMemoryRequest := RecallRequest {
  rr_tenant_id : pystr;
  rr_scope : option pystr;
  rr_subject : option pystr;
  rr_query_embedding : list pyfloat;
  rr_query_text : option pystr;
  rr_metadata_filters : list (pystr * pystr);
  rr_min_similarity : option pyfloat;
  rr_top_k : option Z
}.
Record DeleteMemoryRequest := DeleteRequest { dr_tenant_id : pystr; dr_item_id : pystr }.
Record PruneMemoryRequest := PruneRequest {
  pr_tenant_id : pystr;
  pr_before_timestamp_ms : option Z
}.
Record ExportMemoryRequest := ExportRequest {
  xr_tenant_id : pystr;
  xr_scope : option pystr;
  xr_limit : option Z;
  xr_page_token : option pystr
}.
Record ImportMemoryRequest := ImportRequest {
  ir_tenant_id : pystr;
  ir_items : list MemoryItem;
  ir_overwrite : bool
}.

(** The responses: a value or an error; the export's has a page token too. *)
Record response (A : Type) := Response { rs_value : option A; rs_error : option MemoryError }.
Arguments Response {A} rs_value rs_error.
Arguments rs_value {A} r.
Arguments rs_error {A} r.

Definition StoreMemoryResponse : Type := response pystr.
Definition GetMemoryResponse : Type := response MemoryItem.
Definition RecallMemoryResponse : Type := response (list MemoryMatch).
Definition DeleteMemoryResponse : Type := response bool.
Definition PruneMemoryResponse : Type := response Z.
Definition ImportMemoryResponse : Type := response Z.
Record ExportMemoryResponse := ExportResponse {
  er_items : option (list MemoryItem);
  er_error : option MemoryError;
  er_next_page_token : pystr
}.

(** ** Field encoders *)

(** [_encode_optional_string] *)
Definition encode_optional_string (number : Z) (value : option pystr) : W pybytes :=
  match value with
  | None => Ok []
  | Some v => b ← utf8 v; encode_len_delimited number b
  end.

Definition encode_varint_field (number value : Z) : W pybytes :=
  tag ← encode_tag number WIRE_VARINT; v ← encode_varint value; Ok (tag ++ v).

(** [value & ((1 << 64) - 1)] *)
Definition mask64 (value : Z) : Z := Z.land value (Z.ones 64).

(** [_encode_optional_int] *)
Definition encode_optional_int (number : Z) (value : option Z) : W pybytes :=
  match value with None => Ok [] | Some v => encode_varint_field number (mask64 v) end.

Definition encode_fixed32 (number : Z) (value : pyfloat) : W pybytes :=
  tag ← encode_tag number WIRE_FIXED32; b ← pack_float value; Ok (tag ++ b).

(** [_encode_optional_float] *)
Definition encode_optional_float (number : Z) (value : option pyfloat) : W pybytes :=
  match value with None => Ok [] | Some v => encode_fixed32 number v end.

Definition bool_int (b : bool) : Z := if b then 1 else 0.

(** [_encode_bool] *)
Definition encode_bool (number : Z) (value : bool) : W pybytes :=
  encode_varint_field number (bool_int value).

(** The [join] of the parts' bytes. *)
Definition join_parts (parts : list (W pybytes)) : W pybytes :=
  bs ← mapR (λ p, p) parts; Ok (concat bs).

Definition encode_map_entry (number : Z) (kv : pystr * pystr) : W pybytes :=
  k ← encode_optional_string 1 (Some kv.1);
  v ← encode_optional_string 2 (Some kv.2);
  encode_len_delimited number (k ++ v).

(** [_encode_map] *)
Definition encode_map (number : Z) (value : list (pystr * pystr)) : W pybytes :=
  bs ← mapR (encode_map_entry number) (sort_items value); Ok (concat bs).

(** ** Field decoders *)

(** [_decode_string] *)
Definition decode_string (value : wire_value) : W pystr :=
  match value with
  | VBytes b => match utf8_decode b with Some s => Ok s | None => Err MemoryCodecError end
  | VInt _ => Err MemoryCodecError
  end.

(** [_decode_float] *)
Definition decode_float (value : wire_value) (wire_type : Z) : W pyfloat :=
  match value with
  | VBytes b =>
      _ ← require (wire_type =? WIRE_FIXED32) MemoryCodecError;
      match unpack_f32 b with Some v => Ok v | None => Err MemoryCodecError end
  | VInt _ => Err MemoryCodecError
  end.

(** [_decode_float_repeated] *)
Definition decode_float_repeated (value : wire_value) (wire_type : Z) : W (list pyfloat) :=
  match value with
  | VBytes b =>
      if wire_type =? WIRE_LEN then decode_packed_floats b
      else v ← decode_float value wire_type; Ok [v]
  | VInt _ => v ← decode_float value wire_type; Ok [v]
  end.

(** [_decode_int64] *)
Definition decode_int64 (value : wire_value) (wire_type : Z) : W Z :=
  match value with
  | VInt v =>
      _ ← require (wire_type =? WIRE_VARINT) MemoryCodecError;
      Ok (if Z.testbit v 63 then v - 2 ^ 64 else v)
  | VBytes _ => Err MemoryCodecError
  end.

Definition is_len (f : wire_field) : bool := f_type f =? WIRE_LEN.

(** [_decode_map] *)
Definition map_field (s : pystr * pystr) (f : wire_field) : W (pystr * pystr) :=
  if ((f_number f =? 1) || (f_number f =? 2)) && is_len f then
    v ← decode_string (f_value f);
    Ok (if f_number f =? 1 then (v, s.2) else (s.1, v))
  else Ok s.
Definition decode_map (value : wire_value) : W (pystr * pystr) :=
  match value with
  | VBytes b => iterate map_field b ([], [])
  | VInt _ => Err MemoryCodecError
  end.

(** A nested message; only a length-delimited field has bytes. *)
Definition nested {A} (decode : pybytes → W A) (f : wire_field) : W A :=
  match f_value f with VBytes b => decode b | VInt _ => Err MemoryCodecError end.

(** ** [MemoryItem] *)

(** [encode_memory_item] *)
Definition encode_memory_item (item : MemoryItem) : W pybytes :=
  join_parts
    [encode_string_field 1 (mi_item_id item);
     encode_string_field 2 (mi_tenant_id item);
     encode_string_field 3 (mi_scope item);
     encode_string_field 4 (mi_subject item);
     encode_string_field 5 (mi_content item);
     encode_packed_floats 6 (mi_embedding item);
     encode_map 7 (mi_metadata item);
     if mi_created_at_ms item =? 0 then Ok []
     else encode_varint_field 8 (mask64 (mi_created_at_ms item));
     encode_optional_int 9 (mi_expires_at_ms item);
     encode_optional_int 10 (mi_ttl_seconds item)].

Definition set_item_text (number : Z) (v : pystr) (i : MemoryItem) : MemoryItem :=
  let '(Item a b c d e emb md cr ex ttl) := i in
  if number =? 1 then Item v b c d e emb md cr ex ttl
  else if number =? 2 then Item a v c d e emb md cr ex ttl
  else if number =? 3 then Item a b v d e emb md cr ex ttl
  else if number =? 4 then Item a b c v e emb md cr ex ttl
  else Item a b c d v emb md cr ex ttl.
Definition add_item_floats (vs : list pyfloat) (i : MemoryItem) : MemoryItem :=
  let '(Item a b c d e emb md cr ex ttl) := i in Item a b c d e (emb ++ vs) md cr ex ttl.
Definition set_item_metadata (kv : pystr * pystr) (i : MemoryItem) : MemoryItem :=
  let '(Item a b c d e emb md cr ex ttl) := i in
  Item a b c d e emb (dict_set kv.1 kv.2 md) cr ex ttl.
Definition set_item_int (number v : Z) (i : MemoryItem) : MemoryItem :=
  let '(Item a b c d e emb md cr ex ttl) := i in
  if number =? 8 then Item a b c d e emb md v ex ttl
  else if number =? 9 then Item a b c d e emb md cr (Some v) ttl
  else Item a b c d e emb md cr ex (Some v).

(** The body of [decode_memory_item]'s loop. *)
Definition item_field (s : MemoryItem) (f : wire_field) : W MemoryItem :=
  let n := f_number f in
  if (1 <=? n) && (n <=? 5) && is_len f then
    v ← decode_string (f_value f); Ok (set_item_text n v s)
  else if n =? 6 then
    vs ← decode_float_repeated (f_value f) (f_type f); Ok (add_item_floats vs s)
  else if (n =? 7) && is_len f then
    kv ← decode_map (f_value f); Ok (set_item_metadata kv s)
  else if (n =? 8) || (n =? 9) || (n =? 10) then
    v ← decode_int64 (f_value f) (f_type f); Ok (set_item_int n v s)
  else Ok s.

Definition empty_item : MemoryItem := Item [] [] [] [] [] [] [] 0 None None.

(** [decode_memory_item] *)
Definition decode_memory_item (payload : pybytes) : W MemoryItem :=
  iterate item_field payload empty_item.

(** ** [MemoryMatch] and [MemoryError] *)

(** [_encode_match]; a score that compares equal to zero is left out. *)
Definition encode_match (m : MemoryMatch) : W pybytes :=
  score ← (if feq (mm_score m) (f_of_Z 0) then Ok [] else encode_fixed32 2 (mm_score m));
  item ← encode_memory_item (mm_item m);
  field ← encode_len_delimited 1 item;
  Ok (field ++ score).

Definition match_field (s : option MemoryItem * pyfloat) (f : wire_field)
  : W (option MemoryItem * pyfloat) :=
  if (f_number f =? 1) && is_len f then
    item ← nested decode_memory_item f; Ok (Some item, s.2)
  else if f_number f =? 2 then
    score ← decode_float (f_value f) (f_type f); Ok (s.1, score)
  else Ok s.

(** [_decode_match] *)
Definition decode_match (payload : pybytes) : W MemoryMatch :=
  '(item, score) ← iterate match_field payload (None, f_of_Z 0);
  match item with Some item => Ok (Match item score) | None => Err MemoryCodecError end.

(** [_encode_error] *)
Definition encode_error (e : MemoryError) : W pybytes :=
  join_parts
    [if me_code e =? 0 then Ok [] else encode_varint_field 1 (me_code e);
     encode_string_field 2 (me_message e);
     if me_retryable e then encode_varint_field 3 (bool_int true) else Ok []].

Definition error_field (s : MemoryError) (f : wire_field) : W MemoryError :=
  let '(MkError code message retryable) := s in
  if f_number f =? 1 then
    Ok (match f_value f with
        | VInt v => if f_type f =? WIRE_VARINT then MkError v message retryable else s
        | VBytes _ => s
        end)
  else if (f_number f =? 2) && is_len f then
    v ← decode_string (f_value f); Ok (MkError code v retryable)
  else if f_number f =? 3 then
    Ok (match f_value f with
        | VInt v =>
            if f_type f =? WIRE_VARINT then MkError code message (negb (v =? 0)) else s
        | VBytes _ => s
        end)
  else Ok s.

(** [_decode_error] *)
Definition decode_error (payload : pybytes) : W MemoryError :=
  iterate error_field payload (MkError 0 [] false).

(** ** Requests *)

(** [encode_store_request] *)
Definition encode_store_request (r : StoreMemoryRequest) : W pybytes :=
  join_parts
    [encode_string_field 1 (sr_tenant_id r);
     item ← encode_memory_item (sr_item r); encode_len_delimited 2 item].

Definition store_request_field (s : pystr * option MemoryItem) (f : wire_field)
  : W (pystr * option MemoryItem) :=
  if (f_number f =? 1) && is_len f then v ← decode_string (f_value f); Ok (v, s.2)
  else if (f_number f =? 2) && is_len f then
    item ← nested decode_memory_item f; Ok (s.1, Some item)
  else Ok s.

(** [decode_store_request] *)
Definition decode_store_request (payload : pybytes) : W StoreMemoryRequest :=
  '(tenant, item) ← iterate store_request_field payload ([], None);
  match item with Some item => Ok (StoreRequest tenant item) | None => Err MemoryCodecError end.

(** [encode_get_request], and [encode_delete_request], whose fields are the same. *)
Definition encode_get_request (r : GetMemoryRequest) : W pybytes :=
  join_parts [encode_string_field 1 (gr_tenant_id r); encode_string_field 2 (gr_item_id r)].

(** [decode_get_request] *)
Definition decode_get_request (payload : pybytes) : W GetMemoryRequest :=
  '(tenant, item_id) ← iterate map_field payload ([], []); Ok (GetRequest tenant item_id).

(** [encode_recall_request] *)
Definition encode_recall_request (r : RecallMemoryRequest) : W pybytes :=
  join_parts
    [encode_string_field 1 (rr_tenant_id r);
     encode_optional_string 2 (rr_scope r);
     encode_optional_string 3 (rr_subject r);
     encode_packed_floats 4 (rr_query_embedding r);
     encode_optional_string 5 (rr_query_text r);
     encode_map 6 (rr_metadata_filters r);
     encode_optional_float 7 (rr_min_similarity r);
     match rr_top_k r with None => Ok [] | Some k => encode_varint_field 8 k end].

Definition set_recall_text (number : Z) (v : pystr) (r : RecallMemoryRequest) : RecallMemoryRequest :=
  let '(RecallRequest t sc sb q qt fs ms k) := r in
  if number =? 1 then RecallRequest v sc sb q qt fs ms k
  else if number =? 2 then RecallRequest t (Some v) sb q qt fs ms k
  else if number =? 3 then RecallRequest t sc (Some v) q qt fs ms k
  else RecallRequest t sc sb q (Some v) fs ms k.

Definition recall_field (s : RecallMemoryRequest) (f : wire_field) : W RecallMemoryRequest :=
  let '(RecallRequest t sc sb q qt fs ms k) := s in
  let n := f_number f in
  if ((n =? 1) || (n =? 2) || (n =? 3) || (n =? 5)) && is_len f then
    v ← decode_string (f_value f); Ok (set_recall_text n v s)
  else if n =? 4 then
    vs ← decode_float_repeated (f_value f) (f_type f);
    Ok (RecallRequest t sc sb (q ++ vs) qt fs ms k)
  else if (n =? 6) && is_len f then
    kv ← decode_map (f_value f);
    Ok (RecallRequest t sc sb q qt (dict_set kv.1 kv.2 fs) ms k)
  else if n =? 7 then
    v ← decode_float (f_value f) (f_type f); Ok (RecallRequest t sc sb q qt fs (Some v) k)
  else if n =? 8 then
    v ← decode_int64 (f_value f) (f_type f); Ok (RecallRequest t sc sb q qt fs ms (Some v))
  else Ok s.

(** [tenant_id] has no default: the loop also records whether [values] has it. *)
Definition is_tenant (f : wire_field) : bool := (f_number f =? 1) && is_len f.
Definition with_tenant {A} (body : A → wire_field → W A) (s : bool * A) (f : wire_field)
  : W (bool * A) :=
  r ← body s.2 f; Ok (s.1 || is_tenant f, r).
Definition construct {A} (s : bool * A) : W A :=
  _ ← require s.1 MissingArgument; Ok s.2.

(** [decode_recall_request] *)
Definition decode_recall_request (payload : pybytes) : W RecallMemoryRequest :=
  s ← iterate (with_tenant recall_field) payload
        (false, RecallRequest [] None None [] None [] None None);
  construct s.

(** [encode_delete_request] *)
Definition encode_delete_request (r : DeleteMemoryRequest) : W pybytes :=
  join_parts [encode_string_field 1 (dr_tenant_id r); encode_string_field 2 (dr_item_id r)].

(** [decode_delete_request] *)
Definition decode_delete_request (payload : pybytes) : W DeleteMemoryRequest :=
  r ← decode_get_request payload; Ok (DeleteRequest (gr_tenant_id r) (gr_item_id r)).

(** [encode_prune_request] *)
Definition encode_prune_request (r : PruneMemoryRequest) : W pybytes :=
  join_parts
    [encode_string_field 1 (pr_tenant_id r); encode_optional_int 2 (pr_before_timestamp_ms r)].

Definition prune_request_field (s : PruneMemoryRequest) (f : wire_field) : W PruneMemoryRequest :=
  if (f_number f =? 1) && is_len f then
    v ← decode_string (f_value f); Ok (PruneRequest v (pr_before_timestamp_ms s))
  else if f_number f =? 2 then
    v ← decode_int64 (f_value f) (f_type f); Ok (PruneRequest (pr_tenant_id s) (Some v))
  else Ok s.

(** [decode_prune_request] *)
Definition decode_prune_request (payload : pybytes) : W PruneMemoryRequest :=
  iterate prune_request_field payload (PruneRequest [] None).

(** [encode_export_batch_request] *)
Definition encode_export_batch_request (r : ExportMemoryRequest) : W pybytes :=
  join_parts
    [encode_string_field 1 (xr_tenant_id r);
     encode_optional_string 2 (xr_scope r);
     match xr_limit r with None => Ok [] | Some l => encode_varint_field 3 l end;
     encode_optional_string 4 (xr_page_token r)].

Definition export_field (s : ExportMemoryRequest) (f : wire_field) : W ExportMemoryRequest :=
  let '(ExportRequest t sc l p) := s in
  let n := f_number f in
  if ((n =? 1) || (n =? 2)) && is_len f then
    v ← decode_string (f_value f);
    Ok (if n =? 1 then ExportRequest v sc l p else ExportRequest t (Some v) l p)
  else if n =? 3 then
    v ← decode_int64 (f_value f) (f_type f); Ok (ExportRequest t sc (Some v) p)
  else if (n =? 4) && is_len f then
    v ← decode_string (f_value f); Ok (ExportRequest t sc l (Some v))
  else Ok s.

(** [decode_export_batch_request] *)
Definition decode_export_batch_request (payload : pybytes) : W ExportMemoryRequest :=
  s ← iterate (with_tenant export_field) payload (false, ExportRequest [] None None None);
  construct s.

(** The concatenation of the items, each in a field. *)
Definition encode_each {A} (encode : A → W pybytes) (number : Z) (xs : list A) : W pybytes :=
  bs ← mapR (λ x, b ← encode x; encode_len_delimited number b) xs; Ok (concat bs).

(** [encode_import_batch_request] *)
Definition encode_import_batch_request (r : ImportMemoryRequest) : W pybytes :=
  join_parts
    [encode_string_field 1 (ir_tenant_id r);
     encode_each encode_memory_item 2 (ir_items r);
     if ir_overwrite r then encode_bool 3 true else Ok []].

Definition import_request_field (s : ImportMemoryRequest) (f : wire_field) : W ImportMemoryRequest :=
  let '(ImportRequest t items ow) := s in
  if (f_number f =? 1) && is_len f then
    v ← decode_string (f_value f); Ok (ImportRequest v items ow)
  else if (f_number f =? 2) && is_len f then
    item ← nested decode_memory_item f; Ok (ImportRequest t (items ++ [item]) ow)
  else if f_number f =? 3 then
    Ok (match f_value f with
        | VInt v => if f_type f =? WIRE_VARINT then ImportRequest t items (negb (v =? 0)) else s
        | VBytes _ => s
        end)
  else Ok s.

(** [decode_import_batch_request] *)
Definition decode_import_batch_request (payload : pybytes) : W ImportMemoryRequest :=
  iterate import_request_field payload (ImportRequest [] [] false).

(** ** Responses *)

(** An error, else a value, else nothing. *)
Definition encode_result {A} (encode : A → W pybytes) (r : response A) : W pybytes :=
  match rs_error r, rs_value r with
  | Some e, _ => b ← encode_error e; encode_len_delimited 2 b
  | None, Some v => encode v
  | None, None => Ok []
  end.

(** The loop of a response decoder: [value] reads field 1 when it applies. *)
Definition result_field {A} (value : wire_field → option (W A)) (s : response A) (f : wire_field)
  : W (response A) :=
  match (if f_number f =? 1 then value f else None) with
  | Some v => v ← v; Ok (Response (Some v) None)
  | None =>
      if (f_number f =? 2) && is_len f then
        e ← nested decode_error f; Ok (Response None (Some e))
      else Ok s
  end.
Definition decode_result {A} (value : wire_field → option (W A)) (payload : pybytes)
  : W (response A) :=
  iterate (result_field value) payload (Response None None).

Definition if_len {A} (decode : wire_field → W A) (f : wire_field) : option (W A) :=
  if is_len f then Some (decode f) else None.

(** [encode_store_response], [decode_store_response] *)
Definition encode_store_response : StoreMemoryResponse → W pybytes :=
  encode_result (λ id, encode_optional_string 1 (Some id)).
Definition decode_store_response : pybytes → W StoreMemoryResponse :=
  decode_result (if_len (λ f, decode_string (f_value f))).

(** [encode_get_response], [decode_get_response] *)
Definition encode_get_response : GetMemoryResponse → W pybytes :=
  encode_result (λ item, b ← encode_memory_item item; encode_len_delimited 1 b).
Definition decode_get_response : pybytes → W GetMemoryResponse :=
  decode_result (if_len (nested decode_memory_item)).

(** [encode_recall_response], [decode_recall_response] *)
Definition encode_recall_response : RecallMemoryResponse → W pybytes :=
  encode_result (λ ms, b ← encode_each encode_match 1 ms; encode_len_delimited 1 b).
Definition match_batch_field (s : list MemoryMatch) (f : wire_field) : W (list MemoryMatch) :=
  if (f_number f =? 1) && is_len f then m ← nested decode_match f; Ok (s ++ [m]) else Ok s.
Definition decode_recall_response : pybytes → W RecallMemoryResponse :=
  decode_result (if_len (nested (λ b, iterate match_batch_field b []))).

(** [encode_delete_response], [decode_delete_response] *)
Definition encode_delete_response : DeleteMemoryResponse → W pybytes :=
  encode_result (λ d, encode_varint_field 1 (bool_int d)).
Definition varint_bool (f : wire_field) : option (W bool) :=
  match f_value f with
  | VInt v => if f_type f =? WIRE_VARINT then Some (Ok (negb (v =? 0))) else None
  | VBytes _ => None
  end.
Definition decode_delete_response : pybytes → W DeleteMemoryResponse := decode_result varint_bool.

Definition int64_field (f : wire_field) : option (W Z) :=
  Some (decode_int64 (f_value f) (f_type f)).

(** [encode_prune_response], [decode_prune_response] *)
Definition encode_prune_response : PruneMemoryResponse → W pybytes :=
  encode_result (λ n, encode_varint_field 1 (mask64 n)).
Definition decode_prune_response : pybytes → W PruneMemoryResponse := decode_result int64_field.

(** [encode_import_batch_response], [decode_import_batch_response] *)
Definition encode_import_batch_response : ImportMemoryResponse → W pybytes :=
  encode_result (λ n, encode_varint_field 1 n).
Definition decode_import_batch_response : pybytes → W ImportMemoryResponse :=
  decode_result int64_field.

(** [encode_export_batch_response] *)
Definition encode_export_batch_response (r : ExportMemoryResponse) : W pybytes :=
  match er_error r, er_items r with
  | Some e, _ => b ← encode_error e; encode_len_delimited 2 b
  | None, Some items =>
      batch ← encode_each encode_memory_item 1 items;
      token ← encode_string_field 2 (er_next_page_token r);
      encode_len_delimited 1 (batch ++ token)
  | None, None => Ok []
  end.

Definition export_batch_field (s : list MemoryItem * pystr) (f : wire_field)
  : W (list MemoryItem * pystr) :=
  if (f_number f =? 1) && is_len f then
    item ← nested decode_memory_item f; Ok (s.1 ++ [item], s.2)
  else if (f_number f =? 2) && is_len f then v ← decode_string (f_value f); Ok (s.1, v)
  else Ok s.

Definition export_response_field (s : ExportMemoryResponse) (f : wire_field)
  : W ExportMemoryResponse :=
  if (f_number f =? 1) && is_len f then
    '(items, token) ← nested (λ b, iterate export_batch_field b ([], er_next_page_token s)) f;
    Ok (ExportResponse (Some items) None token)
  else if (f_number f =? 2) && is_len f then
    e ← nested decode_error f; Ok (ExportResponse None (Some e) (er_next_page_token s))
  else Ok s.

(** [decode_export_batch_response] *)
Definition decode_export_batch_response (payload : pybytes) : W ExportMemoryResponse :=
  iterate export_response_field payload (ExportResponse None None []).

(** ** Dispatch by method *)

Inductive method :=
  | METHOD_STORE | METHOD_GET | METHOD_RECALL | METHOD_DELETE | METHOD_PRUNE
  | METHOD_EXPORT_BATCH | METHOD_IMPORT_BATCH.

#[export] Instance method_eq_dec : EqDecision method.
Proof. solve_decision. Defined.

Definition request (m : method) : Type :=
  match m with
  | METHOD_STORE => StoreMemoryRequest
  | METHOD_GET => GetMemoryRequest
  | METHOD_RECALL => RecallMemoryRequest
  | METHOD_DELETE => DeleteMemoryRequest
  | METHOD_PRUNE => PruneMemoryRequest
  | METHOD_EXPORT_BATCH => ExportMemoryRequest
  | METHOD_IMPORT_BATCH => ImportMemoryRequest
  end.

Definition reply (m : method) : Type :=
  match m with
  | METHOD_STORE => StoreMemoryResponse
  | METHOD_GET => GetMemoryResponse
  | METHOD_RECALL => RecallMemoryResponse
  | METHOD_DELETE => DeleteMemoryResponse
  | METHOD_PRUNE => PruneMemoryResponse
  | METHOD_EXPORT_BATCH => ExportMemoryResponse
  | METHOD_IMPORT_BATCH => ImportMemoryResponse
  end.

(** [encode_request] and [decode_request] of a method the table has. *)
Definition encode_request (m : method) : request m → W pybytes :=
  match m with
  | METHOD_STORE => encode_store_request
  | METHOD_GET => encode_get_request
  | METHOD_RECALL => encode_recall_request
  | METHOD_DELETE => encode_delete_request
  | METHOD_PRUNE => encode_prune_request
  | METHOD_EXPORT_BATCH => encode_export_batch_request
  | METHOD_IMPORT_BATCH => encode_import_batch_request
  end.

Definition decode_request (m : method) : pybytes → W (request m) :=
  match m with
  | METHOD_STORE => decode_store_request
  | METHOD_GET => decode_get_request
  | METHOD_RECALL => decode_recall_request
  | METHOD_DELETE => decode_delete_request
  | METHOD_PRUNE => decode_prune_request
  | METHOD_EXPORT_BATCH => decode_export_batch_request
  | METHOD_IMPORT_BATCH => decode_import_batch_request
  end.

(** [(value is None) == (error is None)] *)
Definition one_of {A B} (value : option A) (error : option B) : bool :=
  match value, error with
  | Some _, None | None, Some _ => true
  | _, _ => false
  end.

(** [_validate_response] *)
Definition validate_response (m : method) : reply m → W () :=
  match m with
  | METHOD_EXPORT_BATCH => λ r, require (one_of (er_items r) (er_error r)) MemoryCodecError
  | METHOD_STORE | METHOD_GET | METHOD_RECALL | METHOD_DELETE | METHOD_PRUNE
  | METHOD_IMPORT_BATCH => λ r, require (one_of (rs_value r) (rs_error r)) MemoryCodecError
  end.

Definition encode_reply (m : method) : reply m → W pybytes :=
  match m with
  | METHOD_STORE => encode_store_response
  | METHOD_GET => encode_get_response
  | METHOD_RECALL => encode_recall_response
  | METHOD_DELETE => encode_delete_response
  | METHOD_PRUNE => encode_prune_response
  | METHOD_EXPORT_BATCH => encode_export_batch_response
  | METHOD_IMPORT_BATCH => encode_import_batch_response
  end.

Definition decode_reply (m : method) : pybytes → W (reply m) :=
  match m with
  | METHOD_STORE => decode_store_response
  | METHOD_GET => decode_get_response
  | METHOD_RECALL => decode_recall_response
  | METHOD_DELETE => decode_delete_response
  | METHOD_PRUNE => decode_prune_response
  | METHOD_EXPORT_BATCH => decode_export_batch_response
  | METHOD_IMPORT_BATCH => decode_import_batch_response
  end.

(** [encode_response] *)
Definition encode_response (m : method) (r : reply m) : W pybytes :=
  _ ← validate_response m r; encode_reply m r.

(** [decode_response] *)
Definition decode_response (m : method) (payload : pybytes) : W (reply m) :=
  r ← decode_reply m payload; _ ← validate_response m r; Ok r.
