(* ===== verification/MemoryCodecFacts.v ===== *)
(** * Memory contracts: round trips

    Decoding what was encoded gives the message back: embeddings rounded to
    binary32, metadata in key order.  One class states the law, and an instance
    per message proves it; nested messages use the instances of their parts. *)

From Stdlib Require Import ZArith NArith.
From S2P Require Import Prelude PyFloat PyText PyFloat32 Json MemoryWire MemoryWireFacts MemoryCodec.

#[local] Open Scope Z_scope.

(** ** The law *)

(** A message type: its codec, the messages that are representable, and the
    form in which a message comes back. *)
Class Wire (A : Type) := {
  wire_encode : A → W pybytes;
  wire_decode : pybytes → W A;
  wire_ok : A → Prop;
  wire_norm : A → A
}.

Class WireLaw (A : Type) `{Wire A} :=
  wire_roundtrip a bs : wire_ok a → wire_encode a = Ok bs → small bs → wire_decode bs = Ok (wire_norm a).

Definition int64 (v : Z) : Prop := - 2 ^ 63 <= v < 2 ^ 63.
Definition opt {A} (P : A → Prop) (o : option A) : Prop := match o with Some a => P a | None => True end.

(** ** Values *)

Lemma decode_string_utf8 v p : utf8 v = Ok p → decode_string (VBytes p) = Ok v.
Proof.
  unfold utf8, decode_string. destruct (utf8_encode v) eqn:E; [|done]. intros [= <-].
  by rewrite (utf8_decode_encode _ _ E).
Qed.

Lemma decode_mask64 v : int64 v → decode_int64 (VInt (mask64 v)) WIRE_VARINT = Ok v.
Proof.
  unfold int64, decode_int64, mask64. intros Hv. cbn [Z.eqb WIRE_VARINT require mbind result_bind].
  rewrite Z.land_ones by done. f_equal.
  assert (Hb : Z.testbit (v mod 2 ^ 64) 63 = (v <? 0)).
  { rewrite Z.mod_pow2_bits_low by done. destruct (Z.ltb_spec v 0) as [Hn|Hn].
    - apply Z.bits_above_log2_neg; [done|]. destruct (Z.eq_dec v (-1)) as [->|]; [done|].
      apply Z.log2_lt_pow2; lia.
    - destruct (Z.eq_dec v 0) as [->|]; [done|]. apply Z.bits_above_log2; [done|].
      apply Z.log2_lt_pow2; lia. }
  rewrite Hb. destruct (Z.ltb_spec v 0) as [Hn|Hn]; [|by apply Z.mod_small; lia].
  rewrite <- (Z.mod_add v 1) by done. rewrite Z.mul_1_l, Z.mod_small by lia. lia.
Qed.

Lemma mask64_bound v : mask64 v < 2 ^ 70.
Proof.
  unfold mask64. rewrite Z.land_ones by done. etrans; [by apply Z.mod_pos_bound|done].
Qed.

Lemma decode_int64_nonneg v : 0 <= v < 2 ^ 63 → decode_int64 (VInt v) WIRE_VARINT = Ok v.
Proof.
  intros Hv. unfold decode_int64. cbn [Z.eqb WIRE_VARINT require mbind result_bind].
  destruct (Z.eq_dec v 0) as [->|]; [done|].
  rewrite Z.bits_above_log2; [done|lia|]. apply Z.log2_lt_pow2; lia.
Qed.

Lemma decode_pack_float v b :
  pack_float v = Ok b → length b = 4%nat ∧ decode_float (VBytes b) WIRE_FIXED32 = Ok (quantized v).
Proof.
  unfold pack_float. destruct (pack_f32 v) as [b'|] eqn:E; [|done]. intros [= <-].
  split; [by apply length_pack_f32 in E as []|]. apply unpack_pack_f32 in E.
  unfold decode_float. cbn [Z.eqb WIRE_FIXED32 Pos.eqb require mbind result_bind]. by rewrite E.
Qed.

(** ** A loop over the parts of a message *)

Section Parts.
Context {S : Type} (body : S → wire_field → W S).

(** The parts, one after the other, take the loop from [s] to [s']. *)
Fixpoint runs_parts (parts : list (W pybytes)) (s s' : S) : Prop :=
  match parts with
  | [] => s = s'
  | p :: parts =>
      ∃ s1, (∀ b, p = Ok b → small b → runs body b s s1) ∧ runs_parts parts s1 s'
  end.

Lemma iterate_parts parts bs s s' :
  runs_parts parts s s' → join_parts parts = Ok bs → small bs → iterate body bs s = Ok s'.
Proof.
  intros Hp Hj Hs. unfold join_parts in Hj. inv_result. apply runs_end.
  revert s v Hp Hv Hs. induction parts as [|p parts IH]; intros s v Hp Hv Hs; cbn in Hv; inv_result.
  - cbn in Hp. subst. apply runs_nil.
  - destruct Hp as (s1 & H1 & Hp). cbn in *. apply small_app in Hs as [Hs1 Hs2].
    eapply runs_app; [by apply H1 | by apply IH].
Qed.

Lemma runs_len n p b s s' :
  encode_len_delimited n p = Ok b → field_no n → small b →
  body s (Field n WIRE_LEN (VBytes p)) = Ok s' → runs body b s s'.
Proof.
  intros He Hn Hs Hb. eapply runs_field; [|exact Hb]. intros rest.
  apply next_field_len; [done| |done]. by eapply encode_len_small.
Qed.

Lemma runs_string n v b s s' :
  encode_string_field n v = Ok b → field_no n → small b →
  (∀ p, decode_string (VBytes p) = Ok v → body s (Field n WIRE_LEN (VBytes p)) = Ok s') →
  (v = [] → s = s') →
  runs body b s s'.
Proof.
  intros He Hn Hs Hb H0. unfold encode_string_field in He. case_bool_decide.
  - injection He as <-. rewrite H0 by done. apply runs_nil.
  - inv_result. eapply runs_len; eauto using decode_string_utf8.
Qed.

Lemma runs_optional_string n o b s s' :
  encode_optional_string n o = Ok b → field_no n → small b →
  (∀ v p, o = Some v → decode_string (VBytes p) = Ok v →
     body s (Field n WIRE_LEN (VBytes p)) = Ok s') →
  (o = None → s = s') →
  runs body b s s'.
Proof.
  intros He Hn Hs Hb H0. destruct o as [v|]; cbn in He.
  - inv_result. eapply runs_len; eauto using decode_string_utf8.
  - injection He as <-. rewrite H0 by done. apply runs_nil.
Qed.

Lemma runs_floats n vs b s s' :
  encode_packed_floats n vs = Ok b → field_no n → small b →
  (∀ p, decode_float_repeated (VBytes p) WIRE_LEN = Ok (map quantized vs) →
     body s (Field n WIRE_LEN (VBytes p)) = Ok s') →
  (vs = [] → s = s') →
  runs body b s s'.
Proof.
  intros He Hn Hs Hb H0. unfold encode_packed_floats in He. case_bool_decide.
  - injection He as <-. rewrite H0 by done. apply runs_nil.
  - inv_result. eapply runs_len; [done|done|done|]. apply Hb. by apply decode_packed_concat.
Qed.

Lemma runs_varint n v b s s' :
  encode_varint_field n v = Ok b → field_no n → v < 2 ^ 70 →
  body s (Field n WIRE_VARINT (VInt v)) = Ok s' → runs body b s s'.
Proof.
  intros He Hn Hv Hb. unfold encode_varint_field in He. inv_result.
  eapply runs_field; [|exact Hb]. intros rest. by apply next_field_varint.
Qed.

Lemma runs_int64 n o b s s' :
  encode_optional_int n o = Ok b → field_no n → opt int64 o →
  (∀ v w, o = Some v → decode_int64 (VInt w) WIRE_VARINT = Ok v →
     body s (Field n WIRE_VARINT (VInt w)) = Ok s') →
  (o = None → s = s') →
  runs body b s s'.
Proof.
  intros He Hn Ho Hb H0. destruct o as [v|]; cbn in He, Ho.
  - eapply runs_varint; [done|done|apply (mask64_bound v)|]. eapply Hb; [done|]. by apply decode_mask64.
  - injection He as <-. rewrite H0 by done. apply runs_nil.
Qed.

Lemma runs_float n v b s s' :
  encode_fixed32 n v = Ok b → field_no n →
  (∀ p, decode_float (VBytes p) WIRE_FIXED32 = Ok (quantized v) →
     body s (Field n WIRE_FIXED32 (VBytes p)) = Ok s') →
  runs body b s s'.
Proof.
  intros He Hn Hb. unfold encode_fixed32 in He. inv_result.
  apply decode_pack_float in Hv0 as [Hl Hd].
  eapply runs_field; [|by apply Hb]. intros rest. by apply next_field_fixed32.
Qed.

(** The same field once per element; [st] are the states in between. *)
Lemma runs_each {A B T} (encode : A → W pybytes) (read : A → B) (st : T → S) (add : T → B → T)
    n xs b t :
  encode_each encode n xs = Ok b → field_no n → small b →
  (∀ x p, x ∈ xs → encode x = Ok p → small p →
     ∀ t, body (st t) (Field n WIRE_LEN (VBytes p)) = Ok (st (add t (read x)))) →
  runs body b (st t) (st (foldl add t (map read xs))).
Proof.
  intros He Hn Hs Hx. unfold encode_each in He. inv_result.
  revert t v Hv Hs. induction xs as [|x xs IH]; intros t v Hv Hs; cbn in Hv; inv_result.
  - apply runs_nil.
  - cbn in Hs |- *. apply small_app in Hs as [Hs1 Hs2]. eapply runs_app.
    + eapply runs_len; [done|done|done|]. apply Hx; [by left|done|].
      by eapply encode_len_small.
    + apply IH; [|done|done]. intros y p Hy. apply Hx. by right.
Qed.
End Parts.

(** ** Maps *)

Definition encode_entry (kv : pystr * pystr) : W pybytes :=
  join_parts [encode_optional_string 1 (Some kv.1); encode_optional_string 2 (Some kv.2)].

Lemma encode_map_each n m : encode_map n m = encode_each encode_entry n (sort_items m).
Proof.
  unfold encode_map, encode_each. f_equal. generalize (sort_items m). intros l.
  induction l as [|kv l IH]; [done|]. cbn [mapR]. rewrite IH. f_equal.
  unfold encode_map_entry, encode_entry, join_parts. cbn [mapR].
  destruct (encode_optional_string 1 _); [|done]. cbn [mbind result_bind].
  destruct (encode_optional_string 2 _); [|done]. cbn [mbind result_bind concat].
  by rewrite app_nil_r.
Qed.

Lemma decode_entry kv p : encode_entry kv = Ok p → small p → decode_map (VBytes p) = Ok kv.
Proof.
  intros He Hs. unfold decode_map. eapply iterate_parts; [|exact He|exact Hs].
  exists (kv.1, []). split.
  { intros b Hb Hsb. eapply runs_optional_string; [exact Hb|done|done| |discriminate].
    intros v q [= <-] Hq. unfold map_field. cbn -[decode_string]. by rewrite Hq. }
  exists kv. split; [|done].
  intros b Hb Hsb. eapply runs_optional_string; [exact Hb|done|done| |discriminate].
  intros v q [= <-] Hq. unfold map_field. cbn -[decode_string]. rewrite Hq. by destruct kv.
Qed.

(** Inserting the sorted entries of a dict one by one gives them back. *)
Lemma foldl_dict_set (m : list (pystr * pystr)) :
  NoDup m.*1 → foldl (λ d kv, dict_set kv.1 kv.2 d) [] (sort_items m) = sort_items m.
Proof.
  intros Hnd. assert (Hs : NoDup (sort_items m).*1) by by rewrite sort_items_perm.
  etrans; [|exact (dict_of_pairs_nodup _ Hs)]. unfold dict_of_pairs.
  generalize ([] : list (pystr * pystr)) (sort_items m). intros d l. revert d.
  induction l as [|[k v] l IH]; intros d; cbn; [done|]. apply IH.
Qed.

Lemma runs_map {S} (body : S → wire_field → W S) (st : list (pystr * pystr) → S) n m b :
  encode_map n m = Ok b → field_no n → small b → NoDup m.*1 →
  (∀ d kv p, decode_map (VBytes p) = Ok kv →
     body (st d) (Field n WIRE_LEN (VBytes p)) = Ok (st (dict_set kv.1 kv.2 d))) →
  runs body b (st []) (st (sort_items m)).
Proof.
  rewrite encode_map_each. intros He Hn Hs Hnd Hb.
  replace (st (sort_items m))
    with (st (foldl (λ d kv, dict_set kv.1 kv.2 d) [] (map (λ kv, kv) (sort_items m))))
    by by rewrite map_id, (foldl_dict_set m Hnd).
  eapply (runs_each body encode_entry (λ kv, kv) st (λ d kv, dict_set kv.1 kv.2 d)); [done..|].
  intros kv p _ Hp Hsp d. apply Hb. by apply decode_entry.
Qed.

(** ** Items *)

Definition item_norm (i : MemoryItem) : MemoryItem :=
  Item (mi_item_id i) (mi_tenant_id i) (mi_scope i) (mi_subject i) (mi_content i)
    (map quantized (mi_embedding i)) (sort_items (mi_metadata i)) (mi_created_at_ms i)
    (mi_expires_at_ms i) (mi_ttl_seconds i).

Definition item_ok (i : MemoryItem) : Prop :=
  NoDup (mi_metadata i).*1 ∧ int64 (mi_created_at_ms i)
  ∧ opt int64 (mi_expires_at_ms i) ∧ opt int64 (mi_ttl_seconds i).

#[export] Instance item_wire : Wire MemoryItem := {
  wire_encode := encode_memory_item;
  wire_decode := decode_memory_item;
  wire_ok := item_ok;
  wire_norm := item_norm
}.

(** One part of a message; [part_to] names the state after it. *)
Ltac part_to s := exists s; split; [intros bp Hbp Hsp|].
Ltac text_part :=
  eexists; split;
  [intros bp Hbp Hsp; eapply runs_string; [eassumption|done|done|
     intros ? Hd; cbn -[decode_string]; rewrite Hd; reflexivity|by intros ->]|].
Ltac read_with f :=
  intros ? ? -> Hd; cbn -[f]; rewrite Hd; reflexivity.
Ltac optional_text_part s :=
  part_to s;
  [eapply runs_optional_string; [eassumption|done|done|read_with decode_string|by intros ->]|].
Ltac optional_int_part s :=
  part_to s;
  [eapply runs_int64; [eassumption|done|done|read_with decode_int64|by intros ->]|].
Ltac floats_part :=
  eexists; split;
  [intros bp Hbp Hsp; eapply runs_floats; [eassumption|done|done|
     intros ? Hd; cbn -[decode_float_repeated]; rewrite Hd; reflexivity|by intros ->]|].

#[export] Instance item_law : WireLaw MemoryItem.
Proof.
  intros [a b c d e emb md cr ex ttl] bs (Hmd & Hcr & Hex & Httl) He Hs.
  eapply iterate_parts; [|exact He|exact Hs].
  cbn [mi_item_id mi_tenant_id mi_scope mi_subject mi_content mi_embedding mi_metadata
    mi_created_at_ms mi_expires_at_ms mi_ttl_seconds] in *.
  do 5 text_part. floats_part.
  part_to (Item a b c d e (map quantized emb) (sort_items md) 0 None None).
  { apply (runs_map _ (λ md, Item a b c d e (map quantized emb) md 0 None None) 7); [done..|].
    intros d' kv p Hd. cbn -[decode_map]. by rewrite Hd. }
  part_to (Item a b c d e (map quantized emb) (sort_items md) cr None None).
  { destruct (Z.eqb_spec cr 0) as [->|Hcr0]; [injection Hbp as <-; apply runs_nil|].
    eapply runs_varint; [exact Hbp|done|apply mask64_bound|].
    cbn -[decode_int64 mask64]. by rewrite decode_mask64. }
  optional_int_part (Item a b c d e (map quantized emb) (sort_items md) cr ex None).
  optional_int_part (Item a b c d e (map quantized emb) (sort_items md) cr ex ttl).
  done.
Qed.
