(* ===== verification/MemoryCodecLaws.v ===== *)
(** * Memory contracts: the round trip of every message

    An instance of [WireLaw] per message, and the laws of the responses.  A
    score that compares equal to zero comes back as [0.0]; the page token of an
    export that failed is not sent. *)

From Stdlib Require Import ZArith NArith.
From S2P Require Import Prelude PyFloat PyText PyFloat32 Json MemoryWire MemoryWireFacts MemoryCodec MemoryCodecFacts.

#[local] Open Scope Z_scope.

(** ** Nested messages *)

Section Nested.
Context {A : Type} `{WireLaw A} {S : Type} (body : S → wire_field → W S).

Lemma runs_message n (a : A) b s s' :
  (p ← wire_encode a; encode_len_delimited n p) = Ok b → field_no n → wire_ok a → small b →
  (∀ p, wire_decode p = Ok (wire_norm a) → body s (Field n WIRE_LEN (VBytes p)) = Ok s') →
  runs body b s s'.
Proof.
  intros He Hn Ha Hs Hb. inv_result. eapply runs_len; [done|done|done|]. apply Hb.
  apply wire_roundtrip; [done|done|]. by eapply encode_len_small.
Qed.

(** A repeated field of messages, each appended to the list. *)
Lemma runs_messages (st : list A → S) n (xs : list A) b :
  encode_each wire_encode n xs = Ok b → field_no n → Forall wire_ok xs → small b →
  (∀ x p l, wire_decode p = Ok x →
     body (st l) (Field n WIRE_LEN (VBytes p)) = Ok (st (l ++ [x]))) →
  runs body b (st []) (st (map wire_norm xs)).
Proof.
  intros He Hn Hok Hs Hb.
  assert (Hf : ∀ l t, foldl (λ l x, l ++ [x]) t (map wire_norm l) = t ++ map wire_norm l).
  { induction l as [|x l IH]; intros t; cbn; [by rewrite app_nil_r|]. by rewrite IH, <- app_assoc. }
  rewrite <- (app_nil_l (map wire_norm xs)), <- Hf.
  eapply (runs_each body wire_encode wire_norm st (λ l x, l ++ [x])); [done..|].
  intros x p Hx Hp Hsp l. apply Hb. apply wire_roundtrip; [|done|done].
  rewrite Forall_forall in Hok. by apply Hok.
Qed.
End Nested.

(** ** Matches and errors *)

Definition score_norm (score : pyfloat) : pyfloat :=
  if feq score (f_of_Z 0) then f_of_Z 0 else quantized score.

#[export] Instance match_wire : Wire MemoryMatch := {
  wire_encode := encode_match;
  wire_decode := decode_match;
  wire_ok m := item_ok (mm_item m);
  wire_norm m := Match (item_norm (mm_item m)) (score_norm (mm_score m))
}.

#[export] Instance match_law : WireLaw MemoryMatch.
Proof.
  intros [item score] bs Hok He Hs. cbn [wire_ok wire_norm match_wire mm_item mm_score] in *.
  cbn [wire_encode wire_decode match_wire] in *. unfold encode_match in He. inv_result.
  cbn [mm_item mm_score] in *. apply small_app in Hs as [Hs1 Hs2]. unfold decode_match.
  assert (Hr : iterate match_field (v1 ++ v) (None, f_of_Z 0)
    = Ok (Some (item_norm item), score_norm score)).
  { apply runs_end. eapply (runs_app _ _ _ _ (Some (item_norm item), f_of_Z 0)).
    - apply (runs_message _ 1 item v1); [|done..|].
      { change (wire_encode item) with (encode_memory_item item). by rewrite Hv0. }
      intros p Hd. unfold match_field. cbn -[decode_memory_item f_of_Z].
      change (decode_memory_item p = Ok (item_norm item)) in Hd. by rewrite Hd.
    - unfold score_norm. destruct (feq score (f_of_Z 0)); [inv_result; apply runs_nil|].
      eapply runs_float; [done|done|]. intros p Hd. unfold match_field.
      cbn -[decode_float f_of_Z]. by rewrite Hd. }
  by rewrite Hr.
Qed.

#[export] Instance error_wire : Wire MemoryError := {
  wire_encode := encode_error;
  wire_decode := decode_error;
  wire_ok e := me_code e < 2 ^ 70;
  wire_norm e := e
}.

#[export] Instance error_law : WireLaw MemoryError.
Proof.
  intros [code message retryable] bs Hc He Hs. cbn [wire_ok wire_norm error_wire me_code] in *.
  eapply iterate_parts; [|exact He|exact Hs]. cbn [me_code me_message me_retryable].
  part_to (MkError code [] false).
  { destruct (Z.eqb_spec code 0) as [->|Hcr0]; [injection Hbp as <-; apply runs_nil|].
    by eapply runs_varint. }
  text_part. part_to (MkError code message retryable); [|done].
  destruct retryable; [by eapply runs_varint|injection Hbp as <-; apply runs_nil].
Qed.

(** ** Requests *)

#[export] Instance store_request_wire : Wire StoreMemoryRequest := {
  wire_encode := encode_store_request;
  wire_decode := decode_store_request;
  wire_ok r := item_ok (sr_item r);
  wire_norm r := StoreRequest (sr_tenant_id r) (item_norm (sr_item r))
}.

(** A part that is a nested item. *)
Ltac read_item := intros ? Hd; cbn -[decode_memory_item]; change decode_memory_item with (wire_decode (A := MemoryItem)); rewrite Hd; reflexivity.

#[export] Instance store_request_law : WireLaw StoreMemoryRequest.
Proof.
  intros [tenant item] bs Hok He Hs. cbn [wire_ok wire_norm store_request_wire sr_item sr_tenant_id] in *.
  cbn [wire_encode wire_decode store_request_wire] in *. unfold decode_store_request.
  assert (Hr : iterate store_request_field bs ([], None) = Ok (tenant, Some (item_norm item))).
  { eapply iterate_parts; [|exact He|exact Hs]. cbn [sr_tenant_id sr_item].
    text_part. part_to (tenant, Some (item_norm item)); [|done].
    apply (runs_message _ 2 item bp); [exact Hbp|done..|]. read_item. }
  by rewrite Hr.
Qed.

#[export] Instance get_request_wire : Wire GetMemoryRequest := {
  wire_encode := encode_get_request;
  wire_decode := decode_get_request;
  wire_ok _ := True;
  wire_norm r := r
}.

#[export] Instance get_request_law : WireLaw GetMemoryRequest.
Proof.
  intros [tenant item_id] bs _ He Hs. cbn [wire_encode wire_decode get_request_wire] in *.
  unfold decode_get_request. assert (Hr : iterate map_field bs ([], []) = Ok (tenant, item_id)).
  { eapply iterate_parts; [|exact He|exact Hs]. cbn [gr_tenant_id gr_item_id].
    do 2 text_part. done. }
  by rewrite Hr.
Qed.

#[export] Instance delete_request_wire : Wire DeleteMemoryRequest := {
  wire_encode := encode_delete_request;
  wire_decode := decode_delete_request;
  wire_ok _ := True;
  wire_norm r := r
}.

#[export] Instance delete_request_law : WireLaw DeleteMemoryRequest.
Proof.
  intros [tenant item_id] bs _ He Hs. cbn [wire_encode wire_decode delete_request_wire] in *.
  unfold decode_delete_request.
  pose proof (wire_roundtrip (GetRequest tenant item_id) bs I He Hs) as Hr.
  cbn [wire_decode get_request_wire] in Hr. by rewrite Hr.
Qed.

#[export] Instance prune_request_wire : Wire PruneMemoryRequest := {
  wire_encode := encode_prune_request;
  wire_decode := decode_prune_request;
  wire_ok r := opt int64 (pr_before_timestamp_ms r);
  wire_norm r := r
}.

#[export] Instance prune_request_law : WireLaw PruneMemoryRequest.
Proof.
  intros [tenant before] bs Hok He Hs. cbn [wire_ok prune_request_wire pr_before_timestamp_ms] in *.
  eapply iterate_parts; [|exact He|exact Hs]. cbn [pr_tenant_id pr_before_timestamp_ms].
  text_part. optional_int_part (PruneRequest tenant before). done.
Qed.

Definition opt_lt63 (o : option Z) : Prop := opt (λ v, v < 2 ^ 63) o.

(** An optional count, which is not masked. *)
Lemma runs_count {S} (body : S → wire_field → W S) n o b s s' :
  match o with None => Ok [] | Some v => encode_varint_field n v end = Ok b →
  field_no n → opt_lt63 o →
  (∀ v w, o = Some v → decode_int64 (VInt w) WIRE_VARINT = Ok v →
     body s (Field n WIRE_VARINT (VInt w)) = Ok s') →
  (o = None → s = s') →
  runs body b s s'.
Proof.
  intros He Hn Ho Hb H0. destruct o as [v|]; cbn in Ho.
  - assert (Hv : 0 <= v).
    { unfold encode_varint_field, encode_varint in He. inv_result. by apply Z.leb_le. }
    eapply runs_varint; [done|done|by etrans|]. eapply Hb; [done|]. by apply decode_int64_nonneg.
  - injection He as <-. rewrite H0 by done. apply runs_nil.
Qed.
Ltac count_part s :=
  part_to s;
  [eapply runs_count; [eassumption|done|done|read_with decode_int64|by intros ->]|].

(** A tenant that is empty is not sent, and then the message has none. *)
Ltac tenant_part Ht :=
  eexists; split;
  [intros bp Hbp Hsp; eapply runs_string; [eassumption|done|done|
     intros ? Hd; cbn -[decode_string]; rewrite Hd; reflexivity|by intros ->; destruct Ht]|].

#[export] Instance export_request_wire : Wire ExportMemoryRequest := {
  wire_encode := encode_export_batch_request;
  wire_decode := decode_export_batch_request;
  wire_ok r := xr_tenant_id r ≠ [] ∧ opt_lt63 (xr_limit r);
  wire_norm r := r
}.

#[export] Instance export_request_law : WireLaw ExportMemoryRequest.
Proof.
  intros [tenant scope limit token] bs [Ht Hl] He Hs.
  cbn [xr_tenant_id xr_limit wire_decode export_request_wire] in *. unfold decode_export_batch_request.
  assert (Hr : iterate (with_tenant export_field) bs (false, ExportRequest [] None None None)
    = Ok (true, ExportRequest tenant scope limit token)); [|by rewrite Hr].
  eapply iterate_parts; [|exact He|exact Hs]. cbn [xr_tenant_id xr_scope xr_limit xr_page_token].
  tenant_part Ht. optional_text_part (true, ExportRequest tenant scope None None).
  count_part (true, ExportRequest tenant scope limit None).
  optional_text_part (true, ExportRequest tenant scope limit token). done.
Qed.

#[export] Instance recall_request_wire : Wire RecallMemoryRequest := {
  wire_encode := encode_recall_request;
  wire_decode := decode_recall_request;
  wire_ok r := rr_tenant_id r ≠ [] ∧ NoDup (rr_metadata_filters r).*1 ∧ opt_lt63 (rr_top_k r);
  wire_norm r :=
    RecallRequest (rr_tenant_id r) (rr_scope r) (rr_subject r) (map quantized (rr_query_embedding r))
      (rr_query_text r) (sort_items (rr_metadata_filters r)) (quantized <$> rr_min_similarity r)
      (rr_top_k r)
}.

#[export] Instance recall_request_law : WireLaw RecallMemoryRequest.
Proof.
  intros [t sc sb q qt fs ms k] bs (Ht & Hnd & Hk) He Hs.
  cbn [rr_tenant_id rr_metadata_filters rr_top_k wire_decode recall_request_wire] in *.
  unfold decode_recall_request.
  set (q' := map quantized q). set (fs' := sort_items fs). set (ms' := quantized <$> ms).
  assert (Hr : iterate (with_tenant recall_field) bs
      (false, RecallRequest [] None None [] None [] None None)
    = Ok (true, RecallRequest t sc sb q' qt fs' ms' k)); [|by rewrite Hr].
  eapply iterate_parts; [|exact He|exact Hs].
  cbn [rr_tenant_id rr_scope rr_subject rr_query_embedding rr_query_text rr_metadata_filters
    rr_min_similarity rr_top_k].
  tenant_part Ht. optional_text_part (true, RecallRequest t sc None [] None [] None None).
  optional_text_part (true, RecallRequest t sc sb [] None [] None None). floats_part.
  optional_text_part (true, RecallRequest t sc sb q' qt [] None None).
  part_to (true, RecallRequest t sc sb q' qt fs' None None).
  { apply (runs_map _ (λ fs, (true, RecallRequest t sc sb q' qt fs None None)) 6); [done..|].
    intros d kv p Hd. cbn -[decode_map]. by rewrite Hd. }
  part_to (true, RecallRequest t sc sb q' qt fs' ms' None).
  { subst ms'. destruct ms as [v|]; [|injection Hbp as <-; apply runs_nil].
    eapply runs_float; [exact Hbp|done|]. intros p Hd. cbn -[decode_float]. by rewrite Hd. }
  count_part (true, RecallRequest t sc sb q' qt fs' ms' k). done.
Qed.

#[export] Instance import_request_wire : Wire ImportMemoryRequest := {
  wire_encode := encode_import_batch_request;
  wire_decode := decode_import_batch_request;
  wire_ok r := Forall item_ok (ir_items r);
  wire_norm r := ImportRequest (ir_tenant_id r) (map item_norm (ir_items r)) (ir_overwrite r)
}.

#[export] Instance import_request_law : WireLaw ImportMemoryRequest.
Proof.
  intros [tenant items overwrite] bs Hok He Hs. cbn [wire_ok import_request_wire ir_items] in *.
  eapply iterate_parts; [|exact He|exact Hs].
  cbn [wire_norm import_request_wire ir_tenant_id ir_items ir_overwrite].
  text_part. part_to (ImportRequest tenant (map item_norm items) false).
  { change (map item_norm items) with (map wire_norm items).
    apply (runs_messages import_request_field (λ items, ImportRequest tenant items false) 2 items bp); [done..|].
    intros x p l Hd. cbn -[decode_memory_item].
    change (decode_memory_item p = Ok x) in Hd. by rewrite Hd. }
  part_to (ImportRequest tenant (map item_norm items) overwrite); [|done].
  destruct overwrite; [by eapply runs_varint|injection Hbp as <-; apply runs_nil].
Qed.

(** ** Responses *)

(** A response with an error or a value, not both, whose codec writes the value
    in a field that the decoder reads back as [norm]. *)
Section Results.
Context {A : Type} (encode : A → W pybytes) (value : wire_field → option (W A)) (norm : A → A).

Definition result_norm (r : response A) : response A := Response (norm <$> rs_value r) (rs_error r).

Definition result_ok (ok : A → Prop) (r : response A) : Prop :=
  opt ok (rs_value r) ∧ opt wire_ok (rs_error r).

Lemma result_roundtrip (ok : A → Prop) r bs :
  (∀ v b, ok v → encode v = Ok b → small b →
     runs (result_field value) b (Response None None) (Response (Some (norm v)) None)) →
  result_ok ok r → one_of (rs_value r) (rs_error r) = true →
  encode_result encode r = Ok bs → small bs → decode_result value bs = Ok (result_norm r).
Proof.
  intros Hv [Hokv Hoke] Hone He Hs. unfold decode_result. apply runs_end.
  destruct r as [[v|] [e|]]; try done; cbn in He, Hokv, Hoke |- *.
  - by apply Hv.
  - apply (runs_message _ 2 e bs); [done..|]. intros p Hd.
    unfold result_field. cbn -[decode_error]. change (decode_error p = Ok e) in Hd. by rewrite Hd.
Qed.
End Results.

Ltac result_law Hok Hone He Hs :=
  eapply result_roundtrip; [|exact Hok|exact Hone|exact He|exact Hs].

Lemma store_response_law r bs :
  result_ok (λ _, True) r → one_of (rs_value r) (rs_error r) = true →
  encode_store_response r = Ok bs → small bs → decode_store_response bs = Ok (result_norm id r).
Proof.
  intros Hok Hone He Hs. result_law Hok Hone He Hs.
  intros v b _ Hb Hsb. eapply runs_optional_string; [exact Hb|done|done| |done].
  intros ? p [= <-] Hd. cbn -[decode_string]. by rewrite Hd.
Qed.

Lemma get_response_law r bs :
  result_ok item_ok r → one_of (rs_value r) (rs_error r) = true →
  encode_get_response r = Ok bs → small bs → decode_get_response bs = Ok (result_norm item_norm r).
Proof.
  intros Hok Hone He Hs. result_law Hok Hone He Hs.
  intros v b Hv Hb Hsb. apply (runs_message _ 1 v b); [exact Hb|done..|]. read_item.
Qed.

Lemma recall_response_law r bs :
  result_ok (Forall wire_ok) r → one_of (rs_value r) (rs_error r) = true →
  encode_recall_response r = Ok bs → small bs →
  decode_recall_response bs = Ok (result_norm (map wire_norm) r).
Proof.
  intros Hok Hone He Hs. result_law Hok Hone He Hs.
  intros v b Hv Hb Hsb. apply bind_ok in Hb as (v0 & Hv0 & Hb0).
  pose proof (encode_len_small _ _ _ Hb0 Hsb) as Hs0. eapply runs_len; [done|done|done|].
  unfold result_field. cbn -[decode_match match_batch_field].
  assert (Hr : iterate match_batch_field v0 [] = Ok (map wire_norm v)); [|by rewrite Hr].
  apply runs_end, (runs_messages match_batch_field (λ ms, ms) 1 v v0); [done..|].
  intros x p l Hd. unfold match_batch_field. cbn -[decode_match].
  change (decode_match p = Ok x) in Hd. by rewrite Hd.
Qed.

Lemma delete_response_law r bs :
  result_ok (λ _, True) r → one_of (rs_value r) (rs_error r) = true →
  encode_delete_response r = Ok bs → small bs → decode_delete_response bs = Ok (result_norm id r).
Proof.
  intros Hok Hone He Hs. result_law Hok Hone He Hs.
  intros v b _ Hb Hsb. eapply runs_varint; [exact Hb|done|by destruct v|by destruct v].
Qed.

Lemma prune_response_law r bs :
  result_ok int64 r → one_of (rs_value r) (rs_error r) = true →
  encode_prune_response r = Ok bs → small bs → decode_prune_response bs = Ok (result_norm id r).
Proof.
  intros Hok Hone He Hs. result_law Hok Hone He Hs.
  intros v b Hv Hb Hsb. eapply runs_varint; [exact Hb|done|apply mask64_bound|].
  cbn -[decode_int64 mask64]. by rewrite decode_mask64.
Qed.

Lemma import_response_law r bs :
  result_ok (λ v, v < 2 ^ 63) r → one_of (rs_value r) (rs_error r) = true →
  encode_import_batch_response r = Ok bs → small bs →
  decode_import_batch_response bs = Ok (result_norm id r).
Proof.
  intros Hok Hone He Hs. result_law Hok Hone He Hs.
  intros v b Hv Hb Hsb. eapply (runs_count _ 1 (Some v)); [exact Hb|done|done| |done].
  intros ? w [= <-] Hd. cbn -[decode_int64]. by rewrite Hd.
Qed.

Definition export_norm (r : ExportMemoryResponse) : ExportMemoryResponse :=
  ExportResponse (map item_norm <$> er_items r) (er_error r)
    (match er_error r with Some _ => [] | None => er_next_page_token r end).

Lemma export_batch_law items token b :
  (batch ← encode_each encode_memory_item 1 items; token ← encode_string_field 2 token;
   Ok (batch ++ token)) = Ok b →
  Forall item_ok items → small b →
  iterate export_batch_field b ([], []) = Ok (map item_norm items, token).
Proof.
  intros Hb Hok Hs. inv_result. apply small_app in Hs as [Hs1 Hs2]. apply runs_end.
  eapply (runs_app _ _ _ _ (map item_norm items, [])).
  - change (map item_norm items) with (map wire_norm items).
    apply (runs_messages export_batch_field (λ items, (items, [])) 1 items v); [done..|].
    intros x p l Hd. cbn -[decode_memory_item].
    change (decode_memory_item p = Ok x) in Hd. by rewrite Hd.
  - eapply runs_string; [done|done|done| |by intros ->]. intros p Hd.
    cbn -[decode_string]. by rewrite Hd.
Qed.

Lemma export_response_law r bs :
  opt (Forall item_ok) (er_items r) → opt wire_ok (er_error r) →
  one_of (er_items r) (er_error r) = true →
  encode_export_batch_response r = Ok bs → small bs →
  decode_export_batch_response bs = Ok (export_norm r).
Proof.
  intros Hoki Hoke Hone He Hs. apply runs_end.
  destruct r as [[items|] [e|] token]; try done; cbn in He, Hoki, Hoke |- *.
  - apply bind_ok in He as (v & Hv & He). apply bind_ok in He as (v0 & Hv0 & He).
    pose proof (encode_len_small _ _ _ He Hs) as Hsp.
    eapply runs_len; [exact He|done|done|]. unfold export_response_field.
    cbn -[decode_memory_item export_batch_field]. erewrite export_batch_law; [done| |done|done].
    rewrite Hv. cbn. rewrite Hv0. done.
  - apply (runs_message _ 2 e bs); [done..|]. intros p Hd.
    unfold export_response_field. cbn -[decode_error].
    change (decode_error p = Ok e) in Hd. by rewrite Hd.
Qed.
