(* ===== verification/MemoryCodecProps.v ===== *)
(** * Memory contracts: the properties of the codec

    Requests and responses come back through the dispatch by method; decoding
    any payload ends; and how large a varint may be. *)

From Stdlib Require Import ZArith NArith.
From S2P Require Import Prelude PyFloat PyText PyFloat32 Json MemoryWire MemoryWireFacts MemoryCodec MemoryCodecFacts MemoryCodecLaws.

#[local] Open Scope Z_scope.

(** ** Round trips *)

Definition request_ok (m : method) : request m → Prop :=
  match m with
  | METHOD_STORE => λ r, item_ok (sr_item r)
  | METHOD_GET | METHOD_DELETE => λ _, True
  | METHOD_RECALL =>
      λ r, rr_tenant_id r ≠ [] ∧ NoDup (rr_metadata_filters r).*1 ∧ opt_lt63 (rr_top_k r)
  | METHOD_PRUNE => λ r, opt int64 (pr_before_timestamp_ms r)
  | METHOD_EXPORT_BATCH => λ r, xr_tenant_id r ≠ [] ∧ opt_lt63 (xr_limit r)
  | METHOD_IMPORT_BATCH => λ r, Forall item_ok (ir_items r)
  end.

(** A request as the other side sees it: floats in binary32, maps in key order. *)
Definition request_norm (m : method) : request m → request m :=
  match m with
  | METHOD_STORE => wire_norm
  | METHOD_RECALL => wire_norm
  | METHOD_IMPORT_BATCH => wire_norm
  | METHOD_GET | METHOD_DELETE | METHOD_PRUNE | METHOD_EXPORT_BATCH => λ r, r
  end.


Definition reply_ok (m : method) : reply m → Prop :=
  match m with
  | METHOD_STORE | METHOD_DELETE => result_ok (λ _, True)
  | METHOD_GET => result_ok item_ok
  | METHOD_RECALL => result_ok (Forall (λ m, item_ok (mm_item m)))
  | METHOD_PRUNE => result_ok int64
  | METHOD_EXPORT_BATCH => λ r, opt (Forall item_ok) (er_items r) ∧ opt wire_ok (er_error r)
  | METHOD_IMPORT_BATCH => result_ok (λ v, v < 2 ^ 63)
  end.

Definition reply_norm (m : method) : reply m → reply m :=
  match m with
  | METHOD_STORE | METHOD_DELETE | METHOD_PRUNE | METHOD_IMPORT_BATCH => λ r, r
  | METHOD_GET => result_norm item_norm
  | METHOD_RECALL => result_norm (map wire_norm)
  | METHOD_EXPORT_BATCH => export_norm
  end.

Lemma result_norm_id {A} (r : response A) : result_norm id r = r.
Proof. destruct r as [[]]; done. Qed.

Lemma one_of_map {A B C} (f : A → C) (v : option A) (e : option B) :
  one_of (f <$> v) e = one_of v e.
Proof. by destruct v, e. Qed.

(** A response that encodes has a value or an error, not both, and is decoded
    into the same response, its floats rounded to binary32, its maps in key order. *)
Lemma response_roundtrip (m : method) (r : reply m) (bs : pybytes) :
  reply_ok m r → encode_response m r = Ok bs → small bs →
  validate_response m r = Ok () ∧ decode_response m bs = Ok (reply_norm m r).
Proof.
  intros Hok He Hs. apply bind_ok in He as ([] & Hval & He). split; [done|].
  unfold decode_response. destruct m; cbn [validate_response] in Hval; apply require_ok in Hval;
    cbn [decode_reply encode_reply reply_norm reply_ok] in *.
  - rewrite (store_response_law r bs), result_norm_id by done. by cbn; rewrite ?one_of_map, Hval.
  - rewrite (get_response_law r bs) by done. by cbn; rewrite ?one_of_map, Hval.
  - rewrite (recall_response_law r bs) by done. by cbn; rewrite ?one_of_map, Hval.
  - rewrite (delete_response_law r bs), result_norm_id by done. by cbn; rewrite ?one_of_map, Hval.
  - rewrite (prune_response_law r bs), result_norm_id by done. by cbn; rewrite ?one_of_map, Hval.
  - destruct Hok. rewrite (export_response_law r bs) by done. by cbn; rewrite ?one_of_map, Hval.
  - rewrite (import_response_law r bs), result_norm_id by done. by cbn; rewrite ?one_of_map, Hval.
Qed.

(** ** Decoding ends *)

Lemma clean_utf8 value : clean (decode_string value).
Proof. unfold decode_string. destruct value; raises fail. Qed.

Lemma clean_float value t : clean (decode_float value t).
Proof. unfold decode_float. destruct value; raises fail. Qed.

Lemma clean_packed n payload : (length payload < n)%nat → clean (decode_packed_floats payload).
Proof.
  revert payload. induction n as [|n IH]; intros payload Hn; [lia|].
  destruct payload as [|a [|b [|c [|d payload]]]]; cbn -[unpack_f32]; cbn in Hn;
    raises ltac:(apply IH; lia).
Qed.

Lemma clean_floats value t : clean (decode_float_repeated value t).
Proof.
  unfold decode_float_repeated. destruct value as [|b];
    raises ltac:(first [apply clean_float | eapply clean_packed; apply Nat.lt_succ_diag_r]).
Qed.

Lemma clean_int64 value t : clean (decode_int64 value t).
Proof. unfold decode_int64. destruct value; raises fail. Qed.

Lemma clean_nested {A} (decode : pybytes → W A) f :
  (∀ b, clean (decode b)) → clean (nested decode f).
Proof. intros Hd. unfold nested. destruct (f_value f); raises ltac:(apply Hd). Qed.

#[export] Hint Resolve clean_utf8 clean_float clean_floats clean_int64 : clean_up.
Ltac clean_up := raises ltac:(solve [eauto with clean_up]).

Lemma clean_map_field s f : clean (map_field s f).
Proof. unfold map_field. clean_up. Qed.

Lemma clean_map value : clean (decode_map value).
Proof.
  unfold decode_map. destruct value; [clean_up|]. apply iterate_clean. apply clean_map_field.
Qed.
#[export] Hint Resolve clean_map_field clean_map iterate_clean clean_nested : clean_up.

Lemma clean_item b : clean (decode_memory_item b).
Proof. apply iterate_clean. intros s f. unfold item_field. cbn zeta. clean_up. Qed.
#[export] Hint Resolve clean_item : clean_up.

(** A decoder is a loop, and then a check of what it collected. *)
Ltac clean_loop body :=
  apply iterate_clean; intros ? ?; unfold body; cbn zeta; clean_up.

Lemma clean_match b : clean (decode_match b).
Proof.
  apply raises_bind; [clean_loop match_field|]. intros [[item|] score]; clean_up.
Qed.

Lemma clean_error b : clean (decode_error b).
Proof. clean_loop error_field. Qed.
#[export] Hint Resolve clean_match clean_error : clean_up.

Lemma clean_with_tenant {A} (body : A → wire_field → W A) s f :
  clean (body s.2 f) → clean (with_tenant body s f).
Proof. intros Hb. unfold with_tenant. raises ltac:(exact Hb). Qed.

(** What the decoder of a request may raise. *)
Definition request_exception (m : method) (e : codec_error) : Prop :=
  e = WireFormatError ∨ e = MemoryCodecError
  ∨ e = MissingArgument ∧ (m = METHOD_RECALL ∨ m = METHOD_EXPORT_BATCH).

Lemma request_exception_clean m {A} (r : W A) : clean r → raises_only (request_exception m) r.
Proof.
  intros Hr. eapply raises_weaken; [exact Hr|]. unfold request_exception.
  intros []; try done; tauto.
Qed.

Lemma raises_construct m {A} (s : bool * A) :
  m = METHOD_RECALL ∨ m = METHOD_EXPORT_BATCH → raises_only (request_exception m) (construct s).
Proof.
  intros Hm. apply raises_bind; [|intros []; apply raises_ok].
  apply raises_require. right. by right.
Qed.

Lemma raises_request m b : raises_only (request_exception m) (decode_request m b).
Proof.
  assert (Hget : clean (decode_get_request b)).
  { apply raises_bind; [clean_loop map_field|]. intros []; clean_up. }
  destruct m; cbn [decode_request].
  - apply request_exception_clean.
    apply raises_bind; [clean_loop store_request_field|]. intros [? []]; clean_up.
  - by apply request_exception_clean.
  - apply raises_bind; [|intros s; apply raises_construct; by left].
    apply request_exception_clean, iterate_clean. intros s f. apply clean_with_tenant.
    unfold recall_field. cbn zeta. clean_up.
  - apply request_exception_clean. apply raises_bind; [exact Hget|intros; clean_up].
  - apply request_exception_clean. clean_loop prune_request_field.
  - apply raises_bind; [|intros s; apply raises_construct; by right].
    apply request_exception_clean, iterate_clean. intros s f. apply clean_with_tenant.
    unfold export_field. cbn zeta. clean_up.
  - apply request_exception_clean. clean_loop import_request_field.
Qed.

Lemma clean_result {A} (value : wire_field → option (W A)) b :
  (∀ f v, value f = Some v → clean v) → clean (decode_result value b).
Proof.
  intros Hv. apply iterate_clean. intros s f. unfold result_field. case_match eqn:Hf; [|clean_up].
  destruct (f_number f =? 1); [|done]. apply raises_bind; [by eapply Hv|intros; clean_up].
Qed.

Lemma clean_if_len {A} (decode : wire_field → W A) f v :
  (∀ f, clean (decode f)) → if_len decode f = Some v → clean v.
Proof. unfold if_len. destruct (is_len f); [|done]. by intros Hd [= <-]. Qed.

Lemma clean_reply m b : clean (decode_reply m b).
Proof.
  destruct m; cbn [decode_reply]; try (apply clean_result; intros f v).
  - apply clean_if_len. intros. clean_up.
  - apply clean_if_len. intros. clean_up.
  - apply clean_if_len. intros. apply clean_nested. intros. clean_loop match_batch_field.
  - unfold varint_bool. intros H. repeat case_match; try done. injection H as <-. clean_up.
  - intros [= <-]. clean_up.
  - clean_loop export_response_field.
    apply clean_nested. intros. clean_loop export_batch_field.
  - intros [= <-]. clean_up.
Qed.

Lemma empty_payload m :
  decode_request m [] = Err MissingArgument ↔ m = METHOD_RECALL ∨ m = METHOD_EXPORT_BATCH.
Proof. destruct m; (split; [try discriminate; auto|by intros []]). Qed.

(** C39. Decoding ends: on every payload, however malformed, the decoders return
    a message or raise [WireFormatError] or [MemoryCodecError]; no loop is cut
    short.  Only the decoders of recall and export requests raise a [TypeError],
    and they do on an empty payload: [tenant_id] then has no value and no
    default. *)
Theorem decoding_ends (m : method) (bs : pybytes) :
  raises_only (request_exception m) (decode_request m bs)
  ∧ raises_only (λ e, e = WireFormatError ∨ e = MemoryCodecError) (decode_response m bs)
  ∧ (decode_request m [] = Err MissingArgument ↔ m = METHOD_RECALL ∨ m = METHOD_EXPORT_BATCH).
Proof.
  split_and!; [apply raises_request| |apply empty_payload].
  eapply raises_weaken with decode_exception;
    [|intros []; by auto]. apply raises_bind; [apply clean_reply|].
  intros r. apply raises_bind; [|intros; clean_up]. destruct m; cbn; clean_up.
Qed.

(** So an export request with an empty tenant encodes to bytes that do not decode. *)
Lemma missing_tenant_type_error :
  (bs ← encode_request METHOD_EXPORT_BATCH (ExportRequest [] None (Some 5) None);
   decode_request METHOD_EXPORT_BATCH bs) = Err MissingArgument.
Proof. by vm_compute. Qed.

(** ** The range of a varint *)

Lemma varint_from_bounds data (k : nat) value v rest :
  (k <= 9)%nat → 0 <= value < 2 ^ (7 * Z.of_nat k) →
  decode_varint_from data value (7 * Z.of_nat k) = Ok (v, rest) →
  0 <= v < 2 ^ 70 ∧ ∃ pre, data = pre ++ rest ∧ (1 <= length pre <= 10 - k)%nat.
Proof.
  revert k value. induction data as [|b data IH]; intros k value Hk Hv H; [done|].
  cbn [decode_varint_from] in H. change 127 with (Z.ones 7) in H.
  rewrite Z.land_ones in H by done. change (2 ^ 7) with 128 in H.
  pose proof (Z.mod_pos_bound (Z.of_N b) 128 ltac:(done)) as Hb.
  rewrite lor_shiftl_add in H by lia.
  assert (Hp : 2 ^ (7 * Z.of_nat (S k)) = 128 * 2 ^ (7 * Z.of_nat k)).
  { replace (7 * Z.of_nat (S k)) with (7 + 7 * Z.of_nat k) by lia. by rewrite Z.pow_add_r by lia. }
  assert (Hv' : 0 <= value + Z.of_N b mod 128 * 2 ^ (7 * Z.of_nat k) < 2 ^ (7 * Z.of_nat (S k)))
    by (rewrite Hp; nia).
  destruct (b <? 128)%N.
  - injection H as <- <-. split; [|exists [b]; split; [done|cbn; lia]].
    assert (2 ^ (7 * Z.of_nat (S k)) <= 2 ^ 70) by (apply Z.pow_le_mono_r; lia). lia.
  - apply bind_ok in H as ([] & Hr & H). apply require_ok, Z.leb_le in Hr.
    replace (7 * Z.of_nat k + 7) with (7 * Z.of_nat (S k)) in * by lia.
    apply IH in H as (Hlt & pre & -> & Hl); [|lia|done]. split; [done|].
    exists (b :: pre). split; [done|]. cbn. lia.
Qed.

(** Reading a varint takes at least one and at most ten bytes off the front,
    and the value is below 2^70, not 2^64: the tenth byte counts in full. *)
Lemma varint_bounds (data : pybytes) (v : Z) (rest : pybytes) :
  decode_varint data = Ok (v, rest) →
  0 <= v < 2 ^ 70 ∧ ∃ pre, data = pre ++ rest ∧ (1 <= length pre <= 10)%nat.
Proof. apply (varint_from_bounds data 0 0); [lia|by vm_compute]. Qed.

(** A varint of ten bytes whose value is 2^64: [_decode_int64] returns it as it
    is, an [int64] field out of the range of [int64]. *)
Definition wide_prune : pybytes := [16; 128; 128; 128; 128; 128; 128; 128; 128; 128; 2]%N.

Lemma int64_field_out_of_range :
  decode_prune_request wide_prune = Ok (PruneRequest [] (Some (2 ^ 64))) ∧ ¬ int64 (2 ^ 64).
Proof. split; [by vm_compute|]. unfold int64. intros [_ H]. by vm_compute in H. Qed.

(** ** Examples *)

Definition example_item : MemoryItem :=
  Item [97]%N [116]%N [115]%N [] [104; 105]%N [f_of_Z 1; f_of_Z (-2)]
    [([107; 50], [120]); ([107; 49], [8364])]%N 5 (Some 9) (Some (-1)).
Definition example_store : request METHOD_STORE := StoreRequest [116]%N example_item.
Definition example_bytes : pybytes := default [] (match encode_request METHOD_STORE example_store with Ok b => Some b | _ => None end).

Lemma example_item_ok : item_ok example_item.
Proof.
  split_and!; [|done..]. cbn. apply NoDup_cons. split; [|apply NoDup_singleton].
  by rewrite list_elem_of_singleton.
Qed.


Definition example_reply : reply METHOD_RECALL :=
  Response (Some [Match example_item (f_of_Z 1)]) None.
Definition example_reply_bytes : pybytes :=
  default [] (match encode_response METHOD_RECALL example_reply with Ok b => Some b | _ => None end).

Lemma response_roundtrip_example :
  validate_response METHOD_RECALL example_reply = Ok () ∧
  decode_response METHOD_RECALL example_reply_bytes = Ok (reply_norm METHOD_RECALL example_reply).
Proof.
  apply (response_roundtrip METHOD_RECALL).
  - split; [|done]. apply Forall_singleton. exact example_item_ok.
  - vm_compute. reflexivity.
  - vm_compute. reflexivity.
Defined.

Lemma varint_bounds_example :
  0 <= 300 < 2 ^ 70 ∧ ∃ pre, ([172; 2; 9]%N : pybytes) = pre ++ [9]%N ∧ (1 <= length pre <= 10)%nat.
Proof. apply (varint_bounds [172; 2; 9]%N 300 [9]%N). by vm_compute. Defined.
