(* ===== verification/MemorySettings.v ===== *)
(** * Memory provider: activation settings

    [ProviderSettings.from_environment] of [memory_sqlite_provider/settings.py]
    on the text of the activation configuration, and
    [read_environment_settings] of the plugin runtime, which checks that text.
    Every exception but one is a [ValueError] or a [TypeError]. *)

From Stdlib Require Import ZArith NArith SpecFloat.
From S2P Require Import Prelude PyFloat PyFloatText PyText Json MemoryStore MemoryFacts.

#[local] Open Scope Z_scope.

Definition MAX_CONFIGURATION_BYTES : Z := 64 * 1024.

Record ProviderSettings := Settings {
  ps_database_path : pystr;
  ps_embedding_model_id : pystr;
  ps_embedding_dimensions : Z;
  ps_embedding_endpoint : option pystr;
  ps_embedding_timeout : pyfloat;
  ps_recall_batch_size : Z;
  ps_max_top_k : Z;
  ps_embedding_profile_id : option pystr;
  ps_document_prefix : pystr;
  ps_query_prefix : pystr
}.

(** [self.embedding_profile_id or self.embedding_model_id] *)
Definition vector_profile_id (s : ProviderSettings) : pystr :=
  match ps_embedding_profile_id s with
  | Some ((_ :: _) as p) => p
  | _ => ps_embedding_model_id s
  end.

(** ** Values *)

(** The parts of a POSIX path that [Path] keeps. *)
Fixpoint split_on (sep : N) (s : pystr) : list pystr :=
  match s with
  | [] => [[]]
  | c :: s =>
      match split_on sep s with
      | part :: parts => if (c =? sep)%N then [] :: part :: parts else (c :: part) :: parts
      | [] => []
      end
  end.
Definition path_parts (s : pystr) : list pystr :=
  List.filter (λ p, negb (bool_decide (p = [] ∨ p = lit "."))) (split_on 47 s).
(** [Path(value).name] *)
Definition path_name (s : pystr) : pystr := default [] (last (path_parts s)).
Definition is_absolute (s : pystr) : bool := match s with c :: _ => (c =? 47)%N | [] => false end.

(** [_database_path] *)
Definition database_path (value : option json) : E pystr :=
  match value with
  | Some (JStr ((_ :: _) as p)) =>
      _ ← require (is_absolute p
                   && negb (bool_decide (path_name p ∈ [[]; lit "."; lit ".."]))) ValueError;
      Ok p
  | _ => Err ValueError
  end.

Fixpoint first_some {A B} (f : A → option B) (l : list A) : option B :=
  match l with
  | [] => None
  | x :: l => match f x with Some y => Some y | None => first_some f l end
  end.

(** [_LOCAL_GRPC_ENDPOINT.fullmatch]: the digits of the port. *)
Definition endpoint_port (value : pystr) : option pystr :=
  rest ← strip_prefix (lit "grpc://") value;
  digits ← first_some (λ host, strip_prefix (host ++ lit ":") rest)
             [lit "127.0.0.1"; lit "localhost"; lit "[::1]"];
  if forallb is_digit_ascii digits && (1 <=? len digits) && (len digits <=? 5)
  then Some digits else None.

(** [_embedding_endpoint] *)
Definition embedding_endpoint (value : option json) : E (option pystr) :=
  match value with
  | None | Some JNull => Ok None
  | Some (JStr v) =>
      match endpoint_port v with
      | Some digits =>
          let port := nat_of_digits digits in
          _ ← require ((1 <=? port) && (port <=? 65535)) ValueError; Ok (Some v)
      | None => Err ValueError
      end
  | Some _ => Err ValueError
  end.

(** [_required_text] *)
Definition required_value (value : option json) (maximum_bytes : Z) : E pystr :=
  match value with Some (JStr v) => required_text v maximum_bytes | _ => Err ValueError end.

(** [_optional_text] *)
Definition optional_value (value : json) : E pystr :=
  match value with JStr v => bounded_optional_text v 512 | _ => Err ValueError end.

(** [_bounded_integer]; a [bool] is not accepted. *)
Definition integer_value (value : option json) (minimum maximum : Z) : E Z :=
  match value with Some (JInt z) => bounded_integer z minimum maximum | _ => Err ValueError end.

(** [_bounded_number]; an integer too large for a [float] is an [OverflowError]. *)
Definition number_value (value : json) (minimum maximum : pyfloat) : E pyfloat :=
  result ← (match value with
            | JInt z => _ ← require (is_finite (f_of_Z z)) OverflowError; Ok (f_of_Z z)
            | JFloat literal =>
                match py_float literal with Some f => Ok f | None => Err ValueError end
            | _ => Err ValueError
            end);
  _ ← require (is_finite result && fle minimum result && fle result maximum) ValueError;
  Ok result.

(** [_unique_object] *)
Definition unique_object (kvs : list (pystr * json)) : option json :=
  if bool_decide (NoDup kvs.*1) then Some (JObj kvs) else None.

Definition ALLOWED : list pystr :=
  [lit "database_path"; lit "embedding_model_id"; lit "embedding_profile_id";
   lit "embedding_document_prefix"; lit "embedding_query_prefix"; lit "embedding_dimensions";
   lit "embedding_endpoint"; lit "embedding_timeout_seconds"; lit "recall_batch_size";
   lit "max_top_k"].

(** ** [from_environment] *)

(** The fields of the object, in the order in which they are checked. *)
Definition settings_of (values : list (pystr * json)) : E ProviderSettings :=
  let field k := assoc (lit k) values in
  let optional k d := default d (assoc (lit k) values) in
  _ ← require (forallb (λ kv, bool_decide (kv.1 ∈ ALLOWED)) values) ValueError;
  path ← database_path (field "database_path");
  model ← required_value (field "embedding_model_id") 256;
  document ← optional_value (optional "embedding_document_prefix" (JStr []));
  query ← optional_value (optional "embedding_query_prefix" (JStr []));
  let profile_id := optional "embedding_profile_id" JNull in
  let absent := match profile_id with JNull => true | _ => false end in
  _ ← require (bool_decide (document = [] ∧ query = []) || negb absent) ValueError;
  profile ← (if absent then Ok model else required_value (Some profile_id) 256);
  dimensions ← integer_value (field "embedding_dimensions") 1 4096;
  endpoint ← embedding_endpoint (field "embedding_endpoint");
  timeout ← number_value (optional "embedding_timeout_seconds" (JInt 30))
              (fdiv (f_of_Z 1) (f_of_Z 10)) (f_of_Z 120);
  batch ← integer_value (Some (optional "recall_batch_size" (JInt 256))) 16 4096;
  top_k ← integer_value (Some (optional "max_top_k" (JInt 100))) 1 1000;
  Ok (Settings path model dimensions endpoint timeout batch top_k (Some profile) document query).

(** The text of the configuration variable, [None] when there is none; the
    runtime parses it once with the ordinary [dict]. *)
Definition from_environment (raw : option pystr) : E ProviderSettings :=
  match raw with
  | None => Err ValueError
  | Some raw =>
      n ← byte_len raw;
      _ ← require (n <=? MAX_CONFIGURATION_BYTES) ValueError;
      match loads raw with
      | Some (JObj _) =>
          match loads_with unique_object raw with
          | Some (JObj values) => settings_of values
          | _ => Err ValueError
          end
      | _ => Err ValueError
      end
  end.

(** ** What accepted settings guarantee *)

(** [SQLiteMemoryStore.__init__] on the settings. *)
Definition store_profile (s : ProviderSettings) : E profile :=
  model ← required_text (vector_profile_id s) 256;
  provider ← required_text
               (match ps_embedding_model_id s with [] => vector_profile_id s | m => m end) 256;
  dims ← bounded_integer (ps_embedding_dimensions s) 1 4096;
  document ← bounded_optional_text (ps_document_prefix s) 512;
  query ← bounded_optional_text (ps_query_prefix s) 512;
  _ ← bounded_integer (ps_recall_batch_size s) 16 4096;
  top_k ← bounded_integer (ps_max_top_k s) 1 MAX_TOP_K;
  Ok (Profile model provider dims document query top_k).

Lemma required_value_again v n w : required_value v n = Ok w → required_text w n = Ok w ∧ w ≠ [].
Proof.
  unfold required_value. repeat case_match; try done. intros Ht.
  split; [by eapply required_text_again|]. by apply required_text_ok in Ht as (-> & ? & _).
Qed.

Lemma integer_value_again v a b z : integer_value v a b = Ok z → bounded_integer z a b = Ok z ∧ a <= z <= b.
Proof.
  unfold integer_value, bounded_integer. repeat case_match; try done. intros Hz. inv_result.
  rewrite Hv. bools. split; [done|lia].
Qed.

Lemma optional_value_again j v : optional_value j = Ok v → bounded_optional_text v 512 = Ok v.
Proof.
  unfold optional_value, bounded_optional_text. repeat case_match; try done. intros Ht. inv_result.
  rewrite Hv. cbn [mbind result_bind]. by rewrite Hv0.
Qed.


Example settings_example :
  match from_environment (Some (dumps (JObj
    [(lit "database_path", JStr (lit "/var/lib/./memory.db"));
     (lit "embedding_model_id", JStr (lit " m "));
     (lit "embedding_dimensions", JInt 3);
     (lit "embedding_endpoint", JStr (lit "grpc://[::1]:50051"))]))) with
  | Ok s => store_profile s = Ok (Profile (lit "m") (lit "m") 3 [] [] 100)
  | Err _ => False
  end.
Proof. by vm_compute. Qed.
