(* ===== verification/MemoryPlugin.v ===== *)
(** * Memory provider: the plugin

    [MemorySqliteProvider] of [memory_sqlite_provider/plugin.py] and
    [ModelEmbeddingClient.embed] of [embedding.py]: an invocation is checked,
    decoded by the contract's codec, dispatched to the store, which is opened on
    first use, and answered with the encoded response or an encoded error.  The
    configuration text and the remote model provider are arguments, as are the
    clock, the fresh identifiers and the polls of the cancellation signal. *)

From Stdlib Require Import ZArith NArith.
From S2P Require Import Prelude PyFloat PyText PyFloat32 Json MemoryStore MemorySettings MemoryWire MemoryCodec.

#[local] Open Scope Z_scope.

(** ** Errors and state *)

(** The exceptions inside [_dispatch] and the encoders. *)
Inductive plugin_error :=
  | StoreFailed (e : mem_error)
  | CodecFailed (e : codec_error)
  | EmbeddingFailure (retryable : bool)
  | ConfigurationError
  | QueryRequired.

(** What the [except] clause of [on_invoke] catches: [ValueError], of which the
    domain errors are subclasses, and [TypeError].  [OverflowError] (an SQL
    INTEGER, a float that does not fit) and [ZeroDivisionError] are neither. *)
Definition invoke_caught (e : plugin_error) : bool :=
  match e with
  | StoreFailed (MemoryStoreError _ | ValueError) => true
  | StoreFailed (OverflowError | ZeroDivisionError) => false
  | CodecFailed (PackOverflowError | OutOfFuel) => false
  | CodecFailed (WireFormatError | MemoryCodecError | CodecUnicodeError | MissingArgument) => true
  | EmbeddingFailure _ | ConfigurationError | QueryRequired => true
  end.

(** [self._store], and the database file while it is [None]. *)
Inductive provider :=
  | NotOpened (version : Z) (d : database)
  | Opened (prof : profile) (c : connection).

(** An operation of the provider. *)
Definition M (A : Type) : Type := provider → result plugin_error A * provider.
#[global] Instance M_ret : MRet M := λ A a p, (Ok a, p).
#[global] Instance M_bind : MBind M := λ A B f m p,
  match m p with (Ok a, p) => f a p | (Err e, p) => (Err e, p) end.
Definition lift {E A} (f : E → plugin_error) (r : result E A) : M A :=
  λ p, (match r with Ok a => Ok a | Err e => Err (f e) end, p).
Definition codec {A} (r : W A) : M A := lift CodecFailed r.

(** The answers of [cancellation] at the points where it is asked. *)
Record polls := Polls {
  at_start : bool;
  embed_start : bool;
  embed_end : bool;
  in_recall : nat → bool;
  after_dispatch : bool;
  in_except : bool
}.

(** ** The embedding client *)

Record embedding_batch := Batch {
  eb_model : pystr;
  eb_dimensions : Z;
  eb_vectors : list (list pyfloat)
}.

(** What calling the model provider gives: an exception (a transport error and a
    missed deadline are retryable), another type, bytes that do not decode, a
    response with an error, embeddings. *)
Inductive model_reply :=
  | CallFailed (retryable : bool)
  | WrongType
  | MalformedReply
  | NoEmbeddings
  | Embeddings (batch : embedding_batch).

Definition vector_ok (dims : Z) (values : list pyfloat) : bool :=
  (len values =? dims) && forallb is_finite values && existsb nonzero values.

(** [ModelEmbeddingClient.embed] *)
Definition embed (model_call : list pystr → model_reply) (model_id : pystr) (dims : Z) (ps : polls)
    (inputs : list pystr) : result plugin_error (list (list pyfloat)) :=
  let failed := EmbeddingFailure false in
  _ ← require (negb (bool_decide (inputs = []))
               && forallb (λ v, negb (bool_decide (strip v = []))) inputs) failed;
  _ ← require (len inputs <=? 128) failed;
  _ ← require (negb (embed_start ps)) failed;
  match model_call inputs with
  | CallFailed retryable => Err (EmbeddingFailure retryable)
  | WrongType | MalformedReply | NoEmbeddings => Err failed
  | Embeddings batch =>
      _ ← require (bool_decide (eb_model batch = model_id)) failed;
      _ ← require ((eb_dimensions batch =? dims) && (len (eb_vectors batch) =? len inputs)) failed;
      _ ← require (forallb (vector_ok dims) (eb_vectors batch)) failed;
      _ ← require (negb (embed_end ps)) failed;
      Ok (eb_vectors batch)
  end.

(** ** Conversions *)

(** [_to_stored] *)
Definition to_stored (i : MemoryItem) : StoredMemory :=
  Stored (mi_item_id i) (mi_tenant_id i) (mi_scope i) (mi_subject i) (mi_content i)
    (mi_embedding i) (mi_metadata i) (mi_created_at_ms i) (mi_expires_at_ms i) (mi_ttl_seconds i).

(** [_to_contract] *)
Definition to_contract (s : StoredMemory) : MemoryItem :=
  Item (item_id s) (tenant_id s) (sm_scope s) (subject s) (content s) (embedding s) (metadata s)
    (created_at_ms s) (expires_at_ms s) (ttl_seconds s).

Definition NOT_FOUND : Z := 1.
Definition STORAGE_FAILED : Z := 5.

(** [_not_found] *)
Definition not_found : MemoryError := MkError NOT_FOUND (lit "memory item was not found") false.

(** ** Invocations *)

Definition method_name (m : method) : pystr :=
  match m with
  | METHOD_STORE => lit "store"
  | METHOD_GET => lit "get"
  | METHOD_RECALL => lit "recall"
  | METHOD_DELETE => lit "delete"
  | METHOD_PRUNE => lit "prune"
  | METHOD_EXPORT_BATCH => lit "export_batch"
  | METHOD_IMPORT_BATCH => lit "import_batch"
  end.
Definition METHODS : list method :=
  [METHOD_STORE; METHOD_GET; METHOD_RECALL; METHOD_DELETE; METHOD_PRUNE; METHOD_EXPORT_BATCH;
   METHOD_IMPORT_BATCH].
Definition message_name (m : method) : pystr :=
  match m with
  | METHOD_STORE => lit "Store"
  | METHOD_GET => lit "Get"
  | METHOD_RECALL => lit "Recall"
  | METHOD_DELETE => lit "Delete"
  | METHOD_PRUNE => lit "Prune"
  | METHOD_EXPORT_BATCH => lit "Export"
  | METHOD_IMPORT_BATCH => lit "Import"
  end.
Definition CAPABILITY_ID : pystr := lit "memory.provider.v1".
(** [REQUEST_TYPE_URLS] and [RESPONSE_TYPE_URLS] *)
Definition request_type_url (m : method) : pystr :=
  lit "type.cyrene.io/cyrene.memory.provider.v1." ++ message_name m ++ lit "MemoryRequest".
Definition response_type_url (m : method) : pystr :=
  lit "type.cyrene.io/cyrene.memory.provider.v1." ++ message_name m ++ lit "MemoryResponse".

Record call := Call {
  capability : pystr;
  action : pystr;
  payload : pybytes;
  type_url : option pystr;
  stream_results : bool;
  cancellation : polls
}.

(** The result of [on_invoke]: [False] and a status, or [True] and a payload. *)
Inductive status := INVALID_REQUEST | METHOD_NOT_FOUND | METHOD_NOT_SUPPORTED | CANCELLED.
Inductive invocation :=
  | Refused (s : status)
  | Returned (value : pybytes) (url : pystr).

(** [_RESPONSE_TYPES[action](error=...)] *)
Definition error_reply (m : method) (e : MemoryError) : reply m :=
  match m with
  | METHOD_STORE | METHOD_GET | METHOD_RECALL | METHOD_DELETE | METHOD_PRUNE
  | METHOD_IMPORT_BATCH => Response None (Some e)
  | METHOD_EXPORT_BATCH => ExportResponse None (Some e) []
  end.

(** [_error_result]: the errors carry no text, so [str(error)] and the attribute
    [retryable] of a [MemoryStoreError] come with them. *)
Definition response_error (text : pystr) (retryable : bool) (e : plugin_error) : MemoryError :=
  match e with
  | StoreFailed (MemoryStoreError code) => MkError code text retryable
  | _ =>
      MkError STORAGE_FAILED
        (match text with [] => lit "memory provider operation failed" | _ => text end)
        (match e with EmbeddingFailure r => r | _ => false end)
  end.
Definition error_result (m : method) (e : MemoryError) : result plugin_error invocation :=
  match encode_reply m (error_reply m e) with
  | Ok b => Ok (Returned b (response_type_url m))
  | Err e => Err (CodecFailed e)
  end.

Section Plugin.
Context (py_int : pystr → option Z) (float_sum : list pyfloat → pyfloat).
Context (scan : list (pystr * memory_row) → list (pystr * memory_row)).
(** The activation configuration, if the environment has one. *)
Context (config : option pystr).
Context (model_call : list pystr → model_reply).

(** [_require_settings]; the settings are cached, the environment is fixed. *)
Definition settings : result plugin_error ProviderSettings :=
  match from_environment config with
  | Ok s => Ok s
  | Err OverflowError => Err (StoreFailed OverflowError)
  | Err _ => Err ConfigurationError
  end.
Definition require_settings : M ProviderSettings := lift id settings.

(** [_require_store] *)
Definition require_store : M (profile * connection) := λ p,
  match p with
  | Opened prof c => (Ok (prof, c), p)
  | NotOpened version d =>
      match settings with
      | Err e => (Err e, p)
      | Ok s =>
          match (prof ← store_profile s; d ← migrate prof version d; Ok (prof, d)) with
          | Ok (prof, d) => (Ok (prof, Connection d None), Opened prof (Connection d None))
          | Err e => (Err (StoreFailed e), p)
          end
      end
  end.

(** A call of the store, which may change its connection. *)
Definition with_store {A} (f : profile → connection → E A * connection) : M A := λ p,
  match require_store p with
  | (Ok (prof, c), _) => let '(r, c) := f prof c in lift StoreFailed r (Opened prof c)
  | (Err e, p) => (Err e, p)
  end.
Definition reading {A} (f : profile → connection → E A) : M A :=
  with_store (λ prof c, (f prof c, c)).

Inductive role := QUERY | DOCUMENT.

(** [_embed] of one input; the endpoint is the only way to the model. *)
Definition embed_one (ps : polls) (r : role) (input : pystr) : M (list pyfloat) :=
  s ← require_settings;
  _ ← lift id (require (bool_decide (is_Some (ps_embedding_endpoint s))) (EmbeddingFailure false));
  let prefix := match r with QUERY => ps_query_prefix s | DOCUMENT => ps_document_prefix s end in
  vs ← lift id (embed model_call (ps_embedding_model_id s) (ps_embedding_dimensions s) ps
                  [prefix ++ input]);
  mret (default [] (head vs)).

(** [_item_with_embedding] *)
Definition item_with_embedding (ps : polls) (i : MemoryItem) : M MemoryItem :=
  vector ← embed_one ps DOCUMENT (mi_content i);
  s ← require_settings;
  let m := set_default PROVIDER_MODEL_ID_KEY (ps_embedding_model_id s)
             (set_default DIMENSIONS_KEY (str_of_Z (ps_embedding_dimensions s))
                (set_default MODEL_ID_KEY (vector_profile_id s) (mi_metadata i))) in
  mret (Item (mi_item_id i) (mi_tenant_id i) (mi_scope i) (mi_subject i) (mi_content i) vector m
          (mi_created_at_ms i) (mi_expires_at_ms i) (mi_ttl_seconds i)).

(** The vector of a recall: given, or computed from the text. *)
Definition query_vector (ps : polls) (r : RecallMemoryRequest) : M (list pyfloat) :=
  match rr_query_embedding r with
  | [] =>
      match rr_query_text r with
      | Some text =>
          _ ← lift id (require (negb (bool_decide (strip text = []))) QueryRequired);
          embed_one ps QUERY text
      | None => lift id (Err QueryRequired)
      end
  | q => mret q
  end.

(** [_dispatch] at time [now]; [fresh n] is the [n]th fresh identifier. *)
Definition dispatch (now : Z) (fresh : nat → pystr) (ps : polls) (m : method) (payload : pybytes)
  : M (reply m) :=
  match m with
  | METHOD_STORE =>
      request ← codec (decode_store_request payload);
      item ← (match mi_embedding (sr_item request) with
              | [] => item_with_embedding ps (sr_item request)
              | _ => mret (sr_item request)
              end);
      id ← with_store (λ prof, store py_int prof now (fresh 0%nat) (sr_tenant_id request)
                                 (to_stored item));
      mret (Response (Some id) None : StoreMemoryResponse)
  | METHOD_GET =>
      request ← codec (decode_get_request payload);
      found ← reading (λ prof, get prof now (gr_tenant_id request) (gr_item_id request));
      mret (match found with
            | None => Response None (Some not_found)
            | Some item => Response (Some (to_contract item)) None
            end : GetMemoryResponse)
  | METHOD_RECALL =>
      request ← codec (decode_recall_request payload);
      query ← query_vector ps request;
      results ← reading (λ prof c,
        recall float_sum scan prof now (in_recall ps) (rr_tenant_id request) query
          (rr_scope request) (rr_subject request) (rr_metadata_filters request)
          (default (f_of_Z 0) (rr_min_similarity request)) (default 10 (rr_top_k request)) c);
      mret (Response (Some (map (λ r, Match (to_contract (sc_item r)) (sc_score r)) results)) None
            : RecallMemoryResponse)
  | METHOD_DELETE =>
      request ← codec (decode_delete_request payload);
      deleted ← with_store (λ _, delete_item (dr_tenant_id request) (dr_item_id request));
      mret (Response (Some deleted) None : DeleteMemoryResponse)
  | METHOD_PRUNE =>
      request ← codec (decode_prune_request payload);
      n ← with_store (λ _, prune now (pr_before_timestamp_ms request) (pr_tenant_id request));
      mret (Response (Some n) None : PruneMemoryResponse)
  | METHOD_EXPORT_BATCH =>
      request ← codec (decode_export_batch_request payload);
      '(items, token) ← reading (λ prof,
        export_batch prof now (xr_tenant_id request) (xr_scope request) (xr_limit request)
          (xr_page_token request));
      mret (ExportResponse (Some (map to_contract items)) None token)
  | METHOD_IMPORT_BATCH =>
      request ← codec (decode_import_batch_request payload);
      n ← with_store (λ prof, import_batch py_int prof now (ir_tenant_id request)
                                (imap (λ i item, (fresh i, to_stored item)) (ir_items request))
                                (ir_overwrite request));
      mret (Response (Some n) None : ImportMemoryResponse)
  end.

(** The [try] block: dispatch, the second poll, the encoder. *)
Definition attempt (now : Z) (fresh : nat → pystr) (ps : polls) (m : method) (payload : pybytes)
  : M invocation :=
  response ← dispatch now fresh ps m payload;
  if after_dispatch ps then mret (Refused CANCELLED) else
  value ← codec (encode_reply m response);
  mret (Returned value (response_type_url m)).

Definition find_method (action : pystr) : option method :=
  head (filter (λ m, method_name m = action) METHODS).

(** [on_invoke]; an [Err] is an exception that leaves it. *)
Definition on_invoke (now : Z) (fresh : nat → pystr) (text : pystr) (retryable : bool) (k : call)
  : M invocation :=
  if negb (bool_decide (capability k = CAPABILITY_ID)) then mret (Refused INVALID_REQUEST) else
  match find_method (action k) with
  | None => mret (Refused METHOD_NOT_FOUND)
  | Some m =>
      if negb (bool_decide (type_url k = Some (request_type_url m)))
      then mret (Refused INVALID_REQUEST)
      else if stream_results k then mret (Refused METHOD_NOT_SUPPORTED)
      else if at_start (cancellation k) then mret (Refused CANCELLED)
      else λ p,
        match attempt now fresh (cancellation k) m (payload k) p with
        | (Ok r, p) => (Ok r, p)
        | (Err e, p) =>
            if invoke_caught e then
              if in_except (cancellation k) then (Ok (Refused CANCELLED), p)
              else (error_result m (response_error text retryable e), p)
            else (Err e, p)
        end
  end.

(** [on_shutdown]: closing the connection drops its open transaction. *)
Definition on_shutdown (p : provider) : provider :=
  match p with
  | Opened _ c => NotOpened SCHEMA_VERSION (committed c)
  | NotOpened version d => NotOpened version d
  end.
End Plugin.
