(* ===== verification/MemoryPluginFacts.v ===== *)
(** * Memory provider: an item from client to client

    An item stored through the plugin is encoded by the client, decoded,
    normalised, stored, read, encoded and decoded again.  What was stored can be
    encoded, so a later [get] answers. *)

From Stdlib Require Import ZArith NArith SpecFloat.
From S2P Require Import Prelude PyFloat PyText PyFloat32 Json MemoryStore MemoryFacts MemorySettings MemoryWire MemoryWireFacts MemoryCodec MemoryCodecFacts MemoryCodecLaws MemoryCodecProps MemoryPlugin.

#[local] Open Scope Z_scope.

(** ** What can be encoded *)

Definition encodable (s : pystr) : Prop := is_Some (utf8_encode s).
Definition encodes {A} (r : W A) : Prop := ∃ b, r = Ok b.

Lemma encodable_chars s : encodable s ↔ forallb (λ c, bool_decide (is_Some (utf8_char c))) s = true.
Proof.
  unfold encodable. induction s as [|c s IH]; cbn.
  { split; [done|by eexists]. }
  rewrite andb_true_iff, bool_decide_eq_true, <- IH. split.
  - intros [b Hb]. by destruct (utf8_char c), (utf8_encode s).
  - intros [[b ->] [bs ->]]. by eexists.
Qed.

Lemma encodable_strip s : encodable s → encodable (strip s).
Proof. rewrite !encodable_chars. apply strip_forallb. Qed.

Lemma byte_len_encodable s n : byte_len s = Ok n → encodable s.
Proof. unfold byte_len, encodable. destruct (utf8_encode s); [by eexists|done]. Qed.

Lemma encodes_bind {A B} (m : W A) (f : A → W B) :
  encodes m → (∀ a, encodes (f a)) → encodes (m ≫= f).
Proof. intros [a ->] Hf. apply Hf. Qed.

Lemma encodes_mapR {A B} (f : A → W B) l : Forall (λ x, encodes (f x)) l → encodes (mapR f l).
Proof.
  induction 1 as [|x l Hx _ IH]; cbn; [by eexists|].
  apply encodes_bind; [done|]. intros a. apply encodes_bind; [done|]. intros b. by eexists.
Qed.

Lemma encodes_ok {A} (a : A) : encodes (Ok a).
Proof. by eexists. Qed.

Lemma encodes_varint v : 0 <= v → encodes (encode_varint v).
Proof.
  intros Hv. unfold encode_varint. rewrite (proj2 (Z.leb_le 0 v)) by done. by eexists.
Qed.

Lemma encodes_tag n t : 0 <= n → 0 <= t → encodes (encode_tag n t).
Proof. intros. apply encodes_varint, Z.lor_nonneg. split; [by apply Z.shiftl_nonneg|done]. Qed.

Lemma encodes_len n b : 0 <= n → encodes (encode_len_delimited n b).
Proof.
  intros. apply encodes_bind; [by apply encodes_tag|]. intros tag.
  apply encodes_bind; [apply encodes_varint; unfold len; lia|]. intros. apply encodes_ok.
Qed.

Lemma encodes_utf8 s : encodable s → encodes (utf8 s).
Proof. intros [b Hb]. unfold utf8. rewrite Hb. by eexists. Qed.

Lemma encodes_string n s : 0 <= n → encodable s → encodes (encode_string_field n s).
Proof.
  intros. unfold encode_string_field. case_bool_decide; [apply encodes_ok|].
  apply encodes_bind; [by apply encodes_utf8|]. intros. by apply encodes_len.
Qed.

Lemma encodes_optional_string n o : 0 <= n → opt encodable o → encodes (encode_optional_string n o).
Proof.
  intros Hn Ho. destruct o; [|apply encodes_ok]. cbn.
  apply encodes_bind; [by apply encodes_utf8|]. intros. by apply encodes_len.
Qed.

Lemma encodes_varint_field n v : 0 <= n → 0 <= v → encodes (encode_varint_field n v).
Proof.
  intros. apply encodes_bind; [by apply encodes_tag|]. intros.
  apply encodes_bind; [by apply encodes_varint|]. intros. apply encodes_ok.
Qed.

Lemma mask64_nonneg v : 0 <= mask64 v.
Proof. unfold mask64. rewrite Z.land_ones by done. by apply Z.mod_pos_bound. Qed.

Lemma encodes_optional_int n o : 0 <= n → encodes (encode_optional_int n o).
Proof.
  intros. destruct o; [|apply encodes_ok]. apply encodes_varint_field; [done|apply mask64_nonneg].
Qed.

Definition packable (v : pyfloat) : Prop := is_finite (to_f32 v) = true.

Lemma encodes_floats n vs : 0 <= n → Forall packable vs → encodes (encode_packed_floats n vs).
Proof.
  intros Hn Hvs. unfold encode_packed_floats. case_bool_decide; [apply encodes_ok|].
  apply encodes_bind; [|intros; by apply encodes_len]. apply encodes_mapR.
  eapply Forall_impl; [exact Hvs|]. intros v Hv. unfold pack_float, pack_f32. rewrite Hv.
  rewrite andb_false_r. apply encodes_ok.
Qed.

Lemma encodes_map n m :
  0 <= n → Forall (λ kv, encodable kv.1 ∧ encodable kv.2) m → encodes (encode_map n m).
Proof.
  intros Hn Hm. apply encodes_bind; [|intros; apply encodes_ok]. apply encodes_mapR.
  rewrite (sort_items_perm m). eapply Forall_impl; [exact Hm|]. intros kv [Hk Hv].
  apply encodes_bind; [by apply encodes_optional_string|]. intros.
  apply encodes_bind; [by apply encodes_optional_string|]. intros. by apply encodes_len.
Qed.

Lemma encodes_parts parts : Forall encodes parts → encodes (join_parts parts).
Proof.
  intros Hp. apply encodes_bind; [by apply encodes_mapR|]. intros. apply encodes_ok.
Qed.

Definition entry_encodable (kv : pystr * pystr) : Prop := encodable kv.1 ∧ encodable kv.2.

(** An item with texts that UTF-8 has and floats that binary32 has. *)
Record sendable (i : MemoryItem) : Prop := {
  sd_texts : Forall encodable [mi_item_id i; mi_tenant_id i; mi_scope i; mi_subject i; mi_content i];
  sd_embedding : Forall packable (mi_embedding i);
  sd_metadata : Forall entry_encodable (mi_metadata i)
}.

Lemma encodes_item i : sendable i → encodes (encode_memory_item i).
Proof.
  intros [Ht He Hm]. rewrite !Forall_cons in Ht. destruct Ht as (H1 & H2 & H3 & H4 & H5 & _).
  apply encodes_parts. rewrite !Forall_cons. split_and!; try by apply encodes_string.
  - by apply encodes_floats.
  - by apply encodes_map.
  - case_match; [apply encodes_ok|]. apply encodes_varint_field; [done|apply mask64_nonneg].
  - by apply encodes_optional_int.
  - by apply encodes_optional_int.
  - done.
Qed.

(** ** What the store returns can be encoded *)

Lemma required_text_encodable s n v : required_text s n = Ok v → encodable v.
Proof.
  intros (-> & _ & k & Hk & _)%required_text_ok. eapply encodable_strip, byte_len_encodable, Hk.
Qed.

Lemma required_tenant_encodable s t : required_tenant s = Ok t → encodable t.
Proof. intros [_ H]%required_tenant_ok. by eapply required_text_encodable. Qed.

Lemma bounded_text_encodable s n v : bounded_optional_text s n = Ok v → encodable v.
Proof. unfold bounded_optional_text. intros H. inv_result. by eapply byte_len_encodable. Qed.

Lemma encodable_ascii s : is_ascii s = true → encodable s.
Proof. intros H. unfold encodable. by rewrite utf8_encode_ascii. Qed.

Lemma dict_set_Forall {V} (P : pystr * V → Prop) k v kvs :
  P (k, v) → Forall P kvs → Forall P (dict_set k v kvs).
Proof.
  intros Hk. induction 1 as [|[k' v'] l Hk' Hl IH]; cbn; [by constructor|].
  case_match; subst; by constructor.
Qed.

Lemma metadata_encodable m m' :
  validated_metadata m = Ok m' → Forall entry_encodable m'.
Proof.
  unfold validated_metadata. intros H. inv_result.
  match goal with Hm : mapR check_entry _ = Ok _ |- _ => apply mapR_ok in Hm; rename Hm into Hf end.
  eapply Forall2_Forall_l; [exact Hf|]. apply Forall_forall. intros u _ kv Hu.
  unfold check_entry in Hu. inv_result.
  split; by eapply byte_len_encodable.
Qed.

Lemma profile_metadata_encodable m model dims provider :
  encodable model → encodable provider → Forall entry_encodable m →
  Forall entry_encodable (with_profile_metadata m model dims (Some provider)).
Proof.
  intros Hm Hp Hall. unfold with_profile_metadata.
  assert (Hdims : Forall entry_encodable
    (dict_set DIMENSIONS_KEY (str_of_Z dims) (dict_set MODEL_ID_KEY model m))).
  { apply dict_set_Forall; [|apply dict_set_Forall; [|done]]; (split; [by apply encodable_ascii|]).
    - apply encodable_ascii, str_of_Z_ascii.
    - done. }
  apply dict_set_Forall; [|done]. split; [by apply encodable_ascii|]. cbn [snd].
  destruct provider as [|x provider]; [|done]. destruct (assoc _ _) as [v|] eqn:E; [|done].
  apply assoc_elem in E. rewrite Forall_forall in Hdims. by apply Hdims in E as [_ E].
Qed.

Lemma packable_quantized v : packable v → packable (quantized v).
Proof. unfold packable, quantized. by rewrite to_of_f32 by apply to_f32_valid. Qed.

Lemma pack_vector_packable values dims blob :
  pack_vector values dims = Ok blob → Forall packable values.
Proof.
  unfold pack_vector. intros H. inv_result.
  match goal with Hv : validated_vector _ _ = Ok _ |- _ => unfold validated_vector in Hv; inv_result end.
  match goal with Hf : forallb is_finite (map to_f32 _) = true |- _ => rename Hf into Hfin end.
  apply Forall_forall. intros x Hx. rewrite forallb_forall in Hfin. apply Hfin.
  apply in_map. by apply list_elem_of_In.
Qed.

Section Sendable.
Context (py_int : pystr → option Z) (prof : profile).

Lemma stored_sendable now fresh t item record blob dims :
  normalize_item py_int prof fresh t item = Ok record →
  pack_vector (embedding record) dims = Ok blob →
  sendable (to_contract (as_stored now record)).
Proof.
  intros Hn Hp%pack_vector_packable. unfold normalize_item in Hn. inv_result.
  match goal with Hk : (let '(_, _) := ?p in _) = _ |- _ => destruct p as [model dims'] eqn:? end.
  inv_result.
  apply required_text_ok in Hv2 as (_ & _ & k & Hid%byte_len_encodable & _).
  apply required_tenant_encodable in Hv. apply required_text_encodable in Hv11.
  apply byte_len_encodable in Hv4.
  apply bounded_text_encodable in Hv16, Hv17.
  assert (Hmodel : encodable model).
  { unfold profile_from_metadata in Hv8. inv_result.
    repeat case_match; inv_result; by eapply required_text_encodable. }
  split; cbn [to_contract as_stored mi_item_id mi_tenant_id mi_scope mi_subject mi_content
    mi_embedding mi_metadata item_id tenant_id sm_scope subject content embedding metadata] in *.
  - by repeat apply Forall_cons_2.
  - apply Forall_map. eapply Forall_impl; [exact Hp|]. apply packable_quantized.
  - rewrite sort_items_perm. apply profile_metadata_encodable; [done..|].
    by eapply metadata_encodable.
Qed.
End Sendable.

(** ** The stored form is the form on the wire *)

Lemma norm_as_stored now record :
  NoDup (metadata record).*1 →
  item_norm (to_contract (as_stored now record)) = to_contract (as_stored now record).
Proof.
  intros Hnd. unfold item_norm. cbn -[sort_items quantized]. rewrite map_map, sort_items_idem by done.
  by rewrite (map_ext _ _ (λ v, quantized_idem v)).
Qed.

Lemma sql_int_range z z' : sql_int z = Ok z' → int64 z.
Proof. unfold sql_int, int64. intros H. inv_result. bools. lia. Qed.

Lemma sql_int_opt_range o o' : sql_int_opt o = Ok o' → opt int64 o.
Proof. destruct o; [|done]. cbn. intros H. inv_result. by eapply sql_int_range. Qed.

Lemma as_stored_ok now record blob model dims text row :
  NoDup (metadata record).*1 → bound_row now record blob model dims text = Ok row →
  item_ok (to_contract (as_stored now record)).
Proof.
  intros Hnd Hrow. unfold bound_row in Hrow. inv_result.
  split_and!; cbn -[sort_items]; [by rewrite sort_items_perm| |by eapply sql_int_opt_range..].
  by eapply sql_int_range.
Qed.

(** ** Calls *)

Lemma find_method_name m : find_method (method_name m) = Some m.
Proof. destruct m; vm_compute; done. Qed.

(** The call of a client of the contract. *)
Definition client_call (m : method) (payload : pybytes) (ps : polls) : call :=
  Call CAPABILITY_ID (method_name m) payload (Some (request_type_url m)) false ps.

Definition quiet : polls := Polls false false false (λ _, false) false false.

(** A response that carries an error never decodes to one with a value. *)
Lemma error_response_decodes (e : MemoryError) bs id :
  encode_store_response (Response None (Some e)) = Ok bs → small bs →
  decode_store_response bs ≠ Ok (Response (Some id) None).
Proof.
  intros He Hs Hd. unfold encode_store_response, encode_result in He. cbn in He.
  apply bind_ok in He as (b & _ & He). pose proof (encode_len_small _ _ _ He Hs) as Hb.
  unfold decode_store_response, decode_result in Hd.
  pose proof (next_field_len 2 b bs [] ltac:(done) Hb He) as Hf. rewrite app_nil_r in Hf.
  rewrite (iterate_cons _ _ _ _ _ Hf) in Hd. apply bind_ok in Hd as (s & Hs1 & Hd).
  cbn in Hd. injection Hd as ->. unfold result_field in Hs1. cbn -[decode_error] in Hs1.
  by destruct (decode_error b).
Qed.

Lemma get_reply_decodes r reply :
  encode_response METHOD_GET r = Ok reply → small reply →
  result_ok item_ok r → result_norm item_norm r = r → decode_response METHOD_GET reply = Ok r.
Proof.
  intros He Hs Hok Hn. apply bind_ok in He as ([] & Hval & He).
  unfold decode_response. cbn [decode_reply]. apply require_ok in Hval as Hone.
  rewrite (get_response_law r reply), Hn by done. cbn [mbind result_bind]. by rewrite Hval.
Qed.

Section Calls.
Context (py_int : pystr → option Z) (float_sum : list pyfloat → pyfloat).
Context (scan : list (pystr * memory_row) → list (pystr * memory_row)).
Context (config : option pystr) (model_call : list pystr → model_reply).

Abbreviation invoke := (on_invoke py_int float_sum scan config model_call).
Abbreviation perform := (dispatch py_int float_sum scan config model_call).

Lemma invoke_client now fresh text retryable m sent ps p :
  invoke now fresh text retryable (client_call m sent ps) p =
  if at_start ps then (Ok (Refused CANCELLED), p) else
  match attempt py_int float_sum scan config model_call now fresh ps m sent p with
  | (Ok r, p) => (Ok r, p)
  | (Err e, p) =>
      if invoke_caught e then
        if in_except ps then (Ok (Refused CANCELLED), p)
        else (error_result m (response_error text retryable e), p)
      else (Err e, p)
  end.
Proof.
  unfold on_invoke. cbn [client_call capability action type_url stream_results cancellation payload].
  rewrite find_method_name, !bool_decide_true by done. cbn [negb]. by destruct (at_start ps).
Qed.

(** A payload that comes back encodes the response of the dispatch, or an error. *)
Lemma invoke_returned now fresh text retryable m sent ps p bs url p' :
  invoke now fresh text retryable (client_call m sent ps) p = (Ok (Returned bs url), p') →
  url = response_type_url m
  ∧ ((∃ r, perform now fresh ps m sent p = (Ok r, p') ∧ encode_reply m r = Ok bs)
     ∨ ∃ e, encode_reply m (error_reply m e) = Ok bs).
Proof.
  rewrite invoke_client. destruct (at_start ps); [done|]. unfold attempt.
  unfold mbind, M_bind, codec, lift, mret, M_ret.
  destruct (perform now fresh ps m sent p) as [[r|e] p1] eqn:Hp.
  - destruct (after_dispatch ps); [done|].
    destruct (encode_reply m r) as [b|e] eqn:He; [intros [= <- <- <-]; eauto 6|].
    repeat case_match; try done. unfold error_result. case_match eqn:Hr; [|done].
    intros [= <- <- <-]. eauto.
  - repeat case_match; try done. unfold error_result. case_match eqn:Hr; [|done].
    intros [= <- <- <-]. eauto.
Qed.

(** The parts of a successful [store]. *)
Lemma store_parts prof now fresh tenant item c id c' :
  store py_int prof now fresh tenant item c = (Ok id, c') →
  ∃ t record blob text row,
    required_tenant tenant = Ok t ∧ normalize_item py_int prof fresh t item = Ok record
    ∧ pack_vector (embedding record) (embedding_dimensions prof) = Ok blob
    ∧ bound_row now record blob (embedding_model_id prof) (embedding_dimensions prof) text = Ok row.
Proof.
  unfold store. destruct (store_checked _ _ _ _ _ _) as [[record row]|] eqn:Hs; [|done].
  intros _. unfold store_checked in Hs. inv_result. by repeat eexists.
Qed.

(** The answer of [get] on an opened store that finds [found]. *)
Lemma invoke_get prof c now fresh text retryable tenant id asked found :
  encode_request METHOD_GET (GetRequest tenant id) = Ok asked → small asked →
  get prof now tenant id c = Ok found →
  match found with Some item => sendable (to_contract item) | None => True end →
  let response := match found with
                  | Some item => Response (Some (to_contract item)) None
                  | None => Response None (Some not_found)
                  end in
  ∃ bs, invoke now fresh text retryable (client_call METHOD_GET asked quiet) (Opened prof c)
        = (Ok (Returned bs (response_type_url METHOD_GET)), Opened prof c)
        ∧ encode_response METHOD_GET response = Ok bs.
Proof.
  intros Ha Hs Hg Hsend response.
  assert (He : ∃ bs, encode_reply METHOD_GET response = Ok bs).
  { subst response. destruct found as [item|].
    - apply encodes_bind; [by apply encodes_item|]. intros. by apply encodes_len.
    - by eexists. }
  destruct He as [bs He]. exists bs. split.
  - rewrite invoke_client. cbn [quiet at_start]. unfold attempt, dispatch.
    pose proof (wire_roundtrip (GetRequest tenant id) asked I Ha Hs) as Hd.
    cbn [wire_decode wire_norm get_request_wire] in Hd.
    unfold mbind, M_bind, mret, M_ret, codec, lift, reading, with_store, require_store.
    rewrite Hd. cbn [gr_tenant_id gr_item_id]. rewrite Hg. cbn [quiet after_dispatch].
    unfold lift. cbn beta iota. change (match found with Some item => _ | None => _ end) with response.
    by rewrite He.
  - subst response. unfold encode_response, validate_response. by destruct found.
Qed.

End Calls.
