(* ===== verification/MemoryPluginErrors.v ===== *)
(** * Memory provider: the exceptions that leave an invocation

    [on_invoke] turns its domain errors into responses; the store's codes are
    those of the contract. *)

From Stdlib Require Import ZArith NArith SpecFloat.
From S2P Require Import Prelude PyFloat PyText PyFloat32 Json Scoped MemoryStore MemorySettings MemoryWire MemoryWireFacts MemoryCodec MemoryCodecFacts MemoryCodecProps MemoryPlugin MemoryPluginFacts.

#[local] Open Scope Z_scope.

(** ** Codes of the store *)

Definition store_code (e : mem_error) : bool :=
  match e with MemoryStoreError code => (2 <=? code) && (code <=? 5) | _ => true end.
Abbreviation coded := (raises_only store_code).

Lemma coded_byte_len s : coded (byte_len s).
Proof. unfold byte_len. raises fail. Qed.
#[export] Hint Resolve coded_byte_len : coded.
Ltac coded := raises ltac:(solve [eauto with coded]).

Lemma coded_required_text s n : coded (required_text s n).
Proof. unfold required_text. coded. Qed.
Lemma coded_required_tenant s : coded (required_tenant s).
Proof. unfold required_tenant. coded. Qed.
Lemma coded_bounded_integer v a b : coded (bounded_integer v a b).
Proof. unfold bounded_integer. coded. Qed.
Lemma coded_bounded_text s n : coded (bounded_optional_text s n).
Proof. unfold bounded_optional_text. coded. Qed.
Lemma coded_similarity v : coded (bounded_similarity v).
Proof. unfold bounded_similarity. coded. Qed.
Lemma coded_encode_metadata m : coded (encode_metadata m).
Proof. unfold encode_metadata. cbn zeta. coded. Qed.
Lemma coded_decode_metadata m : coded (decode_metadata m).
Proof. unfold decode_metadata. coded. Qed.
#[export] Hint Resolve coded_required_text coded_required_tenant coded_bounded_integer
  coded_bounded_text coded_similarity coded_encode_metadata coded_decode_metadata : coded.

Lemma coded_validated_metadata m : coded (validated_metadata m).
Proof. unfold validated_metadata, check_entry. coded. Qed.
Lemma coded_validated_vector v d : coded (validated_vector v d).
Proof. unfold validated_vector. coded. Qed.
#[export] Hint Resolve coded_validated_metadata coded_validated_vector : coded.
Lemma coded_pack_vector v d : coded (pack_vector v d).
Proof. unfold pack_vector. cbn zeta. coded. Qed.
Lemma coded_unpack_vector v d : coded (unpack_vector v d).
Proof. unfold unpack_vector. cbn zeta. coded. Qed.
Lemma coded_sql_int z : coded (sql_int z).
Proof. unfold sql_int. coded. Qed.
#[export] Hint Resolve coded_pack_vector coded_unpack_vector coded_sql_int : coded.
Lemma coded_sql_int_opt o : coded (sql_int_opt o).
Proof. unfold sql_int_opt. coded. Qed.
Lemma coded_encode_token id t s : coded (encode_page_token id t s).
Proof. unfold encode_page_token. cbn zeta. coded. Qed.
Lemma coded_decode_token v t s : coded (decode_page_token v t s).
Proof. unfold decode_page_token. cbn zeta. coded. Qed.
#[export] Hint Resolve coded_sql_int_opt coded_encode_token coded_decode_token : coded.

Section Codes.
Context (py_int : pystr → option Z) (float_sum : list pyfloat → pyfloat).
Context (scan : list (pystr * memory_row) → list (pystr * memory_row)) (prof : profile).

Lemma coded_profile m : coded (profile_from_metadata py_int prof m).
Proof. unfold profile_from_metadata. coded. Qed.
#[local] Hint Resolve coded_profile : coded.
Lemma coded_normalize fresh t item : coded (normalize_item py_int prof fresh t item).
Proof. unfold normalize_item. cbn zeta. coded. Qed.
Lemma coded_bound_row now item blob model dims text : coded (bound_row now item blob model dims text).
Proof. unfold bound_row. cbn zeta. coded. Qed.
Lemma coded_record tenant row m : coded (record_from_row prof tenant row m).
Proof. unfold record_from_row. cbn zeta. coded. Qed.
#[local] Hint Resolve coded_normalize coded_bound_row coded_record : coded.
Lemma coded_read_row tenant row : coded (read_row prof tenant row).
Proof. unfold read_row. coded. Qed.
#[local] Hint Resolve coded_read_row : coded.
Lemma coded_get now tenant id c : coded (get prof now tenant id c).
Proof. unfold get. coded. Qed.
Lemma coded_cosine l r : coded (cosine_similarity float_sum l r).
Proof. unfold cosine_similarity. cbn zeta. coded. Qed.
#[local] Hint Resolve coded_cosine : coded.
Lemma coded_loop cancelled tenant query filters threshold limit rows n seq heap :
  coded (recall_loop float_sum prof cancelled tenant query filters threshold limit rows n seq heap).
Proof.
  revert n seq heap. induction rows as [|row rows IH]; intros n seq heap; cbn; [apply raises_ok|].
  unfold score_row. raises ltac:(first [apply IH | solve [eauto with coded]]).
Qed.
#[local] Hint Resolve coded_loop : coded.
Lemma coded_recall now cancelled tenant query scope subj filters min k c :
  coded (recall float_sum scan prof now cancelled tenant query scope subj filters min k c).
Proof. unfold recall. cbn zeta. coded. Qed.
Lemma coded_export now tenant scope limit token c : coded (export_batch prof now tenant scope limit token c).
Proof. unfold export_batch, page. coded. Qed.

Lemma coded_match {A B} (r : E A) (f : A → E B * connection) c :
  coded r → (∀ a, coded (f a).1) →
  coded (match r with Err e => (Err e, c) | Ok a => f a end).1.
Proof. intros Hr Hf. destruct r as [a|e]; [apply Hf|]. intros e' [= <-]. by apply Hr. Qed.

Lemma coded_store now fresh tenant item c : coded (store py_int prof now fresh tenant item c).1.
Proof.
  apply coded_match; [unfold store_checked; coded|]. intros []. apply raises_ok.
Qed.
Lemma coded_delete tenant id c : coded (delete_item tenant id c).1.
Proof. apply coded_match; [coded|]. intros. apply raises_ok. Qed.
Lemma coded_prune now before tenant c : coded (prune now before tenant c).1.
Proof. apply coded_match; [coded|]. intros. apply raises_ok. Qed.

Lemma coded_import_rows now overwrite tenant items n m :
  coded (import_rows py_int prof now overwrite tenant items n m).1.
Proof.
  revert n m. induction items as [|item items IH]; intros n m; cbn; [apply raises_ok|].
  destruct (import_row _ _ _ _) as [row|e] eqn:Hr; [case_match; apply IH|].
  intros e' [= <-]. revert e Hr. change (coded (import_row py_int prof now item)). unfold import_row. cbn zeta. coded.
Qed.
Lemma coded_import now tenant items overwrite c :
  coded (import_batch py_int prof now tenant items overwrite c).1.
Proof.
  apply coded_match; [unfold import_check; cbn zeta; coded|].
  intros [t normalized]. case_match; [by apply raises_err|].
  pose proof (coded_import_rows now overwrite t normalized 0 (memory_records (committed c))) as Hrows.
  destruct (import_rows _ _ _ _ _ _ _ _) as [[] ?]; [apply raises_ok|exact Hrows].
Qed.

Lemma coded_migrate version d : coded (migrate prof version d).
Proof. unfold migrate, check_provider, profile_fingerprint. cbn zeta. coded. Qed.
End Codes.

Lemma coded_store_profile s : coded (store_profile s).
Proof. unfold store_profile. coded. Qed.

(** ** Errors of the encoders *)

Definition encode_exception (e : codec_error) : bool := match e with OutOfFuel => false | _ => true end.
Abbreviation encoding := (raises_only encode_exception).

Lemma encoding_varint v : encoding (encode_varint v).
Proof. unfold encode_varint. raises fail. Qed.
Lemma encoding_tag n t : encoding (encode_tag n t).
Proof. apply encoding_varint. Qed.
#[export] Hint Resolve encoding_varint encoding_tag : encoding.
Ltac encoding := raises ltac:(solve [eauto with encoding]).
Lemma encoding_len n b : encoding (encode_len_delimited n b).
Proof. unfold encode_len_delimited. encoding. Qed.
Lemma encoding_utf8 v : encoding (utf8 v).
Proof. unfold utf8. encoding. Qed.
Lemma encoding_float v : encoding (pack_float v).
Proof. unfold pack_float. encoding. Qed.
#[export] Hint Resolve encoding_len encoding_utf8 encoding_float : encoding.
Lemma encoding_string n v : encoding (encode_string_field n v).
Proof. unfold encode_string_field. encoding. Qed.
Lemma encoding_optional n v : encoding (encode_optional_string n v).
Proof. unfold encode_optional_string. encoding. Qed.
Lemma encoding_floats n v : encoding (encode_packed_floats n v).
Proof. unfold encode_packed_floats. encoding. Qed.
Lemma encoding_varint_field n v : encoding (encode_varint_field n v).
Proof. unfold encode_varint_field. encoding. Qed.
Lemma encoding_fixed32 n v : encoding (encode_fixed32 n v).
Proof. unfold encode_fixed32. encoding. Qed.
#[export] Hint Resolve encoding_string encoding_optional encoding_floats encoding_varint_field
  encoding_fixed32 : encoding.
Lemma encoding_int n v : encoding (encode_optional_int n v).
Proof. unfold encode_optional_int. encoding. Qed.
Lemma encoding_map n v : encoding (encode_map n v).
Proof. unfold encode_map, encode_map_entry. encoding. Qed.
#[export] Hint Resolve encoding_int encoding_map : encoding.

Lemma encoding_parts parts : Forall encoding parts → encoding (join_parts parts).
Proof.
  intros Hp. apply raises_bind; [|intros; apply raises_ok].
  induction Hp as [|p parts Hp _ IH]; cbn; [apply raises_ok|]. encoding.
Qed.
Lemma encoding_item i : encoding (encode_memory_item i).
Proof. apply encoding_parts. repeat constructor; encoding. Qed.
Lemma encoding_error e : encoding (encode_error e).
Proof. apply encoding_parts. repeat constructor; encoding. Qed.
#[export] Hint Resolve encoding_item encoding_error : encoding.
Lemma encoding_each {A} (f : A → W pybytes) n xs : (∀ x, encoding (f x)) → encoding (encode_each f n xs).
Proof. intros Hf. unfold encode_each. encoding. Qed.
Lemma encoding_match m : encoding (encode_match m).
Proof. unfold encode_match. encoding. Qed.
#[export] Hint Resolve encoding_each encoding_match : encoding.
Lemma encoding_result {A} (f : A → W pybytes) r : (∀ x, encoding (f x)) → encoding (encode_result f r).
Proof. intros Hf. unfold encode_result. encoding. Qed.

Lemma encoding_reply m r : encoding (encode_reply m r).
Proof.
  destruct m; cbn [encode_reply]; try (apply encoding_result; intros; encoding).
  unfold encode_export_batch_response. encoding.
Qed.

(** ** Errors of an invocation *)

(** Not a loop cut short, nor a code that the contract does not have. *)
Definition dispatch_error (e : plugin_error) : bool :=
  match e with
  | StoreFailed e => store_code e
  | CodecFailed e => decode_exception e || bool_decide (e = MissingArgument)
  | _ => true
  end.
Definition orderly {A} (m : M A) : Prop := ∀ p, raises_only dispatch_error (m p).1.

Lemma orderly_ret {A} (a : A) : orderly (mret a).
Proof. intros p. apply raises_ok. Qed.

Lemma orderly_bind {A B} (m : M A) (f : A → M B) :
  orderly m → (∀ a, orderly (f a)) → orderly (m ≫= f).
Proof.
  intros Hm Hf p. unfold mbind, M_bind. specialize (Hm p).
  destruct (m p) as [[a|e] p']; [apply Hf|]. intros e' [= <-]. by apply Hm.
Qed.

Lemma orderly_lift {A} (r : result plugin_error A) : raises_only dispatch_error r → orderly (lift id r).
Proof. intros Hr p. unfold lift. destruct r; [apply raises_ok|]. intros e' [= <-]. by apply Hr. Qed.

Lemma orderly_codec {A} m (r : W A) : raises_only (request_exception m) r → orderly (codec r).
Proof.
  intros Hr p. unfold codec, lift. destruct r as [a|e]; [apply raises_ok|].
  intros e' [= <-]. destruct (Hr e eq_refl) as [->|[->|[-> _]]]; done.
Qed.

Section Escapes.
Context (py_int : pystr → option Z) (float_sum : list pyfloat → pyfloat).
Context (scan : list (pystr * memory_row) → list (pystr * memory_row)).
Context (config : option pystr) (model_call : list pystr → model_reply).

Lemma orderly_config : raises_only dispatch_error (settings config).
Proof.
  unfold settings. destruct (from_environment config) as [s|[]]; [apply raises_ok|..];
    by apply raises_err.
Qed.

Lemma orderly_settings : orderly (require_settings config).
Proof. apply orderly_lift, orderly_config. Qed.

Lemma orderly_with_store {A} (f : profile → connection → E A * connection) :
  (∀ prof c, coded (f prof c).1) → orderly (with_store config f).
Proof.
  intros Hf p. unfold with_store.
  assert (Hl : ∀ prof c, raises_only dispatch_error
    (let '(r, c) := f prof c in lift StoreFailed r (Opened prof c)).1).
  { intros prof c. specialize (Hf prof c). destruct (f prof c) as [[a|e] c']; [apply raises_ok|].
    intros e' [= <-]. by apply Hf. }
  unfold require_store. destruct p as [version d|prof c]; [|apply Hl].
  pose proof orderly_config as Hc. destruct (settings config) as [s|e];
    [|intros e' [= <-]; by apply Hc].
  destruct (prof ← store_profile s; _) as [[prof d']|e] eqn:Ho; [apply Hl|].
  intros e' [= <-]. cbn. revert e Ho.
  change (coded (prof ← store_profile s; d ← migrate prof version d; Ok (prof, d))).
  apply raises_bind; [apply coded_store_profile|]. intros prof.
  apply raises_bind; [apply coded_migrate|]. intros. apply raises_ok.
Qed.

Lemma orderly_reading {A} (f : profile → connection → E A) :
  (∀ prof c, coded (f prof c)) → orderly (reading config f).
Proof. intros Hf. by apply orderly_with_store. Qed.

Lemma orderly_embed ps r input : orderly (embed_one config model_call ps r input).
Proof.
  apply orderly_bind; [apply orderly_settings|]. intros s.
  apply orderly_bind; [apply orderly_lift; raises fail|]. intros _. cbn zeta.
  apply orderly_bind; [|intros; apply orderly_ret]. apply orderly_lift.
  unfold embed. cbn zeta. raises fail.
Qed.

Lemma orderly_item ps i : orderly (item_with_embedding config model_call ps i).
Proof.
  apply orderly_bind; [apply orderly_embed|]. intros v.
  apply orderly_bind; [apply orderly_settings|]. intros s. apply orderly_ret.
Qed.

Lemma orderly_query ps r : orderly (query_vector config model_call ps r).
Proof.
  unfold query_vector. destruct (rr_query_embedding r); [|apply orderly_ret].
  destruct (rr_query_text r); [|apply orderly_lift; by apply raises_err].
  apply orderly_bind; [apply orderly_lift; raises fail|]. intros _. apply orderly_embed.
Qed.

Ltac stages := repeat first
  [ apply orderly_ret | apply orderly_item | apply orderly_query
  | apply (orderly_codec METHOD_STORE), (raises_request METHOD_STORE)
  | apply (orderly_codec METHOD_GET), (raises_request METHOD_GET)
  | apply (orderly_codec METHOD_RECALL), (raises_request METHOD_RECALL)
  | apply (orderly_codec METHOD_DELETE), (raises_request METHOD_DELETE)
  | apply (orderly_codec METHOD_PRUNE), (raises_request METHOD_PRUNE)
  | apply (orderly_codec METHOD_EXPORT_BATCH), (raises_request METHOD_EXPORT_BATCH)
  | apply (orderly_codec METHOD_IMPORT_BATCH), (raises_request METHOD_IMPORT_BATCH)
  | apply orderly_with_store; intros ? ? | apply orderly_reading; intros ? ?
  | apply coded_store | apply coded_get | apply coded_recall | apply coded_delete
  | apply coded_prune | apply coded_export | apply coded_import
  | apply orderly_bind; [|intros ?] | case_match ].

Lemma orderly_dispatch now fresh ps m sent :
  orderly (dispatch py_int float_sum scan config model_call now fresh ps m sent).
Proof. destruct m; cbn [dispatch]; stages. Qed.

(** An error response fails to encode only for a text that UTF-8 does not have. *)
Lemma error_result_fails m err e :
  0 <= me_code err → error_result m err = Err e →
  e = CodecFailed CodecUnicodeError ∧ utf8_encode (me_message err) = None.
Proof.
  intros Hc. unfold error_result.
  assert (Hr : encode_reply m (error_reply m err) = b ← encode_error err; encode_len_delimited 2 b)
    by by destruct m.
  rewrite Hr. destruct (utf8_encode (me_message err)) as [b|] eqn:Hu.
  - assert (He : encodes (encode_error err)).
    { apply encodes_parts. rewrite !Forall_cons. split_and!; [| |by case_match; eexists|done].
      - case_match; [by eexists|]. by apply encodes_varint_field.
      - apply encodes_string; [done|by exists b]. }
    destruct He as [b' ->]. cbn [mbind result_bind].
    destruct (encodes_len 2 b') as [b2 ->]; done.
  - assert (He : encode_error err = Err CodecUnicodeError).
    { assert (H1 : encodes (if me_code err =? 0 then Ok [] else encode_varint_field 1 (me_code err)))
        by (case_match; [by eexists|by apply encodes_varint_field]).
      destruct H1 as [b1 H1]. unfold encode_error, join_parts. cbn [mapR]. rewrite H1.
      unfold encode_string_field, utf8. rewrite Hu.
      case_bool_decide as Hm; [by rewrite Hm in Hu|done]. }
    rewrite He. by intros [= <-].
Qed.

Lemma response_error_code text retryable e :
  dispatch_error e → 0 <= me_code (response_error text retryable e).
Proof. intros H%Is_true_true. revert H. destruct e as [[]| | | |]; cbn; try done. rewrite andb_true_iff, !Z.leb_le. lia. Qed.

Lemma response_error_text text retryable e :
  utf8_encode (me_message (response_error text retryable e)) = None → utf8_encode text = None.
Proof. by destruct e as [[]| | | |], text. Qed.

Abbreviation invoke := (on_invoke py_int float_sum scan config model_call).

End Escapes.
