(* ===== verification/MemoryPluginExamples.v ===== *)
(** * Memory provider: a concrete conversation *)

From Stdlib Require Import ZArith NArith SpecFloat.
From S2P Require Import Prelude PyFloat PyText Json Sha256 MemoryStore MemoryFacts MemorySettings MemoryExamples.
From S2P Require Import MemoryWire MemoryWireFacts MemoryCodec MemoryCodecFacts MemoryCodecLaws MemoryPlugin.
From S2P Require Import MemoryPluginFacts MemoryPluginErrors.

#[local] Open Scope Z_scope.

Definition ex_config : pystr :=
  dumps (JObj
    [(lit "database_path", JStr (lit "/var/lib/memory.db"));
     (lit "embedding_model_id", JStr (lit "m"));
     (lit "embedding_dimensions", JInt 2); (lit "max_top_k", JInt 10)]).
Definition ex_contract_item : MemoryItem :=
  Item (lit "a") ex_tenant (lit "s") [] (lit "text") (ex_vec 1 0) ex_metadata 0 None (Some 5).
Definition ex_invoke (now : Z) (m : method) (sent : pybytes)
  : provider → result plugin_error invocation * provider :=
  on_invoke Z_of_str ex_sum id (Some ex_config) (λ _, NoEmbeddings) now (λ _, lit "0") [] false
    (client_call m sent quiet).

Definition ok_bytes (r : W pybytes) : pybytes := match r with Ok b => b | Err _ => [] end.
Definition ex_sent : pybytes :=
  ok_bytes (encode_request METHOD_STORE (StoreRequest ex_tenant ex_contract_item)).
Definition ex_asked : pybytes := ok_bytes (encode_request METHOD_GET (GetRequest ex_tenant (lit "a"))).

(** The store is opened by the first call. *)
Definition ex_closed : provider := NotOpened 0 (Database ∅ None).
Definition ex_fingerprint : pystr :=
  match profile_fingerprint ex_profile with Ok f => f | Err _ => [] end.
Definition ex_opened : connection := Connection (Database ∅ (Some ex_fingerprint)) None.
Definition ex_stored : result plugin_error invocation * provider :=
  ex_invoke 1000 METHOD_STORE ex_sent ex_closed.
Definition ex_answer : pybytes :=
  ok_bytes (encode_reply METHOD_STORE (Response (Some (lit "a")) None)).

(** What a client gets at [now]. *)
Definition ex_read (now : Z) : option (option MemoryItem) :=
  match (ex_invoke now METHOD_GET ex_asked ex_stored.2).1 with
  | Ok (Returned bs _) =>
      match decode_response METHOD_GET bs with Ok r => Some (rs_value r) | Err _ => None end
  | _ => None
  end.


Definition ex_settings : ProviderSettings :=
  Settings (lit "/var/lib/memory.db") (lit "m") 2 None (f_of_Z 30) 256 10 (Some (lit "m")) [] [].

