(* ===== verification/AccountStore.v ===== *)
(** * Account center: linked accounts, sessions and leases

    [AccountStore] of [account_center/store.py]: the tables [accounts],
    [link_sessions], [wecom_challenges], [credential_leases],
    [command_idempotency] and [consumed_requests], and the operations on them.
    Every operation is one immediate transaction; blobs are the ciphertexts the
    caller gives.  [inst] is the identifier of the process ([_instance_id]);
    identifiers from [uuid4] and clock readings are arguments. *)

From Stdlib Require Import ZArith NArith.
From S2P Require Import Prelude PyText.

#[local] Open Scope Z_scope.

Definition IDEMPOTENCY_RETENTION_SECONDS : Z := 86400.

(** ** Rows *)

(** The codes of [AccountCenterError]. *)
Inductive account_error :=
  | storage_unavailable
  | idempotency_conflict
  | idempotency_in_progress
  | idempotency_state_invalid
  | invalid_state
  | request_replayed
  | link_session_invalid
  | challenge_rejected
  | duplicate_link
  | external_identity_owned
  | account_not_found
  | credential_reauthentication_required
  | credential_refresh_claim_lost
  | lease_rejected
  | credential_unavailable
  | invalid_request
  | profile_unavailable
  | profile_already_exists
  | duplicate_provider_identity
  | profile_ref_unavailable
  | profile_provider_mismatch
  | profile_not_found
  | profile_revision_conflict
  | external_identity_mismatch
  | credential_reauthorization_required
  | connector_grant_required
  | connector_grant_replayed
  | renewal_session_not_found
  | renewal_poll_claim_lost
  | person_conflict
  | handle_owned
  | handle_not_found
  | scope_mismatch
  | result_too_large.

#[export] Instance account_error_eq_dec : EqDecision account_error.
Proof. solve_decision. Defined.

Abbreviation R := (result account_error).

Record Anchor := MkAnchor {
  issuer : pystr;
  an_subject : pystr;
  organization_id : pystr;
  workspace_id : option pystr
}.
#[export] Instance anchor_eq_dec : EqDecision Anchor.
Proof. solve_decision. Defined.

Inductive link_provider := GITHUB | WECOM.
#[export] Instance link_provider_eq_dec : EqDecision link_provider.
Proof. solve_decision. Defined.

Inductive account_status := ACTIVE | UNLINKED | REVOCATION_PENDING | REVOCATION_FAILED.
#[export] Instance account_status_eq_dec : EqDecision account_status.
Proof. solve_decision. Defined.

Inductive credential_status := READY | REFRESH_PENDING | REAUTHORIZATION_REQUIRED.
#[export] Instance credential_status_eq_dec : EqDecision credential_status.
Proof. solve_decision. Defined.

Inductive revocation := PENDING | REVOKED | FAILED | UNKNOWN | NOT_ISSUED.
#[export] Instance revocation_eq_dec : EqDecision revocation.
Proof. solve_decision. Defined.

(** The columns an UPDATE never touches. *)
Record link := Link {
  lk_anchor : Anchor;
  lk_provider : link_provider;
  lk_source_authority : pystr;
  lk_bot_namespace : option pystr;
  lk_stable_subject : pystr;
  lk_metadata_json : pystr;
  lk_linked_at : Z
}.

Record credential := Credential {
  cr_blob : option pybytes;
  cr_expires_at : option Z;
  cr_refresh_expires_at : option Z;
  cr_status : credential_status;
  cr_revision : Z;
  cr_claim_id : option pystr;
  cr_claim_owner : option pystr;
  cr_claimed_at : option Z
}.

Record account := Account {
  ac_link : link;
  ac_credential : credential;
  ac_status : account_status;
  ac_revocation : option revocation;
  ac_revocation_owner : option pystr;
  ac_revocation_command : option pystr;
  ac_unlinked_at : option Z
}.

Inductive session_status := S_PENDING | S_PROCESSING | S_COMPLETED | S_CANCELLED | S_FAILED.
#[export] Instance session_status_eq_dec : EqDecision session_status.
Proof. solve_decision. Defined.

Record session := Session {
  se_anchor : Anchor;
  se_provider : link_provider;
  se_state_digest : pystr;
  se_nonce_digest : pystr;
  se_callback_uri : option pystr;
  se_code_verifier : option pybytes;
  se_pending_credential : option pybytes;
  se_expires_at : Z;
  se_status : session_status;
  se_failure : option revocation;
  se_created_at : Z
}.

Record challenge := Challenge {
  ch_bot_namespace : pystr;
  ch_source_authority : pystr;
  ch_stable_subject : pystr;
  ch_organization_id : pystr;
  ch_value_digest : pystr;
  ch_expires_at : Z;
  ch_consumed_at : option Z
}.

Record lease := Lease {
  le_account_ref : pystr;
  le_anchor : Anchor;
  le_binding_id : pystr;
  le_caller_id : pystr;
  le_operation_id : pystr;
  le_resource_json : pystr;
  le_arguments_sha256 : pystr;
  le_expires_at : Z;
  le_redeemed_at : option Z
}.

Record command := Command {
  co_method : pystr;
  co_payload_sha256 : pystr;
  co_completed : bool;
  co_response : option pybytes;
  co_created_at : Z;
  co_expires_at : Z
}.

Record account_db := AccountDb {
  accounts : gmap pystr account;
  link_sessions : gmap pystr session;
  wecom_challenges : gmap pystr challenge;
  credential_leases : gmap pystr lease;
  command_idempotency : gmap pystr command;
  consumed_requests : gmap pystr Z
}.

(** ** SQL *)

Definition with_accounts (m : gmap pystr account) (d : account_db) : account_db :=
  AccountDb m (link_sessions d) (wecom_challenges d) (credential_leases d) (command_idempotency d)
    (consumed_requests d).
Definition with_sessions (m : gmap pystr session) (d : account_db) : account_db :=
  AccountDb (accounts d) m (wecom_challenges d) (credential_leases d) (command_idempotency d)
    (consumed_requests d).
Definition with_challenges (m : gmap pystr challenge) (d : account_db) : account_db :=
  AccountDb (accounts d) (link_sessions d) m (credential_leases d) (command_idempotency d)
    (consumed_requests d).
Definition with_leases (m : gmap pystr lease) (d : account_db) : account_db :=
  AccountDb (accounts d) (link_sessions d) (wecom_challenges d) m (command_idempotency d)
    (consumed_requests d).
Definition with_commands (m : gmap pystr command) (d : account_db) : account_db :=
  AccountDb (accounts d) (link_sessions d) (wecom_challenges d) (credential_leases d) m
    (consumed_requests d).
Definition with_requests (m : gmap pystr Z) (d : account_db) : account_db :=
  AccountDb (accounts d) (link_sessions d) (wecom_challenges d) (credential_leases d)
    (command_idempotency d) m.

(** [UPDATE ... WHERE key=? AND p] whose [rowcount] must be 1, or [e]. *)
Definition update_one {V : Type} (e : account_error) (p : V → bool) (f : V → V) (k : pystr)
    (m : gmap pystr V) : R (gmap pystr V) :=
  match m !! k with
  | Some v => if p v then Ok (<[k := f v]> m) else Err e
  | None => Err e
  end.
(** [UPDATE ... WHERE p] and [DELETE ... WHERE p] on a whole table. *)
Definition update_all {V : Type} (p : V → bool) (f : V → V) (m : gmap pystr V) : gmap pystr V :=
  (λ v, if p v then f v else v) <$> m.
Definition delete_all {V : Type} (p : V → bool) (m : gmap pystr V) : gmap pystr V :=
  filter (λ kv, p kv.2 = false) m.
(** [fetchone] of the rows that satisfy [p]. *)
Definition fetch_one {V : Type} (p : V → bool) (m : gmap pystr V) : option (pystr * V) :=
  head (List.filter (λ kv, p kv.2) (map_to_list m)).
(** [INSERT] under a primary key. *)
Definition insert_new {V : Type} (e : account_error) (k : pystr) (v : V) (m : gmap pystr V)
  : R (gmap pystr V) :=
  _ ← require (bool_decide (m !! k = None)) e; Ok (<[k := v]> m).

(** ** Commands and requests *)

Definition finish_command (response : pybytes) (c : command) : command :=
  Command (co_method c) (co_payload_sha256 c) true (Some response) (co_created_at c) (co_expires_at c).
(** [_complete_command_in_transaction] *)
Definition complete_command (key_hash : pystr) (response : pybytes) (d : account_db) : R account_db :=
  m ← update_one idempotency_state_invalid (λ c, negb (co_completed c))
        (finish_command response) key_hash (command_idempotency d);
  Ok (with_commands m d).
(** [if command_result is not None: ...] *)
Definition command_result (o : option (pystr * pybytes)) (d : account_db) : R account_db :=
  match o with Some (k, b) => complete_command k b d | None => Ok d end.

(** [begin_idempotent_command]: [None] lets the command run. *)
Definition begin_command_txn (key_hash method payload_sha256 : pystr) (now : Z)
  : txn account_db account_error (option pybytes) := λ d,
  let live := match command_idempotency d !! key_hash with
              | Some c => if co_expires_at c <=? now then None else Some c
              | None => None
              end in
  match live with
  | Some c =>
      _ ← require (bool_decide (co_method c = method)
                   && bool_decide (co_payload_sha256 c = payload_sha256)) idempotency_conflict;
      match co_completed c, co_response c with
      | true, Some b => Ok (Some b, d)
      | _, _ => Err idempotency_in_progress
      end
  | None =>
      Ok (None, with_commands
        (<[key_hash := Command method payload_sha256 false None now
                         (now + IDEMPOTENCY_RETENTION_SECONDS)]> (command_idempotency d)) d)
  end.
Definition begin_idempotent_command (key_hash method payload_sha256 : pystr) (now : Z)
    (d : account_db) : R (option pybytes) * account_db :=
  transact (begin_command_txn key_hash method payload_sha256 now) d.

(** [complete_idempotent_command] *)
Definition complete_idempotent_command (key_hash : pystr) (response : pybytes) (d : account_db)
  : R () * account_db :=
  transact (λ d, d ← complete_command key_hash response d; Ok ((), d)) d.

(** [pending_idempotent_commands] *)
Definition pending_idempotent_commands (d : account_db) : list pystr :=
  (List.filter (λ kv, negb (co_completed kv.2)) (map_to_list (command_idempotency d))).*1.

(** [consume_request_id] *)
Definition consume_request_id (request_id : pystr) (expires_at : Z) (d : account_db)
  : R () * account_db :=
  transact (λ d, m ← insert_new request_replayed request_id expires_at (consumed_requests d);
                 Ok ((), with_requests m d)) d.

(** ** Sessions *)

Definition set_session (st : session_status) (verifier pending : option pybytes)
    (failure : option revocation) (s : session) : session :=
  Session (se_anchor s) (se_provider s) (se_state_digest s) (se_nonce_digest s) (se_callback_uri s)
    verifier pending (se_expires_at s) st failure (se_created_at s).
(** [SET status=...] alone. *)
Definition set_status (st : session_status) (s : session) : session :=
  set_session st (se_code_verifier s) (se_pending_credential s) (se_failure s) s.
(** [SET status=..., code_verifier_blob=NULL, pending_credential_blob=NULL] *)
Definition close_session (st : session_status) (failure : option revocation) (s : session) : session :=
  set_session st None None failure s.

(** [create_session]; the state digest is unique. *)
Definition create_session (ref : pystr) (anchor : Anchor) (provider : link_provider)
    (state_digest nonce_digest : pystr) (callback_uri : option pystr) (verifier : option pybytes)
    (expires_at now : Z) (result : option (pystr * pybytes)) (d : account_db)
  : R pystr * account_db :=
  transact (λ d,
    _ ← require (bool_decide (fetch_one (λ s, bool_decide (se_state_digest s = state_digest))
                                (link_sessions d) = None)) storage_unavailable;
    m ← insert_new storage_unavailable ref
          (Session anchor provider state_digest nonce_digest callback_uri verifier None expires_at
             S_PENDING None now) (link_sessions d);
    d ← command_result result (with_sessions m d);
    Ok (ref, d)) d.

Definition pending_live (now : Z) (s : session) : bool :=
  bool_decide (se_status s = S_PENDING) && (now <? se_expires_at s).
Definition processing_live (now : Z) (s : session) : bool :=
  bool_decide (se_status s = S_PROCESSING) && (now <? se_expires_at s).

(** [claim_session] *)
Definition claim_session (ref : pystr) (now : Z) (d : account_db) : R () * account_db :=
  transact (λ d, m ← update_one link_session_invalid (pending_live now) (set_status S_PROCESSING) ref
                       (link_sessions d);
                 Ok ((), with_sessions m d)) d.

(** [claim_session_by_state] *)
Definition claim_session_by_state (state_digest callback_uri : pystr) (now : Z) (d : account_db)
  : R (pystr * session) * account_db :=
  transact (λ d,
    match fetch_one (λ s, bool_decide (se_state_digest s = state_digest)
                          && bool_decide (se_callback_uri s = Some callback_uri)
                          && bool_decide (se_provider s = GITHUB) && pending_live now s)
            (link_sessions d) with
    | None => Err link_session_invalid
    | Some (ref, s) =>
        m ← update_one link_session_invalid (pending_live now) (set_status S_PROCESSING) ref
              (link_sessions d);
        Ok ((ref, s), with_sessions m d)
    end) d.

(** [session] *)
Definition get_session (ref : pystr) (d : account_db) : R session :=
  match link_sessions d !! ref with Some s => Ok s | None => Err link_session_invalid end.

Definition github_processing (s : session) : bool :=
  bool_decide (se_provider s = GITHUB) && bool_decide (se_status s = S_PROCESSING).

(** [save_pending_callback_credential] *)
Definition save_pending_callback_credential (ref : pystr) (blob : pybytes) (d : account_db)
  : R () * account_db :=
  transact (λ d,
    m ← update_one link_session_invalid github_processing
          (λ s, set_session (se_status s) (se_code_verifier s) (Some blob) (se_failure s) s) ref
          (link_sessions d);
    Ok ((), with_sessions m d)) d.

(** [interrupted_callback_credentials] *)
Definition interrupted_callback_credentials (d : account_db) : list (pystr * pybytes) :=
  omap (λ kv, b ← se_pending_credential kv.2; Some (kv.1, b))
    (List.filter (λ kv, github_processing kv.2) (map_to_list (link_sessions d))).

(** [complete_session] *)
Definition complete_session (ref : pystr) (now : Z) (d : account_db) : R () * account_db :=
  transact (λ d,
    m ← update_one link_session_invalid (processing_live now)
          (λ s, close_session S_COMPLETED (se_failure s) s) ref (link_sessions d);
    Ok ((), with_sessions m d)) d.

(** [fail_session] *)
Definition fail_session (ref : pystr) (status : revocation) (d : account_db) : R () * account_db :=
  if bool_decide (status = PENDING) then (Err invalid_state, d) else
  transact (λ d,
    m ← update_one link_session_invalid (λ s, bool_decide (se_status s = S_PROCESSING))
          (close_session S_FAILED (Some status)) ref (link_sessions d);
    Ok ((), with_sessions m d)) d.

(** ** WeCom challenges *)

(** [add_wecom_challenge]: adding the same observation again changes nothing. *)
Definition add_wecom_challenge (id bot_namespace source_authority stable_subject organization digest
    : pystr) (expires_at : Z) (d : account_db) : R () * account_db :=
  let new := Challenge bot_namespace source_authority stable_subject organization digest expires_at None in
  transact (λ d,
    match wecom_challenges d !! id with
    | Some c =>
        _ ← require
              (bool_decide ((ch_bot_namespace c, ch_source_authority c, ch_stable_subject c,
                             ch_organization_id c, ch_value_digest c, ch_expires_at c)
                            = (bot_namespace, source_authority, stable_subject, organization, digest,
                               expires_at))) challenge_rejected;
        Ok ((), d)
    | None => Ok ((), with_challenges (<[id := new]> (wecom_challenges d)) d)
    end) d.

Definition challenge_open (organization digest : pystr) (now : Z) (c : challenge) : bool :=
  (now <? ch_expires_at c) && bool_decide (ch_consumed_at c = None)
  && bool_decide (ch_organization_id c = organization) && bool_decide (ch_value_digest c = digest).
Definition consume (now : Z) (c : challenge) : challenge :=
  Challenge (ch_bot_namespace c) (ch_source_authority c) (ch_stable_subject c) (ch_organization_id c)
    (ch_value_digest c) (ch_expires_at c) (Some now).

(** [consume_wecom_challenge] *)
Definition consume_wecom_challenge (id organization digest : pystr) (now : Z) (d : account_db)
  : R challenge * account_db :=
  transact (λ d,
    match wecom_challenges d !! id with
    | Some c =>
        _ ← require (challenge_open organization digest now c) challenge_rejected;
        Ok (c, with_challenges (<[id := consume now c]> (wecom_challenges d)) d)
    | None => Err challenge_rejected
    end) d.

(** ** Accounts *)

Definition same_identity (provider : link_provider) (source_authority : pystr)
    (namespace : option pystr) (subject organization : pystr) (a : account) : bool :=
  let l := ac_link a in
  bool_decide (lk_provider l = provider) && bool_decide (lk_source_authority l = source_authority)
  && bool_decide (lk_bot_namespace l = namespace) && bool_decide (lk_stable_subject l = subject)
  && bool_decide (organization_id (lk_anchor l) = organization).

(** The unique index [account_external_identity]. *)
Definition identity (l : link) : link_provider * pystr * pystr * pystr * pystr :=
  (lk_provider l, lk_source_authority l, default [] (lk_bot_namespace l), lk_stable_subject l,
   organization_id (lk_anchor l)).

Definition new_account (l : link) (blob : option pybytes) (expires refresh : option Z) : account :=
  Account l (Credential blob expires refresh READY 0 None None None) ACTIVE None None None None.

(** The check and the INSERT that [insert_account] and [complete_wecom_link]
    share; the identity stays with the human it belongs to. *)
Definition add_account (ref : pystr) (a : account) (d : account_db) : R account_db :=
  let l := ac_link a in
  match fetch_one (same_identity (lk_provider l) (lk_source_authority l) (lk_bot_namespace l)
                     (lk_stable_subject l) (organization_id (lk_anchor l))) (accounts d) with
  | Some (_, existing) =>
      let owner := lk_anchor (ac_link existing) in
      if bool_decide ((issuer owner, an_subject owner)
                      = (issuer (lk_anchor l), an_subject (lk_anchor l)))
      then Err duplicate_link else Err external_identity_owned
  | None =>
      _ ← require (bool_decide (fetch_one (λ a, bool_decide (identity (ac_link a) = identity l))
                                  (accounts d) = None)) storage_unavailable;
      m ← insert_new storage_unavailable ref a (accounts d);
      Ok (with_accounts m d)
  end.

(** [insert_account] *)
Definition insert_account (ref : pystr) (l : link) (blob : option pybytes)
    (expires refresh : option Z) (session_ref : option pystr) (result : option (pystr * pybytes))
    (d : account_db) : R pystr * account_db :=
  transact (λ d,
    d ← add_account ref (new_account l blob expires refresh) d;
    d ← (match session_ref with
         | Some s =>
             m ← update_one link_session_invalid (processing_live (lk_linked_at l))
                   (λ s, close_session S_COMPLETED (se_failure s) s) s (link_sessions d);
             Ok (with_sessions m d)
         | None => Ok d
         end);
    d ← command_result result d;
    Ok (ref, d)) d.

(** [complete_wecom_link] *)
Definition complete_wecom_link (session_ref challenge_id : pystr) (anchor : Anchor)
    (digest ref : pystr) (now : Z) (result : option (pystr * pybytes)) (d : account_db)
  : R pystr * account_db :=
  transact (λ d,
    match link_sessions d !! session_ref with
    | None => Err link_session_invalid
    | Some s =>
        _ ← require (bool_decide (se_provider s = WECOM) && pending_live now s
                     && bool_decide (se_anchor s = anchor)) link_session_invalid;
        match wecom_challenges d !! challenge_id with
        | None => Err challenge_rejected
        | Some c =>
            _ ← require (challenge_open (organization_id anchor) digest now c) challenge_rejected;
            let l := Link anchor WECOM (ch_source_authority c) (Some (ch_bot_namespace c))
                       (ch_stable_subject c) (lit "{}") now in
            d ← add_account ref (new_account l None None None) d;
            challenges ← update_one challenge_rejected (λ c, bool_decide (ch_consumed_at c = None))
                           (consume now) challenge_id (wecom_challenges d);
            sessions ← update_one challenge_rejected (pending_live now) (set_status S_COMPLETED)
                         session_ref (link_sessions d);
            d ← command_result result (with_sessions sessions (with_challenges challenges d));
            Ok (ref, d)
        end
    end) d.

Definition owned (anchor : Anchor) (a : account) : bool := bool_decide (lk_anchor (ac_link a) = anchor).

(** [get_account] *)
Definition get_account (ref : pystr) (anchor : Anchor) (d : account_db) : R account :=
  match accounts d !! ref with
  | Some a => _ ← require (owned anchor a) account_not_found; Ok a
  | None => Err account_not_found
  end.

(** [resolve_linked_sender] *)
Definition resolve_linked_sender (source_authority bot_namespace subject organization : pystr)
    (d : account_db) : option (pystr * account) :=
  fetch_one (λ a, same_identity WECOM source_authority (Some bot_namespace) subject organization a
                  && bool_decide (ac_status a = ACTIVE)) (accounts d).

(** ** Credentials *)

Definition set_credential (c : credential) (a : account) : account :=
  Account (ac_link a) c (ac_status a) (ac_revocation a) (ac_revocation_owner a)
    (ac_revocation_command a) (ac_unlinked_at a).

(** [claim_refresh]: the revision the claim works on. *)
Definition claim_refresh (inst ref : pystr) (anchor : Anchor) (claim_id : pystr) (now : Z)
    (d : account_db) : R Z * account_db :=
  transact (λ d,
    match accounts d !! ref with
    | None => Err credential_reauthentication_required
    | Some a =>
        let c := ac_credential a in
        _ ← require (owned anchor a && bool_decide (ac_status a = ACTIVE)
                     && bool_decide (cr_status c = READY)) credential_reauthentication_required;
        let c' := Credential (cr_blob c) (cr_expires_at c) (cr_refresh_expires_at c) REFRESH_PENDING
                    (cr_revision c + 1) (Some claim_id) (Some inst) (Some now) in
        Ok (cr_revision c + 1, with_accounts (<[ref := set_credential c' a]> (accounts d)) d)
    end) d.

Definition claimed_by (inst claim_id : pystr) (a : account) : bool :=
  bool_decide (ac_status a = ACTIVE) && bool_decide (cr_status (ac_credential a) = REFRESH_PENDING)
  && bool_decide (cr_claim_id (ac_credential a) = Some claim_id)
  && bool_decide (cr_claim_owner (ac_credential a) = Some inst).

(** [finish_refresh] *)
Definition finish_refresh (inst ref : pystr) (anchor : Anchor) (claim_id : pystr) (revision : Z)
    (blob : pybytes) (expires refresh : option Z) (d : account_db) : R () * account_db :=
  transact (λ d,
    m ← update_one credential_refresh_claim_lost
          (λ a, owned anchor a && claimed_by inst claim_id a
                && (cr_revision (ac_credential a) =? revision))
          (λ a, set_credential (Credential (Some blob) expires refresh READY
                                  (cr_revision (ac_credential a)) None None None) a)
          ref (accounts d);
    Ok ((), with_accounts m d)) d.

(** The credential is gone; its leases go with it. *)
Definition require_reauthorization (a : account) : account :=
  let c := ac_credential a in
  set_credential (Credential None (cr_expires_at c) (cr_refresh_expires_at c) REAUTHORIZATION_REQUIRED
                    (cr_revision c) None None None) a.

(** [fail_refresh]; a claim that was lost is not an error. *)
Definition fail_refresh (inst ref claim_id : pystr) (d : account_db) : R () * account_db :=
  transact (λ d,
    match update_one invalid_state (claimed_by inst claim_id) require_reauthorization ref (accounts d) with
    | Ok m =>
        Ok ((), with_leases (delete_all (λ l, bool_decide (le_account_ref l = ref))
                               (credential_leases d)) (with_accounts m d))
    | Err _ => Ok ((), d)
    end) d.

(** ** Leases *)

(** [create_lease] *)
Definition create_lease (lease_ref ref : pystr) (anchor : Anchor)
    (binding_id caller operation resource arguments : pystr) (expires_at : Z) (d : account_db)
  : R pystr * account_db :=
  transact (λ d,
    match accounts d !! ref with
    | None => Err account_not_found
    | Some a =>
        _ ← require (owned anchor a && bool_decide (ac_status a = ACTIVE)
                     && bool_decide (cr_status (ac_credential a) = READY)) account_not_found;
        m ← insert_new storage_unavailable lease_ref
              (Lease ref anchor binding_id caller operation resource arguments expires_at None)
              (credential_leases d);
        Ok (lease_ref, with_leases m d)
    end) d.

Definition redeemed (now : Z) (l : lease) : lease :=
  Lease (le_account_ref l) (le_anchor l) (le_binding_id l) (le_caller_id l) (le_operation_id l)
    (le_resource_json l) (le_arguments_sha256 l) (le_expires_at l) (Some now).
Definition lease_fits (anchor : Anchor) (caller binding_id operation resource arguments : pystr)
    (now : Z) (l : lease) : bool :=
  bool_decide (le_redeemed_at l = None) && (now <? le_expires_at l)
  && bool_decide (le_caller_id l = caller) && bool_decide (le_operation_id l = operation)
  && bool_decide (le_binding_id l = binding_id) && bool_decide (le_resource_json l = resource)
  && bool_decide (le_arguments_sha256 l = arguments) && bool_decide (le_anchor l = anchor).

(** [redeem_lease] *)
Definition redeem_lease (lease_ref : pystr) (anchor : Anchor)
    (caller binding_id operation resource arguments : pystr) (now : Z) (d : account_db)
  : R (pystr * account * pybytes) * account_db :=
  transact (λ d,
    match credential_leases d !! lease_ref with
    | None => Err lease_rejected
    | Some l =>
        _ ← require (lease_fits anchor caller binding_id operation resource arguments now l)
              lease_rejected;
        match accounts d !! le_account_ref l with
        | None => Err lease_rejected
        | Some a =>
            _ ← require (owned anchor a && bool_decide (ac_status a = ACTIVE)
                         && match cr_status (ac_credential a) with
                            | READY | REFRESH_PENDING => true
                            | REAUTHORIZATION_REQUIRED => false
                            end) lease_rejected;
            match cr_blob (ac_credential a) with
            | None => Err credential_unavailable
            | Some blob =>
                Ok ((le_account_ref l, a, blob),
                    with_leases (<[lease_ref := redeemed now l]> (credential_leases d)) d)
            end
        end
    end) d.

(** ** Unlinking *)

(** What is left to do at the provider when an account is unlinked. *)
Definition remote_status (force_unknown : bool) (a : account) : option revocation :=
  let github := bool_decide (lk_provider (ac_link a) = GITHUB) in
  let has_blob := match cr_blob (ac_credential a) with Some (_ :: _) => true | _ => false end in
  if github && has_blob && negb force_unknown then Some PENDING
  else if github && (negb (bool_decide (cr_status (ac_credential a) = READY)) || force_unknown)
  then Some UNKNOWN
  else None.

Definition unlinked (inst : pystr) (now : Z) (command : option pystr) (force_unknown : bool)
    (a : account) : account :=
  let c := ac_credential a in
  let st := remote_status force_unknown a in
  let pending := bool_decide (st = Some PENDING) in
  Account (ac_link a)
    (Credential None (cr_expires_at c) (cr_refresh_expires_at c) READY (cr_revision c) None None None)
    UNLINKED st (if pending then Some inst else None) (if pending then command else None) (Some now).

(** [unlink]: the row as it was; every lease of the account goes. *)
Definition unlink (inst ref : pystr) (anchor : Anchor) (now : Z)
    (result : option (pystr * pybytes)) (command : option pystr) (force_unknown : bool)
    (d : account_db) : R account * account_db :=
  transact (λ d,
    match accounts d !! ref with
    | None => Err account_not_found
    | Some a =>
        _ ← require (owned anchor a && bool_decide (ac_status a = ACTIVE)) account_not_found;
        let d := with_accounts (<[ref := unlinked inst now command force_unknown a]> (accounts d)) d in
        let d := with_leases (delete_all (λ l, bool_decide (le_account_ref l = ref))
                                (credential_leases d)) d in
        d ← command_result result d;
        Ok (a, d)
    end) d.

Definition set_revocation (st : option revocation) (owner command : option pystr) (a : account)
  : account :=
  Account (ac_link a) (ac_credential a) (ac_status a) st owner command (ac_unlinked_at a).

(** [set_revocation_status] *)
Definition set_revocation_status (inst ref : pystr) (status : revocation)
    (result : option (pystr * pybytes)) (d : account_db) : R () * account_db :=
  if negb (bool_decide (status ∈ [REVOKED; FAILED; UNKNOWN])) then (Err invalid_state, d) else
  transact (λ d,
    m ← update_one invalid_state
          (λ a, bool_decide (ac_status a = UNLINKED) && bool_decide (ac_revocation a = Some PENDING)
                && bool_decide (ac_revocation_owner a = Some inst))
          (set_revocation (Some status) None None) ref (accounts d);
    d ← command_result result (with_accounts m d);
    Ok ((), d)) d.

(** [interrupted_unlink_commands] *)
Definition interrupted_unlink_commands (d : account_db) : list (pystr * pystr) :=
  omap (λ kv, if bool_decide (ac_status kv.2 = UNLINKED)
                 && bool_decide (ac_revocation kv.2 = Some UNKNOWN)
              then h ← ac_revocation_command kv.2; Some (kv.1, h) else None)
    (map_to_list (accounts d)).

(** [finalize_interrupted_unlink] *)
Definition finalize_interrupted_unlink (ref key_hash : pystr) (response : pybytes) (d : account_db)
  : R () * account_db :=
  transact (λ d,
    match accounts d !! ref with
    | None => Err invalid_state
    | Some a =>
        _ ← require (bool_decide (ac_revocation a = Some UNKNOWN)
                     && bool_decide (ac_revocation_command a = Some key_hash)) invalid_state;
        d ← (match command_idempotency d !! key_hash with
             | Some c => if co_completed c then Ok d else complete_command key_hash response d
             | None => Ok d
             end);
        Ok ((), with_accounts
          (<[ref := set_revocation (ac_revocation a) (ac_revocation_owner a) None a]> (accounts d)) d)
    end) d.

(** ** Listing *)

Inductive listed := L_REAUTHORIZATION_REQUIRED | L_REVOCATION (st : revocation) | L_STATUS (st : account_status).

(** The CASE of [list_accounts]. *)
Definition listed_status (a : account) : listed :=
  if negb (bool_decide (cr_status (ac_credential a) = READY))
     || (bool_decide (lk_provider (ac_link a) = WECOM)
         && bool_decide (lk_bot_namespace (ac_link a) = None))
  then L_REAUTHORIZATION_REQUIRED
  else match ac_revocation a with
       | Some ((PENDING | FAILED | UNKNOWN) as st) => L_REVOCATION st
       | _ => L_STATUS (ac_status a)
       end.

(** [list_accounts], before its ORDER BY. *)
Definition list_accounts (anchor : Anchor) (d : account_db) : list (pystr * listed) :=
  map (λ kv, (kv.1, listed_status kv.2))
    (List.filter (λ kv, owned anchor kv.2) (map_to_list (accounts d))).

(** ** Restart and pruning *)

(** [_recover_interrupted_operations], on these tables: a process [inst] starts. *)
Definition recover (inst : pystr) (d : account_db) : account_db :=
  let accs := update_all (λ a, bool_decide (cr_status (ac_credential a) = REFRESH_PENDING))
                require_reauthorization (accounts d) in
  let leases := delete_all (λ l,
    match accs !! le_account_ref l with
    | Some a => bool_decide (cr_status (ac_credential a) = REAUTHORIZATION_REQUIRED)
    | None => false
    end) (credential_leases d) in
  let accs := update_all (λ a, bool_decide (ac_status a = UNLINKED)
                               && bool_decide (ac_revocation a = Some PENDING)
                               && negb (bool_decide (ac_revocation_owner a = Some inst)))
                (λ a, set_revocation (Some UNKNOWN) None (ac_revocation_command a) a) accs in
  let sessions := update_all
    (λ s, github_processing s && bool_decide (se_pending_credential s = None))
    (λ s, set_session S_FAILED None (se_pending_credential s) (Some UNKNOWN) s) (link_sessions d) in
  with_accounts accs (with_leases leases (with_sessions sessions d)).

(** [prune_expired], on these tables. *)
Definition prune_expired (now : Z) (d : account_db) : account_db :=
  AccountDb (accounts d)
    (delete_all (λ s, (se_expires_at s <? now - 86400) || negb (bool_decide (se_status s = S_PENDING)))
       (link_sessions d))
    (delete_all (λ c, (ch_expires_at c <? now) || negb (bool_decide (ch_consumed_at c = None)))
       (wecom_challenges d))
    (delete_all (λ l, (le_expires_at l <? now) || negb (bool_decide (le_redeemed_at l = None)))
       (credential_leases d))
    (delete_all (λ c, co_expires_at c <? now) (command_idempotency d))
    (delete_all (λ e, e <? now) (consumed_requests d)).

(** ** The machine *)

Inductive account_op :=
  | ABegin (key_hash method payload_sha256 : pystr) (now : Z)
  | AComplete (key_hash : pystr) (response : pybytes)
  | AConsume (request_id : pystr) (expires_at : Z)
  | ACreateSession (ref : pystr) (anchor : Anchor) (provider : link_provider)
      (state_digest nonce_digest : pystr) (callback_uri : option pystr) (verifier : option pybytes)
      (expires_at now : Z) (result : option (pystr * pybytes))
  | AClaimSession (ref : pystr) (now : Z)
  | AClaimByState (state_digest callback_uri : pystr) (now : Z)
  | ASavePending (ref : pystr) (blob : pybytes)
  | ACompleteSession (ref : pystr) (now : Z)
  | AFailSession (ref : pystr) (status : revocation)
  | AAddChallenge (id bot_namespace source_authority stable_subject organization digest : pystr)
      (expires_at : Z)
  | AConsumeChallenge (id organization digest : pystr) (now : Z)
  | ACompleteWecom (session_ref challenge_id : pystr) (anchor : Anchor) (digest ref : pystr) (now : Z)
      (result : option (pystr * pybytes))
  | AInsert (ref : pystr) (l : link) (blob : option pybytes) (expires refresh : option Z)
      (session_ref : option pystr) (result : option (pystr * pybytes))
  | AClaimRefresh (inst ref : pystr) (anchor : Anchor) (claim_id : pystr) (now : Z)
  | AFinishRefresh (inst ref : pystr) (anchor : Anchor) (claim_id : pystr) (revision : Z)
      (blob : pybytes) (expires refresh : option Z)
  | AFailRefresh (inst ref claim_id : pystr)
  | ACreateLease (lease_ref ref : pystr) (anchor : Anchor)
      (binding_id caller operation resource arguments : pystr) (expires_at : Z)
  | ARedeem (lease_ref : pystr) (anchor : Anchor)
      (caller binding_id operation resource arguments : pystr) (now : Z)
  | AUnlink (inst ref : pystr) (anchor : Anchor) (now : Z) (result : option (pystr * pybytes))
      (command : option pystr) (force_unknown : bool)
  | ASetRevocation (inst ref : pystr) (status : revocation) (result : option (pystr * pybytes))
  | AFinalize (ref key_hash : pystr) (response : pybytes)
  | ARecover (inst : pystr)
  | APrune (now : Z).

Inductive account_out :=
  | AoUnit (r : R ())
  | AoBegin (r : R (option pybytes))
  | AoRef (r : R pystr)
  | AoSession (r : R (pystr * session))
  | AoChallenge (r : R challenge)
  | AoRevision (r : R Z)
  | AoRedeem (r : R (pystr * account * pybytes))
  | AoUnlink (r : R account)
  | AoDone.

Definition on_fst {A B C} (f : A → C) (p : A * B) : C * B := (f p.1, p.2).

Definition account_step (op : account_op) (d : account_db) : account_out * account_db :=
  match op with
  | ABegin k m p now => on_fst AoBegin (begin_idempotent_command k m p now d)
  | AComplete k b => on_fst AoUnit (complete_idempotent_command k b d)
  | AConsume id e => on_fst AoUnit (consume_request_id id e d)
  | ACreateSession ref an p sd nd cb v e now r =>
      on_fst AoRef (create_session ref an p sd nd cb v e now r d)
  | AClaimSession ref now => on_fst AoUnit (claim_session ref now d)
  | AClaimByState sd cb now => on_fst AoSession (claim_session_by_state sd cb now d)
  | ASavePending ref b => on_fst AoUnit (save_pending_callback_credential ref b d)
  | ACompleteSession ref now => on_fst AoUnit (complete_session ref now d)
  | AFailSession ref st => on_fst AoUnit (fail_session ref st d)
  | AAddChallenge id bn sa ss o dg e => on_fst AoUnit (add_wecom_challenge id bn sa ss o dg e d)
  | AConsumeChallenge id o dg now => on_fst AoChallenge (consume_wecom_challenge id o dg now d)
  | ACompleteWecom s c an dg ref now r => on_fst AoRef (complete_wecom_link s c an dg ref now r d)
  | AInsert ref l b e rf s r => on_fst AoRef (insert_account ref l b e rf s r d)
  | AClaimRefresh i ref an c now => on_fst AoRevision (claim_refresh i ref an c now d)
  | AFinishRefresh i ref an c rv b e rf => on_fst AoUnit (finish_refresh i ref an c rv b e rf d)
  | AFailRefresh i ref c => on_fst AoUnit (fail_refresh i ref c d)
  | ACreateLease l ref an b c o r ar e => on_fst AoRef (create_lease l ref an b c o r ar e d)
  | ARedeem l an c b o r ar now => on_fst AoRedeem (redeem_lease l an c b o r ar now d)
  | AUnlink i ref an now r c f => on_fst AoUnlink (unlink i ref an now r c f d)
  | ASetRevocation i ref st r => on_fst AoUnit (set_revocation_status i ref st r d)
  | AFinalize ref k b => on_fst AoUnit (finalize_interrupted_unlink ref k b d)
  | ARecover i => (AoDone, recover i d)
  | APrune now => (AoDone, prune_expired now d)
  end.
