(* ===== verification/AccountFacts.v ===== *)
(** * Account center: what each operation does to a row

    For every table, how one operation may change the row under a key.  The
    properties of the store follow from these moves. *)

From Stdlib Require Import ZArith NArith.
From S2P Require Import Prelude PyText AccountStore.

#[local] Open Scope Z_scope.

(** ** Tables *)

Lemma update_one_ok {V} (e : account_error) (p : V → bool) (f : V → V) (k : pystr) (m m' : gmap pystr V) :
  update_one e p f k m = Ok m' → ∃ v, m !! k = Some v ∧ p v = true ∧ m' = <[k := f v]> m.
Proof. unfold update_one. repeat case_match; naive_solver. Qed.

Lemma insert_new_ok {V} (e : account_error) (k : pystr) (v : V) (m m' : gmap pystr V) :
  insert_new e k v m = Ok m' → m !! k = None ∧ m' = <[k := v]> m.
Proof. unfold insert_new. intros H. inv_result. by bools. Qed.

Lemma lookup_update_all {V} (p : V → bool) (f : V → V) (m : gmap pystr V) (k : pystr) :
  update_all p f m !! k = (λ v, if p v then f v else v) <$> m !! k.
Proof. unfold update_all. by rewrite lookup_fmap. Qed.

Lemma lookup_delete_all {V} (p : V → bool) (m : gmap pystr V) (k : pystr) (v : V) :
  delete_all p m !! k = Some v ↔ m !! k = Some v ∧ p v = false.
Proof. unfold delete_all. by rewrite map_lookup_filter_Some. Qed.

Lemma deleted_all {V} (p : V → bool) (m : gmap pystr V) (k : pystr) (v : V) :
  delete_all p m !! k = None → m !! k = Some v → p v = true.
Proof.
  intros Hn Hk. destruct (p v) eqn:Hp; [done|].
  assert (Hs : delete_all p m !! k = Some v) by by apply lookup_delete_all. congruence.
Qed.

Lemma fetch_one_some {V} (p : V → bool) (m : gmap pystr V) (k : pystr) (v : V) :
  fetch_one p m = Some (k, v) → m !! k = Some v ∧ p v = true.
Proof.
  unfold fetch_one. intros H. apply head_Some_elem_of in H.
  apply list_elem_of_In, filter_In in H as [H Hp]. split; [|done].
  by apply elem_of_map_to_list, list_elem_of_In.
Qed.

Lemma fetch_one_none {V} (p : V → bool) (m : gmap pystr V) :
  fetch_one p m = None ↔ ∀ k v, m !! k = Some v → p v = false.
Proof.
  unfold fetch_one. split.
  - intros H k v Hk. destruct (p v) eqn:Hp; [|done]. exfalso.
    assert (Hin : (k, v) ∈ List.filter (λ kv, p kv.2) (map_to_list m)).
    { apply list_elem_of_In, filter_In. split; [|done].
      by apply list_elem_of_In, elem_of_map_to_list. }
    destruct (List.filter _ _); [by apply elem_of_nil in Hin|done].
  - intros H. destruct (List.filter _ _) as [|[k v] l] eqn:E; [done|].
    assert (Hin : In (k, v) (List.filter (λ kv, p kv.2) (map_to_list m))) by (rewrite E; by left).
    apply filter_In in Hin as [Hin Hp]. apply list_elem_of_In, elem_of_map_to_list, H in Hin.
    cbn in Hp. congruence.
Qed.

(** A move of every row of a table. *)
Definition moves {V : Type} (P : pystr → option V → option V → Prop) (m m' : gmap pystr V) : Prop :=
  ∀ k, P k (m !! k) (m' !! k).

Lemma moves_refl {V} (P : pystr → option V → option V → Prop) m :
  (∀ k o, P k o o) → moves P m m.
Proof. by intros HP k. Qed.

Lemma moves_insert {V} (P : pystr → option V → option V → Prop) m k o v :
  (∀ k o, P k o o) → m !! k = o → P k o (Some v) → moves P m (<[k := v]> m).
Proof.
  intros Hr <- Hk k'. destruct (decide (k = k')) as [<-|Hn].
  - by rewrite lookup_insert_eq.
  - by rewrite lookup_insert_ne by done.
Qed.

Lemma moves_update_all {V} (P : pystr → option V → option V → Prop) p f m :
  (∀ k o, P k o o) → (∀ k v, p v = true → P k (Some v) (Some (f v))) → moves P m (update_all p f m).
Proof.
  intros Hr Hf k. rewrite lookup_update_all. destruct (m !! k) as [v|]; cbn; [|done].
  destruct (p v) eqn:Hp; auto.
Qed.

Lemma moves_delete_all {V} (P : pystr → option V → option V → Prop) p m :
  (∀ k o, P k o o) → (∀ k v, p v = true → P k (Some v) None) → moves P m (delete_all p m).
Proof.
  intros Hr Hd k. destruct (delete_all p m !! k) as [v|] eqn:E.
  - apply lookup_delete_all in E as [-> _]. apply Hr.
  - destruct (m !! k) as [v|] eqn:Ek; [|done]. apply Hd. by eapply deleted_all.
Qed.

(** ** Transactions *)

Lemma transact_cases {S A} (body : txn S account_error A) d o d' :
  transact body d = (o, d') →
  (∃ a, o = Ok a ∧ body d = Ok (a, d')) ∨ (∃ e, o = Err e ∧ d' = d ∧ body d = Err e).
Proof. unfold transact. destruct (body d) as [[a d1]|e]; naive_solver. Qed.

Lemma complete_command_ok k b d d' :
  complete_command k b d = Ok d' →
  ∃ c, command_idempotency d !! k = Some c ∧ co_completed c = false ∧
    d' = with_commands (<[k := finish_command b c]> (command_idempotency d)) d.
Proof.
  unfold complete_command. intros H. inv_result. apply update_one_ok in Hv as (c & Hc & Hn & ->).
  exists c. by apply negb_true_iff in Hn.
Qed.

(** A command's result is recorded with the operation, or there is none. *)
Lemma command_result_ok o d d' :
  command_result o d = Ok d' →
  ∃ m, d' = with_commands m d
  ∧ (m = command_idempotency d ∨ ∃ k b c, o = Some (k, b) ∧ command_idempotency d !! k = Some c
       ∧ co_completed c = false ∧ m = <[k := finish_command b c]> (command_idempotency d)).
Proof.
  destruct o as [[k b]|]; cbn; intros H.
  - apply complete_command_ok in H as (c & Hc & Hn & ->). eexists. split; [done|right].
    by exists k, b, c.
  - injection H as <-. exists (command_idempotency d). split; [by destruct d|by left].
Qed.

Lemma add_account_ok ref a d d' :
  add_account ref a d = Ok d' →
  accounts d !! ref = None ∧ d' = with_accounts (<[ref := a]> (accounts d)) d
  ∧ ∀ k b, accounts d !! k = Some b → identity (ac_link b) ≠ identity (ac_link a).
Proof.
  unfold add_account. destruct (fetch_one _ _) as [[]|]; [case_match; discriminate|].
  intros H. inv_result. bools. apply insert_new_ok in Hv0 as [Hn ->]. split_and!; [done..|].
  intros k b Hb He. eapply fetch_one_none in Hv; [|exact Hb]. by bools.
Qed.

(** The function of an application. *)
Ltac head_of f := match f with ?g _ => head_of g | _ => f end.

(** Goes through a transaction that committed. *)
Ltac committed :=
  repeat (inv_result; bools; simplify_eq/=; match goal with
  | H : update_one _ _ _ _ _ = Ok _ |- _ =>
      apply update_one_ok in H as (? & ? & ? & ?)
  | H : insert_new _ _ _ _ = Ok _ |- _ => apply insert_new_ok in H as (? & ?)
  | H : command_result _ _ = Ok _ |- _ =>
      apply command_result_ok in H as (? & ? & ?)
  | H : complete_command _ _ _ = Ok _ |- _ => apply complete_command_ok in H as (? & ? & ? & ?)
  | H : add_account _ _ _ = Ok _ |- _ => apply add_account_ok in H as (? & ? & ?)
  | H : match ?o with _ => _ end = Ok _ |- _ => destruct o eqn:?
  end); inv_result; bools; simplify_eq/=.

(** The cases of a step: one per operation that committed, and those that
    change nothing. *)
Ltac step_cases H :=
  lazymatch type of H with account_step ?op _ = _ => destruct op end;
  cbn [account_step] in H; unfold on_fst in H;
  lazymatch type of H with
  | (_ (fst ?x), _) = _ =>
      let E := fresh "Hop" in destruct x as [? ?] eqn:E; cbn [fst snd] in H; injection H as <- <-;
      lazymatch type of E with ?f = _ => let f := head_of f in unfold f in E end;
      try (lazymatch type of E with (if ?b then _ else _) = _ => destruct b eqn:? end;
           [injection E as <- <-|]);
      try (apply transact_cases in E as [(? & -> & E)|(? & -> & -> & _)];
           [unfold begin_command_txn in E; cbv beta zeta in E; committed|])
  | _ => injection H as <- <-
  end.

Ltac other_table := try (apply moves_refl; constructor).

(** ** Leases *)

Inductive lease_move (d : account_db) (op : account_op) (out : account_out) (k : pystr)
    : option lease → option lease → Prop :=
  | lease_same o : lease_move d op out k o o
  | lease_created ref an b c o r ar e a :
      op = ACreateLease k ref an b c o r ar e → out = AoRef (Ok k) →
      accounts d !! ref = Some a → owned an a = true → ac_status a = ACTIVE →
      lease_move d op out k None (Some (Lease ref an b c o r ar e None))
  | lease_redeemed l an c b o r ar now a blob :
      op = ARedeem k an c b o r ar now → out = AoRedeem (Ok (le_account_ref l, a, blob)) →
      lease_fits an c b o r ar now l = true →
      accounts d !! le_account_ref l = Some a → owned an a = true → ac_status a = ACTIVE →
      lease_move d op out k (Some l) (Some (redeemed now l))
  | lease_gone l : lease_move d op out k (Some l) None.

Lemma lease_moves op d out d' :
  account_step op d = (out, d') →
  moves (lease_move d op out) (credential_leases d) (credential_leases d').
Proof.
  intros H. step_cases H; cbn; other_table.
  all: try (apply moves_delete_all; intros; constructor).
  - eapply moves_insert; [constructor|eassumption|by eapply lease_created].
  - eapply moves_insert; [constructor|eassumption|by eapply lease_redeemed].
Qed.

(** ** Sessions *)

(** A use of the session: the claim of a callback, or the WeCom link. *)
Definition uses_session (op : account_op) (out : account_out) : option pystr :=
  match op, out with
  | AClaimSession k _, AoUnit (Ok _) => Some k
  | AClaimByState _ _ _, AoSession (Ok (k, _)) => Some k
  | ACompleteWecom k _ _ _ _ _ _, AoRef (Ok _) => Some k
  | _, _ => None
  end.

Inductive session_move (op : account_op) (out : account_out) (k : pystr)
    : option session → option session → Prop :=
  | session_same o : session_move op out k o o
  | session_created an p sd nd cb v e now r :
      op = ACreateSession k an p sd nd cb v e now r → out = AoRef (Ok k) →
      session_move op out k None (Some (Session an p sd nd cb v None e S_PENDING None now))
  | session_used s st :
      uses_session op out = Some k → se_status s = S_PENDING → st ≠ S_PENDING →
      session_move op out k (Some s) (Some (set_status st s))
  | session_advanced s s' :
      se_status s = S_PROCESSING → se_status s' ≠ S_PENDING → se_anchor s' = se_anchor s →
      session_move op out k (Some s) (Some s')
  | session_gone s : session_move op out k (Some s) None.

Lemma session_moves op d out d' :
  account_step op d = (out, d') →
  moves (session_move op out) (link_sessions d) (link_sessions d').
Proof.
  intros H. step_cases H; cbn; other_table.
  all: unfold pending_live, processing_live, github_processing in *; bools.
  all: try by (eapply moves_insert; [constructor|eassumption|by econstructor]).
  all: try by (eapply moves_insert; [constructor|eassumption|by apply session_advanced]).
  - eapply moves_insert; [constructor|eassumption|apply session_advanced; cbn; congruence].
  - apply moves_update_all; [constructor|]. intros k s Hs. bools. by apply session_advanced.
  - apply moves_delete_all; constructor.
Qed.

(** ** Challenges *)

Definition uses_challenge (op : account_op) (out : account_out) : option pystr :=
  match op, out with
  | AConsumeChallenge k _ _ _, AoChallenge (Ok _) => Some k
  | ACompleteWecom _ k _ _ _ _ _, AoRef (Ok _) => Some k
  | _, _ => None
  end.

Inductive challenge_move (op : account_op) (out : account_out) (k : pystr)
    : option challenge → option challenge → Prop :=
  | challenge_same o : challenge_move op out k o o
  | challenge_added bn sa ss o dg e :
      op = AAddChallenge k bn sa ss o dg e → out = AoUnit (Ok ()) →
      challenge_move op out k None (Some (Challenge bn sa ss o dg e None))
  | challenge_used c now :
      uses_challenge op out = Some k → ch_consumed_at c = None →
      challenge_move op out k (Some c) (Some (consume now c))
  | challenge_gone c : challenge_move op out k (Some c) None.

Lemma challenge_moves op d out d' :
  account_step op d = (out, d') →
  moves (challenge_move op out) (wecom_challenges d) (wecom_challenges d').
Proof.
  intros H. step_cases H; cbn; other_table; unfold challenge_open in *; bools.
  all: try by (eapply moves_insert; [constructor|eassumption|by apply challenge_used]).
  - eapply moves_insert; [constructor|eassumption|by eapply challenge_added].
  - apply moves_delete_all; constructor.
Qed.

(** ** Commands and requests *)

Inductive command_move (op : account_op) (out : account_out) (k : pystr)
    : option command → option command → Prop :=
  | command_same o : command_move op out k o o
  | command_begun o m p now :
      op = ABegin k m p now → out = AoBegin (Ok None) → (∀ c, o = Some c → co_expires_at c <= now) →
      command_move op out k o
        (Some (Command m p false None now (now + IDEMPOTENCY_RETENTION_SECONDS)))
  | command_completed c b :
      co_completed c = false → command_move op out k (Some c) (Some (finish_command b c))
  | command_gone c now :
      op = APrune now → co_expires_at c < now → command_move op out k (Some c) None.

(** The table with an operation's result recorded. *)
Lemma recorded_moves op out (r : option (pystr * pybytes)) m m' :
  m' = m ∨ (∃ k b c, r = Some (k, b) ∧ m !! k = Some c ∧ co_completed c = false
             ∧ m' = <[k := finish_command b c]> m) →
  moves (command_move op out) m m'.
Proof.
  intros [->|(k & b & c & _ & Hk & Hc & ->)]; [by apply moves_refl; constructor|].
  eapply moves_insert; [constructor|exact Hk|by constructor].
Qed.

Lemma command_moves op d out d' :
  account_step op d = (out, d') →
  moves (command_move op out) (command_idempotency d) (command_idempotency d').
Proof.
  intros H. step_cases H; cbn; other_table.
  all: try by eapply recorded_moves.
  all: try by (eapply moves_insert; [constructor|eassumption|by constructor]).
  - eapply moves_insert; [constructor|reflexivity|]. eapply command_begun; [done..|].
    intros c Hc. rewrite Hc in Heqo. case_match; [lia|done].
  - apply moves_delete_all; [constructor|]. intros k c Hc. eapply command_gone; [done|lia].
Qed.

Inductive request_move (op : account_op) (out : account_out) (k : pystr) : option Z → option Z → Prop :=
  | request_same o : request_move op out k o o
  | request_consumed e :
      op = AConsume k e → out = AoUnit (Ok ()) → request_move op out k None (Some e)
  | request_gone e now : op = APrune now → e < now → request_move op out k (Some e) None.

Lemma request_moves op d out d' :
  account_step op d = (out, d') →
  moves (request_move op out) (consumed_requests d) (consumed_requests d').
Proof.
  intros H. step_cases H; cbn; other_table.
  - eapply moves_insert; [constructor|eassumption|by constructor].
  - apply moves_delete_all; [constructor|]. intros k c Hc. eapply request_gone; [done|lia].
Qed.

(** ** Accounts *)

Definition claimed (inst claim_id : pystr) (now : Z) (a : account) : account :=
  let c := ac_credential a in
  set_credential (Credential (cr_blob c) (cr_expires_at c) (cr_refresh_expires_at c) REFRESH_PENDING
                    (cr_revision c + 1) (Some claim_id) (Some inst) (Some now)) a.
Definition refreshed (blob : pybytes) (expires refresh : option Z) (a : account) : account :=
  set_credential (Credential (Some blob) expires refresh READY (cr_revision (ac_credential a))
                    None None None) a.

Inductive account_move (d : account_db) (op : account_op) (out : account_out) (k : pystr)
    : option account → option account → Prop :=
  | account_same o : account_move d op out k o o
  | account_added l b e r :
      out = AoRef (Ok k) →
      (∀ k' a, accounts d !! k' = Some a → identity (ac_link a) ≠ identity l) →
      account_move d op out k None (Some (new_account l b e r))
  | account_claimed a i an c now :
      op = AClaimRefresh i k an c now → out = AoRevision (Ok (cr_revision (ac_credential a) + 1)) →
      owned an a = true → ac_status a = ACTIVE → cr_status (ac_credential a) = READY →
      account_move d op out k (Some a) (Some (claimed i c now a))
  | account_refreshed a i an c b e r :
      op = AFinishRefresh i k an c (cr_revision (ac_credential a)) b e r → out = AoUnit (Ok ()) →
      owned an a = true → claimed_by i c a = true →
      account_move d op out k (Some a) (Some (refreshed b e r a))
  | account_expired a :
      cr_status (ac_credential a) = REFRESH_PENDING →
      account_move d op out k (Some a) (Some (require_reauthorization a))
  | account_unlinked a i an now r c f :
      op = AUnlink i k an now r c f → out = AoUnlink (Ok a) → owned an a = true → ac_status a = ACTIVE →
      account_move d op out k (Some a) (Some (unlinked i now c f a))
  | account_revocation a st o c :
      ac_status a ≠ ACTIVE ∨ st = ac_revocation a →
      account_move d op out k (Some a) (Some (set_revocation st o c a))
  | account_both a st o c :
      ac_status a ≠ ACTIVE → cr_status (ac_credential a) = REFRESH_PENDING →
      account_move d op out k (Some a) (Some (set_revocation st o c (require_reauthorization a))).

Lemma account_recovered d op out i k :
  account_move d op out k (accounts d !! k) (accounts (recover i d) !! k).
Proof.
  cbn. rewrite !lookup_update_all. destruct (accounts d !! k) as [a|]; cbn; [|constructor].
  destruct (bool_decide (cr_status (ac_credential a) = REFRESH_PENDING)) eqn:Hp; bools.
  - cbn [ac_status ac_revocation ac_revocation_owner require_reauthorization set_credential].
    destruct (_ && _) eqn:Hu; bools; [by apply account_both; congruence|by apply account_expired].
  - destruct (_ && _) eqn:Hu; bools; [|constructor]. apply account_revocation. left. congruence.
Qed.

Lemma account_moves op d out d' :
  account_step op d = (out, d') →
  moves (account_move d op out) (accounts d) (accounts d').
Proof.
  intros H. step_cases H; cbn; other_table.
  all: try by (eapply moves_insert; [constructor|eassumption|by eapply account_added]).
  all: try by (eapply moves_insert; [constructor|eassumption|apply account_revocation; auto; left; congruence]).
  - eapply moves_insert; [constructor|eassumption|by eapply account_claimed].
  - eapply moves_insert; [constructor|eassumption|].
    match goal with H : (_ =? _) = true |- _ => apply Z.eqb_eq in H as <- end. by eapply account_refreshed.
  - eapply moves_insert; [constructor|eassumption|apply account_expired].
    unfold claimed_by in *. by bools.
  - eapply moves_insert; [constructor|eassumption|by eapply account_unlinked].
  - intros k. apply account_recovered.
Qed.
