(* ===== verification/AccountLaws.v ===== *)
(** * Account center: properties

    What the store promises over every interleaving of its operations: rights
    that are used at most once, commands that run once, unlinking that is
    final, identities that never change hands, one refresh at a time, and
    credentials that only an authorised call gets. *)

From Stdlib Require Import ZArith NArith.
From S2P Require Import Prelude PyText ReplayGuard AccountStore AccountFacts.

#[local] Open Scope Z_scope.

Definition empty_accounts : account_db := AccountDb ∅ ∅ ∅ ∅ ∅ ∅.

(** Where an operation leads and what it answers. *)
Abbreviation after op d := (snd (account_step op d)).
Abbreviation answer op d := (fst (account_step op d)).

Lemma step_eq op d : account_step op d = (answer op d, after op d).
Proof. apply surjective_pairing. Qed.

(** ** What the operations that grant a right require *)

Definition redeemed_ref (op : account_op) (out : account_out) : option pystr :=
  match op, out with ARedeem k _ _ _ _ _ _ _, AoRedeem (Ok _) => Some k | _, _ => None end.
Definition begun_command (op : account_op) (out : account_out) : option pystr :=
  match op, out with ABegin k _ _ _, AoBegin (Ok None) => Some k | _, _ => None end.
Definition consumed_request (op : account_op) (out : account_out) : option pystr :=
  match op, out with AConsume k _, AoUnit (Ok _) => Some k | _, _ => None end.
Definition claimed_refresh (op : account_op) (out : account_out) : option pystr :=
  match op, out with AClaimRefresh _ k _ _ _, AoRevision (Ok _) => Some k | _, _ => None end.

Lemma redeem_ok op d k :
  redeemed_ref op (answer op d) = Some k →
  ∃ l an c b o r ar now a blob,
    op = ARedeem k an c b o r ar now ∧ answer op d = AoRedeem (Ok (le_account_ref l, a, blob))
    ∧ credential_leases d !! k = Some l ∧ lease_fits an c b o r ar now l = true
    ∧ accounts d !! le_account_ref l = Some a ∧ owned an a = true ∧ ac_status a = ACTIVE
    ∧ cr_blob (ac_credential a) = Some blob
    ∧ credential_leases (after op d) !! k = Some (redeemed now l).
Proof.
  pose proof (step_eq op d) as H. revert H. generalize (answer op d), (after op d). intros out d' H.
  step_cases H; cbn; try discriminate; simplify_eq.
  do 10 eexists. split_and!; try done. apply lookup_insert_eq.
Qed.

Lemma use_session_ok op d k :
  uses_session op (answer op d) = Some k →
  ∃ s st, link_sessions d !! k = Some s ∧ se_status s = S_PENDING ∧ st ≠ S_PENDING
    ∧ link_sessions (after op d) !! k = Some (set_status st s).
Proof.
  pose proof (step_eq op d) as H. revert H. generalize (answer op d), (after op d). intros out d' H.
  step_cases H; cbn; try discriminate; simplify_eq; unfold pending_live in *; bools.
  all: eexists _, _; rewrite lookup_insert_eq; split_and!; [eassumption|done| |reflexivity]; done.
Qed.

Lemma use_challenge_ok op d k :
  uses_challenge op (answer op d) = Some k →
  ∃ c now, wecom_challenges d !! k = Some c ∧ ch_consumed_at c = None
    ∧ wecom_challenges (after op d) !! k = Some (consume now c).
Proof.
  pose proof (step_eq op d) as H. revert H. generalize (answer op d), (after op d). intros out d' H.
  step_cases H; cbn; try discriminate; simplify_eq; unfold challenge_open in *; bools.
  all: eexists _, _; rewrite lookup_insert_eq; split_and!; [eassumption|done|reflexivity].
Qed.

Lemma begin_ok op d k :
  begun_command op (answer op d) = Some k →
  ∃ m p now, op = ABegin k m p now
    ∧ (∀ c, command_idempotency d !! k = Some c → co_expires_at c <= now)
    ∧ is_Some (command_idempotency (after op d) !! k).
Proof.
  pose proof (step_eq op d) as H. revert H. generalize (answer op d), (after op d). intros out d' H.
  step_cases H; cbn; try discriminate; simplify_eq.
  do 3 eexists. split_and!; [done| |rewrite lookup_insert_eq; done].
  intros c Hc. rewrite Hc in Heqo. case_match; [lia|done].
Qed.

Lemma consume_ok op d k :
  consumed_request op (answer op d) = Some k →
  consumed_requests d !! k = None ∧ is_Some (consumed_requests (after op d) !! k).
Proof.
  pose proof (step_eq op d) as H. revert H. generalize (answer op d), (after op d). intros out d' H.
  step_cases H; cbn; try discriminate; simplify_eq. by rewrite lookup_insert_eq.
Qed.

Lemma claim_refresh_ok op d k :
  claimed_refresh op (answer op d) = Some k →
  ∃ i an c now a, op = AClaimRefresh i k an c now
    ∧ answer op d = AoRevision (Ok (cr_revision (ac_credential a) + 1))
    ∧ accounts d !! k = Some a ∧ ac_status a = ACTIVE ∧ cr_status (ac_credential a) = READY
    ∧ accounts (after op d) !! k = Some (claimed i c now a).
Proof.
  pose proof (step_eq op d) as H. revert H. generalize (answer op d), (after op d). intros out d' H.
  step_cases H; cbn; try discriminate; simplify_eq.
  do 5 eexists. rewrite lookup_insert_eq. by split_and!.
Qed.

(** How a row moves in a step. *)
Lemma lease_moved op d k :
  lease_move d op (answer op d) k (credential_leases d !! k) (credential_leases (after op d) !! k).
Proof. apply lease_moves, step_eq. Qed.
Lemma session_moved op d k :
  session_move op (answer op d) k (link_sessions d !! k) (link_sessions (after op d) !! k).
Proof. apply session_moves, step_eq. Qed.
Lemma challenge_moved op d k :
  challenge_move op (answer op d) k (wecom_challenges d !! k) (wecom_challenges (after op d) !! k).
Proof. apply challenge_moves, step_eq. Qed.
Lemma command_moved op d k :
  command_move op (answer op d) k (command_idempotency d !! k) (command_idempotency (after op d) !! k).
Proof. apply command_moves, step_eq. Qed.
Lemma request_moved op d k :
  request_move op (answer op d) k (consumed_requests d !! k) (consumed_requests (after op d) !! k).
Proof. apply request_moves, step_eq. Qed.
Lemma account_moved op d k :
  account_move d op (answer op d) k (accounts d !! k) (accounts (after op d) !! k).
Proof. apply account_moves, step_eq. Qed.

(** ** Rights that are used at most once

    A key of each family: a lease, a session, a challenge, a request, a
    command, and the refresh of an account. *)
Record lease_key := LeaseKey { lease_key_of : pystr }.
Record session_key := SessionKey { session_key_of : pystr }.
Record challenge_key := ChallengeKey { challenge_key_of : pystr }.
Record request_key := RequestKey { request_key_of : pystr }.
Record command_key := CommandKey { command_key_of : pystr }.
Record refresh_key := RefreshKey { refresh_key_of : pystr }.
#[export] Instance lease_key_eq_dec : EqDecision lease_key. Proof. solve_decision. Defined.
#[export] Instance session_key_eq_dec : EqDecision session_key. Proof. solve_decision. Defined.
#[export] Instance challenge_key_eq_dec : EqDecision challenge_key. Proof. solve_decision. Defined.
#[export] Instance request_key_eq_dec : EqDecision request_key. Proof. solve_decision. Defined.
#[export] Instance command_key_eq_dec : EqDecision command_key. Proof. solve_decision. Defined.
#[export] Instance refresh_key_eq_dec : EqDecision refresh_key. Proof. solve_decision. Defined.

(** The creations of a right, the expiry of a command or a request, and the
    end of a refresh. *)
Definition creates_lease (op : account_op) (d : account_db) (k : pystr) : bool :=
  match op, answer op d with ACreateLease _ _ _ _ _ _ _ _ _, AoRef (Ok r) => bool_decide (r = k) | _, _ => false end.
Definition creates_session (op : account_op) (d : account_db) (k : pystr) : bool :=
  match op, answer op d with
  | ACreateSession _ _ _ _ _ _ _ _ _ _, AoRef (Ok r) => bool_decide (r = k)
  | _, _ => false
  end.
Definition adds_challenge (op : account_op) (d : account_db) (k : pystr) : bool :=
  match op with
  | AAddChallenge r _ _ _ _ _ _ => bool_decide (r = k) && bool_decide (wecom_challenges d !! k = None)
  | _ => false
  end.
Definition expires_request (op : account_op) (d : account_db) (k : pystr) : bool :=
  match op, consumed_requests d !! k with APrune now, Some e => e <? now | _, _ => false end.
Definition expires_command (op : account_op) (d : account_db) (k : pystr) : bool :=
  match op, command_idempotency d !! k with
  | APrune now, Some c => co_expires_at c <? now
  | ABegin r _ _ now, Some c => bool_decide (r = k) && (co_expires_at c <=? now)
  | _, _ => false
  end.
Definition finishes_refresh (op : account_op) (d : account_db) (k : pystr) : bool :=
  match op, answer op d with
  | AFinishRefresh _ r _ _ _ _ _ _, AoUnit (Ok _) => bool_decide (r = k)
  | _, _ => false
  end.

#[export] Instance lease_guard : ReplayGuard account_db account_op account_out lease_key := {
  guard_step := account_step;
  granted op out := LeaseKey <$> redeemed_ref op out;
  releases op d k := creates_lease op d (lease_key_of k);
  held d k := ∀ l, credential_leases d !! lease_key_of k = Some l → le_redeemed_at l ≠ None
}.
#[export] Instance session_guard : ReplayGuard account_db account_op account_out session_key := {
  guard_step := account_step;
  granted op out := SessionKey <$> uses_session op out;
  releases op d k := creates_session op d (session_key_of k);
  held d k := ∀ s, link_sessions d !! session_key_of k = Some s → se_status s ≠ S_PENDING
}.
#[export] Instance challenge_guard : ReplayGuard account_db account_op account_out challenge_key := {
  guard_step := account_step;
  granted op out := ChallengeKey <$> uses_challenge op out;
  releases op d k := adds_challenge op d (challenge_key_of k);
  held d k := ∀ c, wecom_challenges d !! challenge_key_of k = Some c → ch_consumed_at c ≠ None
}.
#[export] Instance request_guard : ReplayGuard account_db account_op account_out request_key := {
  guard_step := account_step;
  granted op out := RequestKey <$> consumed_request op out;
  releases op d k := expires_request op d (request_key_of k);
  held d k := is_Some (consumed_requests d !! request_key_of k)
}.
#[export] Instance command_guard : ReplayGuard account_db account_op account_out command_key := {
  guard_step := account_step;
  granted op out := CommandKey <$> begun_command op out;
  releases op d k := expires_command op d (command_key_of k);
  held d k := is_Some (command_idempotency d !! command_key_of k)
}.
#[export] Instance refresh_guard : ReplayGuard account_db account_op account_out refresh_key := {
  guard_step := account_step;
  granted op out := RefreshKey <$> claimed_refresh op out;
  releases op d k := finishes_refresh op d (refresh_key_of k);
  held d k := ∃ a, accounts d !! refresh_key_of k = Some a
                   ∧ ¬ (ac_status a = ACTIVE ∧ cr_status (ac_credential a) = READY)
}.

Ltac guard_grant H := apply fmap_Some in H as (? & H & ->); cbn in *.

#[export] Instance lease_guard_laws : ReplayGuardLaws lease_guard (λ _, True).
Proof.
  split; cbn; [done|..]; intros op d k _.
  - intros H l Hl. guard_grant H.
    destruct (redeem_ok _ _ _ H) as (?&?&?&?&?&?&?&?&?&?&_&_&_&_&_&_&_&_&Hk).
    rewrite Hk in Hl. by injection Hl as <-.
  - intros Hh Hr. revert Hh. unfold creates_lease in Hr.
    destruct (lease_moved op d (lease_key_of k)) as [| ?????????? Ho| |]; intros Hh l' Hl; simplify_eq/=.
    + by apply Hh.
    + rewrite Ho in Hr. by bools.
    + done.
  - intros Hh _ H. guard_grant H.
    destruct (redeem_ok _ _ _ H) as (l&?&?&?&?&?&?&?&?&?&_&_&Hk&Hf&_). apply (Hh _ Hk).
    unfold lease_fits in Hf. by bools.
Qed.

#[export] Instance session_guard_laws : ReplayGuardLaws session_guard (λ _, True).
Proof.
  split; cbn; [done|..]; intros op d k _.
  - intros H s Hs. guard_grant H. destruct (use_session_ok _ _ _ H) as (? & ? & _ & _ & ? & Hk).
    rewrite Hk in Hs. by injection Hs as <-.
  - intros Hh Hr. revert Hh. unfold creates_session in Hr.
    destruct (session_moved op d (session_key_of k)) as [| ?????????? Ho| | |];
      intros Hh s2 Hs; simplify_eq/=; [by apply Hh| |done..].
    rewrite Ho in Hr. by bools.
  - intros Hh _ H. guard_grant H. destruct (use_session_ok _ _ _ H) as (s & ? & Hk & Hp & _).
    by apply (Hh _ Hk).
Qed.

#[export] Instance challenge_guard_laws : ReplayGuardLaws challenge_guard (λ _, True).
Proof.
  split; cbn; [done|..]; intros op d k _.
  - intros H c Hc. guard_grant H. destruct (use_challenge_ok _ _ _ H) as (? & ? & _ & _ & Hk).
    rewrite Hk in Hc. by injection Hc as <-.
  - intros Hh Hr. revert Hh Hr. unfold adds_challenge.
    destruct (challenge_moved op d (challenge_key_of k)); intros Hh Hr c' Hc; simplify_eq/=; [by apply Hh| |done].
    by rewrite bool_decide_true in Hr.
  - intros Hh _ H. guard_grant H. destruct (use_challenge_ok _ _ _ H) as (c & ? & Hk & Hp & _).
    by apply (Hh _ Hk).
Qed.

#[export] Instance request_guard_laws : ReplayGuardLaws request_guard (λ _, True).
Proof.
  split; cbn; [done|..]; intros op d k _.
  - intros H. guard_grant H. apply (consume_ok _ _ _ H).
  - intros Hh Hr. revert Hh Hr. unfold expires_request.
    destruct (request_moved op d (request_key_of k)); intros Hh Hr; simplify_eq/=; [done..|lia].
  - intros [e Hh] _ H. guard_grant H. destruct (consume_ok _ _ _ H). congruence.
Qed.

#[export] Instance command_guard_laws : ReplayGuardLaws command_guard (λ _, True).
Proof.
  split; cbn; [done|..]; intros op d k _.
  - intros H. guard_grant H. by destruct (begin_ok _ _ _ H) as (? & ? & ? & _ & _ & ?).
  - intros Hh Hr. revert Hh Hr. unfold expires_command.
    destruct (command_moved op d (command_key_of k)); intros Hh Hr; simplify_eq/=; [done..|lia].
  - intros [c Hh] Hr H. guard_grant H. destruct (begin_ok _ _ _ H) as (? & ? & now & -> & He & _).
    unfold expires_command in Hr. rewrite Hh in Hr. apply He in Hh. bools.
    rewrite bool_decide_true in Hr by done. cbn in Hr. lia.
Qed.

#[export] Instance refresh_guard_laws : ReplayGuardLaws refresh_guard (λ _, True).
Proof.
  split; cbn; [done|..]; intros op d k _.
  - intros H. guard_grant H. destruct (claim_refresh_ok _ _ _ H) as (?&?&?&?&?&_&_&_&_&_&Hk).
    eexists. split; [exact Hk|]. cbn. by intros [_ [=]].
  - intros Hh Hr. revert Hh Hr. unfold finishes_refresh.
    destruct (account_moved op d (refresh_key_of k)); intros (a' & Ha & Hn) Hr; simplify_eq/=;
      eexists; (split; [reflexivity|]); cbn; try (by intros [??]); try done.
      match goal with E : fst (finish_refresh _ _ _ _ _ _ _ _ _) = Ok () |- _ => rewrite E in Hr end.
    by bools.
  - intros (a & Hh & Hn) _ H. guard_grant H.
    destruct (claim_refresh_ok _ _ _ H) as (?&?&?&?&a2&_&_&Hk&?&?&_). rewrite Hh in Hk.
    simplify_eq. by apply Hn.
Qed.

(** C21. Every right is used at most as often as it was given.  Along any
    interleaving of the store's operations from an empty database: a lease is
    redeemed, a link session is used (claimed by its callback, or completed as
    a WeCom link) and a challenge is consumed at most as often as one was
    created under that reference; a signed request id is accepted and an
    idempotent command is let to run once, and once more for each time the
    retention of its row had run out; and a credential refresh is claimed once,
    and once more for each refresh that was finished. *)
Theorem rights_used_once (k : pystr) (ops : list account_op) :
  (grants (LeaseKey k) ops empty_accounts <= release_count (LeaseKey k) ops empty_accounts)%nat
  ∧ (grants (SessionKey k) ops empty_accounts <= release_count (SessionKey k) ops empty_accounts)%nat
  ∧ (grants (ChallengeKey k) ops empty_accounts <= release_count (ChallengeKey k) ops empty_accounts)%nat
  ∧ (∀ d, grants (RequestKey k) ops d <= 1 + release_count (RequestKey k) ops d)%nat
  ∧ (∀ d, grants (CommandKey k) ops d <= 1 + release_count (CommandKey k) ops d)%nat
  ∧ (∀ d, grants (RefreshKey k) ops d <= 1 + release_count (RefreshKey k) ops d)%nat.
Proof.
  split_and!; intros; by apply (grants_bounded (inv := λ _, True)).
Qed.
