(* ===== verification/AccountProps.v ===== *)
(** * Account center: lifetimes

    What follows from the moves of the rows over whole runs: unlinking is
    final, identities never change hands, a refresh is fenced by its revision,
    a credential is disclosed only under a lease its owner gave, a completed
    command answers the same, and what pruning does to a callback. *)

From Stdlib Require Import ZArith NArith.
From S2P Require Import Prelude PyText ReplayGuard AccountStore AccountFacts AccountLaws.

#[local] Open Scope Z_scope.

Abbreviation run ops d := (final account_step ops d).

Lemma run_snoc ops op d : run (ops ++ [op]) d = after op (run ops d).
Proof. by rewrite final_app, final_cons. Qed.

(** ** An account through a run *)

Definition revision (a : account) : Z := cr_revision (ac_credential a).

(** What every operation keeps of an account. *)
Record kept (a a' : account) : Prop := {
  kept_link : ac_link a' = ac_link a;
  kept_revision : revision a <= revision a';
  kept_unlinked : ac_status a = UNLINKED → cr_blob (ac_credential a) = None →
    ac_status a' = UNLINKED ∧ cr_blob (ac_credential a') = None
}.

#[export] Instance kept_preorder : PreOrder kept.
Proof.
  split; [by split|]. intros a b c [Hl Hr Hu] [Hl' Hr' Hu'].
  split; [congruence|lia|]. intros H1 H2. destruct (Hu H1 H2). auto.
Qed.

Lemma claimed_by_active i c a : claimed_by i c a = true → ac_status a = ACTIVE.
Proof. unfold claimed_by. intros. by bools. Qed.

Lemma account_kept op d k a :
  accounts d !! k = Some a → ∃ a', accounts (after op d) !! k = Some a' ∧ kept a a'.
Proof.
  destruct (account_moved op d k); intros Ha; simplify_eq/=; eexists; (split; [done|]).
  all: split; unfold revision; cbn; try done; try lia; try congruence.
  intros Hu. match goal with H : claimed_by _ _ _ = true |- _ => apply claimed_by_active in H end. congruence.
Qed.

Lemma account_kept_run ops d k a :
  accounts d !! k = Some a → ∃ a', accounts (run ops d) !! k = Some a' ∧ kept a a'.
Proof.
  intros Ha. apply (final_inv account_step (λ d', ∃ a', accounts d' !! k = Some a' ∧ kept a a')).
  - intros op d' (a1 & H1 & K1). destruct (account_kept op d' k a1 H1) as (a2 & H2 & K2).
    exists a2. split; [done|by etrans].
  - by exists a.
Qed.

(** ** Unlinking *)

Definition no_lease (ref : pystr) (d : account_db) : Prop :=
  ∀ k l, credential_leases d !! k = Some l → le_account_ref l ≠ ref.

(** The account stays as it was unlinked, and has no lease. *)
Definition gone (ref : pystr) (d : account_db) : Prop :=
  (∃ a, accounts d !! ref = Some a ∧ ac_status a = UNLINKED ∧ cr_blob (ac_credential a) = None)
  ∧ no_lease ref d.

Lemma gone_stays ref ops d : gone ref d → gone ref (run ops d).
Proof.
  apply (final_inv account_step (gone ref)). intros op d' [(a & Ha & Hu & Hb) Hn]. split.
  - destruct (account_kept op d' ref a Ha) as (a' & Ha' & K). exists a'. split; [done|].
    by apply (kept_unlinked _ _ K).
  - intros k. specialize (Hn k). revert Hn.
    destruct (lease_moved op d' k); intros Hn l' Hl; simplify_eq/=; [by apply Hn|congruence|by apply Hn].
Qed.

Lemma unlink_ok inst ref an now r c f d a d' :
  unlink inst ref an now r c f d = (Ok a, d') →
  accounts d !! ref = Some a ∧ owned an a = true ∧ ac_status a = ACTIVE
  ∧ accounts d' !! ref = Some (unlinked inst now c f a) ∧ no_lease ref d'.
Proof.
  unfold unlink. intros H. apply transact_cases in H as [(? & [= <-] & H)|(? & [=] & _)]. committed.
  split_and!; try done.
  - apply lookup_insert_eq.
  - intros k l Hl. cbn in Hl. apply lookup_delete_all in Hl as [_ Hl]. by bools.
Qed.

Lemma redeem_answer k an cl b o rs ar t d ref a blob :
  (redeem_lease k an cl b o rs ar t d).1 = Ok (ref, a, blob) →
  ∃ l, credential_leases d !! k = Some l ∧ le_account_ref l = ref
    ∧ lease_fits an cl b o rs ar t l = true ∧ accounts d !! ref = Some a
    ∧ owned an a = true ∧ ac_status a = ACTIVE ∧ cr_blob (ac_credential a) = Some blob.
Proof.
  destruct (redeem_lease _ _ _ _ _ _ _ _ _) as [o1 d1] eqn:H. cbn. intros ->. unfold redeem_lease in H.
  apply transact_cases in H as [(? & [= <-] & H)|(? & [=] & _)]. committed. by eexists.
Qed.

(** C23. Unlinking is final.  Once [unlink] answered, whatever operations of
    whichever process follow, the account is unlinked and its credential gone;
    no lease is created for it, and no lease, issued before or after, gives its
    credential out. *)
Theorem unlink_final inst ref an now r c f d a d' :
  unlink inst ref an now r c f d = (Ok a, d') →
  ∀ ops,
  (∃ a', accounts (run ops d') !! ref = Some a' ∧ ac_link a' = ac_link a
         ∧ ac_status a' = UNLINKED ∧ cr_blob (ac_credential a') = None)
  ∧ (∀ k an' b cl o rs ar e, (create_lease k ref an' b cl o rs ar e (run ops d')).1 = Err account_not_found)
  ∧ (∀ k an' cl b o rs ar t a' blob, (redeem_lease k an' cl b o rs ar t (run ops d')).1 ≠ Ok (ref, a', blob)).
Proof.
  intros H ops. apply unlink_ok in H as (_ & _ & _ & Ha & Hn).
  destruct (account_kept_run ops d' ref _ Ha) as (a' & Ha' & K).
  destruct (kept_unlinked _ _ K) as [Hu Hb]; [done..|].
  assert (Hg : no_lease ref (run ops d')) by (apply gone_stays; split; [by eexists|done]).
  split_and!.
  - exists a'. split_and!; try done. apply (kept_link _ _ K).
  - intros. unfold create_lease, transact. rewrite Ha', Hu. by rewrite andb_false_r.
  - intros * E. apply redeem_answer in E as (l & Hl & Hr & _). by apply (Hg k l).
Qed.

(** ** External identities *)

Definition identities_unique (d : account_db) : Prop :=
  ∀ k1 k2 a1 a2, accounts d !! k1 = Some a1 → accounts d !! k2 = Some a2 →
    identity (ac_link a1) = identity (ac_link a2) → k1 = k2.

(** A row after a step: an old one, or the one account the step added. *)
Lemma account_origin op d k a :
  accounts (after op d) !! k = Some a →
  (∃ b, accounts d !! k = Some b ∧ ac_link a = ac_link b)
  ∨ (answer op d = AoRef (Ok k)
     ∧ ∀ k' b, accounts d !! k' = Some b → identity (ac_link b) ≠ identity (ac_link a)).
Proof.
  destruct (account_moved op d k); intros Ha; simplify_eq/=; eauto.
Qed.

Lemma identities_unique_step op d : identities_unique d → identities_unique (after op d).
Proof.
  intros U k1 k2 a1 a2 H1 H2 He.
  apply account_origin in H1 as [(b1 & H1 & E1)|[A1 F1]];
    apply account_origin in H2 as [(b2 & H2 & E2)|[A2 F2]].
  - apply (U k1 k2 b1 b2); congruence.
  - destruct (F2 k1 b1 H1). congruence.
  - destruct (F1 k2 b2 H2). congruence.
  - congruence.
Qed.

Lemma identities_unique_run ops : identities_unique (run ops empty_accounts).
Proof.
  apply (final_inv account_step identities_unique).
  - intros op d. apply identities_unique_step.
  - intros k1 k2 a1 a2 H. cbn in H. by rewrite lookup_empty in H.
Qed.

Lemma insert_answer ref l b e rf s r d :
  is_ok (insert_account ref l b e rf s r d).1 = true →
  ∀ k a, accounts d !! k = Some a → identity (ac_link a) ≠ identity l.
Proof.
  destruct (insert_account _ _ _ _ _ _ _ _) as [o d'] eqn:H. cbn. intros Ho. unfold insert_account in H.
  apply transact_cases in H as [(? & -> & H)|(? & -> & _)]; [|done].
  committed; eauto.
Qed.

(** C24. An external identity never changes hands.  In every run from an empty
    database, two accounts that ever hold the same provider identity (provider,
    authority, namespace, subject and organisation) are the same account, with
    the same owner and metadata; and no account is inserted with the identity
    of an account that ever was, unlinked or not. *)
Theorem identity_never_moves ops1 ops2 k1 k2 a1 a2 :
  accounts (run ops1 empty_accounts) !! k1 = Some a1 →
  accounts (run (ops1 ++ ops2) empty_accounts) !! k2 = Some a2 →
  identity (ac_link a1) = identity (ac_link a2) →
  k1 = k2 ∧ ac_link a1 = ac_link a2
  ∧ ∀ ref l b e rf s r, identity l = identity (ac_link a1) →
      is_ok (insert_account ref l b e rf s r (run (ops1 ++ ops2) empty_accounts)).1 = false.
Proof.
  intros H1 H2 He. pose proof (identities_unique_run (ops1 ++ ops2)) as U.
  destruct (account_kept_run ops2 (run ops1 empty_accounts) k1 a1 H1) as (a1' & H1' & K).
  rewrite <- final_app in H1'. pose proof (kept_link _ _ K) as Hl.
  assert (Hk : k1 = k2) by (apply (U k1 k2 a1' a2); congruence). subst k2.
  split_and!; [done|congruence|]. intros * Hi. apply not_true_iff_false. intros Ho.
  apply (insert_answer _ _ _ _ _ _ _ _ Ho k1 a1' H1'). congruence.
Qed.

(** ** Refreshes *)

(** The revision counts the claims. *)
Lemma revision_step op d k a :
  accounts d !! k = Some a →
  ∃ a', accounts (after op d) !! k = Some a'
  ∧ revision a' = revision a
      + (if bool_decide (granted op (answer op d) = Some (RefreshKey k)) then 1 else 0).
Proof.
  intros Ha. case_bool_decide as G; cbn in G.
  - apply fmap_Some in G as (k' & G & [= <-]).
    destruct (claim_refresh_ok _ _ _ G) as (i & an & c & now & b & -> & _ & Hk & _ & _ & ->).
    rewrite Ha in Hk. injection Hk as <-. by eexists.
  - revert Ha G. destruct (account_moved op d k) as [| |b i an c now Ho Hout| | | | |]; intros Ha G; simplify_eq/=.
    all: try by (eexists; split; [done|unfold revision; cbn; lia]).
    destruct G. by rewrite Hout.
Qed.

Lemma revision_run ops d k a :
  accounts d !! k = Some a →
  ∃ a', accounts (run ops d) !! k = Some a'
  ∧ revision a' = revision a + Z.of_nat (grants (RefreshKey k) ops d).
Proof.
  revert d a. induction ops as [|op ops IH]; intros d a Ha.
  - exists a. cbn. split; [done|lia].
  - destruct (revision_step op d k a Ha) as (a1 & H1 & R1). destruct (IH _ _ H1) as (a2 & H2 & R2).
    exists a2. rewrite final_cons. split; [done|]. cbn [grants guard_step refresh_guard].
    rewrite R2, R1. case_bool_decide; lia.
Qed.

(** While the revision is [r], only the claim [(i, c)] can be pending. *)
Definition pending_as (i c : pystr) (r : Z) (a : account) : Prop :=
  r <= revision a
  ∧ (revision a = r → cr_status (ac_credential a) = REFRESH_PENDING →
     cr_claim_id (ac_credential a) = Some c ∧ cr_claim_owner (ac_credential a) = Some i).

Lemma pending_as_step i c r op d k :
  (∃ a, accounts d !! k = Some a ∧ pending_as i c r a) →
  ∃ a, accounts (after op d) !! k = Some a ∧ pending_as i c r a.
Proof.
  intros (a & Ha & Hr & Hp). revert Ha.
  destruct (account_moved op d k); intros Ha; simplify_eq/=; eexists; (split; [done|]).
  all: unfold pending_as, revision in *; cbn; split; try done; try lia; try auto.
Qed.

Lemma finish_ok i ref an c r b e rf d d' :
  finish_refresh i ref an c r b e rf d = (Ok (), d') →
  ∃ a, accounts d !! ref = Some a ∧ revision a = r ∧ claimed_by i c a = true.
Proof.
  unfold finish_refresh. intros H. apply transact_cases in H as [(? & _ & H)|(? & [=] & _)]. committed.
  eexists. split_and!; [done| |done]. unfold revision. by apply Z.eqb_eq.
Qed.

(** C25. Refreshes are fenced by the revision.  When a claim was granted
    revision [r], then whatever happened since, new material is committed at
    revision [r] only by the process and claim that were granted it, and only
    if no other refresh of the account was claimed in between. *)
Theorem refresh_fenced i ref an c now d r d1 ops i' an' c' b e rf d2 :
  claim_refresh i ref an c now d = (Ok r, d1) →
  finish_refresh i' ref an' c' r b e rf (run ops d1) = (Ok (), d2) →
  i' = i ∧ c' = c ∧ grants (RefreshKey ref) ops d1 = 0%nat.
Proof.
  intros Hc Hf. apply finish_ok in Hf as (a & Ha & Hr & Hcl).
  unfold claim_refresh in Hc. apply transact_cases in Hc as [(? & [= <-] & Hc)|(? & [=] & _)]. committed.
  set (d1 := with_accounts _ _) in *.
  assert (Hd1 : accounts d1 !! ref = Some (claimed i c now a0)) by apply lookup_insert_eq.
  destruct (revision_run ops d1 ref _ Hd1) as (a' & Ha' & Hg). rewrite Ha in Ha'. injection Ha' as <-.
  assert (HP : ∃ a, accounts (run ops d1) !! ref = Some a
                    ∧ pending_as i c (cr_revision (ac_credential a0) + 1) a).
  { apply (final_inv account_step (λ d, ∃ a, accounts d !! ref = Some a ∧ pending_as _ _ _ a)).
    - intros op d0. apply pending_as_step.
    - eexists. split; [exact Hd1|]. unfold pending_as, revision. cbn. split; [lia|done]. }
  destruct HP as (a' & Ha' & _ & Hp). rewrite Ha in Ha'. injection Ha' as <-.
  unfold claimed_by in Hcl. bools. destruct Hp; [done..|].
  split_and!; [congruence|congruence|]. unfold revision in *. cbn in Hg. lia.
Qed.

(** ** Disclosures *)

(** An unredeemed lease was created by an earlier operation, as it is. *)
Lemma lease_history ops k l :
  credential_leases (run ops empty_accounts) !! k = Some l → le_redeemed_at l = None →
  ∃ ops1 ops2, let op := ACreateLease k (le_account_ref l) (le_anchor l) (le_binding_id l)
                           (le_caller_id l) (le_operation_id l) (le_resource_json l)
                           (le_arguments_sha256 l) (le_expires_at l) in
    ops = ops1 ++ op :: ops2 ∧ answer op (run ops1 empty_accounts) = AoRef (Ok k).
Proof.
  revert l. induction ops as [|op ops IH] using rev_ind; intros l; [done|].
  rewrite run_snoc. revert IH. generalize (run_snoc ops op empty_accounts). intros _.
  destruct (lease_moved op (run ops empty_accounts) k) as [o|ref an b c o r ar e a Hop Hout| |];
    intros IH Hl Hu; simplify_eq/=.
  - destruct (IH l eq_refl Hu) as (ops1 & ops2 & -> & Ha). exists ops1, (ops2 ++ [op]).
    by rewrite <- app_assoc.
  - exists ops, []. split; [done|]. by rewrite <- Hout.
Qed.


(** ** Commands *)

Lemma command_kept ops d k c :
  command_idempotency d !! k = Some c → co_completed c = true →
  release_count (CommandKey k) ops d = 0%nat →
  command_idempotency (run ops d) !! k = Some c.
Proof.
  intros Hk Hc. revert d Hk. induction ops as [|op ops IH]; intros d Hk; [done|].
  cbn [release_count releases guard_step command_guard command_key_of]. rewrite final_cons.
  destruct (expires_command op d k) eqn:He; [done|]. intros Hn. apply IH; [|done].
  revert Hk He. unfold expires_command. clear Hn.
  destruct (command_moved op d k) as [|o m p now -> _ Ho| |]; intros Hk He; simplify_eq/=; [done| |congruence|lia].
  specialize (Ho c eq_refl). rewrite bool_decide_true in He by done. cbn in He. lia.
Qed.

(** A command that was completed answers the same.  Once its response was
    recorded, repeating the command (the same key, method and payload) within
    the retention of its row returns exactly that response and changes nothing,
    and the key with another method or payload is refused; whatever ran in
    between, as long as the row was not pruned or begun anew after its
    expiry. *)
Lemma completed_command_replays k blob d d1 c ops method payload now :
  complete_idempotent_command k blob d = (Ok (), d1) →
  command_idempotency d !! k = Some c →
  release_count (CommandKey k) ops d1 = 0%nat →
  now < co_expires_at c →
  begin_idempotent_command k method payload now (run ops d1)
  = (if bool_decide (method = co_method c) && bool_decide (payload = co_payload_sha256 c)
     then Ok (Some blob) else Err idempotency_conflict, run ops d1).
Proof.
  unfold complete_idempotent_command. intros H Hc Hn Hnow.
  apply transact_cases in H as [(? & _ & H)|(? & [=] & _)].
  inv_result. apply complete_command_ok in Hv as (c' & Hc' & _ & ->). rewrite Hc in Hc'.
  injection Hc' as <-. pose proof (command_kept ops _ k (finish_command blob c) (lookup_insert_eq _ _ _) eq_refl Hn) as Hk.
  unfold begin_idempotent_command, begin_command_txn, transact. rewrite Hk. cbn [co_expires_at finish_command].
  replace (co_expires_at c <=? now) with false by lia. cbn.
  rewrite (bool_decide_ext (co_method c = method) (method = co_method c)) by done.
  rewrite (bool_decide_ext (co_payload_sha256 c = payload) (payload = co_payload_sha256 c)) by done.
  by destruct (_ && _).
Qed.

(** ** Pruning *)

(** Pruning ends the callbacks in flight.  [prune_expired], which every
    provider lease runs first, deletes a GitHub link session whose callback is
    being processed, however much time it has left: the callback can neither
    complete it, nor link its account, nor record its failure, and a restart
    no longer finds the credential it had saved. *)
Lemma prune_ends_callbacks d ref s now :
  link_sessions d !! ref = Some s → github_processing s = true →
  let d' := prune_expired now d in
  get_session ref d' = Err link_session_invalid
  ∧ (∀ t, (complete_session ref t d').1 = Err link_session_invalid)
  ∧ (∀ a l b e rf r, is_ok (insert_account a l b e rf (Some ref) r d').1 = false)
  ∧ (∀ st, st ≠ PENDING → (fail_session ref st d').1 = Err link_session_invalid)
  ∧ ref ∉ (interrupted_callback_credentials d').*1.
Proof.
  intros Hs Hg d'.
  assert (Hn : link_sessions d' !! ref = None).
  { apply eq_None_not_Some. intros [s' H]. cbn in H. apply lookup_delete_all in H as [H Hp].
    rewrite Hs in H. injection H as <-. unfold github_processing in Hg. bools. congruence. }
  split_and!.
  - unfold get_session. by rewrite Hn.
  - intros t. unfold complete_session, transact, update_one. by rewrite Hn.
  - intros *. apply not_true_iff_false. intros Ho. unfold insert_account, transact in Ho.
    destruct (add_account a (new_account l b e rf) d') as [d2|] eqn:Ea; [|done].
    apply add_account_ok in Ea as (_ & -> & _). cbn in Ho. unfold update_one in Ho.
    cbn in Hn. by rewrite Hn in Ho.
  - intros st Hst. unfold fail_session, transact, update_one.
    rewrite bool_decide_false by done. by rewrite Hn.
  - intros H. apply list_elem_of_fmap in H as ([k b] & -> & H). unfold interrupted_callback_credentials in H.
    apply list_elem_of_omap in H as ([k' s'] & Hin & He).
    apply list_elem_of_In, filter_In in Hin as [Hin _].
    apply list_elem_of_In, elem_of_map_to_list in Hin. cbn in *.
    destruct (se_pending_credential s'); simplify_eq/=.
Qed.
