(* ===== verification/AccountExamples.v ===== *)
(** * Account center: concrete runs

    One GitHub account with a lease, a refresh and an unlink, a command, and a
    callback, with the store's theorems applied to them. *)

From Stdlib Require Import ZArith NArith.
From S2P Require Import Prelude PyText ReplayGuard AccountStore AccountFacts AccountLaws AccountProps.

#[local] Open Scope Z_scope.

Definition alice : Anchor := MkAnchor (lit "iss") (lit "alice") (lit "org") None.
Definition alice_github : link :=
  Link alice GITHUB (lit "github.com") None (lit "42") (lit "{}") 10.
Definition token : pybytes := [7; 7]%N.

Definition ref1 : pystr := lit "acc-1".
Definition lease1 : pystr := lit "lease-1".
Definition linking : list account_op :=
  [AInsert ref1 alice_github (Some token) None None None None].
Definition leasing : list account_op :=
  linking ++ [ACreateLease lease1 ref1 alice (lit "b") (lit "caller") (lit "op") (lit "{}") (lit "h") 100].

Definition linked1 : account_db := run linking empty_accounts.
Definition leased1 : account_db := run leasing empty_accounts.
Definition account1 : account := new_account alice_github (Some token) None None.

Definition redeem1 (now : Z) (d : account_db) : R (pystr * account * pybytes) * account_db :=
  redeem_lease lease1 alice (lit "caller") (lit "b") (lit "op") (lit "{}") (lit "h") now d.

Example redeemed_once :
  (redeem1 50 leased1).1 = Ok (ref1, account1, token)
  ∧ (redeem1 51 (redeem1 50 leased1).2).1 = Err lease_rejected
  ∧ (redeem1 100 leased1).1 = Err lease_rejected.
Proof. by vm_compute. Qed.

Definition unlinked1 : account_db := (unlink (lit "p") ref1 alice 60 None None false leased1).2.

Lemma unlink_final_witness :
  (redeem1 61 (run [ARecover (lit "q"); ASetRevocation (lit "p") ref1 REVOKED None] unlinked1)).1
  ≠ Ok (ref1, account1, token).
Proof.
  refine (proj2 (proj2 (unlink_final (lit "p") ref1 alice 60 None None false leased1 account1 unlinked1 _
    [ARecover (lit "q"); ASetRevocation (lit "p") ref1 REVOKED None])) _ _ _ _ _ _ _ _ _ _).
  by vm_compute.
Defined.

Lemma identity_never_moves_witness :
  is_ok (insert_account (lit "acc-2") alice_github (Some token) None None None None
           (run (linking ++ [AUnlink (lit "p") ref1 alice 60 None None false]) empty_accounts)).1 = false.
Proof.
  refine (proj2 (proj2 (identity_never_moves linking [AUnlink (lit "p") ref1 alice 60 None None false]
    ref1 ref1 account1 (unlinked (lit "p") 60 None false account1) _ _ _)) _ _ _ _ _ _ _ _); by vm_compute.
Defined.

Definition claiming1 : R Z * account_db := claim_refresh (lit "p") ref1 alice (lit "c1") 20 linked1.
Definition rival : list account_op := [AClaimRefresh (lit "q") ref1 alice (lit "c2") 21].

Lemma refresh_fenced_witness :
  is_ok (finish_refresh (lit "p") ref1 alice (lit "c1") 1 [8]%N None None (run rival claiming1.2)).1 = true
  ∧ grants (RefreshKey ref1) rival claiming1.2 = 0%nat.
Proof.
  split; [by vm_compute|].
  refine (proj2 (proj2 (refresh_fenced (lit "p") ref1 alice (lit "c1") 20 linked1 1 claiming1.2 rival
    (lit "p") alice (lit "c1") [8]%N None None
    (finish_refresh (lit "p") ref1 alice (lit "c1") 1 [8]%N None None (run rival claiming1.2)).2 _ _)));
    by vm_compute.
Defined.


Definition begun : account_db := run [ABegin (lit "k") (lit "unlink") (lit "h") 5] empty_accounts.
Definition completed : account_db := (complete_idempotent_command (lit "k") token begun).2.
Definition reserved : command := Command (lit "unlink") (lit "h") false None 5 86405.

Lemma completed_command_replays_example :
  begin_idempotent_command (lit "k") (lit "unlink") (lit "h") 86404 (run [APrune 86405] completed)
  = (Ok (Some token), run [APrune 86405] completed).
Proof.
  refine (completed_command_replays (lit "k") token begun completed reserved [APrune 86405]
    (lit "unlink") (lit "h") 86404 _ _ _ _); by vm_compute.
Defined.

Definition session1 : pystr := lit "ses-1".
Definition calling_back : account_db :=
  run [ACreateSession session1 alice GITHUB (lit "sd") (lit "nd") (Some (lit "cb")) (Some token) 1000 5 None;
       AClaimByState (lit "sd") (lit "cb") 6; ASavePending session1 token] empty_accounts.
Definition processing1 : session :=
  Session alice GITHUB (lit "sd") (lit "nd") (Some (lit "cb")) (Some token) (Some token) 1000 S_PROCESSING
    None 5.

Lemma prune_ends_callbacks_example :
  is_ok (complete_session session1 7 calling_back).1 = true
  ∧ interrupted_callback_credentials calling_back = [(session1, token)]
  ∧ (complete_session session1 7 (prune_expired 7 calling_back)).1 = Err link_session_invalid.
Proof.
  refine (conj _ (conj _ (proj1 (proj2 (prune_ends_callbacks calling_back session1 processing1 7 _ _)) 7)));
    by vm_compute.
Defined.
