(* ===== verification/ProfileStore.v ===== *)
(** * Account center: provider profiles and their leases

    The part of [AccountStore] of [account_center/store.py] on the tables
    [provider_profiles], [provider_credential_leases] and
    [consumed_connector_grants]: profiles, their credentials and refreshes, and
    the leases under which a provider obtains them.  The three columns of a
    refresh claim are written together and are one field here. *)

From Stdlib Require Import ZArith NArith.
From S2P Require Import Prelude PyText AccountStore.

#[local] Open Scope Z_scope.

(** ** Rows *)

Inductive profile_provider :=
  | P_GITHUB | P_HUGGINGFACE | P_AZURE | P_GCP | P_RUNPOD | P_MICROSOFT_GRAPH | P_AZURE_DEVOPS | P_BILIBILI.
#[export] Instance profile_provider_eq_dec : EqDecision profile_provider.
Proof. solve_decision. Defined.

Inductive auth_status :=
  | A_UNKNOWN | A_CONFIGURED | A_HEALTHY | A_UNAVAILABLE | A_REAUTHORIZATION_REQUIRED | A_REVOKED.
#[export] Instance auth_status_eq_dec : EqDecision auth_status.
Proof. solve_decision. Defined.

Inductive auth_mode :=
  | LEGACY | FINE_GRAINED_TOKEN | DEVICE_OAUTH | GITHUB_APP | HOST_IDENTITY | DELEGATED_OAUTH
  | SESSION_COOKIE.
#[export] Instance auth_mode_eq_dec : EqDecision auth_mode.
Proof. solve_decision. Defined.

Inductive access_mode := ACTOR_OWNED | WORKSPACE_OPERATOR.
#[export] Instance access_mode_eq_dec : EqDecision access_mode.
Proof. solve_decision. Defined.

(** The encrypted material and what belongs to it. *)
Record tokens := Tokens {
  tk_blob : option pybytes;
  tk_expires_at : option Z;
  tk_refresh_blob : option pybytes;
  tk_refresh_expires_at : option Z;
  tk_client_id : option pystr;
  tk_scopes_json : option pystr
}.

(** The claim of a refresh: its id, the process, the time. *)
Abbreviation refresh_claim := (pystr * pystr * Z)%type.

Record profile := Profile {
  pf_anchor : Anchor;
  pf_provider : profile_provider;
  pf_created_at : Z;
  pf_access_mode : access_mode;
  pf_identity_ref : pystr;
  pf_target_scope_json : pystr;
  pf_external_subject : option pystr;
  pf_auth_status : auth_status;
  pf_auth_mode : auth_mode;
  pf_tokens : tokens;
  pf_secret_ref : option pystr;
  pf_active : bool;
  pf_claim : option refresh_claim;
  pf_revision : Z;
  pf_updated_at : Z
}.

Record provider_lease := ProviderLease {
  pl_profile_ref : pystr;
  pl_anchor : Anchor;
  pl_binding_id : pystr;
  pl_caller_id : pystr;
  pl_operation_id : pystr;
  pl_target_json : pystr;
  pl_arguments_sha256 : pystr;
  pl_expires_at : Z;
  pl_redeemed_at : option Z;
  pl_connection_ref : option pystr
}.

(** The proof of a grant that the caller presents in shared mode. *)
Record connector_grant := Grant {
  g_ref : pystr;
  g_connection_ref : pystr;
  g_provider : profile_provider;
  g_operation_id : pystr;
  g_resource_ref : pystr;
  g_issued_at : Z;
  g_expires_at : Z
}.
Record consumed_grant := ConsumedGrant {
  cg_grant : connector_grant;
  cg_profile_ref : pystr;
  cg_arguments_sha256 : pystr;
  cg_anchor : Anchor;
  cg_consumed_at : Z
}.

Inductive bili_status := B_PENDING | B_COMPLETED | B_CANCELLED.
#[export] Instance bili_status_eq_dec : EqDecision bili_status.
Proof. solve_decision. Defined.

Record bili_session := BiliSession {
  bs_profile_ref : pystr;
  bs_anchor : Anchor;
  bs_binding_id : pystr;
  bs_caller_id : pystr;
  bs_access_mode : access_mode;
  bs_expires_at : Z;
  bs_status : bili_status;
  bs_created_at : Z;
  bs_completed_at : option Z
}.

Inductive entra_status := E_PENDING | E_PROCESSING | E_COMPLETED | E_FAILED | E_EXPIRED.
#[export] Instance entra_status_eq_dec : EqDecision entra_status.
Proof. solve_decision. Defined.

(** The flow, a [scope_upgrade] with the revision of the profile it started from. *)
Inductive entra_flow := LINK | SCOPE_UPGRADE (profile_revision : Z).

Record entra_session := EntraSession {
  es_profile_ref : pystr;
  es_provider : profile_provider;
  es_flow : entra_flow;
  es_anchor : Anchor;
  es_state_digest : pystr;
  es_nonce_digest : pystr;
  es_callback_uri : pystr;
  es_code_verifier : pybytes;
  es_target_scope_json : pystr;
  es_oauth_scopes_json : pystr;
  es_oauth_client_id : pystr;
  es_access_mode : access_mode;
  es_expires_at : Z;
  es_status : entra_status;
  es_created_at : Z;
  es_updated_at : Z
}.

Inductive renewal_status :=
  | H_STARTING | H_WAITING_USER | H_SUCCEEDED | H_FAILED | H_EXPIRED | H_CANCELLED | H_UNKNOWN.
#[export] Instance renewal_status_eq_dec : EqDecision renewal_status.
Proof. solve_decision. Defined.

(** The device code and its user-visible part. *)
Record device := Device {
  dv_code : option pybytes;
  dv_user_code : option pystr;
  dv_verification_uri : option pystr
}.

Record renewal := Renewal {
  rn_profile_ref : pystr;
  rn_anchor : Anchor;
  rn_status : renewal_status;
  rn_device : device;
  rn_expires_at : option Z;
  rn_interval : option Z;
  rn_next_poll_at : option Z;
  rn_profile_revision : Z;
  rn_claim : option refresh_claim;
  rn_reason : option pystr;
  rn_created_at : Z;
  rn_updated_at : Z
}.

(** The whole store: the tables of [AccountStore.v] and these. *)
Record center := Center {
  base : account_db;
  provider_profiles : gmap pystr profile;
  provider_leases : gmap pystr provider_lease;
  consumed_grants : gmap pystr consumed_grant;
  bili_sessions : gmap pystr bili_session;
  entra_sessions : gmap pystr entra_session;
  renewals : gmap pystr renewal
}.

Definition with_base (b : account_db) (c : center) : center :=
  Center b (provider_profiles c) (provider_leases c) (consumed_grants c) (bili_sessions c)
    (entra_sessions c) (renewals c).
Definition with_profiles (m : gmap pystr profile) (c : center) : center :=
  Center (base c) m (provider_leases c) (consumed_grants c) (bili_sessions c) (entra_sessions c)
    (renewals c).
Definition with_provider_leases (m : gmap pystr provider_lease) (c : center) : center :=
  Center (base c) (provider_profiles c) m (consumed_grants c) (bili_sessions c) (entra_sessions c)
    (renewals c).
Definition with_grants (m : gmap pystr consumed_grant) (c : center) : center :=
  Center (base c) (provider_profiles c) (provider_leases c) m (bili_sessions c) (entra_sessions c)
    (renewals c).
Definition with_bili (m : gmap pystr bili_session) (c : center) : center :=
  Center (base c) (provider_profiles c) (provider_leases c) (consumed_grants c) m (entra_sessions c)
    (renewals c).
Definition with_entra (m : gmap pystr entra_session) (c : center) : center :=
  Center (base c) (provider_profiles c) (provider_leases c) (consumed_grants c) (bili_sessions c) m
    (renewals c).
Definition with_renewals (m : gmap pystr renewal) (c : center) : center :=
  Center (base c) (provider_profiles c) (provider_leases c) (consumed_grants c) (bili_sessions c)
    (entra_sessions c) m.

(** ** Columns of a profile *)

(** [SET] of the authentication status, the tokens, the claim and the revision. *)
Definition set_auth (st : auth_status) (t : tokens) (cl : option refresh_claim) (revision now : Z)
    (p : profile) : profile :=
  Profile (pf_anchor p) (pf_provider p) (pf_created_at p) (pf_access_mode p) (pf_identity_ref p)
    (pf_target_scope_json p) (pf_external_subject p) st (pf_auth_mode p) t (pf_secret_ref p)
    (pf_active p) cl revision now.
Definition set_scope (scope : pystr) (p : profile) : profile :=
  Profile (pf_anchor p) (pf_provider p) (pf_created_at p) (pf_access_mode p) (pf_identity_ref p) scope
    (pf_external_subject p) (pf_auth_status p) (pf_auth_mode p) (pf_tokens p) (pf_secret_ref p)
    (pf_active p) (pf_claim p) (pf_revision p) (pf_updated_at p).
Definition set_subject (subject : pystr) (p : profile) : profile :=
  Profile (pf_anchor p) (pf_provider p) (pf_created_at p) (pf_access_mode p) (pf_identity_ref p)
    (pf_target_scope_json p) (Some subject) (pf_auth_status p) (pf_auth_mode p) (pf_tokens p)
    (pf_secret_ref p) (pf_active p) (pf_claim p) (pf_revision p) (pf_updated_at p).
Definition set_mode (mode : auth_mode) (secret : option pystr) (p : profile) : profile :=
  Profile (pf_anchor p) (pf_provider p) (pf_created_at p) (pf_access_mode p) (pf_identity_ref p)
    (pf_target_scope_json p) (pf_external_subject p) (pf_auth_status p) mode (pf_tokens p) secret
    (pf_active p) (pf_claim p) (pf_revision p) (pf_updated_at p).
Definition clear_blobs (t : tokens) : tokens :=
  Tokens None (tk_expires_at t) None (tk_refresh_expires_at t) (tk_client_id t) (tk_scopes_json t).

(** ** Ownership *)

(** [_owns_provider_profile] *)
Definition owns_profile (anchor : Anchor) (allow_workspace_operator : bool) (p : profile) : bool :=
  bool_decide (pf_anchor p = anchor)
  || (allow_workspace_operator && bool_decide (pf_access_mode p = WORKSPACE_OPERATOR)
      && bool_decide (issuer (pf_anchor p) = issuer anchor)
      && bool_decide (organization_id (pf_anchor p) = organization_id anchor)
      && bool_decide (workspace_id (pf_anchor p) ≠ None)
      && bool_decide (workspace_id (pf_anchor p) = workspace_id anchor)).

(** [SELECT * FROM provider_profiles WHERE profile_ref=? AND status='active'] *)
Definition active_profile (ref : pystr) (c : center) : option profile :=
  p ← provider_profiles c !! ref; if pf_active p then Some p else None.

(** [get_provider_profile], and the check of the operations that start with it. *)
Definition get_provider_profile (ref : pystr) (anchor : Anchor) (allow : bool) (c : center) : R profile :=
  match active_profile ref c with
  | Some p => _ ← require (owns_profile anchor allow p) profile_not_found; Ok p
  | None => Err profile_not_found
  end.

Definition drop_leases (ref : pystr) (c : center) : center :=
  with_provider_leases (delete_all (λ l, bool_decide (pl_profile_ref l = ref)) (provider_leases c)) c.
Definition put_profile (ref : pystr) (p : profile) (c : center) : center :=
  with_profiles (<[ref := p]> (provider_profiles c)) c.

(** ** Creation *)

(** An active row with the provider, identity and organisation of [p]. *)
Definition identity_row (p other : profile) : bool :=
  pf_active other && bool_decide (pf_provider other = pf_provider p)
  && bool_decide (pf_identity_ref other = pf_identity_ref p)
  && bool_decide (organization_id (pf_anchor other) = organization_id (pf_anchor p)).
(** [provider_external_identity] and [provider_azure_devops_profile_scope]: [other]
    and [p] cannot both be active. *)
Definition index_clash (p other : profile) : bool :=
  identity_row p other
  && match pf_provider p with
     | P_GITHUB | P_HUGGINGFACE | P_MICROSOFT_GRAPH | P_BILIBILI => true
     | P_AZURE_DEVOPS => bool_decide (pf_target_scope_json other = pf_target_scope_json p)
     | P_AZURE | P_GCP | P_RUNPOD => false
     end.
(** The trigger [provider_azure_devops_identity_owner], before an INSERT. *)
Definition trigger_clash (p other : profile) : bool :=
  identity_row p other && bool_decide (pf_provider p = P_AZURE_DEVOPS)
  && negb (bool_decide (pf_anchor other = pf_anchor p)).
Definition identity_clash (p other : profile) : bool := index_clash p other || trigger_clash p other.

(** [INSERT INTO provider_profiles]; [None] is the [IntegrityError]. *)
Definition insert_profile (ref : pystr) (p : profile) (m : gmap pystr profile) : option (gmap pystr profile) :=
  if bool_decide (m !! ref = None) && bool_decide (fetch_one (identity_clash p) m = None)
  then Some (<[ref := p]> m) else None.

Definition default_auth_mode (provider : profile_provider) : auth_mode :=
  match provider with
  | P_GITHUB => GITHUB_APP
  | P_HUGGINGFACE => FINE_GRAINED_TOKEN
  | P_MICROSOFT_GRAPH | P_AZURE_DEVOPS => DELEGATED_OAUTH
  | _ => HOST_IDENTITY
  end.

(** [create_provider_profile] *)
Definition create_provider_profile (ref : pystr) (anchor : Anchor) (provider : profile_provider)
    (identity_ref scope : pystr) (status : auth_status) (subject : option pystr) (t : tokens)
    (secret : option pystr) (mode : option auth_mode) (access : access_mode) (now : Z) (c : center)
  : R () * center :=
  let mode := default (default_auth_mode provider) mode in
  if bool_decide (mode = LEGACY ∨ mode = SESSION_COOKIE) then (Err invalid_request, c) else
  if bool_decide (access = WORKSPACE_OPERATOR) && bool_decide (workspace_id anchor = None)
  then (Err profile_unavailable, c) else
  transact (λ c,
    let p := Profile anchor provider now access identity_ref scope subject status mode t secret true None
               0 now in
    match insert_profile ref p (provider_profiles c) with
    | Some m => Ok ((), with_profiles m c)
    | None =>
        let mine := match provider_profiles c !! ref with
                    | Some e => bool_decide (pf_anchor e = anchor)
                    | None => false
                    end in
        if mine then Err profile_already_exists else
        match fetch_one (identity_row p) (provider_profiles c) with
        | Some (_, e) =>
            if bool_decide (pf_anchor e = anchor) then Err duplicate_provider_identity
            else Err external_identity_owned
        | None => Err profile_ref_unavailable
        end
    end) c.

(** ** Credentials *)

(** [row["external_subject"] and row["external_subject"] != external_subject] *)
Definition other_subject (subject : pystr) (p : profile) : bool :=
  match pf_external_subject p with
  | Some ((_ :: _) as s) => negb (bool_decide (s = subject))
  | _ => false
  end.

(** [update_provider_profile_credential] *)
Definition update_provider_profile_credential (ref : pystr) (anchor : Anchor) (blob : pybytes)
    (expires : option Z) (subject : pystr) (status : auth_status) (now : Z) (allow : bool) (c : center)
  : R () * center :=
  transact (λ c,
    p ← get_provider_profile ref anchor allow c;
    _ ← require (negb (other_subject subject p)) external_identity_mismatch;
    let t := pf_tokens p in
    let t := Tokens (Some blob) expires (tk_refresh_blob t) (tk_refresh_expires_at t) (tk_client_id t)
               (tk_scopes_json t) in
    Ok ((), put_profile ref (set_subject subject
                               (set_auth status t (pf_claim p) (pf_revision p) now p)) c)) c.

(** [update_provider_profile_target_scope]: the new revision. *)
Definition update_provider_profile_target_scope (ref : pystr) (anchor : Anchor) (expected_revision : Z)
    (scope : pystr) (now : Z) (c : center) : R Z * center :=
  if expected_revision <? 0 then (Err profile_revision_conflict, c) else
  transact (λ c,
    p ← get_provider_profile ref anchor false c;
    _ ← require (bool_decide (pf_provider p = P_MICROSOFT_GRAPH)
                 && bool_decide (pf_access_mode p = ACTOR_OWNED)
                 && bool_decide (pf_auth_status p = A_HEALTHY) && (pf_revision p =? expected_revision))
          profile_revision_conflict;
    Ok (expected_revision + 1,
        put_profile ref (set_scope scope (set_auth (pf_auth_status p) (pf_tokens p) (pf_claim p)
                                            (pf_revision p + 1) now p)) c)) c.

Definition renewal_open (n : renewal) : bool :=
  bool_decide (rn_status n = H_STARTING) || bool_decide (rn_status n = H_WAITING_USER).
(** A session of the device flow that ends, and forgets its codes. *)
Definition end_renewal (st : renewal_status) (reason : option pystr) (now : Z) (n : renewal) : renewal :=
  Renewal (rn_profile_ref n) (rn_anchor n) st (Device None None None) (rn_expires_at n) (rn_interval n)
    (rn_next_poll_at n) (rn_profile_revision n) None reason (rn_created_at n) now.
(** [UPDATE ... WHERE profile_ref=? AND status IN ('starting','waiting_user')] *)
Definition end_renewals (ref : pystr) (st : renewal_status) (reason : pystr) (now : Z) (c : center) : center :=
  with_renewals (update_all (λ n, bool_decide (rn_profile_ref n = ref) && renewal_open n)
                   (end_renewal st (Some reason) now) (renewals c)) c.

(** [update_huggingface_profile_credentials] *)
Definition update_huggingface_profile_credentials (ref : pystr) (anchor : Anchor) (blob : pybytes)
    (expires : option Z) (refresh : option pybytes) (refresh_expires : option Z)
    (client_id scopes : option pystr) (mode : auth_mode) (secret subject : pystr) (now : Z) (c : center)
  : R () * center :=
  if negb (bool_decide (mode = FINE_GRAINED_TOKEN ∨ mode = DEVICE_OAUTH)) then (Err invalid_request, c) else
  if bool_decide (mode = DEVICE_OAUTH)
     && (bool_decide (refresh = None) || bool_decide (client_id = None ∨ client_id = Some []))
  then (Err credential_unavailable, c) else
  transact (λ c,
    p ← get_provider_profile ref anchor false c;
    _ ← require (bool_decide (pf_provider p = P_HUGGINGFACE)) profile_provider_mismatch;
    _ ← require (negb (other_subject subject p)) external_identity_mismatch;
    let p := set_auth A_HEALTHY (Tokens (Some blob) expires refresh refresh_expires client_id scopes) None
               (pf_revision p + 1) now p in
    let c := put_profile ref (set_subject subject (set_mode mode (Some secret) p)) c in
    let c := end_renewals ref H_FAILED (lit "profile_credentials_replaced") now c in
    Ok ((), drop_leases ref c)) c.

(** [update_provider_profile_auth_status] *)
Definition update_provider_profile_auth_status (ref : pystr) (anchor : Anchor) (status : auth_status)
    (now : Z) (allow : bool) (c : center) : R () * center :=
  transact (λ c,
    p ← get_provider_profile ref anchor allow c;
    Ok ((), put_profile ref (set_auth status (pf_tokens p) (pf_claim p) (pf_revision p) now p) c)) c.

Definition reauthorization_required (now : Z) (p : profile) : profile :=
  set_auth A_REAUTHORIZATION_REQUIRED (clear_blobs (pf_tokens p)) None (pf_revision p + 1) now p.

(** [_mark_provider_reauthorization_required] *)
Definition mark_reauthorization_required (ref : pystr) (p : profile) (now : Z) (c : center) : center :=
  drop_leases ref (put_profile ref (reauthorization_required now p) c).

(** [require_provider_reauthorization] *)
Definition require_provider_reauthorization (ref : pystr) (anchor : Anchor) (now : Z) (c : center)
  : R () * center :=
  transact (λ c,
    p ← get_provider_profile ref anchor false c;
    _ ← require (bool_decide (pf_provider p = P_MICROSOFT_GRAPH ∨ pf_provider p = P_AZURE_DEVOPS)
                 && bool_decide (pf_auth_mode p = DELEGATED_OAUTH)) profile_not_found;
    Ok ((), mark_reauthorization_required ref p now c)) c.

(** [set_provider_profile_secret_ref] *)
Definition set_provider_profile_secret_ref (ref : pystr) (anchor : Anchor) (secret : pystr) (now : Z)
    (c : center) : R () * center :=
  transact (λ c,
    p ← get_provider_profile ref anchor false c;
    _ ← require (bool_decide (pf_provider p = P_HUGGINGFACE)) profile_not_found;
    Ok ((), put_profile ref (set_mode (pf_auth_mode p) (Some secret)
                               (set_auth (pf_auth_status p) (pf_tokens p) (pf_claim p) (pf_revision p) now p))
              c)) c.

(** ** Refreshes *)

Inductive refresh_answer :=
  | Ready (p : profile)
  | ReauthorizationRequired
  | Waiting
  | Claimed (p : profile) (claim_id : pystr).

Definition before (limit : option Z) (now : Z) : bool :=
  match limit with Some t => t <=? now | None => false end.

(** [claim_provider_oauth_refresh] *)
Definition claim_provider_oauth_refresh (inst ref : pystr) (anchor : Anchor) (provider : profile_provider)
    (mode : auth_mode) (claim_id : pystr) (now margin stale : Z) (c : center) : R refresh_answer * center :=
  transact (λ c,
    p ← get_provider_profile ref anchor true c;
    _ ← require (bool_decide (pf_provider p = provider) && bool_decide (pf_auth_mode p = mode))
          profile_provider_mismatch;
    _ ← require (bool_decide (pf_auth_status p = A_HEALTHY)) credential_reauthorization_required;
    let t := pf_tokens p in
    let fresh := match tk_expires_at t with Some e => now + margin <? e | None => false end in
    if fresh && negb (bool_decide (tk_blob t = None)) then Ok (Ready p, c) else
    if bool_decide (tk_refresh_blob t = None) || before (tk_refresh_expires_at t) now
    then Ok (ReauthorizationRequired, mark_reauthorization_required ref p now c) else
    match pf_claim p with
    | Some (_, _, claimed_at) =>
        if now - claimed_at <=? stale then Ok (Waiting, c)
        else Ok (ReauthorizationRequired, mark_reauthorization_required ref p now c)
    | None =>
        let p' := set_auth A_HEALTHY t (Some (claim_id, inst, now)) (pf_revision p) now p in
        Ok (Claimed p' claim_id, put_profile ref p' c)
    end) c.

(** The [WHERE] of the two operations that end a refresh. *)
Definition refresh_held (inst : pystr) (anchor : Anchor) (claim_id : pystr) (provider : profile_provider)
    (mode : auth_mode) (p : profile) : bool :=
  let a := pf_anchor p in
  bool_decide (issuer a = issuer anchor) && bool_decide (organization_id a = organization_id anchor)
  && bool_decide (workspace_id a = workspace_id anchor)
  && (bool_decide (an_subject a = an_subject anchor) || bool_decide (pf_access_mode p = WORKSPACE_OPERATOR))
  && bool_decide (pf_provider p = provider) && pf_active p && bool_decide (pf_auth_mode p = mode)
  && match pf_claim p with
     | Some (id, owner, _) => bool_decide (id = claim_id) && bool_decide (owner = inst)
     | None => false
     end.

(** [complete_provider_oauth_refresh] *)
Definition complete_provider_oauth_refresh (inst ref : pystr) (anchor : Anchor) (claim_id : pystr)
    (blob refresh : pybytes) (expires : Z) (refresh_expires : option Z) (scopes : option pystr)
    (provider : profile_provider) (mode : auth_mode) (now : Z) (c : center) : R () * center :=
  transact (λ c,
    m ← update_one credential_refresh_claim_lost (refresh_held inst anchor claim_id provider mode)
          (λ p, set_auth A_HEALTHY (Tokens (Some blob) (Some expires) (Some refresh) refresh_expires
                                      (tk_client_id (pf_tokens p)) scopes)
                  None (pf_revision p + 1) now p) ref (provider_profiles c);
    Ok ((), with_profiles m c)) c.

(** [release_provider_oauth_refresh] *)
Definition release_provider_oauth_refresh (inst ref : pystr) (anchor : Anchor) (claim_id : pystr) (now : Z)
    (provider : profile_provider) (mode : auth_mode) (status : auth_status) (clear : bool) (c : center)
  : R () * center :=
  if negb (bool_decide (status ∈ [A_HEALTHY; A_UNAVAILABLE; A_REAUTHORIZATION_REQUIRED]))
  then (Err invalid_request, c) else
  transact (λ c,
    m ← update_one credential_refresh_claim_lost (refresh_held inst anchor claim_id provider mode)
          (λ p, set_auth status (if clear then clear_blobs (pf_tokens p) else pf_tokens p) None
                  (pf_revision p + 1) now p) ref (provider_profiles c);
    let c := with_profiles m c in
    Ok ((), if clear || bool_decide (status = A_UNAVAILABLE) then drop_leases ref c else c)) c.

(** ** Unlinking *)

Definition unlinked_profile (now : Z) (p : profile) : profile :=
  Profile (pf_anchor p) (pf_provider p) (pf_created_at p) (pf_access_mode p) (pf_identity_ref p)
    (pf_target_scope_json p) (pf_external_subject p) A_REVOKED (pf_auth_mode p)
    (clear_blobs (pf_tokens p)) None false None (pf_revision p) now.

Definition cancel_bili (now : Z) (s : bili_session) : bili_session :=
  BiliSession (bs_profile_ref s) (bs_anchor s) (bs_binding_id s) (bs_caller_id s) (bs_access_mode s)
    (bs_expires_at s) B_CANCELLED (bs_created_at s) (Some now).
Definition bili_pending_of (ref : pystr) (s : bili_session) : bool :=
  bool_decide (bs_profile_ref s = ref) && bool_decide (bs_status s = B_PENDING).

(** [unlink_provider_profile] *)
Definition unlink_provider_profile (ref : pystr) (anchor : Anchor) (now : Z) (c : center) : R () * center :=
  transact (λ c,
    m ← update_one profile_not_found (λ p, pf_active p && bool_decide (pf_anchor p = anchor))
          (unlinked_profile now) ref (provider_profiles c);
    let c := drop_leases ref (with_profiles m c) in
    let c := with_bili (update_all (bili_pending_of ref) (cancel_bili now) (bili_sessions c)) c in
    Ok ((), end_renewals ref H_CANCELLED (lit "profile_unlinked") now c)) c.

(** ** Leases *)

Definition leasable (provider : profile_provider) : bool :=
  match provider with
  | P_GITHUB | P_HUGGINGFACE | P_MICROSOFT_GRAPH | P_AZURE_DEVOPS | P_BILIBILI => true
  | P_AZURE | P_GCP | P_RUNPOD => false
  end.

(** The checks on the proof of a grant. *)
Definition grant_fits (g : connector_grant) (anchor : Anchor) (p : profile) (operation : pystr)
    (expires_at now : Z) : bool :=
  negb (bool_decide (g_connection_ref g = [])) && bool_decide (g_provider g = pf_provider p)
  && bool_decide (g_operation_id g = operation) && negb (bool_decide (g_resource_ref g = []))
  && (g_issued_at g <=? now) && (now - g_issued_at g <=? 15) && (now <? g_expires_at g)
  && (g_issued_at g <? g_expires_at g) && (g_expires_at g - g_issued_at g <=? 15)
  && (expires_at <=? g_expires_at g) && negb (bool_decide (workspace_id anchor = None)).

(** [prune_expired], all of it. *)
Definition prune_center (now : Z) (c : center) : center :=
  Center (prune_expired now (base c)) (provider_profiles c)
    (delete_all (λ l, (pl_expires_at l <? now) || negb (bool_decide (pl_redeemed_at l = None)))
       (provider_leases c))
    (delete_all (λ g, g_expires_at (cg_grant g) <? now) (consumed_grants c))
    (delete_all (λ s, (bs_expires_at s <? now - IDEMPOTENCY_RETENTION_SECONDS)
                      || (negb (bool_decide (bs_status s = B_PENDING))
                          && match bs_completed_at s with
                             | Some t => t <? now - IDEMPOTENCY_RETENTION_SECONDS
                             | None => false
                             end)) (bili_sessions c))
    (entra_sessions c) (renewals c).

(** [create_provider_lease], with the fields of a grant or with none of them. *)
Definition create_provider_lease (lease_ref ref : pystr) (anchor : Anchor)
    (binding caller operation target arguments : pystr) (expires_at now : Z) (allow : bool)
    (grant : option connector_grant) (c : center) : R pystr * center :=
  transact (λ c,
    match active_profile ref c with
    | None => Err profile_unavailable
    | Some p =>
        let shared := bool_decide (pf_access_mode p = WORKSPACE_OPERATOR) in
        _ ← require (owns_profile anchor allow p && bool_decide (pf_auth_status p = A_HEALTHY)
                     && leasable (pf_provider p)) profile_unavailable;
        _ ← require (negb (shared && (negb allow || match grant with None => true | Some _ => false end))) connector_grant_required;
        grants ← (match grant with
                  | Some g =>
                      _ ← require (grant_fits g anchor p operation expires_at now) connector_grant_required;
                      insert_new connector_grant_replayed (g_ref g)
                        (ConsumedGrant g ref arguments anchor now) (consumed_grants c)
                  | None => Ok (consumed_grants c)
                  end);
        leases ← insert_new connector_grant_replayed lease_ref
                   (ProviderLease ref anchor binding caller operation target arguments expires_at None
                      (g_connection_ref <$> grant)) (provider_leases c);
        Ok (lease_ref, with_provider_leases leases (with_grants grants c))
    end) (prune_center now c).

Definition provider_lease_fits (ref : pystr) (anchor : Anchor)
    (caller binding operation target arguments : pystr) (now : Z) (l : provider_lease) : bool :=
  bool_decide (pl_profile_ref l = ref) && bool_decide (pl_anchor l = anchor)
  && bool_decide (pl_binding_id l = binding) && bool_decide (pl_caller_id l = caller)
  && bool_decide (pl_operation_id l = operation) && bool_decide (pl_target_json l = target)
  && bool_decide (pl_arguments_sha256 l = arguments) && (now <? pl_expires_at l)
  && bool_decide (pl_redeemed_at l = None).
Definition redeemed_provider (now : Z) (l : provider_lease) : provider_lease :=
  ProviderLease (pl_profile_ref l) (pl_anchor l) (pl_binding_id l) (pl_caller_id l) (pl_operation_id l)
    (pl_target_json l) (pl_arguments_sha256 l) (pl_expires_at l) (Some now) (pl_connection_ref l).

(** [redeem_provider_lease] *)
Definition redeem_provider_lease (lease_ref ref : pystr) (anchor : Anchor)
    (caller binding operation target arguments : pystr) (now : Z) (c : center) : R profile * center :=
  transact (λ c,
    m ← update_one lease_rejected (provider_lease_fits ref anchor caller binding operation target arguments now)
          (redeemed_provider now) lease_ref (provider_leases c);
    match active_profile ref c with
    | Some p =>
        _ ← require (owns_profile anchor true p && bool_decide (pf_auth_status p = A_HEALTHY))
              profile_unavailable;
        Ok (p, with_provider_leases m c)
    | None => Err profile_unavailable
    end) c.

(** ** Listing *)

(** [list_provider_profiles], before its ORDER BY. *)
Definition list_provider_profiles (anchor : Anchor) (c : center) : list (pystr * profile) :=
  List.filter (λ kp, bool_decide (pf_anchor kp.2 = anchor) && pf_active kp.2)
    (map_to_list (provider_profiles c)).

(** [list_active_links], before its ORDER BY. *)
Definition list_active_links (anchor : Anchor) (account_provider : option link_provider)
    (provider : option profile_provider) (c : center) : list pystr * list (pystr * access_mode) :=
  ((List.filter (λ ka, owned anchor ka.2
                       && bool_decide (Some (lk_provider (ac_link ka.2)) = account_provider)
                       && bool_decide (ac_status ka.2 = ACTIVE)) (map_to_list (accounts (base c)))).*1,
   map (λ kp, (kp.1, pf_access_mode kp.2))
     (List.filter (λ kp, bool_decide (pf_anchor kp.2 = anchor)
                         && bool_decide (Some (pf_provider kp.2) = provider) && pf_active kp.2)
        (map_to_list (provider_profiles c)))).
