(* ===== verification/ProfileSessions.v ===== *)
(** * Account center: sessions that link a provider profile

    The Bilibili QR sessions, the Microsoft Entra OAuth sessions and the Hugging
    Face device renewals of [AccountStore], what a restart does to them, and the
    machine of all operations on profiles. *)

From Stdlib Require Import ZArith NArith.
From S2P Require Import Prelude PyText Json AccountStore ProfileStore.

#[local] Open Scope Z_scope.

(** ** Bilibili *)

Definition is_hex_digest (s : pystr) : bool :=
  (len s =? 64) && forallb (λ c, is_digit_ascii c || between 97 102 c) s.
Definition BILIBILI_CALLER : pystr := lit "cyrene.connectors.bilibili".

(** The checks on an existing profile that both operations make. *)
Definition bili_profile_ok (anchor : Anchor) (mode : access_mode) (p : profile) : R () :=
  _ ← require (owns_profile anchor (bool_decide (mode = WORKSPACE_OPERATOR)) p) profile_ref_unavailable;
  _ ← require (bool_decide (pf_provider p = P_BILIBILI)) profile_provider_mismatch;
  require (bool_decide (pf_access_mode p = mode)) profile_unavailable.

(** [begin_bilibili_link_session] *)
Definition begin_bilibili_link_session (ref digest : pystr) (anchor : Anchor) (binding caller : pystr)
    (mode : access_mode) (expires_at now : Z) (c : center) : R () * center :=
  if negb (is_hex_digest digest && negb (bool_decide (binding = [])) && (len binding <=? 200)
           && bool_decide (caller = BILIBILI_CALLER)
           && negb (bool_decide (mode = WORKSPACE_OPERATOR) && bool_decide (workspace_id anchor = None))
           && (now <? expires_at) && (expires_at - now <=? 600))
  then (Err invalid_request, c) else
  transact (λ c,
    _ ← (match provider_profiles c !! ref with Some p => bili_profile_ok anchor mode p | None => Ok () end);
    _ ← require (bool_decide (fetch_one (λ s, bili_pending_of ref s && negb (bool_decide (bs_anchor s = anchor)))
                                (bili_sessions c) = None)) profile_ref_unavailable;
    let sessions := update_all (bili_pending_of ref) (cancel_bili now) (bili_sessions c) in
    m ← insert_new link_session_invalid digest
          (BiliSession ref anchor binding caller mode expires_at B_PENDING now None) sessions;
    Ok ((), with_bili m c)) c.

Definition complete_bili (now : Z) (s : bili_session) : bili_session :=
  BiliSession (bs_profile_ref s) (bs_anchor s) (bs_binding_id s) (bs_caller_id s) (bs_access_mode s)
    (bs_expires_at s) B_COMPLETED (bs_created_at s) (Some now).

Definition bili_session_fits (ref : pystr) (anchor : Anchor) (binding caller : pystr) (now : Z)
    (s : bili_session) : bool :=
  bool_decide (bs_profile_ref s = ref) && bool_decide (bs_anchor s = anchor)
  && bool_decide (bs_binding_id s = binding) && bool_decide (bs_caller_id s = caller)
  && bool_decide (bs_status s = B_PENDING) && (now <? bs_expires_at s).

(** The profile of a completed session: a new one, or [p] linked anew. *)
Definition bili_profile (anchor : Anchor) (subject scope : pystr) (blob : pybytes) (expires : option Z)
    (mode : access_mode) (now : Z) (existing : option profile) : profile :=
  Profile (match existing with Some p => pf_anchor p | None => anchor end) P_BILIBILI
    (match existing with Some p => pf_created_at p | None => now end) mode subject scope (Some subject)
    A_HEALTHY SESSION_COOKIE (Tokens (Some blob) expires None None None None) None true None
    (match existing with Some p => pf_revision p + 1 | None => 1 end) now.

(** [complete_bilibili_link_session] *)
Definition complete_bilibili_link_session (ref digest : pystr) (anchor : Anchor)
    (binding caller subject scope : pystr) (blob : pybytes) (expires : option Z) (now : Z) (c : center)
  : R profile * center :=
  if negb (is_hex_digest digest && bool_decide (caller = BILIBILI_CALLER)
           && negb (bool_decide (blob = [])) && forallb is_digit_ascii subject
           && (1 <=? len subject) && (len subject <=? 20) && negb (before expires now))
  then (Err invalid_request, c) else
  transact (λ c,
    match bili_sessions c !! digest with
    | None => Err link_session_invalid
    | Some s =>
        _ ← require (bili_session_fits ref anchor binding caller now s) link_session_invalid;
        let mode := bs_access_mode s in
        let existing := provider_profiles c !! ref in
        _ ← (match existing with
             | Some p =>
                 _ ← bili_profile_ok anchor mode p;
                 require (negb (pf_active p && other_subject subject p)) external_identity_mismatch
             | None => Ok ()
             end);
        let p := bili_profile anchor subject scope blob expires mode now existing in
        match fetch_one (identity_row p) (delete ref (provider_profiles c)) with
        | Some (_, other) =>
            if owns_profile anchor (bool_decide (mode = WORKSPACE_OPERATOR)) other
            then Err duplicate_provider_identity else Err external_identity_owned
        | None =>
            profiles ← (match existing with
                        | Some _ => Ok (<[ref := p]> (provider_profiles c))
                        | None =>
                            match insert_profile ref p (provider_profiles c) with
                            | Some m => Ok m
                            | None => Err duplicate_provider_identity
                            end
                        end);
            let sessions := update_all (bili_pending_of ref) (cancel_bili now)
                              (<[digest := complete_bili now s]> (bili_sessions c)) in
            Ok (p, drop_leases ref (with_bili sessions (with_profiles profiles c)))
        end
    end) c.

(** ** Microsoft Entra *)

(** [create_microsoft_entra_oauth_session] *)
Definition create_entra_session (ref profile_ref : pystr) (provider : profile_provider) (flow : entra_flow)
    (anchor : Anchor) (state_digest nonce_digest callback_uri : pystr) (verifier : pybytes)
    (scope oauth_scopes client_id : pystr) (mode : access_mode) (expires_at now : Z)
    (result : option (pystr * pybytes)) (c : center) : R () * center :=
  if negb (bool_decide (provider = P_MICROSOFT_GRAPH ∨ provider = P_AZURE_DEVOPS))
  then (Err invalid_request, c) else
  transact (λ c,
    _ ← require (bool_decide (fetch_one (λ s, bool_decide (es_state_digest s = state_digest))
                                (entra_sessions c) = None)) link_session_invalid;
    m ← insert_new link_session_invalid ref
          (EntraSession profile_ref provider flow anchor state_digest nonce_digest callback_uri verifier
             scope oauth_scopes client_id mode expires_at E_PENDING now now) (entra_sessions c);
    b ← command_result result (base c);
    Ok ((), with_base b (with_entra m c))) c.

Definition set_entra (st : entra_status) (verifier : pybytes) (now : Z) (s : entra_session) : entra_session :=
  EntraSession (es_profile_ref s) (es_provider s) (es_flow s) (es_anchor s) (es_state_digest s)
    (es_nonce_digest s) (es_callback_uri s) verifier (es_target_scope_json s) (es_oauth_scopes_json s)
    (es_oauth_client_id s) (es_access_mode s) (es_expires_at s) st (es_created_at s) now.
Definition entra_live (st : entra_status) (now : Z) (s : entra_session) : bool :=
  bool_decide (es_status s = st) && (now <? es_expires_at s).

(** [claim_microsoft_entra_oauth_session] *)
Definition claim_entra_session (state_digest callback_uri : pystr) (now : Z) (c : center)
  : R (pystr * entra_session) * center :=
  transact (λ c,
    match fetch_one (λ s, bool_decide (es_state_digest s = state_digest)
                          && bool_decide (es_callback_uri s = callback_uri) && entra_live E_PENDING now s)
            (entra_sessions c) with
    | None => Err link_session_invalid
    | Some (ref, s) =>
        m ← update_one link_session_invalid (entra_live E_PENDING now)
              (λ s, set_entra E_PROCESSING (es_code_verifier s) now s) ref (entra_sessions c);
        Ok ((ref, s), with_entra m c)
    end) c.

(** [fail_microsoft_entra_oauth_session] *)
Definition fail_entra_session (ref : pystr) (now : Z) (c : center) : R () * center :=
  transact (λ c,
    m ← update_one link_session_invalid (λ s, bool_decide (es_status s = E_PROCESSING))
          (set_entra E_FAILED [] now) ref (entra_sessions c);
    Ok ((), with_entra m c)) c.

(** [external_subject.split(":", 1)] with both parts: the tenant and the object. *)
Definition split_subject (s : pystr) : option (pystr * pystr) :=
  let '(tenant, rest) := span (λ c, negb (c =? 58)%N) s in
  match rest with _ :: object => Some (tenant, object) | [] => None end.

(** The identity of a new link: a tenant and an object, the tenant that of the
    target scope. *)
Definition entra_identity_ok (identity_ref subject scope : pystr) : bool :=
  match loads scope, split_subject subject with
  | Some (JObj kvs), Some (tenant, object) =>
      bool_decide (identity_ref = subject)
      && match assoc (lit "tenant_id") kvs with
         | Some (JStr t) => bool_decide (t = tenant)
         | _ => false
         end
      && negb (bool_decide (tenant = [])) && negb (bool_decide (object = []))
      && forallb (λ c, negb (c =? 58)%N) object
  | _, _ => false
  end.

Definition entra_session_fits (provider : profile_provider) (anchor : Anchor)
    (oauth_scopes client_id : pystr) (now : Z) (s : entra_session) : bool :=
  entra_live E_PROCESSING now s && bool_decide (es_provider s = provider)
  && negb (bool_decide (es_callback_uri s = [])) && bool_decide (es_oauth_client_id s = client_id)
  && bool_decide (es_anchor s = anchor) && bool_decide (es_oauth_scopes_json s = oauth_scopes).

(** The profile an upgrade of the scopes may change. *)
Definition upgradable (s : entra_session) (revision : Z) (provider : profile_provider) (anchor : Anchor)
    (identity_ref subject scope : pystr) (p : profile) : bool :=
  owns_profile anchor false p && bool_decide (pf_provider p = provider)
  && bool_decide (pf_auth_mode p = DELEGATED_OAUTH) && bool_decide (pf_auth_status p = A_HEALTHY)
  && bool_decide (pf_external_subject p = Some subject) && bool_decide (pf_identity_ref p = identity_ref)
  && (pf_revision p =? revision) && bool_decide (pf_claim p = None)
  && bool_decide (es_target_scope_json s = scope).

(** [complete_microsoft_entra_oauth_session] *)
Definition complete_entra_session (ref : pystr) (provider : profile_provider) (anchor : Anchor)
    (identity_ref subject scope : pystr) (blob refresh : pybytes) (expires : Z)
    (refresh_expires : option Z) (oauth_scopes client_id : pystr) (now : Z) (c : center)
  : R profile * center :=
  let t := Tokens (Some blob) (Some expires) (Some refresh) refresh_expires (Some client_id)
             (Some oauth_scopes) in
  transact (λ c,
    match entra_sessions c !! ref with
    | None => Err link_session_invalid
    | Some s =>
        _ ← require (entra_session_fits provider anchor oauth_scopes client_id now s) link_session_invalid;
        let profile_ref := es_profile_ref s in
        let sessions := <[ref := set_entra E_COMPLETED [] now s]> (entra_sessions c) in
        match es_flow s with
        | LINK =>
            _ ← require (entra_identity_ok identity_ref subject scope) external_identity_mismatch;
            let p := Profile anchor provider now (es_access_mode s) identity_ref scope (Some subject) A_HEALTHY
                       DELEGATED_OAUTH t None true None 0 now in
            match insert_profile profile_ref p (provider_profiles c) with
            | None => Err external_identity_owned
            | Some m => Ok (p, with_entra sessions (with_profiles m c))
            end
        | SCOPE_UPGRADE revision =>
            match active_profile profile_ref c with
            | None => Err external_identity_mismatch
            | Some p =>
                _ ← require (upgradable s revision provider anchor identity_ref subject scope p)
                      external_identity_mismatch;
                let p := set_scope scope (set_auth A_HEALTHY t None (revision + 1) now p) in
                _ ← require (bool_decide (fetch_one (index_clash p) (delete profile_ref (provider_profiles c))
                                          = None)) storage_unavailable;
                Ok (p, drop_leases profile_ref (with_entra sessions (put_profile profile_ref p c)))
            end
        end
    end) c.

(** ** Hugging Face device renewals *)

(** A session and whether it still is to be started at the provider. *)
Definition set_renewal (st : renewal_status) (d : device) (expires interval next : option Z)
    (cl : option refresh_claim) (reason : option pystr) (now : Z) (n : renewal) : renewal :=
  Renewal (rn_profile_ref n) (rn_anchor n) st d expires interval next (rn_profile_revision n) cl reason
    (rn_created_at n) now.
(** [SET status=..., reason_code=...], and forgetting the device code alone. *)
Definition mark_renewal (st : renewal_status) (d : device) (cl : option refresh_claim) (reason : pystr)
    (now : Z) (n : renewal) : renewal :=
  set_renewal st d (rn_expires_at n) (rn_interval n) (rn_next_poll_at n) cl (Some reason) now n.
Definition forget_code (d : device) : device := Device None (dv_user_code d) (dv_verification_uri d).
Definition put_renewal (ref : pystr) (n : renewal) (c : center) : center :=
  with_renewals (<[ref := n]> (renewals c)) c.

(** The start has had no answer for a minute. *)
Definition start_lost (now : Z) (n : renewal) : bool :=
  bool_decide (rn_status n = H_STARTING) && (rn_created_at n <=? now - 60).
Definition lose_start (now : Z) (n : renewal) : renewal :=
  mark_renewal H_UNKNOWN (rn_device n) (rn_claim n) (lit "device_start_outcome_unknown") now n.

Definition find_renewal (ref : pystr) (anchor : Anchor) (c : center) : R renewal :=
  match renewals c !! ref with
  | Some n => _ ← require (bool_decide (rn_anchor n = anchor)) renewal_session_not_found; Ok n
  | None => Err renewal_session_not_found
  end.

(** [begin_huggingface_device_renewal] *)
Definition begin_renewal (ref profile_ref : pystr) (anchor : Anchor) (now : Z) (c : center)
  : R (renewal * bool) * center :=
  transact (λ c,
    match renewals c !! ref with
    | Some n =>
        _ ← require (bool_decide (rn_profile_ref n = profile_ref) && bool_decide (rn_anchor n = anchor))
              renewal_session_not_found;
        if start_lost now n
        then Ok ((lose_start now n, false), put_renewal ref (lose_start now n) c)
        else Ok ((n, false), c)
    | None =>
        p ← get_provider_profile profile_ref anchor false c;
        _ ← require (bool_decide (pf_provider p = P_HUGGINGFACE) && bool_decide (pf_auth_mode p = DEVICE_OAUTH)
                     && match tk_client_id (pf_tokens p) with Some (_ :: _) => true | _ => false end
                     && match tk_scopes_json (pf_tokens p) with Some (_ :: _) => true | _ => false end)
              profile_provider_mismatch;
        let n := Renewal profile_ref anchor H_STARTING (Device None None None) None None None (pf_revision p)
                   None None now now in
        Ok ((n, true), put_renewal ref n c)
    end) c.

(** [complete_huggingface_device_renewal_start] *)
Definition complete_renewal_start (ref : pystr) (anchor : Anchor) (code : pybytes) (user_code uri : pystr)
    (expires_at interval now : Z) (c : center) : R renewal * center :=
  transact (λ c,
    n ← find_renewal ref anchor c;
    if negb (bool_decide (rn_status n = H_STARTING)) then Ok (n, c) else
    let n := set_renewal H_WAITING_USER (Device (Some code) (Some user_code) (Some uri)) (Some expires_at)
               (Some interval) (Some (now + interval)) (rn_claim n) (rn_reason n) now n in
    Ok (n, put_renewal ref n c)) c.

(** [fail_huggingface_device_renewal_start] *)
Definition fail_renewal_start (ref : pystr) (anchor : Anchor) (st : renewal_status) (reason : pystr)
    (now : Z) (c : center) : R renewal * center :=
  if negb (bool_decide (st = H_FAILED ∨ st = H_UNKNOWN) && negb (bool_decide (reason = []))
           && (len reason <=? 100)) then (Err invalid_request, c) else
  transact (λ c,
    n ← find_renewal ref anchor c;
    if negb (bool_decide (rn_status n = H_STARTING)) then Ok (n, c) else
    let n := mark_renewal st (forget_code (rn_device n)) (rn_claim n) reason now n in
    Ok (n, put_renewal ref n c)) c.

(** [claim_huggingface_device_renewal_poll]: the claim, when there is one to make. *)
Definition claim_renewal_poll (inst ref : pystr) (anchor : Anchor) (claim_id : pystr) (now stale : Z)
    (c : center) : R (renewal * option pystr) * center :=
  transact (λ c,
    n ← find_renewal ref anchor c;
    if start_lost now n then Ok ((lose_start now n, None), put_renewal ref (lose_start now n) c) else
    if negb (bool_decide (rn_status n = H_WAITING_USER)) then Ok ((n, None), c) else
    if before (rn_expires_at n) now then
      let n := mark_renewal H_EXPIRED (Device None None None) (rn_claim n) (lit "device_code_expired") now n in
      Ok ((n, None), put_renewal ref n c)
    else if match rn_next_poll_at n with Some t => now <? t | None => false end then Ok ((n, None), c) else
    match rn_claim n with
    | Some (_, _, claimed_at) =>
        if now - claimed_at <=? stale then Ok ((n, None), c)
        else let n := end_renewal H_UNKNOWN (Some (lit "device_poll_outcome_unknown")) now n in
             Ok ((n, None), put_renewal ref n c)
    | None =>
        let n := set_renewal H_WAITING_USER (rn_device n) (rn_expires_at n) (rn_interval n)
                   (rn_next_poll_at n) (Some (claim_id, inst, now)) (rn_reason n) now n in
        Ok ((n, Some claim_id), put_renewal ref n c)
    end) c.

(** The claim of a poll is held by this process under this id. *)
Definition poll_held (inst : pystr) (anchor : Anchor) (claim_id : pystr) (n : renewal) : bool :=
  bool_decide (rn_anchor n = anchor) && bool_decide (rn_status n = H_WAITING_USER)
  && match rn_claim n with
     | Some (id, owner, _) => bool_decide (id = claim_id) && bool_decide (owner = inst)
     | None => false
     end.
Definition held_renewal (inst ref : pystr) (anchor : Anchor) (claim_id : pystr) (c : center) : R renewal :=
  match renewals c !! ref with
  | Some n => _ ← require (poll_held inst anchor claim_id n) renewal_poll_claim_lost; Ok n
  | None => Err renewal_poll_claim_lost
  end.

(** [defer_huggingface_device_renewal_poll] *)
Definition defer_renewal_poll (inst ref : pystr) (anchor : Anchor) (claim_id : pystr) (interval : Z)
    (reason : option pystr) (now : Z) (c : center) : R renewal * center :=
  if negb ((1 <=? interval) && (interval <=? 300)) then (Err invalid_request, c) else
  transact (λ c,
    n ← held_renewal inst ref anchor claim_id c;
    let n := set_renewal H_WAITING_USER (rn_device n) (rn_expires_at n) (Some interval)
               (Some (now + interval)) None reason now n in
    Ok (n, put_renewal ref n c)) c.

(** [fail_huggingface_device_renewal_poll] *)
Definition fail_renewal_poll (inst ref : pystr) (anchor : Anchor) (claim_id : pystr) (st : renewal_status)
    (reason : pystr) (now : Z) (c : center) : R renewal * center :=
  if negb (bool_decide (st ∈ [H_FAILED; H_EXPIRED; H_CANCELLED; H_UNKNOWN])) then (Err invalid_request, c) else
  transact (λ c,
    n ← held_renewal inst ref anchor claim_id c;
    let n := end_renewal st (Some (take 100 reason)) now n in
    Ok (n, put_renewal ref n c)) c.

(** [complete_huggingface_device_renewal] *)
Definition complete_renewal (inst ref : pystr) (anchor : Anchor) (claim_id : pystr) (blob refresh : pybytes)
    (expires : Z) (refresh_expires : option Z) (scopes : option pystr) (subject : pystr) (now : Z)
    (c : center) : R renewal * center :=
  transact (λ c,
    n ← held_renewal inst ref anchor claim_id c;
    let profile_ref := rn_profile_ref n in
    p ← get_provider_profile profile_ref anchor false c;
    if negb (bool_decide (pf_provider p = P_HUGGINGFACE) && bool_decide (pf_auth_mode p = DEVICE_OAUTH)
             && (pf_revision p =? rn_profile_revision n) && bool_decide (pf_claim p = None)
             && bool_decide (pf_external_subject p = Some subject))
    then
      let n := mark_renewal H_FAILED (forget_code (rn_device n)) None (lit "profile_changed_during_renewal")
                 now n in
      Ok (n, put_renewal ref n c)
    else
      let t := Tokens (Some blob) (Some expires) (Some refresh) refresh_expires
                 (tk_client_id (pf_tokens p)) scopes in
      let p := set_auth A_HEALTHY t None (pf_revision p + 1) now p in
      let n := end_renewal H_SUCCEEDED None now n in
      Ok (n, put_renewal ref n (drop_leases profile_ref (put_profile profile_ref p c)))) c.

(** ** Restart *)

(** [_recover_interrupted_operations], all of it: a process [inst] starts at [now]. *)
Definition recover_center (inst : pystr) (now : Z) (c : center) : center :=
  let profiles := update_all
    (λ p, pf_active p && match pf_claim p with Some (_, _, at') => at' <=? now - 45 | None => false end)
    (reauthorization_required now) (provider_profiles c) in
  let leases := delete_all (λ l,
    match profiles !! pl_profile_ref l with
    | Some p => bool_decide (pf_auth_status p = A_REAUTHORIZATION_REQUIRED)
                && bool_decide (pf_provider p = P_HUGGINGFACE)
    | None => false
    end) (provider_leases c) in
  let entra := update_all (λ s, bool_decide (es_status s = E_PROCESSING)) (set_entra E_FAILED [] now)
                 (entra_sessions c) in
  let renew := update_all (λ n, bool_decide (rn_status n = H_STARTING) && (rn_created_at n <=? now - 60))
                 (end_renewal H_UNKNOWN (Some (lit "device_flow_interrupted")) now) (renewals c) in
  let renew := update_all
    (λ n, bool_decide (rn_status n = H_WAITING_USER)
          && match rn_claim n with
             | Some (_, owner, at') => (at' <=? now - 45) && negb (bool_decide (owner = inst))
             | None => false
             end)
    (end_renewal H_UNKNOWN (Some (lit "device_poll_outcome_unknown")) now) renew in
  Center (recover inst (base c)) profiles leases (consumed_grants c) (bili_sessions c) entra renew.
