(* ===== verification/ProfileMachine.v ===== *)
(** * Account center: the whole store as a machine

    All operations of [AccountStore]: those of [AccountStore.v] on the account
    tables, and those on the provider profiles and their sessions. *)

From Stdlib Require Import ZArith NArith.
From S2P Require Import Prelude PyText AccountStore ProfileStore ProfileSessions.

#[local] Open Scope Z_scope.

Inductive center_op :=
  | CBase (op : account_op)
  | CPrune (now : Z)
  | CRecover (inst : pystr) (now : Z)
  | CCreateProfile (ref : pystr) (anchor : Anchor) (provider : profile_provider)
      (identity_ref scope : pystr) (status : auth_status) (subject : option pystr) (t : tokens)
      (secret : option pystr) (mode : option auth_mode) (access : access_mode) (now : Z)
  | CUpdateCredential (ref : pystr) (anchor : Anchor) (blob : pybytes) (expires : option Z)
      (subject : pystr) (status : auth_status) (now : Z) (allow : bool)
  | CUpdateScope (ref : pystr) (anchor : Anchor) (expected_revision : Z) (scope : pystr) (now : Z)
  | CUpdateHuggingface (ref : pystr) (anchor : Anchor) (blob : pybytes) (expires : option Z)
      (refresh : option pybytes) (refresh_expires : option Z) (client_id scopes : option pystr)
      (mode : auth_mode) (secret subject : pystr) (now : Z)
  | CUpdateAuthStatus (ref : pystr) (anchor : Anchor) (status : auth_status) (now : Z) (allow : bool)
  | CRequireReauthorization (ref : pystr) (anchor : Anchor) (now : Z)
  | CSetSecretRef (ref : pystr) (anchor : Anchor) (secret : pystr) (now : Z)
  | CClaimRefresh (inst ref : pystr) (anchor : Anchor) (provider : profile_provider) (mode : auth_mode)
      (claim_id : pystr) (now margin stale : Z)
  | CCompleteRefresh (inst ref : pystr) (anchor : Anchor) (claim_id : pystr) (blob refresh : pybytes)
      (expires : Z) (refresh_expires : option Z) (scopes : option pystr) (provider : profile_provider)
      (mode : auth_mode) (now : Z)
  | CReleaseRefresh (inst ref : pystr) (anchor : Anchor) (claim_id : pystr) (now : Z)
      (provider : profile_provider) (mode : auth_mode) (status : auth_status) (clear : bool)
  | CUnlink (ref : pystr) (anchor : Anchor) (now : Z)
  | CCreateLease (lease_ref ref : pystr) (anchor : Anchor)
      (binding caller operation target arguments : pystr) (expires_at now : Z) (allow : bool)
      (grant : option connector_grant)
  | CRedeem (lease_ref ref : pystr) (anchor : Anchor)
      (caller binding operation target arguments : pystr) (now : Z)
  | CBeginBili (ref digest : pystr) (anchor : Anchor) (binding caller : pystr) (mode : access_mode)
      (expires_at now : Z)
  | CCompleteBili (ref digest : pystr) (anchor : Anchor) (binding caller subject scope : pystr)
      (blob : pybytes) (expires : option Z) (now : Z)
  | CCreateEntra (ref profile_ref : pystr) (provider : profile_provider) (flow : entra_flow)
      (anchor : Anchor) (state_digest nonce_digest callback_uri : pystr) (verifier : pybytes)
      (scope oauth_scopes client_id : pystr) (mode : access_mode) (expires_at now : Z)
      (result : option (pystr * pybytes))
  | CClaimEntra (state_digest callback_uri : pystr) (now : Z)
  | CFailEntra (ref : pystr) (now : Z)
  | CCompleteEntra (ref : pystr) (provider : profile_provider) (anchor : Anchor)
      (identity_ref subject scope : pystr) (blob refresh : pybytes) (expires : Z)
      (refresh_expires : option Z) (oauth_scopes client_id : pystr) (now : Z)
  | CBeginRenewal (ref profile_ref : pystr) (anchor : Anchor) (now : Z)
  | CCompleteRenewalStart (ref : pystr) (anchor : Anchor) (code : pybytes) (user_code uri : pystr)
      (expires_at interval now : Z)
  | CFailRenewalStart (ref : pystr) (anchor : Anchor) (st : renewal_status) (reason : pystr) (now : Z)
  | CClaimPoll (inst ref : pystr) (anchor : Anchor) (claim_id : pystr) (now stale : Z)
  | CDeferPoll (inst ref : pystr) (anchor : Anchor) (claim_id : pystr) (interval : Z)
      (reason : option pystr) (now : Z)
  | CFailPoll (inst ref : pystr) (anchor : Anchor) (claim_id : pystr) (st : renewal_status)
      (reason : pystr) (now : Z)
  | CCompleteRenewal (inst ref : pystr) (anchor : Anchor) (claim_id : pystr) (blob refresh : pybytes)
      (expires : Z) (refresh_expires : option Z) (scopes : option pystr) (subject : pystr) (now : Z).

Inductive center_out :=
  | CoBase (o : account_out)
  | CoUnit (r : R ())
  | CoRevision (r : R Z)
  | CoRefresh (r : R refresh_answer)
  | CoRef (r : R pystr)
  | CoProfile (r : R profile)
  | CoEntra (r : R (pystr * entra_session))
  | CoRenewal (r : R renewal)
  | CoBegun (r : R (renewal * bool))
  | CoPoll (r : R (renewal * option pystr))
  | CoDone.

(** An operation on the account tables; pruning and recovery are on all tables. *)
Definition base_step (op : account_op) (c : center) : center_out * center :=
  match op with
  | APrune _ | ARecover _ => (CoDone, c)
  | _ => let '(o, b) := account_step op (base c) in (CoBase o, with_base b c)
  end.

Definition center_step (op : center_op) (c : center) : center_out * center :=
  match op with
  | CBase op => base_step op c
  | CPrune now => (CoDone, prune_center now c)
  | CRecover i now => (CoDone, recover_center i now c)
  | CCreateProfile r a p i sc st su t se m ac now =>
      on_fst CoUnit (create_provider_profile r a p i sc st su t se m ac now c)
  | CUpdateCredential r a b e su st now al =>
      on_fst CoUnit (update_provider_profile_credential r a b e su st now al c)
  | CUpdateScope r a rv sc now => on_fst CoRevision (update_provider_profile_target_scope r a rv sc now c)
  | CUpdateHuggingface r a b e rf re ci sc m se su now =>
      on_fst CoUnit (update_huggingface_profile_credentials r a b e rf re ci sc m se su now c)
  | CUpdateAuthStatus r a st now al => on_fst CoUnit (update_provider_profile_auth_status r a st now al c)
  | CRequireReauthorization r a now => on_fst CoUnit (require_provider_reauthorization r a now c)
  | CSetSecretRef r a se now => on_fst CoUnit (set_provider_profile_secret_ref r a se now c)
  | CClaimRefresh i r a p m cl now mg sl =>
      on_fst CoRefresh (claim_provider_oauth_refresh i r a p m cl now mg sl c)
  | CCompleteRefresh i r a cl b rf e re sc p m now =>
      on_fst CoUnit (complete_provider_oauth_refresh i r a cl b rf e re sc p m now c)
  | CReleaseRefresh i r a cl now p m st clr =>
      on_fst CoUnit (release_provider_oauth_refresh i r a cl now p m st clr c)
  | CUnlink r a now => on_fst CoUnit (unlink_provider_profile r a now c)
  | CCreateLease l r a b ca o t ar e now al g =>
      on_fst CoRef (create_provider_lease l r a b ca o t ar e now al g c)
  | CRedeem l r a ca b o t ar now => on_fst CoProfile (redeem_provider_lease l r a ca b o t ar now c)
  | CBeginBili r dg a b ca m e now => on_fst CoUnit (begin_bilibili_link_session r dg a b ca m e now c)
  | CCompleteBili r dg a b ca su sc bl e now =>
      on_fst CoProfile (complete_bilibili_link_session r dg a b ca su sc bl e now c)
  | CCreateEntra r pr p f a sd nd cb v sc os ci m e now re =>
      on_fst CoUnit (create_entra_session r pr p f a sd nd cb v sc os ci m e now re c)
  | CClaimEntra sd cb now => on_fst CoEntra (claim_entra_session sd cb now c)
  | CFailEntra r now => on_fst CoUnit (fail_entra_session r now c)
  | CCompleteEntra r p a i su sc b rf e re os ci now =>
      on_fst CoProfile (complete_entra_session r p a i su sc b rf e re os ci now c)
  | CBeginRenewal r pr a now => on_fst CoBegun (begin_renewal r pr a now c)
  | CCompleteRenewalStart r a cd uc u e iv now =>
      on_fst CoRenewal (complete_renewal_start r a cd uc u e iv now c)
  | CFailRenewalStart r a st rs now => on_fst CoRenewal (fail_renewal_start r a st rs now c)
  | CClaimPoll i r a cl now sl => on_fst CoPoll (claim_renewal_poll i r a cl now sl c)
  | CDeferPoll i r a cl iv rs now => on_fst CoRenewal (defer_renewal_poll i r a cl iv rs now c)
  | CFailPoll i r a cl st rs now => on_fst CoRenewal (fail_renewal_poll i r a cl st rs now c)
  | CCompleteRenewal i r a cl b rf e re sc su now =>
      on_fst CoRenewal (complete_renewal i r a cl b rf e re sc su now c)
  end.

Definition empty_center : center := Center (AccountDb ∅ ∅ ∅ ∅ ∅ ∅) ∅ ∅ ∅ ∅ ∅ ∅.
