(* ===== verification/ProfileFacts.v ===== *)
(** * Account center: what each operation does to a profile and its leases

    For the tables of the profiles, how one operation may change the row under
    a key; and the account tables, which move as [account_step] moves them. *)

From Stdlib Require Import ZArith NArith.
From S2P Require Import Prelude PyText AccountStore AccountFacts ProfileStore ProfileSessions ProfileMachine.

#[local] Open Scope Z_scope.

Lemma get_profile_ok ref anchor allow c p :
  get_provider_profile ref anchor allow c = Ok p →
  provider_profiles c !! ref = Some p ∧ pf_active p = true ∧ owns_profile anchor allow p = true.
Proof.
  unfold get_provider_profile, active_profile. intros H.
  destruct (provider_profiles c !! ref) as [q|]; cbn in H; [|done].
  destruct (pf_active q) eqn:Ha; [|done]. by inv_result.
Qed.

Lemma active_profile_ok ref c p :
  active_profile ref c = Some p → provider_profiles c !! ref = Some p ∧ pf_active p = true.
Proof.
  unfold active_profile. destruct (provider_profiles c !! ref) as [q|]; cbn; [|done].
  destruct (pf_active q) eqn:Ha; naive_solver.
Qed.

Lemma insert_profile_ok ref p m m' :
  insert_profile ref p m = Some m' →
  m !! ref = None ∧ m' = <[ref := p]> m ∧ ∀ k q, m !! k = Some q → identity_clash p q = false.
Proof.
  unfold insert_profile. destruct (_ && _) eqn:H; [|done]. intros [= <-]. bools.
  split_and!; [done..|]. by apply fetch_one_none.
Qed.

Lemma find_renewal_ok ref anchor c n : find_renewal ref anchor c = Ok n → renewals c !! ref = Some n.
Proof. unfold find_renewal. destruct (renewals c !! ref); [|done]. intros H. by inv_result. Qed.
Lemma held_renewal_ok inst ref anchor cl c n :
  held_renewal inst ref anchor cl c = Ok n → renewals c !! ref = Some n ∧ rn_status n = H_WAITING_USER.
Proof.
  unfold held_renewal, poll_held. destruct (renewals c !! ref); [|done]. intros H. inv_result. by bools.
Qed.

(** Goes through a transaction on the whole store that committed. *)
Ltac committed_center :=
  repeat (committed; match goal with
  | H : get_provider_profile _ _ _ _ = Ok _ |- _ => apply get_profile_ok in H as (? & ? & ?)
  | H : active_profile _ _ = Some _ |- _ => apply active_profile_ok in H as (? & ?)
  | H : insert_profile _ _ _ = Some _ |- _ => apply insert_profile_ok in H as (? & ? & ?)
  | H : find_renewal _ _ _ = Ok _ |- _ => apply find_renewal_ok in H
  | H : held_renewal _ _ _ _ _ = Ok _ |- _ => apply held_renewal_ok in H as (? & ?)
  end); committed.

(** The cases of a step that are not on the account tables. *)
Ltac center_cases H :=
  lazymatch type of H with center_step ?op _ = _ => destruct op end;
  cbn [center_step] in H; unfold on_fst in H;
  lazymatch type of H with
  | (_ (fst ?x), _) = _ =>
      let E := fresh "Hop" in destruct x as [? ?] eqn:E; cbn [fst snd] in H; injection H as <- <-;
      lazymatch type of E with ?f = _ => let f := head_of f in unfold f in E end; cbv beta zeta in E;
      repeat (lazymatch type of E with (if ?b then _ else _) = _ => destruct b eqn:? end;
              [injection E as <- <-|]);
      try (apply transact_cases in E as [(? & -> & E)|(? & -> & -> & _)];
           [cbv beta zeta in E; committed_center|])
  | (_, _) = _ => injection H as <- <-
  | _ => idtac
  end.

Lemma moves_delete_insert {V} (P : pystr → option V → option V → Prop) (p : V → bool) m (k : pystr) v :
  (∀ k o, P k o o) → (∀ k v, P k (Some v) None) → (∀ o, P k o (Some v)) →
  moves P m (<[k := v]> (delete_all p m)).
Proof.
  intros Hr Hd Hk k'. destruct (decide (k = k')) as [<-|Hn].
  - by rewrite lookup_insert_eq.
  - rewrite lookup_insert_ne by done. by apply (moves_delete_all P p m).
Qed.

Lemma leases_gone (P : pystr → option provider_lease → option provider_lease → Prop) ref c :
  (∀ k o, P k o o) → (∀ k v, P k (Some v) None) →
  moves P (provider_leases c) (provider_leases (drop_leases ref c)).
Proof. intros Hr Hd. apply moves_delete_all; auto. Qed.

(** An operation on the account tables leaves the others alone. *)
Lemma base_step_tables op c o c' :
  base_step op c = (o, c') → ∃ b, c' = with_base b c.
Proof.
  assert (Hc : c = with_base (base c) c) by by destruct c.
  unfold base_step. destruct op; intros H; try (destruct (account_step _ _) as [o' b]);
    injection H as <- <-; eauto.
Qed.

(** ** Leases *)

Inductive pl_move (c : center) (op : center_op) (out : center_out) (k : pystr)
    : option provider_lease → option provider_lease → Prop :=
  | pl_same o : pl_move c op out k o o
  | pl_created o ref an b ca op' t ar e now al g p :
      op = CCreateLease k ref an b ca op' t ar e now al g → out = CoRef (Ok k) →
      provider_profiles c !! ref = Some p → pf_active p = true → owns_profile an al p = true →
      (pf_access_mode p = WORKSPACE_OPERATOR →
       ∃ gr, g = Some gr ∧ al = true ∧ grant_fits gr an p op' e now = true) →
      pl_move c op out k o
        (Some (ProviderLease ref an b ca op' t ar e None (g_connection_ref <$> g)))
  | pl_redeemed l an ca b o t ar now p :
      op = CRedeem k (pl_profile_ref l) an ca b o t ar now → out = CoProfile (Ok p) →
      provider_lease_fits (pl_profile_ref l) an ca b o t ar now l = true →
      pl_move c op out k (Some l) (Some (redeemed_provider now l))
  | pl_gone l : pl_move c op out k (Some l) None.

Lemma pl_moves op c out c' :
  center_step op c = (out, c') →
  moves (pl_move c op out) (provider_leases c) (provider_leases c').
Proof.
  intros H. center_cases H; cbn; other_table.
  all: try (apply moves_delete_all; intros; constructor).
  - apply base_step_tables in H as [b ->]. apply moves_refl. constructor.
  - destruct (_ || _); [|apply moves_refl; constructor].
    match goal with |- moves ?P _ _ => apply (leases_gone P ref (with_profiles _ c)) end; constructor.
  - match goal with Hg : grant_fits ?g _ _ _ _ _ = true |- _ =>
      apply moves_delete_insert; [constructor..|]; intros o;
      eapply (pl_created _ _ _ _ o _ _ _ _ _ _ _ _ _ _ (Some g)); try done end.
    intros Hw. rewrite bool_decide_true in * by done. destruct allow; [by eexists|done].
  - apply moves_delete_insert; [constructor..|]. intros o.
    eapply (pl_created _ _ _ _ o _ _ _ _ _ _ _ _ _ _ None); try done.
    intros Hw. rewrite bool_decide_true in * by done. destruct allow; done.
  - eapply moves_insert; [constructor|eassumption|].
    match goal with Hf : provider_lease_fits _ _ _ _ _ _ _ _ _ = true |- _ =>
      pose proof Hf as Hl; unfold provider_lease_fits in Hl; bools end.
    subst. by eapply pl_redeemed.
Qed.

(** ** Profiles *)

(** What no operation changes of a profile. *)
Record kept_owner (p p' : profile) : Prop := {
  ko_anchor : pf_anchor p' = pf_anchor p;
  ko_provider : pf_provider p' = pf_provider p;
  ko_access : pf_access_mode p' = pf_access_mode p;
  ko_created : pf_created_at p' = pf_created_at p
}.

(** The row still stands for the same identity, and is not active anew. *)
Definition kept_identity (p p' : profile) : Prop :=
  pf_identity_ref p' = pf_identity_ref p ∧ (pf_active p' = true → pf_active p = true).

(** The row that an operation may link to an identity. *)
Definition links (op : center_op) (c : center) : option pystr :=
  match op with
  | CCreateProfile ref _ _ _ _ _ _ _ _ _ _ _ => Some ref
  | CCompleteBili ref _ _ _ _ _ _ _ _ _ => Some ref
  | CCompleteEntra ref _ _ _ _ _ _ _ _ _ _ _ _ => es_profile_ref <$> entra_sessions c !! ref
  | _ => None
  end.

Inductive profile_move (c : center) (op : center_op) (k : pystr)
    : option profile → option profile → Prop :=
  | profile_same o : profile_move c op k o o
  | profile_created p :
      links op c = Some k → pf_active p = true →
      (∀ k' q, provider_profiles c !! k' = Some q → identity_clash p q = false) →
      profile_move c op k None (Some p)
  | profile_changed p p' :
      kept_owner p p' →
      kept_identity p p' ∧ (pf_provider p = P_AZURE_DEVOPS → pf_target_scope_json p' = pf_target_scope_json p)
      ∨ links op c = Some k
        ∧ (∀ k' q, k' ≠ k → provider_profiles c !! k' = Some q → index_clash p' q = false) →
      (pf_provider p = P_AZURE_DEVOPS → kept_identity p p') →
      profile_move c op k (Some p) (Some p').

Lemma profile_kept c op k p p' :
  kept_owner p p' → kept_identity p p' →
  (pf_provider p = P_AZURE_DEVOPS → pf_target_scope_json p' = pf_target_scope_json p) →
  profile_move c op k (Some p) (Some p').
Proof. intros. by apply profile_changed; auto. Qed.

Lemma fetch_delete_none {V} (p : V → bool) (m : gmap pystr V) (k : pystr) :
  fetch_one p (delete k m) = None → ∀ k' q, k' ≠ k → m !! k' = Some q → p q = false.
Proof.
  intros H k' q Hn Hk. eapply fetch_one_none; [exact H|]. by rewrite lookup_delete_ne by done.
Qed.

Lemma bili_profile_ok_ok anchor mode p u :
  bili_profile_ok anchor mode p = Ok u → pf_provider p = P_BILIBILI ∧ pf_access_mode p = mode.
Proof. unfold bili_profile_ok. intros H. by committed. Qed.

Lemma profiles_of_drop (b : bool) ref c :
  provider_profiles (if b then drop_leases ref c else c) = provider_profiles c.
Proof. by destruct b. Qed.

Lemma profile_moves op c out c' :
  center_step op c = (out, c') →
  moves (profile_move c op) (provider_profiles c) (provider_profiles c').
Proof.
  intros H. center_cases H; cbn; other_table.
  all: try by (eapply moves_insert; [constructor|eassumption|apply profile_kept; [by split|by split|done]]).
  - apply base_step_tables in H as [b ->]. apply moves_refl. constructor.
  - apply moves_update_all; [constructor|]. intros k p _. by apply profile_kept; split.
  - eapply moves_insert; [constructor|eassumption|by apply profile_created].
  - eapply moves_insert; [constructor|eassumption|]. apply profile_kept; [by split..|congruence].
  - rewrite profiles_of_drop.
    eapply moves_insert; [constructor|eassumption|]. by apply profile_kept; split.
  - match goal with Hb : bili_profile_ok _ _ _ = Ok _ |- _ => apply bili_profile_ok_ok in Hb as [Hp Hm] end.
    eapply moves_insert; [constructor|eassumption|]. apply profile_changed; [by split|right; split; [done|]|congruence].
    intros k' q Hn Hk'. unfold index_clash.
    match goal with Hf : fetch_one _ _ = None |- _ => by rewrite (fetch_delete_none _ _ _ Hf k' q Hn Hk') end.
  - match goal with Hi : insert_profile _ _ _ = Some _ |- _ => rename Hi into Ei end.
    apply insert_profile_ok in Ei as (? & -> & ?).
    eapply moves_insert; [constructor|eassumption|by apply profile_created].
  - eapply moves_insert; [constructor|eassumption|apply profile_created; try done].
    cbn. match goal with Hs : entra_sessions c !! _ = Some _ |- _ => by rewrite Hs end.
  - unfold upgradable in *. bools.
    eapply moves_insert; [constructor|eassumption|]. apply profile_changed; [by split|right; split|by split].
    { cbn. match goal with Hs : entra_sessions c !! _ = Some _ |- _ => by rewrite Hs end. }
    intros k' q Hn Hk'. by eapply (fetch_delete_none (index_clash _)).
Qed.

(** ** Connector grants *)

(** The operations that prune, and the time they prune at. *)
Definition prune_time (op : center_op) : option Z :=
  match op with
  | CPrune now => Some now
  | CCreateLease _ _ _ _ _ _ _ _ _ now _ _ => Some now
  | _ => None
  end.

Definition uses_grant (op : center_op) (out : center_out) : option pystr :=
  match op, out with
  | CCreateLease _ _ _ _ _ _ _ _ _ _ _ (Some g), CoRef (Ok _) => Some (g_ref g)
  | _, _ => None
  end.

Inductive grant_move (op : center_op) (out : center_out) (k : pystr)
    : option consumed_grant → option consumed_grant → Prop :=
  | grant_same o : grant_move op out k o o
  | grant_consumed o g :
      uses_grant op out = Some k →
      (∀ old now, o = Some old → prune_time op = Some now → g_expires_at (cg_grant old) < now) →
      grant_move op out k o (Some g)
  | grant_gone g now :
      prune_time op = Some now → g_expires_at (cg_grant g) < now → grant_move op out k (Some g) None.

Lemma pruned_grants op out now m :
  prune_time op = Some now →
  moves (grant_move op out) m (delete_all (λ g, g_expires_at (cg_grant g) <? now) m).
Proof.
  intros Hp. apply moves_delete_all; [constructor|]. intros k g Hg. eapply grant_gone; [done|lia].
Qed.

(** A grant that was consumed is there, unless it had expired. *)
Lemma consumed_moves op out now m (k : pystr) g :
  uses_grant op out = Some k → prune_time op = Some now →
  delete_all (λ g, g_expires_at (cg_grant g) <? now) m !! k = None →
  moves (grant_move op out) m (<[k := g]> (delete_all (λ g, g_expires_at (cg_grant g) <? now) m)).
Proof.
  intros Hu Hp Hn k'. destruct (decide (k = k')) as [<-|Hne].
  - rewrite lookup_insert_eq. apply grant_consumed; [done|]. intros old now' Ho Hp'.
    rewrite Hp in Hp'. injection Hp' as <-. eapply deleted_all in Ho; [|exact Hn]. cbn in Ho. lia.
  - rewrite lookup_insert_ne by done. by apply (pruned_grants op out now m).
Qed.

Lemma grant_moves op c out c' :
  center_step op c = (out, c') →
  moves (grant_move op out) (consumed_grants c) (consumed_grants c').
Proof.
  intros H. center_cases H; cbn; other_table.
  all: try by apply pruned_grants.
  - apply base_step_tables in H as [b ->]. apply moves_refl. constructor.
  - destruct (_ || _); apply moves_refl; constructor.
  - by apply consumed_moves.
Qed.

(** ** Link sessions *)

Definition uses_bili (op : center_op) (out : center_out) : option pystr :=
  match op, out with CCompleteBili _ k _ _ _ _ _ _ _ _, CoProfile (Ok _) => Some k | _, _ => None end.
Definition uses_entra (op : center_op) (out : center_out) : option pystr :=
  match op, out with CClaimEntra _ _ _, CoEntra (Ok (k, _)) => Some k | _, _ => None end.

Inductive bili_move (op : center_op) (out : center_out) (k : pystr)
    : option bili_session → option bili_session → Prop :=
  | bili_same o : bili_move op out k o o
  | bili_begun s ref an b ca m e now :
      op = CBeginBili ref k an b ca m e now → out = CoUnit (Ok ()) → bili_move op out k None (Some s)
  | bili_ended s s' : bs_status s' ≠ B_PENDING → bili_move op out k (Some s) (Some s')
  | bili_gone s : bili_move op out k (Some s) None.

Inductive entra_move (op : center_op) (out : center_out) (k : pystr)
    : option entra_session → option entra_session → Prop :=
  | entra_same o : entra_move op out k o o
  | entra_created s pr p f an sd nd cb v sc os ci m e now r :
      op = CCreateEntra k pr p f an sd nd cb v sc os ci m e now r → out = CoUnit (Ok ()) →
      entra_move op out k None (Some s)
  | entra_ended s s' : es_status s' ≠ E_PENDING → entra_move op out k (Some s) (Some s').

Lemma cancel_moves op out ref now m :
  moves (bili_move op out) m (update_all (bili_pending_of ref) (cancel_bili now) m).
Proof. apply moves_update_all; [constructor|]. intros k s _. by apply bili_ended. Qed.

Lemma begun_moves op out ref digest an b ca m e now s sessions :
  op = CBeginBili ref digest an b ca m e now → out = CoUnit (Ok ()) →
  update_all (bili_pending_of ref) (cancel_bili now) sessions !! digest = None →
  moves (bili_move op out) sessions
    (<[digest := s]> (update_all (bili_pending_of ref) (cancel_bili now) sessions)).
Proof.
  intros Hop Hout Hn k. destruct (decide (digest = k)) as [<-|Hne].
  - rewrite lookup_update_all in Hn. apply fmap_None in Hn. rewrite lookup_insert_eq, Hn.
    by eapply bili_begun.
  - rewrite lookup_insert_ne by done. apply cancel_moves.
Qed.

Lemma completed_moves op out ref (digest : pystr) now s sessions :
  sessions !! digest = Some s →
  moves (bili_move op out) sessions
    (update_all (bili_pending_of ref) (cancel_bili now) (<[digest := complete_bili now s]> sessions)).
Proof.
  intros Hs k. rewrite lookup_update_all. destruct (decide (digest = k)) as [<-|Hne].
  - rewrite lookup_insert_eq, Hs. cbn. by destruct (bili_pending_of _ _); apply bili_ended.
  - rewrite lookup_insert_ne by done. rewrite <- lookup_update_all. apply cancel_moves.
Qed.

Lemma bili_moves op c out c' :
  center_step op c = (out, c') →
  moves (bili_move op out) (bili_sessions c) (bili_sessions c').
Proof.
  intros H. center_cases H; cbn; other_table.
  all: try apply cancel_moves.
  all: try (apply moves_delete_all; constructor).
  - apply base_step_tables in H as [b ->]. apply moves_refl. constructor.
  - destruct (_ || _); apply moves_refl; constructor.
  - by eapply begun_moves.
  - by eapply begun_moves.
  - by eapply completed_moves.
  - by eapply completed_moves.
Qed.

Lemma entra_moves op c out c' :
  center_step op c = (out, c') →
  moves (entra_move op out) (entra_sessions c) (entra_sessions c').
Proof.
  intros H. center_cases H; cbn; other_table.
  all: try by (eapply moves_insert; [constructor|eassumption|by apply entra_ended]).
  - apply base_step_tables in H as [b ->]. apply moves_refl. constructor.
  - apply moves_update_all; [constructor|]. intros k s _. by apply entra_ended.
  - destruct (_ || _); apply moves_refl; constructor.
  - eapply moves_insert; [constructor|eassumption|by eapply entra_created].
Qed.

(** ** The account tables *)

(** The operations on the account tables that an operation makes of them. *)
Definition account_ops (op : center_op) (c : center) : list account_op :=
  match op with
  | CBase (APrune _ | ARecover _) => []
  | CBase op => [op]
  | CPrune now => [APrune now]
  | CCreateLease _ _ _ _ _ _ _ _ _ now _ _ => [APrune now]
  | CRecover i _ => [ARecover i]
  | CCreateEntra _ _ _ _ _ _ _ _ _ _ _ _ _ _ _ (Some (k, b)) =>
      match (center_step op c).1 with CoUnit (Ok _) => [AComplete k b] | _ => [] end
  | _ => []
  end.

Lemma base_step_base op c :
  base (base_step op c).2 = final account_step (account_ops (CBase op) c) (base c).
Proof.
  unfold base_step, final. destruct op; try done; cbn [account_ops runs];
    destruct (account_step _ (base c)) as [o b]; done.
Qed.

(** An operation records the result of its command, if it has one. *)
Lemma result_base r d d' :
  command_result r d = Ok d' →
  d' = final account_step (match r with Some (k, b) => [AComplete k b] | None => [] end) d.
Proof.
  destruct r as [[k b]|]; cbn; [|by intros [= <-]]. intros H.
  cbn [final runs account_step]. unfold final, on_fst, complete_idempotent_command, transact. cbn.
  by rewrite H.
Qed.

Lemma entra_base ref pr p f an sd nd cb v sc os ci m e now r c out c' :
  create_entra_session ref pr p f an sd nd cb v sc os ci m e now r c = (out, c') →
  base c' = final account_step
    (match r, out with Some (k, b), Ok _ => [AComplete k b] | _, _ => [] end) (base c).
Proof.
  unfold create_entra_session. destruct (negb _); [by intros [= <- <-]; destruct r as [[]|]|].
  intros H. apply transact_cases in H as [([] & -> & H)|(x & -> & -> & _)]; [|by destruct r as [[]|]].
  inv_result. match goal with Hr : command_result _ _ = Ok _ |- _ => apply result_base in Hr end.
  cbn. by destruct r as [[]|].
Qed.

Lemma other_base op c out c' :
  center_step op c = (out, c') →
  match op with
  | CBase _ | CCreateEntra _ _ _ _ _ _ _ _ _ _ _ _ _ _ _ _ => True
  | CPrune now | CCreateLease _ _ _ _ _ _ _ _ _ now _ _ => base c' = prune_expired now (base c)
  | CRecover i _ => base c' = recover i (base c)
  | _ => base c' = base c
  end.
Proof. intros H. center_cases H; try done. cbn. by destruct (_ || _). Qed.

Lemma center_base op c :
  base (center_step op c).2 = final account_step (account_ops op c) (base c).
Proof.
  pose proof (other_base op c _ _ (surjective_pairing _)) as H.
  destruct op; try apply base_step_base; try done; try exact H.
  cbn [account_ops center_step]. unfold on_fst. destruct (create_entra_session _ _ _ _ _ _ _ _ _ _ _ _ _ _ _ _ _)
    as [o c'] eqn:E. apply entra_base in E. cbn [fst snd]. rewrite E. by destruct result as [[]|], o.
Qed.

(** ** Device renewals *)

(** A session that has not been started has neither a code nor a claim, and one
    that ended has no code. *)
Definition renewal_shape (n : renewal) : Prop :=
  (rn_status n ≠ H_WAITING_USER → dv_code (rn_device n) = None)
  ∧ (rn_status n = H_STARTING → rn_claim n = None).

Inductive renewal_move : option renewal → option renewal → Prop :=
  | renewal_same o : renewal_move o o
  | renewal_begun n : renewal_shape n → renewal_move None (Some n)
  | renewal_moved n n' :
      renewal_open n = true → (renewal_shape n → renewal_shape n') → renewal_move (Some n) (Some n').

Lemma ended_shape st reason now n : st ≠ H_STARTING → renewal_shape (end_renewal st reason now n).
Proof. by split. Qed.

Lemma end_renewals_moves ref st reason now m :
  st ≠ H_STARTING →
  moves (λ _, renewal_move) m
    (update_all (λ n, bool_decide (rn_profile_ref n = ref) && renewal_open n) (end_renewal st reason now) m).
Proof.
  intros Hst. apply moves_update_all; [constructor|]. intros k n Hn. bools.
  apply renewal_moved; [done|]. intros _. by apply ended_shape.
Qed.

Lemma waiting_open n : rn_status n = H_WAITING_USER → renewal_open n = true.
Proof. unfold renewal_open. by intros ->. Qed.
Lemma starting_open n : rn_status n = H_STARTING → renewal_open n = true.
Proof. unfold renewal_open. by intros ->. Qed.
(** A row moves at most once in a restart: a lost start is not waiting. *)
Lemma recover_renewals inst now c :
  moves (λ _, renewal_move) (renewals c) (renewals (recover_center inst now c)).
Proof.
  intros k. cbn. rewrite !lookup_update_all. destruct (renewals c !! k) as [n|]; cbn; [|constructor].
  destruct (bool_decide (rn_status n = H_STARTING) && _) eqn:Hs; cbn.
  - bools. apply renewal_moved; [by apply starting_open|]. intros _. by apply ended_shape.
  - destruct (bool_decide (rn_status n = H_WAITING_USER) && _) eqn:Hw; [|constructor].
    bools. apply renewal_moved; [by apply waiting_open|]. intros _. by apply ended_shape.
Qed.

Lemma start_lost_open now n : start_lost now n = true → renewal_open n = true.
Proof. unfold start_lost. intros. bools. by apply starting_open. Qed.

Lemma lost_shape now n : renewal_shape n → start_lost now n = true → renewal_shape (lose_start now n).
Proof. unfold start_lost. intros [Hd _] H. bools. split; [intros _; apply Hd; congruence|done]. Qed.

#[export] Hint Resolve waiting_open starting_open start_lost_open lost_shape ended_shape : renewals.

Lemma renewal_put (m : gmap pystr renewal) (ref : pystr) n n' :
  m !! ref = Some n → renewal_open n = true → (renewal_shape n → renewal_shape n') →
  moves (λ _, renewal_move) m (<[ref := n']> m).
Proof. intros. eapply moves_insert; [constructor|eassumption|by apply renewal_moved]. Qed.

Lemma renewal_moves op c out c' :
  center_step op c = (out, c') →
  moves (λ _, renewal_move) (renewals c) (renewals c').
Proof.
  intros H. center_cases H; cbn; other_table.
  all: try by apply end_renewals_moves.
  all: try apply recover_renewals.
  all: try (eapply renewal_put; [eassumption|by eauto with renewals|]).
  all: try by (intros [? ?]; split; cbn; eauto with renewals; congruence).
  all: try by auto with renewals.
  - apply base_step_tables in H as [b ->]. apply moves_refl. constructor.
  - destruct (_ || _); apply moves_refl; constructor.
  - eapply moves_insert; [constructor|eassumption|by apply renewal_begun].
Qed.
