(* ===== verification/ProfileLaws.v ===== *)
(** * Account center: properties of profiles and of the whole store

    Rights on profiles are used at most once, active profiles of one external
    identity have one owner, a credential reaches another actor only under a
    fresh grant, and the account tables of the whole store behave as the
    account machine does. *)

From Stdlib Require Import ZArith NArith.
From S2P Require Import Prelude PyText ReplayGuard AccountStore AccountFacts AccountLaws AccountProps.
From S2P Require Import ProfileStore ProfileSessions ProfileMachine ProfileFacts.

#[local] Open Scope Z_scope.

Abbreviation crun ops c := (final center_step ops c).

Lemma center_eq op c : center_step op c = (fst (center_step op c), snd (center_step op c)).
Proof. apply surjective_pairing. Qed.

Lemma crun_snoc ops op c : crun (ops ++ [op]) c = snd (center_step op (crun ops c)).
Proof. by rewrite final_app, final_cons. Qed.

(** ** The operations that use a right *)

Definition redeems_provider (op : center_op) (out : center_out) : option pystr :=
  match op, out with CRedeem k _ _ _ _ _ _ _ _, CoProfile (Ok _) => Some k | _, _ => None end.

Lemma redeem_profile_ok op c k :
  redeems_provider op (center_step op c).1 = Some k →
  ∃ l an ca b o t ar now p,
    op = CRedeem k (pl_profile_ref l) an ca b o t ar now ∧ (center_step op c).1 = CoProfile (Ok p)
    ∧ provider_leases c !! k = Some l
    ∧ provider_lease_fits (pl_profile_ref l) an ca b o t ar now l = true
    ∧ provider_profiles c !! pl_profile_ref l = Some p ∧ pf_active p = true
    ∧ owns_profile an true p = true ∧ pf_auth_status p = A_HEALTHY
    ∧ provider_leases (center_step op c).2 !! k = Some (redeemed_provider now l).
Proof.
  pose proof (center_eq op c) as H. revert H.
  generalize (fst (center_step op c)), (snd (center_step op c)). intros out c' H.
  center_cases H; cbn; try discriminate; simplify_eq.
  match goal with Hf : provider_lease_fits _ _ _ _ _ _ _ _ _ = true |- _ =>
    pose proof Hf as Hl; unfold provider_lease_fits in Hl; bools end. subst.
  do 9 eexists. split_and!; try done. apply lookup_insert_eq.
Qed.

Lemma use_grant_ok op c k :
  uses_grant op (center_step op c).1 = Some k →
  ∃ now, prune_time op = Some now
  ∧ (∀ g, consumed_grants c !! k = Some g → g_expires_at (cg_grant g) < now)
  ∧ is_Some (consumed_grants (center_step op c).2 !! k).
Proof.
  pose proof (center_eq op c) as H. revert H.
  generalize (fst (center_step op c)), (snd (center_step op c)). intros out c' H.
  center_cases H; cbn; try discriminate; simplify_eq.
  - eexists. rewrite lookup_insert_eq. split_and!; [done| |done]. intros g Hg.
    match goal with Hn : delete_all _ (consumed_grants c) !! _ = None |- _ =>
      eapply deleted_all in Hg; [|exact Hn] end. cbn in Hg. lia.
  - by destruct grant.
Qed.

Lemma use_bili_ok op c k :
  uses_bili op (center_step op c).1 = Some k →
  ∃ s, bili_sessions c !! k = Some s ∧ bs_status s = B_PENDING
    ∧ ∀ s', bili_sessions (center_step op c).2 !! k = Some s' → bs_status s' ≠ B_PENDING.
Proof.
  pose proof (center_eq op c) as H. revert H.
  generalize (fst (center_step op c)), (snd (center_step op c)). intros out c' H.
  center_cases H; cbn; try discriminate; simplify_eq; unfold bili_session_fits in *; bools.
  all: eexists; split_and!; [eassumption|done|]; intros s' Hs; cbn in Hs;
    rewrite lookup_update_all, lookup_insert_eq in Hs; cbn in Hs.
  all: by destruct (bili_pending_of _ _); injection Hs as <-.
Qed.

Lemma use_entra_ok op c k :
  uses_entra op (center_step op c).1 = Some k →
  ∃ s, entra_sessions c !! k = Some s ∧ es_status s = E_PENDING
    ∧ ∀ s', entra_sessions (center_step op c).2 !! k = Some s' → es_status s' ≠ E_PENDING.
Proof.
  pose proof (center_eq op c) as H. revert H.
  generalize (fst (center_step op c)), (snd (center_step op c)). intros out c' H.
  center_cases H; cbn; try discriminate; simplify_eq; unfold entra_live in *; bools.
  eexists; split_and!; [eassumption|done|]. intros s' Hs. rewrite lookup_insert_eq in Hs. by injection Hs as <-.
Qed.

(** How a row moves in a step. *)
Lemma pl_moved op c k :
  pl_move c op (center_step op c).1 k (provider_leases c !! k) (provider_leases (center_step op c).2 !! k).
Proof. apply pl_moves, center_eq. Qed.
Lemma grant_moved op c k :
  grant_move op (center_step op c).1 k (consumed_grants c !! k) (consumed_grants (center_step op c).2 !! k).
Proof. apply grant_moves, center_eq. Qed.
Lemma bili_moved op c k :
  bili_move op (center_step op c).1 k (bili_sessions c !! k) (bili_sessions (center_step op c).2 !! k).
Proof. apply bili_moves, center_eq. Qed.
Lemma entra_moved op c k :
  entra_move op (center_step op c).1 k (entra_sessions c !! k) (entra_sessions (center_step op c).2 !! k).
Proof. apply entra_moves, center_eq. Qed.
Lemma profile_moved op c k :
  profile_move c op k (provider_profiles c !! k) (provider_profiles (center_step op c).2 !! k).
Proof. eapply profile_moves, center_eq. Qed.

(** ** Rights that are used at most once *)

Record provider_lease_key := ProviderLeaseKey { provider_lease_key_of : pystr }.
Record grant_key := GrantKey { grant_key_of : pystr }.
Record bili_key := BiliKey { bili_key_of : pystr }.
Record entra_key := EntraKey { entra_key_of : pystr }.
#[export] Instance provider_lease_key_eq_dec : EqDecision provider_lease_key. Proof. solve_decision. Defined.
#[export] Instance grant_key_eq_dec : EqDecision grant_key. Proof. solve_decision. Defined.
#[export] Instance bili_key_eq_dec : EqDecision bili_key. Proof. solve_decision. Defined.
#[export] Instance entra_key_eq_dec : EqDecision entra_key. Proof. solve_decision. Defined.

Definition creates_provider_lease (op : center_op) (c : center) (k : pystr) : bool :=
  match op, (center_step op c).1 with
  | CCreateLease _ _ _ _ _ _ _ _ _ _ _ _, CoRef (Ok r) => bool_decide (r = k)
  | _, _ => false
  end.
Definition forgets_grant (op : center_op) (c : center) (k : pystr) : bool :=
  match prune_time op, consumed_grants c !! k with
  | Some now, Some g => g_expires_at (cg_grant g) <? now
  | _, _ => false
  end.
Definition begins_bili (op : center_op) (c : center) (k : pystr) : bool :=
  match op, (center_step op c).1 with
  | CBeginBili _ r _ _ _ _ _ _, CoUnit (Ok _) => bool_decide (r = k)
  | _, _ => false
  end.
Definition creates_entra (op : center_op) (c : center) (k : pystr) : bool :=
  match op, (center_step op c).1 with
  | CCreateEntra r _ _ _ _ _ _ _ _ _ _ _ _ _ _ _, CoUnit (Ok _) => bool_decide (r = k)
  | _, _ => false
  end.

#[export] Instance provider_lease_guard : ReplayGuard center center_op center_out provider_lease_key := {
  guard_step := center_step;
  granted op out := ProviderLeaseKey <$> redeems_provider op out;
  releases op c k := creates_provider_lease op c (provider_lease_key_of k);
  held c k := ∀ l, provider_leases c !! provider_lease_key_of k = Some l → pl_redeemed_at l ≠ None
}.
#[export] Instance grant_guard : ReplayGuard center center_op center_out grant_key := {
  guard_step := center_step;
  granted op out := GrantKey <$> uses_grant op out;
  releases op c k := forgets_grant op c (grant_key_of k);
  held c k := is_Some (consumed_grants c !! grant_key_of k)
}.
#[export] Instance bili_guard : ReplayGuard center center_op center_out bili_key := {
  guard_step := center_step;
  granted op out := BiliKey <$> uses_bili op out;
  releases op c k := begins_bili op c (bili_key_of k);
  held c k := ∀ s, bili_sessions c !! bili_key_of k = Some s → bs_status s ≠ B_PENDING
}.
#[export] Instance entra_guard : ReplayGuard center center_op center_out entra_key := {
  guard_step := center_step;
  granted op out := EntraKey <$> uses_entra op out;
  releases op c k := creates_entra op c (entra_key_of k);
  held c k := ∀ s, entra_sessions c !! entra_key_of k = Some s → es_status s ≠ E_PENDING
}.

#[export] Instance provider_lease_guard_laws : ReplayGuardLaws provider_lease_guard (λ _, True).
Proof.
  split; cbn; [done|..]; intros op c k _.
  - intros H l Hl. guard_grant H.
    destruct (redeem_profile_ok _ _ _ H) as (?&?&?&?&?&?&?&?&?&_&_&_&_&_&_&_&_&Hk).
    rewrite Hk in Hl. by injection Hl as <-.
  - intros Hh Hr. revert Hh. unfold creates_provider_lease in Hr.
    destruct (pl_moved op c (provider_lease_key_of k)) as [| ????????????? Hop Hout| |]; intros Hh l2 Hl; simplify_eq/=.
    + by apply Hh.
    + rewrite Hout in Hr. by bools.
    + done.
  - intros Hh _ H. guard_grant H.
    destruct (redeem_profile_ok _ _ _ H) as (l&?&?&?&?&?&?&?&?&_&_&Hk&Hf&_). apply (Hh _ Hk).
    unfold provider_lease_fits in Hf. by bools.
Qed.

#[export] Instance grant_guard_laws : ReplayGuardLaws grant_guard (λ _, True).
Proof.
  split; cbn; [done|..]; intros op c k _.
  - intros H. guard_grant H. by destruct (use_grant_ok _ _ _ H) as (? & _ & _ & ?).
  - intros Hh Hr. revert Hh Hr. unfold forgets_grant.
    destruct (grant_moved op c (grant_key_of k)) as [| |g now Hp]; intros Hh Hr; [done..|].
    rewrite Hp in Hr. lia.
  - intros [g Hg] Hr H. guard_grant H. destruct (use_grant_ok _ _ _ H) as (now & Hp & He & _).
    unfold forgets_grant in Hr. rewrite Hp, Hg in Hr. apply He in Hg. lia.
Qed.

#[export] Instance bili_guard_laws : ReplayGuardLaws bili_guard (λ _, True).
Proof.
  split; cbn; [done|..]; intros op c k _.
  - intros H s Hs. guard_grant H. destruct (use_bili_ok _ _ _ H) as (? & _ & _ & Hk). by apply Hk.
  - intros Hh Hr. revert Hh. unfold begins_bili in Hr.
    destruct (bili_moved op c (bili_key_of k)) as [| ???????? Hop Hout| |]; intros Hh s2 Hs; simplify_eq/=;
      [by apply Hh| |done].
    rewrite Hout in Hr. by bools.
  - intros Hh _ H. guard_grant H. destruct (use_bili_ok _ _ _ H) as (s & Hk & Hp & _). by apply (Hh _ Hk).
Qed.

#[export] Instance entra_guard_laws : ReplayGuardLaws entra_guard (λ _, True).
Proof.
  split; cbn; [done|..]; intros op c k _.
  - intros H s Hs. guard_grant H. destruct (use_entra_ok _ _ _ H) as (? & _ & _ & Hk). by apply Hk.
  - intros Hh Hr. revert Hh. unfold creates_entra in Hr.
    destruct (entra_moved op c (entra_key_of k)) as [| ???????????????? Hop Hout|]; intros Hh s2 Hs;
      simplify_eq/=; [by apply Hh| |done].
    rewrite Hout in Hr. by bools.
  - intros Hh _ H. guard_grant H. destruct (use_entra_ok _ _ _ H) as (s & Hk & Hp & _). by apply (Hh _ Hk).
Qed.

(** Every right on profiles is used at most as often as it was given.
    Along any interleaving of all operations of the store from an empty
    database: a provider lease is redeemed, a Bilibili session is completed and
    an Entra session is claimed at most as often as one was created under that
    reference; and from any state the proof of a connector grant opens one
    lease, and one more for each time its row was pruned after it had
    expired. *)
Lemma profile_rights_used_once (k : pystr) (ops : list center_op) :
  (grants (ProviderLeaseKey k) ops empty_center <= release_count (ProviderLeaseKey k) ops empty_center)%nat
  ∧ (grants (BiliKey k) ops empty_center <= release_count (BiliKey k) ops empty_center)%nat
  ∧ (grants (EntraKey k) ops empty_center <= release_count (EntraKey k) ops empty_center)%nat
  ∧ (∀ c, grants (GrantKey k) ops c <= 1 + release_count (GrantKey k) ops c)%nat.
Proof.
  split_and!; intros; by apply (grants_bounded (inv := λ _, True)).
Qed.

(** ** The account tables of the whole store *)

(** The operations on the account tables along a run. *)
Fixpoint account_trace (ops : list center_op) (c : center) : list account_op :=
  match ops with
  | [] => []
  | op :: ops => account_ops op c ++ account_trace ops (center_step op c).2
  end.

(** The answers of the operations on the account tables. *)
Definition base_answers (outs : list center_out) : list account_out :=
  omap (λ o, match o with CoBase o => Some o | _ => None end) outs.

Lemma answers_app {St Op Out} (step : Op → St → Out * St) ops1 ops2 s :
  (runs step (ops1 ++ ops2) s).1 = (runs step ops1 s).1 ++ (runs step ops2 (final step ops1 s)).1.
Proof.
  revert s. induction ops1 as [|op ops1 IH]; intros s; [done|].
  rewrite final_cons. cbn. specialize (IH (step op s).2). destruct (step op s) as [o s1]. cbn in IH.
  destruct (runs step (ops1 ++ ops2) s1), (runs step ops1 s1). cbn in *. by rewrite IH.
Qed.

Lemma answers_cons {St Op Out} (step : Op → St → Out * St) op ops s :
  (runs step (op :: ops) s).1 = (step op s).1 :: (runs step ops (step op s).2).1.
Proof. cbn. destruct (step op s) as [o s1]. cbn. by destruct (runs step ops s1). Qed.

Lemma base_answered op c :
  base_answers [(center_step op c).1] `sublist_of` (runs account_step (account_ops op c) (base c)).1.
Proof.
  destruct op; try apply sublist_nil_l. cbn [center_step account_ops]. unfold base_step.
  destruct op; try apply sublist_nil_l; rewrite answers_cons; destruct (account_step _ _); done.
Qed.

