(* ===== verification/ProfileProps.v ===== *)
(** * Account center: lifetimes of profiles

    What follows from the moves over whole runs: who a credential of a provider
    profile is disclosed to, that an external identity has one owner, and that a
    device renewal ends for good. *)

From Stdlib Require Import ZArith NArith.
From S2P Require Import Prelude PyText ReplayGuard AccountStore AccountFacts AccountLaws AccountProps.
From S2P Require Import ProfileStore ProfileSessions ProfileMachine ProfileFacts ProfileLaws.

#[local] Open Scope Z_scope.

(** ** The owner of a profile *)

#[export] Instance kept_owner_preorder : PreOrder kept_owner.
Proof.
  split; [by split|]. intros a b c [] []. split; congruence.
Qed.

Lemma profile_kept_step op c k p :
  provider_profiles c !! k = Some p →
  ∃ p', provider_profiles (center_step op c).2 !! k = Some p' ∧ kept_owner p p'.
Proof.
  destruct (profile_moved op c k) as [o|p1|p1 p2 Hk]; intros Hp; simplify_eq; eexists; (split; [done|]); done.
Qed.

Lemma profile_kept_run ops c k p :
  provider_profiles c !! k = Some p →
  ∃ p', provider_profiles (crun ops c) !! k = Some p' ∧ kept_owner p p'.
Proof.
  intros Hp. apply (final_inv center_step (λ c', ∃ p', provider_profiles c' !! k = Some p' ∧ kept_owner p p')).
  - intros op c' (p1 & H1 & K1). destruct (profile_kept_step op c' k p1 H1) as (p2 & H2 & K2).
    exists p2. split; [done|by etrans].
  - by exists p.
Qed.

(** ** Disclosures *)

(** A lease of the profile under [k] is within what was granted. *)
Definition granted_lease (k : pystr) (l : provider_lease) (op : center_op) (c : center) : Prop :=
  ∃ e t al g p,
    op = CCreateLease k (pl_profile_ref l) (pl_anchor l) (pl_binding_id l) (pl_caller_id l)
           (pl_operation_id l) (pl_target_json l) (pl_arguments_sha256 l) e t al g
    ∧ (create_provider_lease k (pl_profile_ref l) (pl_anchor l) (pl_binding_id l) (pl_caller_id l)
         (pl_operation_id l) (pl_target_json l) (pl_arguments_sha256 l) e t al g c).1 = Ok k
    ∧ e = pl_expires_at l
    ∧ provider_profiles c !! pl_profile_ref l = Some p ∧ pf_active p = true
    ∧ owns_profile (pl_anchor l) al p = true
    ∧ (pf_access_mode p = WORKSPACE_OPERATOR →
       ∃ gr, g = Some gr ∧ al = true ∧ grant_fits gr (pl_anchor l) p (pl_operation_id l) e t = true).

(** An unredeemed lease was created by an earlier operation, as it is. *)
Lemma provider_lease_history ops k l :
  provider_leases (crun ops empty_center) !! k = Some l → pl_redeemed_at l = None →
  ∃ ops1 op ops2, ops = ops1 ++ op :: ops2 ∧ granted_lease k l op (crun ops1 empty_center).
Proof.
  revert l. induction ops as [|op ops IH] using rev_ind; intros l; [done|].
  rewrite crun_snoc. revert IH.
  destruct (pl_moved op (crun ops empty_center) k)
    as [o|o ref an b ca op' t ar e now al g p Hop Hout Hp Ha Ho Hg| |]; intros IH Hl Hu; simplify_eq/=.
  - destruct (IH l eq_refl Hu) as (ops1 & op1 & ops2 & -> & Hx). exists ops1, op1, (ops2 ++ [op]).
    by rewrite <- app_assoc.
  - eexists ops, _, []. split; [done|]. unfold granted_lease. cbn [pl_profile_ref pl_anchor pl_binding_id
      pl_caller_id pl_operation_id pl_target_json pl_arguments_sha256 pl_expires_at].
    exists e, now, al, g, p. by split_and!.
Qed.

Lemma redeem_provider_answer k ref an ca b o t ar now c p :
  (redeem_provider_lease k ref an ca b o t ar now c).1 = Ok p →
  ∃ l, provider_leases c !! k = Some l ∧ provider_lease_fits ref an ca b o t ar now l = true
    ∧ provider_profiles c !! ref = Some p ∧ pf_active p = true ∧ owns_profile an true p = true
    ∧ pf_auth_status p = A_HEALTHY.
Proof.
  destruct (redeem_provider_lease _ _ _ _ _ _ _ _ _ _) as [o1 c1] eqn:H. cbn. intros ->.
  unfold redeem_provider_lease in H. apply transact_cases in H as [(? & [= <-] & H)|(? & [=] & _)].
  committed_center. by eexists.
Qed.

(** Who may use a profile, and its lease: the owner, or the owner's workspace. *)
Lemma owns_shared an p :
  owns_profile an true p = true →
  pf_anchor p = an
  ∨ pf_access_mode p = WORKSPACE_OPERATOR ∧ issuer (pf_anchor p) = issuer an
    ∧ organization_id (pf_anchor p) = organization_id an
    ∧ workspace_id (pf_anchor p) = workspace_id an ∧ workspace_id an ≠ None.
Proof.
  unfold owns_profile. intros H. apply orb_true_iff in H as [H|H]; bools; [by left|right].
  split_and!; try done. congruence.
Qed.

(** C27. A provider credential is disclosed only as its owner or a fresh grant
    allowed.  If [redeem_provider_lease] gives out a profile in a run from an
    empty database, then an earlier [create_provider_lease] under the same
    anchor issued exactly this lease, for this binding, caller, operation,
    target and arguments, and it has not expired; the profile is active and
    healthy and of the anchor, or shared in the anchor's own workspace; and if
    it is shared, the creation presented a connector grant for this provider and
    operation that was issued less than 15 seconds before the credential is
    given out. *)
Theorem provider_disclosure_authorised ops k ref an caller binding o target ar now p :
  (redeem_provider_lease k ref an caller binding o target ar now (crun ops empty_center)).1 = Ok p →
  provider_profiles (crun ops empty_center) !! ref = Some p
  ∧ pf_active p = true ∧ pf_auth_status p = A_HEALTHY
  ∧ (pf_anchor p = an
     ∨ pf_access_mode p = WORKSPACE_OPERATOR ∧ issuer (pf_anchor p) = issuer an
       ∧ organization_id (pf_anchor p) = organization_id an
       ∧ workspace_id (pf_anchor p) = workspace_id an ∧ workspace_id an ≠ None)
  ∧ ∃ ops1 ops2 e t al g,
      ops = ops1 ++ CCreateLease k ref an binding caller o target ar e t al g :: ops2
      ∧ (create_provider_lease k ref an binding caller o target ar e t al g (crun ops1 empty_center)).1 = Ok k
      ∧ now < e
      ∧ (pf_access_mode p = WORKSPACE_OPERATOR →
         ∃ gr, g = Some gr ∧ al = true ∧ g_provider gr = pf_provider p ∧ g_operation_id gr = o
           ∧ g_issued_at gr <= t < g_expires_at gr ∧ now < g_issued_at gr + 15).
Proof.
  intros H. apply redeem_provider_answer in H as (l & Hl & Hf & Hp & Ha & Ho & Hh).
  unfold provider_lease_fits in Hf. split_and!; [done..|by apply owns_shared|]. bools.
  destruct (provider_lease_history ops k l Hl) as (ops1 & op & ops2 & -> & e & t & al & g & p0 & -> & Hc & -> &
    Hp0 & _ & _ & Hg); [done|].
  destruct (profile_kept_run (CCreateLease k (pl_profile_ref l) (pl_anchor l) (pl_binding_id l)
    (pl_caller_id l) (pl_operation_id l) (pl_target_json l) (pl_arguments_sha256 l) (pl_expires_at l) t al g
    :: ops2) _ _ _ Hp0) as (p1 & Hp1 & K).
  rewrite <- final_app in Hp1. subst. rewrite Hp in Hp1. injection Hp1 as <-.
  exists ops1, ops2, (pl_expires_at l), t, al, g. split_and!; [done|done|lia|]. intros Hw.
  destruct Hg as (gr & -> & -> & Hg); [by rewrite <- (ko_access _ _ K)|].
  unfold grant_fits in Hg. bools. exists gr. rewrite (ko_provider _ _ K). split_and!; try done; lia.
Qed.

(** ** External identities *)

Lemma clash_right p q q' :
  kept_owner q q' → kept_identity q q' →
  (pf_provider q = P_AZURE_DEVOPS → pf_target_scope_json q' = pf_target_scope_json q) →
  identity_clash p q = false → identity_clash p q' = false.
Proof.
  intros [Ka Kp _ _] [Ki Kact] Ks. unfold identity_clash, index_clash, trigger_clash, identity_row.
  rewrite Ka, Kp, Ki. destruct (pf_active q') eqn:Hq; [|done]. rewrite Kact by done.
  case_bool_decide as Hp; cbn; [|done]. destruct (pf_provider p); try done.
  by rewrite Ks.
Qed.

Lemma clash_left p p' q :
  kept_owner p p' → pf_identity_ref p' = pf_identity_ref p →
  (pf_provider p = P_AZURE_DEVOPS → pf_target_scope_json p' = pf_target_scope_json p) →
  identity_clash p q = false → identity_clash p' q = false.
Proof.
  intros [Ka Kp _ _] Ki Ks. unfold identity_clash, index_clash, trigger_clash, identity_row.
  rewrite Ka, Kp, Ki. destruct (pf_provider p); try done. by rewrite Ks.
Qed.

(** The providers of the index [provider_external_identity]. *)
Definition exclusive (provider : profile_provider) : bool :=
  match provider with
  | P_GITHUB | P_HUGGINGFACE | P_MICROSOFT_GRAPH | P_BILIBILI => true
  | _ => false
  end.

(** Two active rows that stand for one identity, in the words of the schema. *)
Lemma clash_spec p q :
  pf_active q = true →
  identity_clash p q = false ↔
  (pf_provider q = pf_provider p → pf_identity_ref q = pf_identity_ref p →
   organization_id (pf_anchor q) = organization_id (pf_anchor p) →
   exclusive (pf_provider p) = false
   ∧ (pf_provider p = P_AZURE_DEVOPS →
      pf_target_scope_json q ≠ pf_target_scope_json p ∧ pf_anchor q = pf_anchor p)).
Proof.
  intros Ha. unfold identity_clash, index_clash, trigger_clash, identity_row. rewrite Ha. cbn.
  do 3 (case_bool_decide; cbn; [|split; [by intros _ ???|done]]).
  unfold exclusive. destruct (pf_provider p); repeat case_bool_decide; naive_solver.
Qed.

Lemma clash_sym p q :
  pf_active p = true → pf_active q = true → identity_clash p q = false → identity_clash q p = false.
Proof.
  intros Hp Hq H. apply clash_spec; [done|]. rewrite (clash_spec p q Hq) in H. intros Ep Ei Eo.
  destruct H as [H1 H2]; [done..|]. rewrite <- Ep. split; [done|]. intros Hd. destruct (H2 Hd). by split.
Qed.

Definition profiles_apart (c : center) : Prop :=
  ∀ k1 k2 p1 p2, k1 ≠ k2 → provider_profiles c !! k1 = Some p1 → provider_profiles c !! k2 = Some p2 →
    pf_active p1 = true → pf_active p2 = true → identity_clash p1 p2 = false.

(** An active row after a step: an old active one that stands for the same
    identity, or the one that was linked and clashes with no other old row. *)
Lemma profile_origin op c k p :
  profiles_apart c → provider_profiles (center_step op c).2 !! k = Some p → pf_active p = true →
  (∃ p0, provider_profiles c !! k = Some p0 ∧ kept_owner p0 p ∧ kept_identity p0 p
     ∧ (pf_provider p0 = P_AZURE_DEVOPS → pf_target_scope_json p = pf_target_scope_json p0))
  ∨ links op c = Some k
    ∧ ∀ k' q, k' ≠ k → provider_profiles c !! k' = Some q → pf_active q = true → identity_clash p q = false.
Proof.
  intros U. pose proof (profile_moved op c k) as M. remember (provider_profiles c !! k) as o1 eqn:Ho1.
  destruct M as [o|p1 Hl Ha Hc|p1 p2 Hk [[Hi Hs]|[Hl Hc]] Ht]; intros Hp Hact; simplify_eq.
  - left. exists p. split_and!; done.
  - right. eauto.
  - left. by exists p1.
  - right. split; [done|]. intros k' q Hn Hq Haq. unfold identity_clash. rewrite (Hc k' q) by done. cbn.
    destruct (decide (pf_provider p1 = P_AZURE_DEVOPS)) as [Hd|Hd].
    + destruct (Ht Hd) as [Hi Hia]. assert (H : identity_clash p1 q = false) by (eapply (U k k'); eauto; congruence).
      apply orb_false_iff in H as [_ H]. revert H. unfold trigger_clash, identity_row.
      by rewrite Hi, (ko_anchor _ _ Hk), (ko_provider _ _ Hk).
    + unfold trigger_clash. rewrite (ko_provider _ _ Hk), (bool_decide_false _ Hd). by rewrite andb_false_r.
Qed.

Lemma profiles_apart_step op c : profiles_apart c → profiles_apart (center_step op c).2.
Proof.
  intros U k1 k2 p1 p2 Hn H1 H2 A1 A2.
  pose proof (profile_origin op c k1 p1 U H1 A1) as O1. pose proof (profile_origin op c k2 p2 U H2 A2) as O2.
  destruct O1 as [(q1 & Q1 & K1 & I1 & S1)|[L1 C1]], O2 as [(q2 & Q2 & K2 & I2 & S2)|[L2 C2]].
  - apply (clash_right _ q2); [done..|]. apply (clash_left q1); [done|apply I1|done|].
    by eapply (U k1 k2); eauto; [apply I1|apply I2].
  - apply clash_sym; [done..|]. apply (clash_right _ q1); [done..|]. by eapply (C2 k1); eauto; apply I1.
  - apply (clash_right _ q2); [done..|]. eapply (C1 k2); eauto. by apply I2.
  - congruence.
Qed.

(** C28. An external identity of a provider profile has one owner.  In every run
    from an empty database, two active profiles of one provider, external
    identity and organisation are the same profile for GitHub, Hugging Face,
    Microsoft Graph and Bilibili; for Azure DevOps they have one owner, and are
    the same if their target is; and no operation ever changes the owner,
    provider or access mode of a profile. *)
Theorem profile_identity_owned ops :
  (∀ k1 k2 p1 p2,
    provider_profiles (crun ops empty_center) !! k1 = Some p1 →
    provider_profiles (crun ops empty_center) !! k2 = Some p2 →
    pf_active p1 = true → pf_active p2 = true →
    pf_provider p2 = pf_provider p1 → pf_identity_ref p2 = pf_identity_ref p1 →
    organization_id (pf_anchor p2) = organization_id (pf_anchor p1) →
    (exclusive (pf_provider p1) = true → k1 = k2)
    ∧ (pf_provider p1 = P_AZURE_DEVOPS →
       pf_anchor p2 = pf_anchor p1
       ∧ (pf_target_scope_json p2 = pf_target_scope_json p1 → k1 = k2)))
  ∧ ∀ ops' k p, provider_profiles (crun ops empty_center) !! k = Some p →
      ∃ p', provider_profiles (crun ops' (crun ops empty_center)) !! k = Some p'
        ∧ pf_anchor p' = pf_anchor p ∧ pf_provider p' = pf_provider p
        ∧ pf_access_mode p' = pf_access_mode p.
Proof.
  split.
  - intros k1 k2 p1 p2 H1 H2 A1 A2 Ep Ei Eo. destruct (decide (k1 = k2)) as [<-|Hn].
    { assert (p1 = p2) as -> by congruence. by split. }
    assert (U : profiles_apart (crun ops empty_center)).
    { apply (final_inv center_step profiles_apart); [intros op c; apply profiles_apart_step|].
      intros ? ? ? ? _ Hk. cbn in Hk. by rewrite lookup_empty in Hk. }
    specialize (U k1 k2 p1 p2 Hn H1 H2 A1 A2). apply clash_spec in U as [U1 U2]; [|done..].
    split; [congruence|]. intros Hd. destruct (U2 Hd). by split.
  - intros ops' k p Hk. destruct (profile_kept_run ops' _ k p Hk) as (p' & Hp' & []). eauto.
Qed.

(** ** Device renewals *)

Lemma renewal_moved_step op c (k : pystr) :
  renewal_move (renewals c !! k) (renewals (center_step op c).2 !! k).
Proof. apply (renewal_moves op c _ _ (surjective_pairing _)). Qed.

Definition renewals_shaped (c : center) : Prop :=
  ∀ k n, renewals c !! k = Some n → renewal_shape n.

Lemma renewals_shaped_step op c : renewals_shaped c → renewals_shaped (center_step op c).2.
Proof.
  intros S k n. specialize (S k). revert S.
  destruct (renewal_moved_step op c k); intros S Hn; simplify_eq; eauto.
Qed.

Lemma renewal_stays ops c (k : pystr) n :
  renewals c !! k = Some n → renewal_open n = false → renewals (crun ops c) !! k = Some n.
Proof.
  intros Hn Ho. apply (final_inv center_step (λ c', renewals c' !! k = Some n)); [|done].
  intros op c' Hk. revert Hk. destruct (renewal_moved_step op c' k); intros Hk; simplify_eq; [done|congruence].
Qed.

(** C29. A device renewal ends for good.  In every run from an empty database, a
    renewal session that has ended (succeeded, failed, expired, cancelled or of
    unknown outcome) keeps no device code, and whatever operations of whichever
    process follow, a restart among them, its row stays as it is: it is never
    claimed, and no tokens are stored under it. *)
Theorem renewal_ends_for_good ops k n :
  renewals (crun ops empty_center) !! k = Some n → renewal_open n = false →
  dv_code (rn_device n) = None
  ∧ ∀ ops', let c := crun ops' (crun ops empty_center) in
    renewals c !! k = Some n
    ∧ (∀ inst an cl now stale r, (claim_renewal_poll inst k an cl now stale c).1 ≠ Ok (r, Some cl))
    ∧ (∀ inst an cl b rf e re sc su now,
        complete_renewal inst k an cl b rf e re sc su now c = (Err renewal_poll_claim_lost, c)).
Proof.
  intros Hn Ho. assert (S : renewals_shaped (crun ops empty_center)).
  { apply (final_inv center_step renewals_shaped); [intros op c; apply renewals_shaped_step|].
    intros k' n'. cbn. by rewrite lookup_empty. }
  assert (Hw : rn_status n ≠ H_WAITING_USER) by (intros Hw; by rewrite waiting_open in Ho).
  assert (Hs : rn_status n ≠ H_STARTING) by (intros Hs; by rewrite starting_open in Ho).
  split; [by apply (S k n Hn)|]. intros ops' c.
  assert (Hk : renewals c !! k = Some n) by by apply renewal_stays.
  split_and!; [done|..]; intros.
  - unfold claim_renewal_poll, transact, find_renewal, start_lost. rewrite Hk. cbn.
    destruct (bool_decide (rn_anchor n = an)); [|done]. cbn.
    by rewrite (bool_decide_false _ Hs), (bool_decide_false _ Hw).
  - unfold complete_renewal, transact, held_renewal, poll_held. rewrite Hk. cbn.
    rewrite (bool_decide_false _ Hw). by rewrite andb_false_r.
Qed.
