(* ===== verification/ProfileExamples.v ===== *)
(** * Account center: concrete runs with profiles

    A profile that a workspace shares, leased under a connector grant, two
    Azure DevOps profiles of one identity, and a device renewal that fails. *)

From Stdlib Require Import ZArith NArith.
From S2P Require Import Prelude PyText ReplayGuard AccountStore AccountFacts AccountLaws AccountProps AccountExamples.
From S2P Require Import ProfileStore ProfileSessions ProfileMachine ProfileFacts ProfileLaws ProfileProps.

#[local] Open Scope Z_scope.

Definition carol : Anchor := MkAnchor (lit "iss") (lit "carol") (lit "org") (Some (lit "ws")).
Definition dave : Anchor := MkAnchor (lit "iss") (lit "dave") (lit "org") (Some (lit "ws")).
Definition no_tokens : tokens := Tokens (Some token) None None None None None.

(** Carol shares a GitHub profile, dave leases it. *)
Definition profile1 : pystr := lit "prof-1".
Definition please1 : pystr := lit "please-1".
Definition sharing : center_op :=
  CCreateProfile profile1 carol P_GITHUB (lit "gh:1") (lit "{}") A_HEALTHY None no_tokens None None
    WORKSPACE_OPERATOR 10.
Definition grant1 : connector_grant :=
  Grant (lit "grant-1") (lit "conn-1") P_GITHUB (lit "op") (lit "res") 20 35.
Definition leasing_with (g : option connector_grant) (lease : pystr) : center_op :=
  CCreateLease lease profile1 dave (lit "b") (lit "caller") (lit "op") (lit "{}") (lit "h") 34 22 true g.
Definition redeeming (now : Z) (c : center) : R profile :=
  (redeem_provider_lease please1 profile1 dave (lit "caller") (lit "b") (lit "op") (lit "{}") (lit "h") now c).1.
Definition shared1 : profile :=
  Profile carol P_GITHUB 10 WORKSPACE_OPERATOR (lit "gh:1") (lit "{}") None A_HEALTHY GITHUB_APP no_tokens
    None true None 0 10.
Definition shared_run : list center_op := [sharing; leasing_with (Some grant1) please1].

(** Without a grant the shared profile is not leased, a grant opens one lease,
    and the lease ends with it. *)
Example shared_lease :
  (runs center_step [sharing; leasing_with None please1; leasing_with (Some grant1) please1;
                     leasing_with (Some grant1) (lit "please-2")] empty_center).1
  = [CoUnit (Ok ()); CoRef (Err connector_grant_required); CoRef (Ok please1);
     CoRef (Err connector_grant_replayed)]
  ∧ redeeming 33 (crun shared_run empty_center) = Ok shared1
  ∧ redeeming 34 (crun shared_run empty_center) = Err lease_rejected.
Proof. by vm_compute. Qed.

Lemma provider_disclosure_authorised_witness :
  pf_anchor shared1 = dave ∨ pf_access_mode shared1 = WORKSPACE_OPERATOR
    ∧ issuer (pf_anchor shared1) = issuer dave ∧ organization_id (pf_anchor shared1) = organization_id dave
    ∧ workspace_id (pf_anchor shared1) = workspace_id dave ∧ workspace_id dave ≠ None.
Proof.
  refine (proj1 (proj2 (proj2 (proj2 (provider_disclosure_authorised shared_run please1 profile1 dave
    (lit "caller") (lit "b") (lit "op") (lit "{}") (lit "h") 33 shared1 _))))).
  by vm_compute.
Defined.

(** One Azure DevOps identity with two targets. *)
Definition devops (ref scope : pystr) (owner : Anchor) : center_op :=
  CCreateProfile ref owner P_AZURE_DEVOPS (lit "t:o") scope A_HEALTHY None no_tokens None None ACTOR_OWNED 10.
Definition devops_run : list center_op :=
  [devops (lit "d1") (lit "s1") carol; devops (lit "d2") (lit "s2") carol].

Example devops_owned :
  (runs center_step (devops_run ++ [devops (lit "d3") (lit "s3") dave; devops (lit "d4") (lit "s1") carol])
     empty_center).1
  = [CoUnit (Ok ()); CoUnit (Ok ()); CoUnit (Err external_identity_owned);
     CoUnit (Err duplicate_provider_identity)].
Proof. by vm_compute. Qed.

Definition devops_profile (scope : pystr) : profile :=
  Profile carol P_AZURE_DEVOPS 10 ACTOR_OWNED (lit "t:o") scope None A_HEALTHY DELEGATED_OAUTH no_tokens
    None true None 0 10.

Lemma profile_identity_owned_witness :
  pf_anchor (devops_profile (lit "s2")) = pf_anchor (devops_profile (lit "s1")).
Proof.
  refine (proj1 (proj2 (proj1 (profile_identity_owned devops_run) (lit "d1") (lit "d2")
    (devops_profile (lit "s1")) (devops_profile (lit "s2")) _ _ _ _ _ _ _) _)); by vm_compute.
Defined.

(** A device renewal whose start fails. *)
Definition renewal1 : pystr := lit "ren-1".
Definition device_tokens : tokens :=
  Tokens (Some token) (Some 100) (Some token) None (Some (lit "client")) (Some (lit "[]")).
Definition renewal_run : list center_op :=
  [CCreateProfile (lit "hf") carol P_HUGGINGFACE (lit "hf:1") (lit "{}") A_HEALTHY (Some (lit "1"))
     device_tokens None (Some DEVICE_OAUTH) ACTOR_OWNED 10;
   CBeginRenewal renewal1 (lit "hf") carol 20;
   CCompleteRenewalStart renewal1 carol token (lit "CODE") (lit "uri") 900 5 21;
   CClaimPoll (lit "p") renewal1 carol (lit "c1") 30 45;
   CFailPoll (lit "p") renewal1 carol (lit "c1") H_CANCELLED (lit "denied") 31].
Definition failed1 : renewal :=
  Renewal (lit "hf") carol H_CANCELLED (Device None None None) (Some 900) (Some 5) (Some 26) 0 None
    (Some (lit "denied")) 20 31.

Lemma renewal_ends_for_good_witness :
  renewals (crun [CRecover (lit "q") 500; CClaimPoll (lit "q") renewal1 carol (lit "c2") 501 45]
    (crun renewal_run empty_center)) !! renewal1 = Some failed1.
Proof.
  refine (proj1 (proj2 (renewal_ends_for_good renewal_run renewal1 failed1 _ _) _)); by vm_compute.
Defined.
