(* ===== verification/PeopleText.v ===== *)
(** * Account center: validation of people and their handles

    The first half of [account_center/people.py]: which texts are handles, mail
    addresses, subjects and names, and when two handles are the same.
    [str.lower] is an argument. *)

From Stdlib Require Import ZArith NArith.
From S2P Require Import Prelude PyText Json AccountStore.

#[local] Open Scope Z_scope.

(** ** Providers *)

Definition HANDLE_PROVIDERS : list pystr :=
  [lit "github"; lit "huggingface"; lit "azure_devops"; lit "wecom"; lit "qq"; lit "bilibili"].
Definition FILTER_PROVIDERS : list pystr :=
  HANDLE_PROVIDERS ++ [lit "azure"; lit "gcp"; lit "runpod"; lit "microsoft_graph"].
Definition DEFAULT_PEOPLE_LIMIT : Z := 100.
Definition MAX_PEOPLE_LIMIT : Z := 500.

Definition _CASE_INSENSITIVE : list pystr := [lit "github"; lit "huggingface"; lit "azure_devops"].

(** ** The patterns, as [fullmatch] *)

Definition alnum_ascii (c : N) : bool := is_upper_ascii c || is_lower_ascii c || is_digit_ascii c.
Definition one_of_chars (cs : pystr) (c : N) : bool := bool_decide (c ∈ cs).
(** [{lo,hi}] characters of a class. *)
Definition repeated (cls : N → bool) (lo hi : Z) (s : pystr) : bool :=
  (lo <=? len s) && (len s <=? hi) && forallb cls s.

(** [[A-Za-z0-9](?:[A-Za-z0-9-]{0,37}[A-Za-z0-9])?] *)
Definition github_pattern (s : pystr) : bool :=
  match s with
  | [] => false
  | [c] => alnum_ascii c
  | c :: s => alnum_ascii c && alnum_ascii (List.last s 0%N)
              && repeated (λ c, alnum_ascii c || one_of_chars (lit "-") c) 0 37 (removelast s)
  end.
(** [[A-Za-z0-9][A-Za-z0-9._-]{0,95}] *)
Definition huggingface_pattern (s : pystr) : bool :=
  match s with
  | [] => false
  | c :: s => alnum_ascii c && repeated (λ c, alnum_ascii c || one_of_chars (lit "._-") c) 0 95 s
  end.
(** [[^\s@]+@[^\s@]+\.[^\s@]+]: one at sign, and in the domain a dot that is
    neither its first nor its last character. *)
Definition not_at (c : N) : bool := negb (c =? 64)%N.
Definition mail_part (s : pystr) : bool := forallb (λ c, negb (is_space c) && not_at c) s.
Definition _MAIL (s : pystr) : bool :=
  let '(local, rest) := span not_at s in
  match rest with
  | [] => false
  | _ :: domain =>
      negb (bool_decide (local = [])) && mail_part local && mail_part domain
      && match domain with
         | [] => false
         | _ :: inner => existsb (N.eqb 46) (removelast inner)
         end
  end.
(** [[A-Za-z0-9_.@-]{1,64}] *)
Definition wecom_pattern (s : pystr) : bool :=
  repeated (λ c, alnum_ascii c || one_of_chars (lit "_.@-") c) 1 64 s.
(** [[0-9]{5,12}] *)
Definition qq_pattern (s : pystr) : bool := repeated is_digit_ascii 5 12 s.
(** [[1-9][0-9]{0,19}] *)
Definition bilibili_pattern (s : pystr) : bool :=
  match s with [] => false | c :: s => between 49 57 c && repeated is_digit_ascii 0 19 s end.

Definition _HANDLE_PATTERNS (provider : pystr) : option (pystr → bool) :=
  assoc provider [(lit "github", github_pattern); (lit "huggingface", huggingface_pattern);
                  (lit "azure_devops", _MAIL); (lit "wecom", wecom_pattern); (lit "qq", qq_pattern);
                  (lit "bilibili", bilibili_pattern)].

Definition hex_ascii (c : N) : bool := is_digit_ascii c || between 97 102 c || between 65 70 c.
(** Groups of 8, 4, 4, 4 and 12 digits with hyphens between them. *)
Definition _UUID (s : pystr) : bool :=
  (len s =? 36)
  && forallb (λ '(i, c), if bool_decide (i ∈ [8; 13; 18; 23]%nat) then (c =? 45)%N else hex_ascii c)
       (imap pair s).

(** ** Normalisation *)

(** [_text] *)
Definition _text (value : json) (maximum : Z) : R pystr :=
  match value with
  | JStr s =>
      let text := strip s in
      _ ← require (negb (bool_decide (text = [])) && (len text <=? maximum)) invalid_request;
      _ ← require (forallb (λ c, negb ((c <? 32) || (c =? 127))%N) text) invalid_request;
      Ok text
  | _ => Err invalid_request
  end.

(** [normalize_provider] *)
Definition normalize_provider (value : json) (allowed : list pystr) : R pystr :=
  match value with
  | JStr s => _ ← require (bool_decide (s ∈ allowed)) invalid_request; Ok s
  | _ => Err invalid_request
  end.

(** [normalize_display_name] *)
Definition normalize_display_name (value : json) : R pystr := _text value 120.

(** [normalize_limit] *)
Definition normalize_limit (value : json) : R Z :=
  match value with
  | JInt z => _ ← require ((1 <=? z) && (z <=? MAX_PEOPLE_LIMIT)) invalid_request; Ok z
  | _ => Err invalid_request
  end.

Section Lower.
(** [str.lower] *)
Context (lower : pystr → pystr).

(** [handle_key] *)
Definition handle_key (provider handle : pystr) : pystr :=
  if bool_decide (provider ∈ _CASE_INSENSITIVE) then lower handle else handle.

(** [normalize_handle]: the handle as written, and its key. *)
Definition normalize_handle (provider : pystr) (value : json) : R (pystr * pystr) :=
  handle ← _text value 254;
  match _HANDLE_PATTERNS provider with
  | Some pattern =>
      _ ← require (pattern handle) invalid_request;
      Ok (handle, handle_key provider handle)
  | None => Err invalid_request
  end.

(** [normalize_mail] *)
Definition normalize_mail (value : json) : R pystr :=
  mail ← _text value 254;
  let mail := lower mail in
  _ ← require (_MAIL mail) invalid_request; Ok mail.

(** [normalize_subject] *)
Definition normalize_subject (value : json) : R pystr :=
  subject ← _text value 256;
  _ ← require (forallb (λ c, negb (is_space c)) subject) invalid_request;
  Ok (if _UUID subject then lower subject else subject).
End Lower.

(** The patterns on the handles of the repository's tests. *)
Example patterns :
  github_pattern (lit "Octocat") = true ∧ github_pattern (lit "-bad-") = false
  ∧ github_pattern (lit "a-b") = true ∧ huggingface_pattern (lit "ada-hf") = true
  ∧ _MAIL (lit "ada@example.com") = true ∧ _MAIL (lit "not-an-address") = false
  ∧ _MAIL (lit "a@b.") = false ∧ _MAIL (lit "a@.b") = false ∧ _MAIL (lit "a@b..c") = true
  ∧ _MAIL (lit "a@b@c.d") = false ∧ wecom_pattern (lit "ada.l") = true ∧ qq_pattern (lit "12") = false
  ∧ bilibili_pattern (lit "42") = true ∧ bilibili_pattern (lit "042") = false
  ∧ _UUID (lit "00000000-0000-0000-0000-00000000000A") = true.
Proof. by vm_compute. Qed.
