(* ===== verification/PeopleStore.v ===== *)
(** * Account center: the people directory

    The tables [workspace_people], [account_handles] and [account_admin_audit] of
    [account_center/store.py] with their operations and the two listings of a
    workspace.  [str.lower] is an argument where a handle gets its key. *)

From Stdlib Require Import ZArith NArith.
From S2P Require Import Prelude PyText Json AccountStore ProfileStore ProfileSessions ProfileMachine.

#[local] Open Scope Z_scope.

(** ** Rows *)

Record person := Person {
  pe_organization : pystr;
  pe_workspace : option pystr;
  pe_issuer : pystr;
  pe_subject : option pystr;
  pe_mail : option pystr;
  pe_name : option pystr;
  pe_created_by : pystr * pystr;
  pe_created_at : Z;
  pe_updated_at : Z
}.

Record handle := Handle {
  ha_person : pystr;
  ha_organization : pystr;
  ha_workspace : option pystr;
  ha_provider : pystr;
  ha_handle : pystr;
  ha_key : pystr;
  ha_active : bool;
  ha_declared_by : pystr * pystr;
  ha_created_at : Z;
  ha_updated_at : Z
}.

Record audit := Audit {
  au_organization : pystr;
  au_workspace : option pystr;
  au_actor : pystr * pystr;
  au_target_subject : pystr;
  au_provider : pystr;
  au_unlinked : Z;
  au_skipped_shared : Z;
  au_created_at : Z
}.

(** The store with all its tables. *)
Record directory := Directory {
  center_tables : center;
  people : gmap pystr person;
  handles : gmap pystr handle;
  audits : gmap pystr audit
}.

Definition with_center (c : center) (d : directory) : directory := Directory c (people d) (handles d) (audits d).
Definition with_people (m : gmap pystr person) (d : directory) : directory :=
  Directory (center_tables d) m (handles d) (audits d).
Definition with_handles (m : gmap pystr handle) (d : directory) : directory :=
  Directory (center_tables d) (people d) m (audits d).
Definition with_audits (m : gmap pystr audit) (d : directory) : directory :=
  Directory (center_tables d) (people d) (handles d) m.

(** [_complete_command_in_transaction], if there is a command. *)
Definition record_result (command : option (pystr * pybytes)) (d : directory) : R directory :=
  b ← command_result command (base (center_tables d)); Ok (with_center (with_base b (center_tables d)) d).

(** ** The constraints *)

(** The workspace as the unique indexes have it: [ifnull(workspace_id,'')]. *)
Definition ws_key (w : option pystr) : pystr := default [] w.

(** The row and another one have the same values in the columns of
    [workspace_person_subject] or [workspace_person_mail]. *)
Definition same_place (p q : person) : bool :=
  bool_decide (pe_organization p = pe_organization q)
  && bool_decide (ws_key (pe_workspace p) = ws_key (pe_workspace q)).
Definition same_subject (p q : person) : bool :=
  same_place p q && bool_decide (pe_issuer p = pe_issuer q) && bool_decide (pe_subject p ≠ None)
  && bool_decide (pe_subject p = pe_subject q).
Definition same_mail (p q : person) : bool :=
  same_place p q && bool_decide (pe_mail p ≠ None) && bool_decide (pe_mail p = pe_mail q).
(** [INSERT] or [UPDATE] of the row under [ref]. *)
Definition put_person (ref : pystr) (p : person) (m : gmap pystr person) : R (gmap pystr person) :=
  _ ← require (negb (bool_decide (pe_subject p = None ∧ pe_mail p = None))) storage_unavailable;
  _ ← require (bool_decide (fetch_one (λ q, same_subject p q || same_mail p q) (delete ref m) = None))
        storage_unavailable;
  Ok (<[ref := p]> m).

(** [account_handle_owner]: both rows are active and have the same key. *)
Definition same_handle (h g : handle) : bool :=
  ha_active g && bool_decide (ha_organization h = ha_organization g)
  && bool_decide (ws_key (ha_workspace h) = ws_key (ha_workspace g))
  && bool_decide (ha_provider h = ha_provider g) && bool_decide (ha_key h = ha_key g).
Definition insert_handle (ref : pystr) (h : handle) (m : gmap pystr handle) : R (gmap pystr handle) :=
  _ ← require (bool_decide (m !! ref = None) && bool_decide (fetch_one (same_handle h) m = None))
        storage_unavailable;
  Ok (<[ref := h]> m).

(** ** Declaring and retracting *)

(** [WHERE organization_id=? AND workspace_id IS ?], on each table. *)
Definition person_in (an : Anchor) (p : person) : bool :=
  bool_decide (pe_organization p = organization_id an) && bool_decide (pe_workspace p = workspace_id an).
Definition handle_in (an : Anchor) (h : handle) : bool :=
  bool_decide (ha_organization h = organization_id an) && bool_decide (ha_workspace h = workspace_id an).

Definition with_subject (an : Anchor) (subject : pystr) (p : person) : bool :=
  person_in an p && bool_decide (pe_issuer p = issuer an) && bool_decide (pe_subject p = Some subject).
Definition with_mail (an : Anchor) (mail : pystr) (p : person) : bool :=
  person_in an p && bool_decide (pe_mail p = Some mail).
Definition live_handle (an : Anchor) (provider key : pystr) (h : handle) : bool :=
  handle_in an h && bool_decide (ha_provider h = provider) && bool_decide (ha_key h = key) && ha_active h.

(** [x or y] on texts that may be missing. *)
Definition text_or (x y : option pystr) : option pystr :=
  match x with Some (_ :: _) => x | _ => y end.
(** [given is not None and stored not in (None, given)] *)
Definition contradicts (given stored : option pystr) : bool :=
  match given, stored with Some g, Some s => negb (bool_decide (s = g)) | _, _ => false end.

Definition merged (subject mail name : option pystr) (p : person) : person :=
  Person (pe_organization p) (pe_workspace p) (pe_issuer p) (text_or (pe_subject p) subject)
    (text_or (pe_mail p) mail) (text_or name (pe_name p)) (pe_created_by p) (pe_created_at p)
    (pe_updated_at p).
Definition touched (now : Z) (p : person) : person :=
  Person (pe_organization p) (pe_workspace p) (pe_issuer p) (pe_subject p) (pe_mail p) (pe_name p)
    (pe_created_by p) (pe_created_at p) now.

(** The person the two keys name, if any. *)
Definition find_person (an : Anchor) (subject mail : option pystr) (m : gmap pystr person)
  : R (option (pystr * person)) :=
  let by_subject := s ← subject; fetch_one (with_subject an s) m in
  let by_mail := a ← mail; fetch_one (with_mail an a) m in
  match by_subject, by_mail with
  | Some (r1, p1), Some (r2, _) => _ ← require (bool_decide (r1 = r2)) person_conflict; Ok (Some (r1, p1))
  | Some x, None => Ok (Some x)
  | None, y => Ok y
  end.

(** The person's row after the declaration: new, or completed. *)
Definition settle_person (new_ref : pystr) (an : Anchor) (subject mail name : option pystr) (now : Z)
    (m : gmap pystr person) : R (pystr * gmap pystr person) :=
  found ← find_person an subject mail m;
  match found with
  | None =>
      _ ← require (bool_decide (m !! new_ref = None)) storage_unavailable;
      m ← put_person new_ref (Person (organization_id an) (workspace_id an) (issuer an) subject mail name
                                (issuer an, an_subject an) now now) m;
      Ok (new_ref, m)
  | Some (ref, p) =>
      _ ← require (negb (contradicts subject (pe_subject p) || contradicts mail (pe_mail p))) person_conflict;
      let q := merged subject mail name p in
      if bool_decide ((pe_subject q, pe_mail q, pe_name q) = (pe_subject p, pe_mail p, pe_name p))
      then Ok (ref, m)
      else m ← put_person ref (touched now q) m; Ok (ref, m)
  end.

Record declared := Declared {
  de_person : pystr;
  de_handle_ref : pystr;
  de_provider : pystr;
  de_handle : pystr;
  de_created : bool
}.

(** [declare_account_handle]; [person_ref] and [handle_ref] are the fresh UUIDs,
    [encode] makes the replay answer of the command. *)
Definition declare_account_handle (person_ref handle_ref : pystr) (an : Anchor)
    (subject mail name : option pystr) (provider handle key : pystr) (now : Z)
    (command : option (pystr * (declared → pybytes))) (d : directory) : R declared * directory :=
  transact (λ d,
    x ← settle_person person_ref an subject mail name now (people d);
    let '(ref, persons) := x in
    y ← (match fetch_one (live_handle an provider key) (handles d) with
         | Some (href, h) =>
             _ ← require (bool_decide (ha_person h = ref)) handle_owned;
             Ok (Declared ref href provider (ha_handle h) false, handles d)
         | None =>
             m ← insert_handle handle_ref
                   (Handle ref (organization_id an) (workspace_id an) provider handle key true
                      (issuer an, an_subject an) now now) (handles d);
             Ok (Declared ref handle_ref provider handle true, m)
         end);
    let '(result, hs) := y in
    d ← record_result ((λ '(k, encode), (k, encode result)) <$> command) (with_handles hs (with_people persons d));
    Ok (result, d)) d.

Definition retracted (now : Z) (h : handle) : handle :=
  Handle (ha_person h) (ha_organization h) (ha_workspace h) (ha_provider h) (ha_handle h) (ha_key h) false
    (ha_declared_by h) (ha_created_at h) now.

(** [retract_account_handle]: the person and the handle as it was written. *)
Definition retract_account_handle (an : Anchor) (provider key : pystr) (now : Z)
    (command : option (pystr * (pystr * pystr → pybytes))) (d : directory) : R (pystr * pystr) * directory :=
  transact (λ d,
    match fetch_one (live_handle an provider key) (handles d) with
    | None => Err handle_not_found
    | Some (ref, h) =>
        let result := (ha_person h, ha_handle h) in
        d ← record_result ((λ '(k, encode), (k, encode result)) <$> command)
              (with_handles (<[ref := retracted now h]> (handles d)) d);
        Ok (result, d)
    end) d.

(** [record_admin_action], of the one action there is. *)
Definition record_admin_action (ref : pystr) (an : Anchor) (target provider : pystr)
    (unlinked skipped_shared now : Z) (command : option (pystr * pybytes)) (d : directory) : R () * directory :=
  transact (λ d,
    m ← insert_new storage_unavailable ref
          (Audit (organization_id an) (workspace_id an) (issuer an, an_subject an) target provider unlinked
             skipped_shared now) (audits d);
    d ← record_result command (with_audits m d); Ok ((), d)) d.

(** ** The listings of a workspace *)

(** Stable sort by a strict order on the elements: [ORDER BY], and [list.sort]. *)
Fixpoint insert_by {A : Type} (lt : A → A → bool) (x : A) (l : list A) : list A :=
  match l with
  | [] => [x]
  | y :: l' => if lt y x then y :: insert_by lt x l' else x :: l
  end.
Definition sort_by {A : Type} (lt : A → A → bool) (l : list A) : list A := foldr (insert_by lt) [] l.

(** Orders of a column, and of the next one where the first is equal. *)
Definition by_text {A : Type} (f : A → pystr) (next : A → A → bool) (x y : A) : bool :=
  str_ltb (f x) (f y) || (bool_decide (f x = f y) && next x y).
Definition by_int {A : Type} (f : A → Z) (next : A → A → bool) (x y : A) : bool :=
  (f x <? f y) || ((f x =? f y) && next x y).
Definition last_key {A : Type} (x y : A) : bool := false.

Definition link_provider_text (p : link_provider) : pystr :=
  match p with GITHUB => lit "github" | WECOM => lit "wecom" end.
Definition profile_provider_text (p : profile_provider) : pystr :=
  match p with
  | P_GITHUB => lit "github" | P_HUGGINGFACE => lit "huggingface" | P_AZURE => lit "azure"
  | P_GCP => lit "gcp" | P_RUNPOD => lit "runpod" | P_MICROSOFT_GRAPH => lit "microsoft_graph"
  | P_AZURE_DEVOPS => lit "azure_devops" | P_BILIBILI => lit "bilibili"
  end.
Definition auth_status_text (s : auth_status) : pystr :=
  match s with
  | A_UNKNOWN => lit "unknown" | A_CONFIGURED => lit "configured" | A_HEALTHY => lit "healthy"
  | A_UNAVAILABLE => lit "unavailable" | A_REAUTHORIZATION_REQUIRED => lit "reauthorization_required"
  | A_REVOKED => lit "revoked"
  end.
Definition listed_text (l : listed) : pystr :=
  match l with
  | L_REAUTHORIZATION_REQUIRED => lit "reauthorization_required"
  | L_REVOCATION PENDING => lit "revocation_pending"
  | L_REVOCATION FAILED => lit "revocation_failed"
  | L_REVOCATION _ => lit "revocation_unknown"
  | L_STATUS ACTIVE => lit "active"
  | L_STATUS UNLINKED => lit "unlinked"
  | L_STATUS REVOCATION_PENDING => lit "revocation_pending"
  | L_STATUS REVOCATION_FAILED => lit "revocation_failed"
  end.

(** A row of either listing of links. *)
Record link_row := LinkRow {
  lr_issuer : pystr;
  lr_subject : pystr;
  lr_provider : pystr;
  lr_external_subject : option pystr;
  lr_status : pystr;
  lr_linked_at : Z
}.

Definition in_workspace (organization : pystr) (workspace : option pystr) (an : Anchor) : bool :=
  bool_decide (organization_id an = organization) && bool_decide (workspace_id an = workspace).

Definition account_row (a : account) : link_row :=
  let l := ac_link a in
  LinkRow (issuer (lk_anchor l)) (an_subject (lk_anchor l)) (link_provider_text (lk_provider l))
    (Some (lk_stable_subject l)) (listed_text (listed_status a)) (lk_linked_at l).
Definition profile_row (p : profile) : link_row :=
  LinkRow (issuer (pf_anchor p)) (an_subject (pf_anchor p)) (profile_provider_text (pf_provider p))
    (pf_external_subject p) (auth_status_text (pf_auth_status p)) (pf_created_at p).

(** [ORDER BY anchor_issuer, anchor_subject, <time>, <ref> LIMIT ?] *)
Definition link_order : pystr * link_row → pystr * link_row → bool :=
  by_text (λ r, lr_issuer r.2) (by_text (λ r, lr_subject r.2) (by_int (λ r, lr_linked_at r.2)
    (by_text (λ r, r.1) last_key))).
Definition limited {A : Type} (limit : Z) (l : list A) : list A := take (Z.to_nat (limit + 1)) l.

(** [list_workspace_links] *)
Definition list_workspace_links (organization : pystr) (workspace : option pystr) (limit : Z) (d : directory)
  : list link_row * list link_row :=
  let accs := List.filter (λ ka, in_workspace organization workspace (lk_anchor (ac_link ka.2))
                                 && negb (bool_decide (ac_status ka.2 = UNLINKED)))
                (map_to_list (accounts (base (center_tables d)))) in
  let profs := List.filter (λ kp, in_workspace organization workspace (pf_anchor kp.2) && pf_active kp.2)
                 (map_to_list (provider_profiles (center_tables d))) in
  ((limited limit (sort_by link_order (map (λ ka, (ka.1, account_row ka.2)) accs))).*2,
   (limited limit (sort_by link_order (map (λ kp, (kp.1, profile_row kp.2)) profs))).*2).

(** [list_workspace_people]: the rows of people with their references, and the
    active handles. *)
Definition list_workspace_people (organization : pystr) (workspace : option pystr) (limit : Z) (d : directory)
  : list (pystr * person) * list handle :=
  let ps := List.filter (λ kp, bool_decide (pe_organization kp.2 = organization)
                               && bool_decide (pe_workspace kp.2 = workspace)) (map_to_list (people d)) in
  let hs := List.filter (λ kh, bool_decide (ha_organization kh.2 = organization)
                               && bool_decide (ha_workspace kh.2 = workspace) && ha_active kh.2)
              (map_to_list (handles d)) in
  (limited limit (sort_by (by_int (λ kp, pe_created_at kp.2) (by_text fst last_key)) ps),
   (limited limit (sort_by (by_int (λ kh, ha_created_at kh.2) (by_text fst last_key)) hs)).*2).
