(* ===== verification/PeopleDirectory.v ===== *)
(** * Account center: who owns an account, which accounts a person has

    The second half of [account_center/people.py] ([assemble_people],
    [filter_people]) and the handlers of [account_center/plugin.py] that declare,
    retract and find.  [str.lower] and [str.casefold] are arguments. *)

From Stdlib Require Import ZArith NArith.
From S2P Require Import Prelude PyText Json AccountStore ProfileStore ProfileSessions ProfileMachine.
From S2P Require Import PeopleText PeopleStore.

#[local] Open Scope Z_scope.

(** ** Entries *)

(** An account of a person: a handle that was declared, or a verified link. *)
Record item := Item {
  it_verified : bool;
  it_kind : pystr;
  it_provider : pystr;
  it_handle : option pystr;
  it_external_subject : option pystr;
  it_status : pystr;
  it_updated_at : Z
}.

Record entry := Entry {
  en_person : option pystr;
  en_issuer : pystr;
  en_subject : option pystr;
  en_mail : option pystr;
  en_name : option pystr;
  en_accounts : list item
}.

Definition with_accounts_of (l : list item) (e : entry) : entry :=
  Entry (en_person e) (en_issuer e) (en_subject e) (en_mail e) (en_name e) l.
Definition add_item (i : item) (e : entry) : entry := with_accounts_of (en_accounts e ++ [i]) e.

Definition handle_item (h : handle) : item :=
  Item false (lit "handle") (ha_provider h) (Some (ha_handle h)) None (lit "active") (ha_updated_at h).
Definition link_item (kind : pystr) (r : link_row) : item :=
  Item true kind (lr_provider r) None (lr_external_subject r) (lr_status r) (lr_linked_at r).

Definition person_entry (ref : pystr) (p : person) : entry :=
  Entry (Some ref) (pe_issuer p) (pe_subject p) (pe_mail p) (pe_name p) [].
Definition owner_entry (o : pystr * pystr) : entry := Entry None o.1 (Some o.2) None None [].

(** ** Assembly *)

(** The dictionaries [persons] and [owners]. *)
Record assembly := Assembly {
  persons : list (pystr * entry);
  owners : gmap (pystr * pystr) pystr
}.

(** [persons[key]...] on a key that is there. *)
Definition alter_entry (f : entry → entry) (key : pystr) (l : list (pystr * entry)) : list (pystr * entry) :=
  map (λ '(k, e), if bool_decide (k = key) then (k, f e) else (k, e)) l.

(** The bodies of the three loops. *)
Definition add_person (s : assembly) (row : pystr * person) : assembly :=
  let '(ref, p) := row in
  Assembly (dict_set ref (person_entry ref p) (persons s))
    (match pe_subject p with
     | Some subject => <[(pe_issuer p, subject) := ref]> (owners s)
     | None => owners s
     end).
Definition add_handle (s : assembly) (h : handle) : assembly :=
  Assembly (alter_entry (add_item (handle_item h)) (ha_person h) (persons s)) (owners s).
Definition anchor_key (o : pystr * pystr) : pystr := lit "anchor" ++ [0%N] ++ o.1 ++ [0%N] ++ o.2.
Definition add_link (kind : pystr) (s : assembly) (row : link_row) : assembly :=
  let owner := (lr_issuer row, lr_subject row) in
  let '(key, s) := match owners s !! owner with
                   | Some key => (key, s)
                   | None => (anchor_key owner,
                              Assembly (dict_set (anchor_key owner) (owner_entry owner) (persons s))
                                (<[owner := anchor_key owner]> (owners s)))
                   end in
  Assembly (alter_entry (add_item (link_item kind row)) key (persons s)) (owners s).

(** [x or ""] and the like. *)
Definition text_of (x : option pystr) : pystr := default [] x.
Definition source (i : item) : pystr := if it_verified i then lit "verified" else lit "declared".
Definition item_order : item → item → bool :=
  by_text source (by_text it_provider (by_text (λ i, text_of (text_or (it_handle i) (it_external_subject i)))
    (by_int it_updated_at last_key))).

(** The fields of a request. *)
Abbreviation request := (list (pystr * json)).

Section Casefold.
(** [str.lower], [str.casefold] *)
Context (lower casefold : pystr → pystr).

Definition entry_order : entry → entry → bool :=
  by_text (λ e, casefold (text_of (text_or (en_name e) (text_or (en_mail e) (en_subject e)))))
    (by_text en_issuer (by_text (λ e, text_of (en_subject e)) last_key)).

Definition sort_accounts (e : entry) : entry := with_accounts_of (sort_by item_order (en_accounts e)) e.

(** [assemble_people] *)
Definition assemble_people (people : list (pystr * person)) (handles : list handle)
    (accounts profiles : list link_row) : list entry :=
  let s := foldl add_person (Assembly [] ∅) people in
  let s := foldl add_handle s handles in
  let s := foldl (add_link (lit "account")) s accounts in
  let s := foldl (add_link (lit "profile")) s profiles in
  sort_by entry_order (map sort_accounts (persons s).*2).

(** ** Filters *)

(** [_account_matches] *)
Definition _account_matches (provider wanted : pystr) (i : item) : bool :=
  match (if it_verified i then it_external_subject i else it_handle i) with
  | Some value => bool_decide (handle_key lower provider value = wanted)
  | None => false
  end.

(** [needle in haystack] *)
Fixpoint contains (needle haystack : pystr) : bool :=
  bool_decide (take (length needle) haystack = needle)
  || match haystack with [] => false | _ :: haystack => contains needle haystack end.

Definition given {A : Type} (x : option A) (p : A → bool) : bool :=
  match x with Some a => p a | None => true end.

(** [filter_people], on one person: [wanted] is the key of the handle. *)
Definition person_matches (subject mail provider handle name : option pystr) (e : entry) : bool :=
  given subject (λ s, bool_decide (en_subject e = Some s))
  && given mail (λ m, bool_decide (en_mail e = Some m))
  && given provider (λ p,
       let accounts := List.filter (λ i, bool_decide (it_provider i = p)) (en_accounts e) in
       negb (bool_decide (accounts = []))
       && given handle (λ h, existsb (_account_matches p (handle_key lower p h)) accounts))
  && given name (λ n,
       contains (casefold n) (casefold (text_of (text_or (en_name e) None) ++ lit " "
                                        ++ text_of (text_or (en_mail e) None)))).
Definition filter_people (subject mail provider handle name : option pystr) (l : list entry) : list entry :=
  List.filter (person_matches subject mail provider handle name) l.

(** ** Handlers *)

(** [_require_fields] *)
Definition _require_fields (required optional : list pystr) (r : request) : R () :=
  require (forallb (λ k, bool_decide (k ∈ r.*1)) required
           && forallb (λ k, bool_decide (k ∈ required ++ optional)) r.*1) invalid_request.

(** [normalize(request[key]) if key in request else None] *)
Definition optional_field {A : Type} (normalize : json → R A) (key : pystr) (r : request) : R (option A) :=
  match assoc key r with
  | Some v => a ← normalize v; Ok (Some a)
  | None => Ok None
  end.
Definition field (key : pystr) (r : request) : R json :=
  match assoc key r with Some v => Ok v | None => Err invalid_request end.

(** [_declare_account_handle]; the validated request, and the call of the store. *)
Definition read_declaration (r : request)
  : R (option pystr * option pystr * option pystr * pystr * (pystr * pystr)) :=
  _ ← _require_fields [lit "provider"; lit "handle"] [lit "subject"; lit "mail"; lit "display_name"] r;
  pv ← field (lit "provider") r;
  provider ← normalize_provider pv HANDLE_PROVIDERS;
  hv ← field (lit "handle") r;
  hk ← normalize_handle lower provider hv;
  subject ← optional_field (normalize_subject lower) (lit "subject") r;
  mail ← optional_field (normalize_mail lower) (lit "mail") r;
  name ← optional_field normalize_display_name (lit "display_name") r;
  _ ← require (negb (bool_decide (subject = None ∧ mail = None))) invalid_request;
  Ok (subject, mail, name, provider, hk).
Definition _declare_account_handle (person_ref handle_ref : pystr) (an : Anchor) (r : request) (now : Z)
    (command : option (pystr * (declared → pybytes))) (d : directory) : R declared * directory :=
  match read_declaration r with
  | Ok (subject, mail, name, provider, (handle, key)) =>
      declare_account_handle person_ref handle_ref an subject mail name provider handle key now command d
  | Err e => (Err e, d)
  end.

(** [_retract_account_handle] *)
Definition read_retraction (r : request) : R (pystr * (pystr * pystr)) :=
  _ ← _require_fields [lit "provider"; lit "handle"] [] r;
  pv ← field (lit "provider") r;
  provider ← normalize_provider pv HANDLE_PROVIDERS;
  hv ← field (lit "handle") r;
  hk ← normalize_handle lower provider hv;
  Ok (provider, hk).
Definition _retract_account_handle (an : Anchor) (r : request) (now : Z)
    (command : option (pystr * (pystr * pystr → pybytes))) (d : directory) : R (pystr * pystr) * directory :=
  match read_retraction r with
  | Ok (provider, (_, key)) => retract_account_handle an provider key now command d
  | Err e => (Err e, d)
  end.

(** [workspace_id] of a request as Python compares it with the anchor's. *)
Definition workspace_value (w : option pystr) : json := match w with Some s => JStr s | None => JNull end.
Definition json_is (w : option pystr) (v : json) : bool :=
  match w, v with Some s, JStr t => bool_decide (s = t) | None, JNull => true | _, _ => false end.

Definition MAX_WORKSPACE_LINKS : Z := 5000.

(** The filters of [_find_people], and the limit. *)
Record query := Query {
  q_subject : option pystr;
  q_mail : option pystr;
  q_provider : option pystr;
  q_handle : option pystr;
  q_name : option pystr;
  q_limit : Z
}.
Definition read_query (an : Anchor) (r : request) : R query :=
  _ ← _require_fields []
        [lit "workspace_id"; lit "subject"; lit "mail"; lit "provider"; lit "handle"; lit "name"; lit "limit"] r;
  _ ← require (json_is (workspace_id an) (default (workspace_value (workspace_id an)) (assoc (lit "workspace_id") r)))
        scope_mismatch;
  subject ← optional_field (normalize_subject lower) (lit "subject") r;
  mail ← optional_field (normalize_mail lower) (lit "mail") r;
  provider ← optional_field (λ v, normalize_provider v FILTER_PROVIDERS) (lit "provider") r;
  handle ← optional_field (λ v,
             match provider with
             | Some p =>
                 _ ← require (bool_decide (p ∈ HANDLE_PROVIDERS)) invalid_request;
                 hk ← normalize_handle lower p v; Ok hk.1
             | None => Err invalid_request
             end) (lit "handle") r;
  name ← optional_field (λ v,
           n ← normalize_display_name v; _ ← require (2 <=? len n) invalid_request; Ok n) (lit "name") r;
  limit ← optional_field normalize_limit (lit "limit") r;
  Ok (Query subject mail provider handle name (default DEFAULT_PEOPLE_LIMIT limit)).

(** What a query is answered from: the four listings of the workspace. *)
Definition workspace_people (an : Anchor) (d : directory) : R (list entry) :=
  let '(accounts, profiles) := list_workspace_links (organization_id an) (workspace_id an) MAX_WORKSPACE_LINKS d in
  let '(declared, handles) := list_workspace_people (organization_id an) (workspace_id an) MAX_WORKSPACE_LINKS d in
  _ ← require (len accounts + len profiles + len declared + len handles <=? MAX_WORKSPACE_LINKS) result_too_large;
  Ok (assemble_people declared handles accounts profiles).

(** [_find_people]: the people, and whether there are more. *)
Definition _find_people (an : Anchor) (r : request) (d : directory) : R (list entry * bool) :=
  q ← read_query an r;
  l ← workspace_people an d;
  let matched := filter_people (q_subject q) (q_mail q) (q_provider q) (q_handle q) (q_name q) l in
  Ok (take (Z.to_nat (q_limit q)) matched, q_limit q <? len matched).
End Casefold.
