(* ===== verification/PeopleAssembly.v ===== *)
(** * Account center: the assembly against a reference

    [assemble_people] builds its answer in two dictionaries; the reference says
    at once which accounts each person and each unclaimed owner has. *)

From Stdlib Require Import ZArith NArith.
From S2P Require Import Prelude PyText Json AccountStore ProfileStore ProfileSessions ProfileMachine.
From S2P Require Import PeopleText PeopleStore PeopleDirectory.

#[local] Open Scope Z_scope.

(** ** The reference *)

Abbreviation owner := (pystr * pystr)%type.
Definition row_owner (r : link_row) : owner := (lr_issuer r, lr_subject r).
Definition person_owner (p : person) : option owner := (λ s, (pe_issuer p, s)) <$> pe_subject p.

(** The links in the order in which they are read. *)
Definition all_links (accounts profiles : list link_row) : list (pystr * link_row) :=
  map (pair (lit "account")) accounts ++ map (pair (lit "profile")) profiles.

Definition links_of (o : option owner) (links : list (pystr * link_row)) : list item :=
  map (λ kr, link_item kr.1 kr.2) (List.filter (λ kr, bool_decide (o = Some (row_owner kr.2))) links).
Definition handles_of (ref : pystr) (handles : list handle) : list item :=
  map handle_item (List.filter (λ h, bool_decide (ha_person h = ref)) handles).

(** The elements of a list in the order of their first occurrence. *)
Definition firsts {A : Type} `{EqDecision A} (l : list A) : list A :=
  foldl (λ acc x, if decide (x ∈ acc) then acc else acc ++ [x]) [] l.

Definition claimed (people : list (pystr * person)) (o : owner) : bool :=
  bool_decide (Some o ∈ map (λ rp, person_owner rp.2) people).

(** Every declared person with the handles declared for it and the links of its
    identity; then every other owner of a link, with its links. *)
Definition directory_of (people : list (pystr * person)) (handles : list handle)
    (links : list (pystr * link_row)) : list entry :=
  map (λ rp, with_accounts_of (handles_of rp.1 handles ++ links_of (person_owner rp.2) links)
               (person_entry rp.1 rp.2)) people
  ++ map (λ o, with_accounts_of (links_of (Some o) links) (owner_entry o))
       (firsts (List.filter (λ o, negb (claimed people o)) (map (λ kr, row_owner kr.2) links))).

(** ** Dictionaries *)

Definition no_nul (s : pystr) : Prop := 0%N ∉ s.

Lemma anchor_key_inj o1 o2 : no_nul o1.1 → no_nul o2.1 → anchor_key o1 = anchor_key o2 → o1 = o2.
Proof.
  destruct o1 as [i1 s1], o2 as [i2 s2]. unfold anchor_key, no_nul. cbn. intros H1 H2 H.
  injection H as H. revert i2 H1 H2 H. induction i1 as [|c i1 IH]; intros [|c2 i2] H1 H2 H; cbn in H; simplify_eq; [done|..].
  - set_solver.
  - set_solver.
  - assert (E : (i1, s1) = (i2, s2)) by (apply IH; set_solver). by injection E as -> ->.
Qed.

Lemma anchor_key_nul o : ¬ no_nul (anchor_key o).
Proof. unfold no_nul, anchor_key. intros H. apply H. cbn. set_solver. Qed.

#[local] Arguments anchor_key : simpl never.

Definition append_items (l : list item) (e : entry) : entry := with_accounts_of (en_accounts e ++ l) e.

Lemma alter_entry_keys f k l : (alter_entry f k l).*1 = l.*1.
Proof.
  unfold alter_entry. rewrite map_map. apply map_ext. intros [k' e]. by case_bool_decide.
Qed.

(** Appending to the rows of [l] what a list of additions has for each key. *)
Definition appended (adds : pystr → list item) (l : list (pystr * entry)) : list (pystr * entry) :=
  map (λ ke, (ke.1, append_items (adds ke.1) ke.2)) l.

Lemma appended_nil l : appended (λ _, []) l = l.
Proof.
  unfold appended. rewrite <- (map_id l) at 2. apply map_ext. intros [k []]. cbn.
  unfold append_items, with_accounts_of. cbn. by rewrite app_nil_r.
Qed.

Lemma appended_ext f g l : (∀ k, f k = g k) → appended f l = appended g l.
Proof. intros H. apply map_ext. intros [k e]. cbn. by rewrite H. Qed.

Lemma appended_alter f l i k :
  alter_entry (add_item i) k (appended f l)
  = appended (λ k', f k' ++ if bool_decide (k' = k) then [i] else []) l.
Proof.
  unfold alter_entry, appended. rewrite map_map. apply map_ext. intros [k' e]. cbn.
  case_bool_decide; unfold add_item, append_items, with_accounts_of; cbn;
    [by rewrite <- app_assoc|by rewrite app_nil_r].
Qed.

Lemma appended_keys f l : (appended f l).*1 = l.*1.
Proof. unfold appended. rewrite map_map. by apply map_ext. Qed.

(** ** The loops *)

Lemma add_people_persons people s :
  NoDup ((persons s).*1 ++ people.*1) →
  persons (foldl add_person s people)
  = persons s ++ map (λ rp, (rp.1, person_entry rp.1 rp.2)) people.
Proof.
  revert s. induction people as [|[r p] people IH]; intros s Hn; cbn [foldl map]; [by rewrite app_nil_r|].
  cbn in Hn. rewrite IH; cbn [add_person persons].
  - rewrite dict_set_fresh; [by rewrite <- app_assoc|]. apply NoDup_app in Hn as (_ & Hd & _). set_solver.
  - rewrite dict_set_fresh; [by rewrite fmap_app, <- app_assoc|].
    apply NoDup_app in Hn as (_ & Hd & _). set_solver.
Qed.

Definition owner_list (people : list (pystr * person)) : list owner :=
  omap (λ rp, person_owner rp.2) people.

Lemma owner_list_cons r p people :
  owner_list ((r, p) :: people)
  = match person_owner p with Some o => o :: owner_list people | None => owner_list people end.
Proof. done. Qed.

Lemma add_people_owners people s (o : owner) :
  NoDup (owner_list people) →
  owners (foldl add_person s people) !! o
  = match List.find (λ rp, bool_decide (person_owner rp.2 = Some o)) people with
    | Some rp => Some rp.1
    | None => owners s !! o
    end.
Proof.
  revert s. induction people as [|[r p] people IH]; intros s Hn; cbn [foldl List.find snd]; [done|].
  rewrite owner_list_cons in Hn.
  assert (Hn' : NoDup (owner_list people)) by (by destruct (person_owner p); [apply NoDup_cons in Hn as []|]).
  rewrite IH by done. cbn [add_person owners]. case_bool_decide as Ho.
  - rewrite Ho in Hn. apply NoDup_cons in Hn as [Hn _].
    destruct (List.find _ people) as [[r' p']|] eqn:Hf.
    + apply find_some in Hf as [Hin Hp]. bools. exfalso. apply Hn. apply list_elem_of_omap. exists (r', p').
      by rewrite list_elem_of_In.
    + unfold person_owner in Ho. destruct (pe_subject p) as [s'|]; cbn in Ho; [|done]. injection Ho as <-.
      by rewrite lookup_insert_eq.
  - destruct (List.find _ people); [done|]. unfold person_owner in Ho. destruct (pe_subject p) as [s'|]; [|done].
    rewrite lookup_insert_ne; [done|]. intros He. apply Ho. cbn. by rewrite He.
Qed.

Lemma owner_list_inj people r1 r2 p1 p2 o :
  NoDup (owner_list people) → (r1, p1) ∈ people → (r2, p2) ∈ people →
  person_owner p1 = Some o → person_owner p2 = Some o → (r1, p1) = (r2, p2).
Proof.
  assert (Hin : ∀ l r p, (r, p) ∈ l → person_owner p = Some o → o ∈ owner_list l).
  { intros l r p Hp Ho. apply list_elem_of_omap. by exists (r, p). }
  induction people as [|[r p] people IH]; [set_solver|]. rewrite owner_list_cons.
  intros Hn [H1|H1]%elem_of_cons [H2|H2]%elem_of_cons O1 O2; simplify_eq; [done|..].
  - rewrite O1 in Hn. apply NoDup_cons in Hn as [Hn _]. destruct Hn. eauto.
  - rewrite O2 in Hn. apply NoDup_cons in Hn as [Hn _]. destruct Hn. eauto.
  - apply IH; try done. by destruct (person_owner p); [apply NoDup_cons in Hn as []|].
Qed.

Lemma add_handles_owners handles s : owners (foldl add_handle s handles) = owners s.
Proof. revert s. induction handles; intros s; cbn; [done|]. by rewrite IHhandles. Qed.

Lemma add_handles_persons handles s :
  persons (foldl add_handle s handles) = appended (λ k, handles_of k handles) (persons s).
Proof.
  induction handles as [|h handles IH] using rev_ind; [by rewrite appended_nil|].
  rewrite foldl_snoc. cbn [add_handle persons]. rewrite IH, appended_alter. apply appended_ext. intros k.
  unfold handles_of. rewrite List.filter_app, map_app. f_equal. cbn.
  by repeat case_bool_decide; subst.
Qed.

(** ** The owners of links *)

Lemma firsts_snoc {A} `{EqDecision A} (l : list A) x :
  firsts (l ++ [x]) = if decide (x ∈ firsts l) then firsts l else firsts l ++ [x].
Proof. unfold firsts. by rewrite foldl_snoc. Qed.

Lemma elem_of_firsts {A} `{EqDecision A} (l : list A) x : x ∈ firsts l ↔ x ∈ l.
Proof.
  induction l as [|y l IH] using rev_ind; [done|]. rewrite firsts_snoc. case_decide; set_solver.
Qed.

Section Links.
Context (s0 : assembly).
Hypothesis keys_no_nul : ∀ k, k ∈ (persons s0).*1 → no_nul k.
Hypothesis values_no_nul : ∀ (o : owner) k, owners s0 !! o = Some k → no_nul k.

Definition unknown (o : owner) : bool := bool_decide (owners s0 !! o = None).
Definition key_of (o : owner) : pystr := default (anchor_key o) (owners s0 !! o).
Definition items_at (k : pystr) (links : list (pystr * link_row)) : list item :=
  map (λ kr, link_item kr.1 kr.2) (List.filter (λ kr, bool_decide (key_of (row_owner kr.2) = k)) links).
Definition newcomers (links : list (pystr * link_row)) : list owner :=
  firsts (List.filter unknown (map (λ kr, row_owner kr.2) links)).

Lemma items_at_snoc k links kr :
  items_at k (links ++ [kr])
  = items_at k links ++ if bool_decide (k = key_of (row_owner kr.2)) then [link_item kr.1 kr.2] else [].
Proof.
  unfold items_at. rewrite List.filter_app, map_app. f_equal. cbn. by repeat case_bool_decide; subst.
Qed.

Lemma newcomers_snoc links kr :
  newcomers (links ++ [kr])
  = if unknown (row_owner kr.2) && negb (bool_decide (row_owner kr.2 ∈ newcomers links))
    then newcomers links ++ [row_owner kr.2] else newcomers links.
Proof.
  unfold newcomers. rewrite map_app, List.filter_app. cbn. destruct (unknown _); cbn; [|by rewrite app_nil_r].
  rewrite firsts_snoc. by repeat case_decide; case_bool_decide.
Qed.

Definition owners_no_nul (links : list (pystr * link_row)) : Prop :=
  ∀ kr, kr ∈ links → no_nul (row_owner kr.2).1.

Lemma key_of_anchor (o' o : owner) : no_nul o'.1 → no_nul o.1 → key_of o' = anchor_key o → o' = o ∧ owners s0 !! o' = None.
Proof.
  intros H1 H2. unfold key_of. destruct (owners s0 !! o') as [k|] eqn:E; cbn.
  - intros ->. by apply values_no_nul, anchor_key_nul in E.
  - intros H. by apply anchor_key_inj in H.
Qed.

Lemma items_at_new (o : owner) links :
  owners_no_nul links → no_nul o.1 → owners s0 !! o = None → o ∉ newcomers links →
  items_at (anchor_key o) links = [].
Proof.
  intros Hl Ho Hu Hn. unfold items_at.
  destruct (List.filter _ links) as [|kr l] eqn:E; [done|]. exfalso.
  assert (Hin : kr ∈ kr :: l) by set_solver. rewrite <- E in Hin.
  apply list_elem_of_In, filter_In in Hin as [Hin Hk]. bools. apply list_elem_of_In in Hin.
  apply key_of_anchor in Hk as [Hk Hkn]; [|by apply Hl|done]. subst o. apply Hn.
  apply elem_of_firsts, list_elem_of_In, filter_In. split; [|by apply bool_decide_eq_true].
  apply in_map_iff. exists kr. by rewrite <- list_elem_of_In.
Qed.

Definition add_one (s : assembly) (kr : pystr * link_row) : assembly := add_link kr.1 s kr.2.

Definition linked_persons (links : list (pystr * link_row)) : list (pystr * entry) :=
  appended (λ k, items_at k links)
    (persons s0 ++ map (λ o, (anchor_key o, owner_entry o)) (newcomers links)).
Definition linked_owner (links : list (pystr * link_row)) (o : owner) : option pystr :=
  match owners s0 !! o with
  | Some k => Some k
  | None => if bool_decide (o ∈ newcomers links) then Some (anchor_key o) else None
  end.

Lemma linked_owner_key links (o : owner) key : linked_owner links o = Some key → key = key_of o.
Proof.
  unfold linked_owner, key_of. destruct (owners s0 !! o); [by intros [= ->]|].
  case_bool_decide; [by intros [= <-]|done].
Qed.

Lemma linked_snoc links kr :
  appended (λ k, items_at k (links ++ [kr])) (persons s0 ++ map (λ o, (anchor_key o, owner_entry o)) (newcomers links))
  = alter_entry (add_item (link_item kr.1 kr.2)) (key_of (row_owner kr.2)) (linked_persons links).
Proof.
  unfold linked_persons. rewrite appended_alter. apply appended_ext. intros k. apply items_at_snoc.
Qed.

Lemma fresh_key links kr :
  owners_no_nul (links ++ [kr]) → row_owner kr.2 ∉ newcomers links →
  anchor_key (row_owner kr.2) ∉ (linked_persons links).*1.
Proof.
  intros Hn Hk. unfold linked_persons. rewrite appended_keys, fmap_app. intros [Hin|Hin]%elem_of_app.
  - by apply keys_no_nul, anchor_key_nul in Hin.
  - apply list_elem_of_fmap in Hin as ([k e] & E & Hin). apply list_elem_of_In, in_map_iff in Hin as (o & [= <- <-] & Ho).
    cbn in E. apply list_elem_of_In in Ho.
    apply anchor_key_inj in E; [by subst|apply Hn; set_solver|].
    apply elem_of_firsts, list_elem_of_In, filter_In in Ho as [Ho _].
    apply in_map_iff in Ho as (kr' & <- & Hin'). apply Hn. apply list_elem_of_In in Hin'. set_solver.
Qed.

Lemma linked_append links (o : owner) :
  owners_no_nul links → no_nul o.1 → owners s0 !! o = None → o ∉ newcomers links →
  linked_persons links ++ [(anchor_key o, owner_entry o)]
  = appended (λ k, items_at k links)
      ((persons s0 ++ map (λ o, (anchor_key o, owner_entry o)) (newcomers links))
       ++ [(anchor_key o, owner_entry o)]).
Proof.
  intros. unfold linked_persons. unfold appended at 2. rewrite map_app. f_equal. cbn.
  by rewrite items_at_new.
Qed.

Lemma add_links links :
  owners_no_nul links →
  let s := foldl add_one s0 links in
  persons s = linked_persons links ∧ ∀ o, owners s !! o = linked_owner links o.
Proof.
  induction links as [|[kind r] links IH] using rev_ind; intros Hn; cbv zeta.
  - unfold linked_persons, linked_owner. cbn. rewrite app_nil_r. split; [by rewrite appended_nil|].
    intros o. destruct (owners s0 !! o); [done|]. by case_bool_decide; set_solver.
  - rewrite foldl_snoc. destruct IH as [IHp IHo]; [intros kr Hkr; apply Hn; set_solver|].
    set (s := foldl add_one s0 links) in *. change (add_one s (kind, r)) with (add_link kind s r).
    unfold add_link. fold (row_owner r). rewrite IHo.
    pose proof (newcomers_snoc links (kind, r)) as Hnew. cbn [snd] in Hnew.
    pose proof (linked_snoc links (kind, r)) as Hls. cbn [fst snd] in Hls.
    destruct (linked_owner links (row_owner r)) as [key|] eqn:Hk.
    + assert (Hs : newcomers (links ++ [(kind, r)]) = newcomers links).
      { rewrite Hnew. revert Hk. unfold linked_owner, unknown.
        destruct (owners s0 !! row_owner r); [by rewrite bool_decide_false|].
        case_bool_decide; [by rewrite andb_false_r|done]. }
      apply linked_owner_key in Hk as ->. cbn [persons owners]. split.
      * rewrite IHp, <- Hls. unfold linked_persons. by rewrite Hs.
      * intros o. rewrite IHo. unfold linked_owner. by rewrite Hs.
    + revert Hk. unfold linked_owner at 1. destruct (owners s0 !! row_owner r) eqn:Hu; [done|].
      case_bool_decide as Hin; [done|]. intros _.
      assert (Hs : newcomers (links ++ [(kind, r)]) = newcomers links ++ [row_owner r]).
      { assert (Hk : unknown (row_owner r) = true) by (by apply bool_decide_eq_true).
        by rewrite Hnew, Hk. }
      assert (Ho : key_of (row_owner r) = anchor_key (row_owner r)) by (unfold key_of; by rewrite Hu).
      cbn [persons owners]. split.
      * rewrite IHp, dict_set_fresh by by apply (fresh_key links (kind, r)).
        rewrite linked_append, appended_alter; [|by intros kr Hkr; apply Hn; set_solver|by apply (Hn (kind, r)); set_solver|done..].
        unfold linked_persons. rewrite Hs, map_app, app_assoc. apply appended_ext. intros k.
        rewrite items_at_snoc. cbn [fst snd]. by rewrite Ho.
      * intros o. unfold linked_owner. rewrite Hs. destruct (decide (o = row_owner r)) as [->|Hne].
        -- rewrite lookup_insert_eq, Hu, bool_decide_true by set_solver. done.
        -- rewrite lookup_insert_ne, IHo by congruence. unfold linked_owner.
           destruct (owners s0 !! o); [done|]. by repeat case_bool_decide; set_solver.
Qed.
End Links.

(** ** The equivalence *)

(** The rows of people as the store has them: references and identities are
    unique, and no reference contains a NUL character (they are UUIDs). *)
Record people_rows_ok (people : list (pystr * person)) : Prop := {
  pr_refs : NoDup people.*1;
  pr_owners : NoDup (owner_list people);
  pr_no_nul : ∀ k, k ∈ people.*1 → no_nul k
}.

Lemma add_links_twice accounts profiles s :
  foldl (add_link (lit "profile")) (foldl (add_link (lit "account")) s accounts) profiles
  = foldl add_one s (all_links accounts profiles).
Proof.
  unfold all_links. rewrite foldl_app, !foldl_fmap. done.
Qed.

Section Loops.
Context (people : list (pystr * person)) (handles : list handle).
Hypothesis people_ok : people_rows_ok people.

Definition declared_state : assembly := foldl add_handle (foldl add_person (Assembly [] ∅) people) handles.

Lemma declared_persons :
  persons declared_state
  = appended (λ k, handles_of k handles) (map (λ rp, (rp.1, person_entry rp.1 rp.2)) people).
Proof.
  unfold declared_state. rewrite add_handles_persons, add_people_persons; [done|]. apply people_ok.
Qed.

Lemma declared_owner o :
  owners declared_state !! o
  = fst <$> List.find (λ rp, bool_decide (person_owner rp.2 = Some o)) people.
Proof.
  unfold declared_state. rewrite add_handles_owners, add_people_owners by apply people_ok.
  by destruct (List.find _ _).
Qed.

Lemma declared_owner_some (o : owner) k :
  owners declared_state !! o = Some k ↔ ∃ p, (k, p) ∈ people ∧ person_owner p = Some o.
Proof.
  rewrite declared_owner. split.
  - intros ([k' p] & Hf & [= ->])%fmap_Some. apply find_some in Hf as [Hin Hp]. bools.
    exists p. by rewrite list_elem_of_In.
  - intros (p & Hin & Hp). destruct (List.find _ people) as [[k' p']|] eqn:Hf; cbn.
    + apply find_some in Hf as [Hin' Hp']. cbn in Hp'. bools. apply list_elem_of_In in Hin'.
      assert (E : (k', p') = (k, p)) by (eapply owner_list_inj; [apply people_ok|done..]). by injection E as ->.
    + assert (H : bool_decide (person_owner p = Some o) = false)
        by by apply (find_none _ _ Hf (k, p)), list_elem_of_In.
      by bools.
Qed.

Lemma declared_owner_none (o : owner) : owners declared_state !! o = None ↔ claimed people o = false.
Proof.
  unfold claimed. rewrite bool_decide_eq_false, eq_None_not_Some. split; intros H Hc; apply H.
  - apply list_elem_of_In, in_map_iff in Hc as ([k p] & Ho & Hin). apply list_elem_of_In in Hin.
    exists k. apply declared_owner_some. eauto.
  - destruct Hc as [k Hk]. apply declared_owner_some in Hk as (p & Hin & Ho).
    apply list_elem_of_In, in_map_iff. exists (k, p). by rewrite <- list_elem_of_In.
Qed.

Lemma declared_keys k : k ∈ (persons declared_state).*1 → no_nul k.
Proof.
  rewrite declared_persons, appended_keys. intros Hk. apply people_ok.
  apply list_elem_of_fmap in Hk as ([k' e] & -> & Hin). apply list_elem_of_In, in_map_iff in Hin as ([k p] & [= <- <-] & Hin).
  apply list_elem_of_fmap. exists (k, p). by rewrite list_elem_of_In.
Qed.

Lemma declared_values (o : owner) k : owners declared_state !! o = Some k → no_nul k.
Proof.
  intros (p & Hin & _)%declared_owner_some. apply people_ok. apply list_elem_of_fmap. by exists (k, p).
Qed.

(** What is added under the reference of a person, and of an unclaimed owner. *)
Lemma person_links ref p links :
  owners_no_nul links → (ref, p) ∈ people →
  items_at declared_state ref links = links_of (person_owner p) links.
Proof.
  intros Hl Hin. unfold items_at, links_of. f_equal. apply filter_ext_in. intros kr _.
  apply bool_decide_ext. unfold key_of. split.
  - destruct (owners declared_state !! _) as [k|] eqn:E; cbn.
    + intros ->. apply declared_owner_some in E as (p' & Hin' & Ho).
      assert (p' = p) as <-; [|done].
      assert (E : (ref, p') = (ref, p)) by (eapply (NoDup_map_inj fst); [apply people_ok|done..]). by injection E.
    + intros <-. destruct (anchor_key_nul (row_owner kr.2)). apply people_ok. apply list_elem_of_fmap. by eexists (_, p).
  - intros Ho. assert (E : owners declared_state !! row_owner kr.2 = Some ref) by (apply declared_owner_some; eauto).
    by rewrite E.
Qed.

Lemma newcomer_links (o : owner) links :
  owners_no_nul links → no_nul o.1 → owners declared_state !! o = None →
  items_at declared_state (anchor_key o) links = links_of (Some o) links.
Proof.
  intros Hl Ho Hu. unfold items_at, links_of. f_equal. apply filter_ext_in. intros kr Hin.
  apply bool_decide_ext. split.
  - intros Hk. apply key_of_anchor in Hk as [-> _]; [done|apply declared_values|by apply Hl, list_elem_of_In|done].
  - intros [= ->]. unfold key_of. by rewrite Hu.
Qed.

Lemma newcomers_unclaimed links :
  newcomers declared_state links
  = firsts (List.filter (λ o, negb (claimed people o)) (map (λ kr, row_owner kr.2) links)).
Proof.
  unfold newcomers. f_equal. apply filter_ext. intros o. unfold unknown.
  destruct (claimed people o) eqn:E; cbn.
  - apply bool_decide_eq_false. intros H. apply declared_owner_none in H. congruence.
  - apply bool_decide_eq_true. by apply declared_owner_none.
Qed.

Lemma linked_entries links :
  owners_no_nul links → (linked_persons declared_state links).*2 = directory_of people handles links.
Proof.
  intros Hl. unfold linked_persons, directory_of, appended. rewrite map_app, fmap_app.
  f_equal.
  - rewrite declared_persons. unfold appended. rewrite !map_map.
    apply map_ext_in. intros [ref p] Hin.
    cbn [fst snd]. rewrite (person_links ref p) by by (try apply list_elem_of_In).
    unfold append_items, with_accounts_of. done.
  - rewrite <- newcomers_unclaimed, !map_map.
    apply map_ext_in. intros o Ho. cbn [fst snd]. apply list_elem_of_In in Ho.
    apply elem_of_firsts, list_elem_of_In, filter_In in Ho as [Ho Hu]. unfold unknown in Hu. bools.
    apply in_map_iff in Ho as (kr & <- & Hin). rewrite newcomer_links; [done|done| |done].
    by apply Hl, list_elem_of_In.
Qed.
End Loops.

(** C30. [assemble_people] answers what the reference does.  For rows of people
    with distinct references and identities, any handles, and any links whose
    issuers have no NUL character, the two dictionaries of the code end in
    exactly these entries: every declared person with the handles declared for
    it and the links of its identity, then every other owner of a link, once,
    with its links; accounts and people in the code's order. *)
Theorem assemble_people_reference casefold people handles accounts profiles :
  people_rows_ok people →
  (∀ r, r ∈ accounts ++ profiles → no_nul (lr_issuer r)) →
  assemble_people casefold people handles accounts profiles
  = sort_by (entry_order casefold)
      (map sort_accounts (directory_of people handles (all_links accounts profiles))).
Proof.
  intros Hp Hr. unfold assemble_people. rewrite add_links_twice. f_equal. f_equal.
  fold (declared_state people handles). set (links := all_links accounts profiles).
  assert (Hl : owners_no_nul links).
  { intros [kind r] Hin. apply Hr. unfold links, all_links in Hin. apply elem_of_app in Hin as [Hin|Hin];
      apply list_elem_of_In, in_map_iff in Hin as (r' & [= <- <-] & Hin); apply list_elem_of_In in Hin; set_solver. }
  destruct (add_links (declared_state people handles)) with (links := links) as [-> _]; [| |done|].
  { intros k. by apply declared_keys. } { intros o k. by apply declared_values. }
  apply linked_entries; done.
Qed.
