(* ===== verification/PeopleFacts.v ===== *)
(** * Account center: the directory as a machine

    The operations on the people directory, with those of the rest of the store,
    and what every reachable directory keeps: one person per identity and per
    address, one holder per handle, in its own workspace. *)

From Stdlib Require Import ZArith NArith.
From S2P Require Import Prelude PyText Json AccountStore AccountFacts ProfileStore ProfileSessions ProfileMachine.
From S2P Require Import PeopleText PeopleStore PeopleDirectory PeopleAssembly.

#[local] Open Scope Z_scope.

Inductive directory_op :=
  | DCenter (op : center_op)
  | DDeclare (person_ref handle_ref : pystr) (an : Anchor) (r : request) (now : Z)
      (command : option (pystr * (declared → pybytes)))
  | DRetract (an : Anchor) (r : request) (now : Z) (command : option (pystr * (pystr * pystr → pybytes)))
  | DAdmin (ref : pystr) (an : Anchor) (target provider : pystr) (unlinked skipped_shared now : Z)
      (command : option (pystr * pybytes)).

Inductive directory_out :=
  | DoCenter (o : center_out)
  | DoDeclared (r : R declared)
  | DoRetracted (r : R (pystr * pystr))
  | DoUnit (r : R ()).

Definition directory_step (lower : pystr → pystr) (op : directory_op) (d : directory)
  : directory_out * directory :=
  match op with
  | DCenter op => let '(o, c) := center_step op (center_tables d) in (DoCenter o, with_center c d)
  | DDeclare pr hr an r now c => on_fst DoDeclared (_declare_account_handle lower pr hr an r now c d)
  | DRetract an r now c => on_fst DoRetracted (_retract_account_handle lower an r now c d)
  | DAdmin ref an t p u s now c => on_fst DoUnit (record_admin_action ref an t p u s now c d)
  end.

Definition empty_directory : directory := Directory empty_center ∅ ∅ ∅.

(** The references that the operations draw have no NUL character. *)
Definition op_ok (op : directory_op) : Prop :=
  match op with DDeclare pr _ _ _ _ _ => no_nul pr | _ => True end.

(** ** People *)

(** Both rows cannot stand for one identity or one address. *)
Definition distinct (p q : person) : Prop := same_subject p q = false ∧ same_mail p q = false.
Definition people_ok (m : gmap pystr person) : Prop :=
  ∀ r1 r2 p1 p2, r1 ≠ r2 → m !! r1 = Some p1 → m !! r2 = Some p2 → distinct p1 p2.

Lemma same_subject_spec p q :
  same_subject p q = true ↔
  pe_organization p = pe_organization q ∧ ws_key (pe_workspace p) = ws_key (pe_workspace q)
  ∧ pe_issuer p = pe_issuer q ∧ pe_subject p ≠ None ∧ pe_subject p = pe_subject q.
Proof.
  unfold same_subject, same_place. rewrite !andb_true_iff, !bool_decide_eq_true. tauto.
Qed.
Lemma same_mail_spec p q :
  same_mail p q = true ↔
  pe_organization p = pe_organization q ∧ ws_key (pe_workspace p) = ws_key (pe_workspace q)
  ∧ pe_mail p ≠ None ∧ pe_mail p = pe_mail q.
Proof.
  unfold same_mail, same_place. rewrite !andb_true_iff, !bool_decide_eq_true. tauto.
Qed.

Lemma distinct_sym p q : distinct p q → distinct q p.
Proof.
  unfold distinct. rewrite <- !not_true_iff_false, !same_subject_spec, !same_mail_spec.
  intros [H1 H2]. split; intros H; [apply H1|apply H2]; split_and!; naive_solver congruence.
Qed.

Lemma put_person_ok ref p m m' :
  put_person ref p m = Ok m' → m' = <[ref := p]> m ∧ ∀ r q, r ≠ ref → m !! r = Some q → distinct p q.
Proof.
  unfold put_person. intros H. inv_result. bools. split; [done|]. intros r q Hr Hq.
  match goal with Hf : fetch_one _ _ = None |- _ => eapply fetch_one_none in Hf end;
    [|rewrite lookup_delete_ne by done; exact Hq]. by apply orb_false_iff.
Qed.

Lemma put_people_ok ref p m m' : put_person ref p m = Ok m' → people_ok m → people_ok m'.
Proof.
  intros [-> Hd]%put_person_ok H r1 r2 p1 p2 Hn H1 H2.
  destruct (decide (r1 = ref)) as [->|N1], (decide (r2 = ref)) as [->|N2];
    rewrite ?lookup_insert_eq, ?lookup_insert_ne in * by done; simplify_eq; eauto using distinct_sym.
Qed.

Lemma find_person_ok an subject mail m ref p :
  find_person an subject mail m = Ok (Some (ref, p)) → m !! ref = Some p ∧ person_in an p = true.
Proof.
  assert (Hs : ∀ x : pystr * person, (s ← subject; fetch_one (with_subject an s) m) = Some x →
    m !! x.1 = Some x.2 ∧ person_in an x.2 = true).
  { intros [r q] H. destruct subject as [s|]; [|done]. apply fetch_one_some in H as [? H].
    unfold with_subject in H. by bools. }
  assert (Hm : ∀ x : pystr * person, (a ← mail; fetch_one (with_mail an a) m) = Some x →
    m !! x.1 = Some x.2 ∧ person_in an x.2 = true).
  { intros [r q] H. destruct mail as [a|]; [|done]. apply fetch_one_some in H as [? H].
    unfold with_mail in H. by bools. }
  unfold find_person. destruct (s ← subject; _) as [[r1 p1]|].
  - specialize (Hs _ eq_refl). destruct (a ← mail; _) as [[r2 p2]|]; intros H; inv_result; exact Hs.
  - intros [= H]. by apply (Hm (ref, p)).
Qed.

(** Rows stay, in their workspace and under their issuer. *)
Definition kept_person (p q : person) : Prop :=
  pe_organization q = pe_organization p ∧ pe_workspace q = pe_workspace p ∧ pe_issuer q = pe_issuer p.
Definition people_kept (m m' : gmap pystr person) : Prop :=
  ∀ r p, m !! r = Some p → ∃ q, m' !! r = Some q ∧ kept_person p q.

Lemma people_kept_refl m : people_kept m m.
Proof. intros r p Hp. by exists p. Qed.

Lemma people_kept_insert m ref p q :
  m !! ref = Some p → kept_person p q → people_kept m (<[ref := q]> m).
Proof.
  intros Hp Hk r p' Hr. destruct (decide (ref = r)) as [<-|Hn].
  - rewrite lookup_insert_eq. simplify_eq. eauto.
  - rewrite lookup_insert_ne by done. by exists p'.
Qed.

(** The person has what was given. *)
Definition has (given stored : option pystr) : Prop := ∀ s, given = Some s → stored = Some s.

Lemma text_or_has given stored : contradicts given stored = false → has given (text_or stored given).
Proof.
  unfold has. intros H s ->. destruct stored as [[|c t]|]; cbn in *; [done| |done].
  apply negb_false_iff, bool_decide_eq_true in H. by rewrite H.
Qed.

Lemma settle_person_ok new_ref an subject mail name now m ref m' :
  settle_person new_ref an subject mail name now m = Ok (ref, m') → people_ok m →
  people_ok m' ∧ people_kept m m'
  ∧ (∃ p, m' !! ref = Some p ∧ person_in an p = true ∧ has subject (pe_subject p) ∧ has mail (pe_mail p))
  ∧ ∀ r p, m' !! r = Some p → is_Some (m !! r) ∨ r = new_ref.
Proof.
  unfold settle_person. intros H Hm. inv_result. destruct v as [[r p]|].
  - match goal with Hf : find_person _ _ _ _ = _ |- _ => apply find_person_ok in Hf as [Hp Hin] end.
    inv_result. bools. case_bool_decide as Hsame.
    + inv_result. injection Hsame as Hs1 Hs2 _. split_and!; [done|apply people_kept_refl| |by left].
      eexists. split_and!; [exact Hp|done|by rewrite <- Hs1; apply text_or_has|by rewrite <- Hs2; apply text_or_has].
    + inv_result. match goal with Hput : put_person _ _ _ = _ |- _ =>
        pose proof (put_people_ok _ _ _ _ Hput Hm); apply put_person_ok in Hput as [-> _] end.
      split_and!; [done|by eapply people_kept_insert| |].
      * eexists. rewrite lookup_insert_eq. split_and!; [done|exact Hin|by apply text_or_has..].
      * intros r' p' Hr. left. destruct (decide (ref = r')) as [<-|]; [by rewrite Hp|].
        rewrite lookup_insert_ne in Hr by done. by eexists.
  - inv_result. bools. match goal with Hput : put_person _ _ _ = _ |- _ =>
      pose proof (put_people_ok _ _ _ _ Hput Hm); apply put_person_ok in Hput as [-> _] end.
    split_and!; [done| | |].
    + intros r p Hp. rewrite lookup_insert_ne by congruence. by exists p.
    + eexists. rewrite lookup_insert_eq. split_and!; [done| |by intros ? ?..].
      unfold person_in. by rewrite !bool_decide_true.
    + intros r p Hp. destruct (decide (ref = r)) as [<-|]; [by right|].
      rewrite lookup_insert_ne in Hp by done. left. by eexists.
Qed.

(** ** The invariant *)

Section Lower.
Context (lower : pystr → pystr).

Record directory_ok (d : directory) : Prop := {
  ok_people : people_ok (people d);
  ok_refs : ∀ r p, people d !! r = Some p → no_nul r;
  ok_handles : ∀ k1 k2 h1 h2, k1 ≠ k2 → handles d !! k1 = Some h1 → handles d !! k2 = Some h2 →
    ha_active h1 = true → same_handle h1 h2 = false;
  ok_handle : ∀ k h, handles d !! k = Some h →
    ha_key h = handle_key lower (ha_provider h) (ha_handle h)
    ∧ ∃ p, people d !! ha_person h = Some p
        ∧ pe_organization p = ha_organization h ∧ pe_workspace p = ha_workspace h
}.

Lemma empty_directory_ok : directory_ok empty_directory.
Proof. split; intros *; cbn; by rewrite ?lookup_empty. Qed.

Lemma record_result_tables command d d' :
  record_result command d = Ok d' → people d' = people d ∧ handles d' = handles d.
Proof. unfold record_result. intros H. by inv_result. Qed.

Lemma normalize_handle_ok provider v handle key :
  normalize_handle lower provider v = Ok (handle, key) → key = handle_key lower provider handle.
Proof.
  unfold normalize_handle. intros H. inv_result. destruct (_HANDLE_PATTERNS provider); [|done].
  by inv_result.
Qed.

Lemma read_declaration_ok r subject mail name provider handle key :
  read_declaration lower r = Ok (subject, mail, name, provider, (handle, key)) →
  key = handle_key lower provider handle.
Proof.
  unfold read_declaration. intros H. inv_result. by eapply normalize_handle_ok.
Qed.

(** A committed declaration. *)
Lemma declare_ok pr hr an subject mail name provider handle key now command d de d' :
  declare_account_handle pr hr an subject mail name provider handle key now command d = (Ok de, d') →
  ∃ m hs, settle_person pr an subject mail name now (people d) = Ok (de_person de, m)
    ∧ people d' = m ∧ handles d' = hs
    ∧ ((∃ href h, handles d !! href = Some h ∧ live_handle an provider key h = true ∧ hs = handles d
          ∧ ha_person h = de_person de)
       ∨ (∀ k h, handles d !! k = Some h →
            same_handle (Handle (de_person de) (organization_id an) (workspace_id an) provider handle key true
                           (issuer an, an_subject an) now now) h = false)
         ∧ handles d !! hr = None
         ∧ hs = <[hr := Handle (de_person de) (organization_id an) (workspace_id an) provider handle key true
                          (issuer an, an_subject an) now now]> (handles d)).
Proof.
  unfold declare_account_handle. intros H. apply transact_cases in H as [(de' & [= <-] & H)|(? & [=] & _)].
  inv_result. destruct v as [ref m]. inv_result. destruct v as [res hs]. inv_result.
  match goal with Hr : record_result _ _ = Ok _ |- _ => apply record_result_tables in Hr as [Hp Hh] end.
  exists m, hs. cbn in Hp, Hh.
  destruct (fetch_one (live_handle an provider key) (handles d)) as [[href h]|] eqn:Hf; inv_result; bools.
  - apply fetch_one_some in Hf as [Hf Hl]. split_and!; [done..|]. left. by exists href, h.
  - match goal with Hi : insert_handle _ _ _ = Ok _ |- _ => unfold insert_handle in Hi end. inv_result. bools.
    split_and!; [done..|]. right. split_and!; [|done|done]. by apply fetch_one_none.
Qed.

Lemma same_handle_spec h g :
  same_handle h g = true ↔
  ha_active g = true ∧ ha_organization h = ha_organization g
  ∧ ws_key (ha_workspace h) = ws_key (ha_workspace g) ∧ ha_provider h = ha_provider g ∧ ha_key h = ha_key g.
Proof. unfold same_handle. rewrite !andb_true_iff, !bool_decide_eq_true. tauto. Qed.

Lemma same_handle_sym h g : ha_active h = true → same_handle g h = false → same_handle h g = false.
Proof.
  rewrite <- !not_true_iff_false, !same_handle_spec. intros Ha H (? & ? & ? & ? & ?). apply H. by split_and!.
Qed.

Lemma declare_directory_ok pr hr an subject mail name provider handle now command d de d' :
  no_nul pr → directory_ok d →
  declare_account_handle pr hr an subject mail name provider handle (handle_key lower provider handle) now
    command d = (Ok de, d') → directory_ok d'.
Proof.
  intros Hpr [Up Ur Uh Uk] H. apply declare_ok in H as (m & hs & Hs & <- & <- & Hh).
  apply settle_person_ok in Hs as (Hm & Hk & (p & Hp & Hin & _) & Hnew); [|done].
  assert (Hold : ∀ k h, handles d !! k = Some h → ∃ q, people d' !! ha_person h = Some q
    ∧ pe_organization q = ha_organization h ∧ pe_workspace q = ha_workspace h).
  { intros k h Hkh. destruct (Uk k h Hkh) as (_ & q & Hq & Ho & Hw).
    destruct (Hk _ _ Hq) as (q' & Hq' & E1 & E2 & _). exists q'. split_and!; congruence. }
  split; [done| | |].
  - intros r q Hq. destruct (Hnew r q Hq) as [[q0 Hq0]| ->]; eauto.
  - destruct Hh as [(_ & _ & _ & _ & -> & _)|(Hc & Hn & ->)]; [done|].
    intros k1 k2 h1 h2 Hne H1 H2 Ha. destruct (decide (k1 = hr)) as [->|N1], (decide (k2 = hr)) as [->|N2];
      rewrite ?lookup_insert_eq, ?lookup_insert_ne in * by done; simplify_eq; eauto using same_handle_sym.
  - destruct Hh as [(_ & _ & _ & _ & -> & _)|(Hc & Hn & ->)].
    { intros k h Hkh. split; [by apply (Uk k)|eauto]. }
    intros k h Hkh. destruct (decide (k = hr)) as [->|N].
    + rewrite lookup_insert_eq in Hkh. injection Hkh as <-. split; [done|]. unfold person_in in Hin. bools. eauto.
    + rewrite lookup_insert_ne in Hkh by done. split; [by apply (Uk k)|eauto].
Qed.

Lemma retract_ok an provider key now command d x d' :
  retract_account_handle an provider key now command d = (Ok x, d') →
  ∃ ref h, handles d !! ref = Some h ∧ live_handle an provider key h = true ∧ x = (ha_person h, ha_handle h)
    ∧ people d' = people d ∧ handles d' = <[ref := retracted now h]> (handles d).
Proof.
  unfold retract_account_handle. intros H. apply transact_cases in H as [(y & [= <-] & H)|(? & [=] & _)].
  destruct (fetch_one _ _) as [[ref h]|] eqn:Hf; [|done]. apply fetch_one_some in Hf as [Hf Hl]. inv_result.
  match goal with Hr : record_result _ _ = Ok _ |- _ => apply record_result_tables in Hr as [Hp Hh] end.
  by exists ref, h.
Qed.

Lemma retract_directory_ok an provider key now command d x d' :
  directory_ok d → retract_account_handle an provider key now command d = (Ok x, d') → directory_ok d'.
Proof.
  intros [Up Ur Uh Uk] H. apply retract_ok in H as (ref & h & Hf & _ & _ & Hp & Hh).
  split; rewrite ?Hp, ?Hh; [done..| |].
  - intros k1 k2 h1 h2 Hne H1 H2 Ha. apply not_true_iff_false. rewrite same_handle_spec. intros S.
    destruct (decide (k1 = ref)) as [->|N1].
    { rewrite lookup_insert_eq in H1. by injection H1 as <-. }
    destruct (decide (k2 = ref)) as [->|N2].
    { rewrite lookup_insert_eq in H2. injection H2 as <-. by destruct S. }
    rewrite lookup_insert_ne in H1, H2 by done. specialize (Uh k1 k2 h1 h2 Hne H1 H2 Ha).
    by apply not_true_iff_false in Uh; apply Uh, same_handle_spec.
  - intros k g Hk. destruct (decide (k = ref)) as [->|N].
    + rewrite lookup_insert_eq in Hk. injection Hk as <-. cbn. by apply (Uk ref).
    + rewrite lookup_insert_ne in Hk by done. by apply (Uk k).
Qed.

Lemma directory_step_ok op d :
  op_ok op → directory_ok d → directory_ok (directory_step lower op d).2.
Proof.
  intros Hop Hd. destruct op; cbn [directory_step].
  - destruct (center_step _ _). destruct Hd. by split.
  - unfold _declare_account_handle, on_fst. destruct (read_declaration lower r) as [[[[[? ?] ?] ?] [? ?]]|] eqn:Hr; [|done].
    apply read_declaration_ok in Hr as ->. destruct (declare_account_handle _ _ _ _ _ _ _ _ _ _ _ _) as [[de|e] d'] eqn:H.
    + by eapply declare_directory_ok.
    + unfold declare_account_handle in H. apply transact_cases in H as [(? & [=] & _)|(? & _ & -> & _)]. done.
  - unfold _retract_account_handle, on_fst. destruct (read_retraction lower r) as [[? [? ?]]|]; [|done].
    destruct (retract_account_handle _ _ _ _ _ _) as [[x|e] d'] eqn:H.
    + by eapply retract_directory_ok.
    + unfold retract_account_handle in H. apply transact_cases in H as [(? & [=] & _)|(? & _ & -> & _)]. done.
  - unfold on_fst. destruct (record_admin_action _ _ _ _ _ _ _ _ _) as [o d'] eqn:H.
    unfold record_admin_action in H. apply transact_cases in H as [(? & -> & H)|(? & -> & -> & _)]; [|done].
    inv_result. match goal with Hr : record_result _ _ = Ok _ |- _ => apply record_result_tables in Hr as [Hp Hh] end.
    cbn in *. destruct Hd. by split; rewrite ?Hp, ?Hh.
Qed.

Lemma directory_run_ok ops : Forall op_ok ops → directory_ok (final (directory_step lower) ops empty_directory).
Proof.
  induction ops as [|op ops IH] using rev_ind; intros Hf; [apply empty_directory_ok|].
  apply Forall_app in Hf as [Hf Hop]. rewrite Forall_singleton in Hop. rewrite final_app, final_cons.
  apply directory_step_ok; [done|by apply IH].
Qed.
End Lower.
