(* ===== verification/PeopleFind.v ===== *)
(** * Account center: finding a person by an account

    A handle that was declared is found under every spelling with the same key,
    and finds the one person who holds it. *)

From Stdlib Require Import ZArith NArith.
From S2P Require Import Prelude PyText Json AccountStore AccountFacts ProfileStore ProfileSessions ProfileMachine.
From S2P Require Import PeopleText PeopleStore PeopleDirectory PeopleAssembly PeopleFacts.

#[local] Open Scope Z_scope.

(** ** Lists *)

Lemma insert_by_perm {A} (lt : A → A → bool) x l : insert_by lt x l ≡ₚ x :: l.
Proof.
  induction l as [|y l IH]; cbn; [done|]. destruct (lt y x); [|done]. rewrite IH. apply Permutation_swap.
Qed.
Lemma sort_by_perm {A} (lt : A → A → bool) l : sort_by lt l ≡ₚ l.
Proof. induction l as [|x l IH]; cbn; [done|]. by rewrite insert_by_perm, IH. Qed.

Lemma filter_map {A B} (f : A → B) (p : B → bool) l :
  List.filter p (map f l) = map f (List.filter (λ x, p (f x)) l).
Proof. induction l as [|x l IH]; cbn; [done|]. destruct (p (f x)); cbn; by rewrite IH. Qed.

Lemma filter_none {A} (p : A → bool) l : (∀ x, x ∈ l → p x = false) → List.filter p l = [].
Proof.
  induction l as [|x l IH]; intros H; cbn; [done|]. rewrite H by set_solver. apply IH. set_solver.
Qed.

Lemma filter_one {K V} `{EqDecision K} (l : list (K * V)) k v :
  NoDup l.*1 → (k, v) ∈ l → List.filter (λ x, bool_decide (x.1 = k)) l = [(k, v)].
Proof.
  induction l as [|[k' v'] l IH]; cbn; [set_solver|]. intros [Hn Hd]%NoDup_cons [H|H]%elem_of_cons.
  - injection H as <- <-. rewrite bool_decide_true by done. f_equal. apply filter_none. intros [k2 v2] Hin.
    apply bool_decide_eq_false. cbn. intros ->. apply Hn, list_elem_of_fmap. by exists (k, v2).
  - rewrite bool_decide_false; [by apply IH|]. cbn. intros ->. apply Hn, list_elem_of_fmap. by exists (k, v).
Qed.

Lemma NoDup_filter_fst {K V} (p : K * V → bool) (l : list (K * V)) : NoDup l.*1 → NoDup (List.filter p l).*1.
Proof.
  induction l as [|[k v] l IH]; cbn; [done|]. intros [Hn Hd]%NoDup_cons. destruct (p (k, v)); cbn; [|by apply IH].
  apply NoDup_cons. split; [|by apply IH]. contradict Hn.
  apply list_elem_of_fmap in Hn as (x & -> & Hin). apply list_elem_of_fmap. exists x. split; [done|].
  apply list_elem_of_In in Hin. apply list_elem_of_In. by apply filter_In in Hin as [Hin _].
Qed.

Lemma limited_all {A} n (l : list A) : 0 <= n → len (limited n l) <= n → limited n l = l.
Proof. unfold limited, len. rewrite length_take. intros. apply take_ge. lia. Qed.

Lemma len_nonneg {A} (l : list A) : 0 <= len l.
Proof. unfold len. lia. Qed.

(** ** The listings *)

(** The rows of a table under a condition, in some order. *)
Section Listing.
Context {V : Type} (lt : pystr * V → pystr * V → bool) (p : pystr * V → bool) (m : gmap pystr V).

Lemma elem_of_listing (k : pystr) v :
  (k, v) ∈ sort_by lt (List.filter p (map_to_list m)) ↔ m !! k = Some v ∧ p (k, v) = true.
Proof.
  rewrite sort_by_perm, list_elem_of_In, filter_In, <- list_elem_of_In. by rewrite elem_of_map_to_list.
Qed.

Lemma NoDup_listing : NoDup (sort_by lt (List.filter p (map_to_list m))).*1.
Proof.
  rewrite sort_by_perm. apply (NoDup_filter_fst p), NoDup_fst_map_to_list.
Qed.
End Listing.

Lemma live_handle_spec an provider key h :
  live_handle an provider key h = true ↔
  handle_in an h = true ∧ ha_active h = true ∧ ha_provider h = provider ∧ ha_key h = key.
Proof. unfold live_handle. rewrite !andb_true_iff, !bool_decide_eq_true. tauto. Qed.

Section Workspace.
Context (lower casefold : pystr → pystr) (an : Anchor) (d : directory).

(** The links of the workspace, as the listing gives them. *)
Definition workspace_links : list link_row :=
  let '(accounts, profiles) := list_workspace_links (organization_id an) (workspace_id an) MAX_WORKSPACE_LINKS d in
  accounts ++ profiles.

(** Within the limit, the listings are complete. *)
Lemma workspace_people_ok l :
  workspace_people casefold an d = Ok l →
  ∃ declared hs accounts profiles,
    l = assemble_people casefold declared hs accounts profiles
    ∧ workspace_links = accounts ++ profiles
    ∧ NoDup declared.*1
    ∧ (∀ r p, (r, p) ∈ declared ↔ people d !! r = Some p ∧ person_in an p = true)
    ∧ (∀ h, h ∈ hs ↔ ∃ k, handles d !! k = Some h ∧ handle_in an h = true ∧ ha_active h = true).
Proof.
  unfold workspace_people, workspace_links.
  destruct (list_workspace_links _ _ _ _) as [accounts profiles].
  unfold list_workspace_people. set (ps := sort_by _ (List.filter _ (map_to_list (people d)))).
  set (hs := sort_by _ (List.filter _ (map_to_list (handles d)))). intros H. inv_result.
  match goal with Hl : (_ <=? _) = true |- _ => apply Z.leb_le in Hl; rename Hl into Hlen end.
  pose proof (len_nonneg accounts). pose proof (len_nonneg profiles).
  pose proof (len_nonneg (limited MAX_WORKSPACE_LINKS ps)).
  assert (Hmap : len (limited MAX_WORKSPACE_LINKS hs).*2 = len (limited MAX_WORKSPACE_LINKS hs))
    by (unfold len; by rewrite length_fmap).
  pose proof (len_nonneg (limited MAX_WORKSPACE_LINKS hs)).
  rewrite (limited_all _ ps), (limited_all _ hs) by (unfold MAX_WORKSPACE_LINKS in *; lia).
  exists ps, hs.*2, accounts, profiles. split_and!; [done..|apply NoDup_listing| |].
  - intros r p. unfold ps. rewrite elem_of_listing. unfold person_in. cbn. done.
  - intros h. rewrite list_elem_of_fmap. split.
    + intros ([k h'] & -> & Hin). unfold hs in Hin. apply elem_of_listing in Hin as [Hk Hp]. cbn in Hp. bools.
      exists k. unfold handle_in. by rewrite !bool_decide_true.
    + intros (k & Hk & Hp & Ha). exists (k, h). split; [done|]. unfold hs. apply elem_of_listing.
      split; [done|]. cbn. unfold handle_in in Hp. bools. by rewrite !bool_decide_true, Ha.
Qed.

(** ** A query for a handle *)

Lemma existsb_filter {A} (f g : A → bool) l : existsb g (List.filter f l) = existsb (λ x, f x && g x) l.
Proof. induction l as [|x l IH]; cbn; [done|]. destruct (f x); cbn; by rewrite IH. Qed.

(** The account is the handle with this key, or a link of an account with it. *)
Definition item_matches (provider key : pystr) (i : item) : bool :=
  bool_decide (it_provider i = provider) && _account_matches lower provider key i.
Definition entry_matches (provider key : pystr) (e : entry) : bool :=
  existsb (item_matches provider key) (en_accounts e).

Lemma person_matches_handle provider handle e :
  person_matches lower casefold None None (Some provider) (Some handle) None e
  = entry_matches provider (handle_key lower provider handle) e.
Proof.
  unfold person_matches, entry_matches. cbn [given andb]. rewrite andb_true_r.
  set (key := handle_key lower provider handle). unfold item_matches. rewrite <- existsb_filter.
  destruct (List.filter _ _) as [|i l]; [done|]. by rewrite bool_decide_false.
Qed.

Lemma existsb_none {A} (p : A → bool) l : (∀ x, x ∈ l → p x = false) → existsb p l = false.
Proof.
  induction l as [|x l IH]; intros H; cbn; [done|]. rewrite H by set_solver. apply IH. set_solver.
Qed.

Lemma existsb_perm {A} (p : A → bool) l l' : l ≡ₚ l' → existsb p l = existsb p l'.
Proof.
  induction 1 as [|x l l' _ IH|x y l|? ? ? _ IH1 _ IH2]; cbn; [done|by rewrite IH| |congruence].
  by destruct (p x), (p y).
Qed.

Lemma sort_accounts_matches provider key e :
  entry_matches provider key (sort_accounts e) = entry_matches provider key e.
Proof. apply existsb_perm, sort_by_perm. Qed.

Lemma entry_matches_spec provider key e :
  entry_matches provider key e = true ↔ ∃ i, i ∈ en_accounts e ∧ item_matches provider key i = true.
Proof. unfold entry_matches. rewrite existsb_exists. by setoid_rewrite list_elem_of_In. Qed.

(** A link of the workspace that has this key. *)
Definition link_matches (provider key : pystr) (r : link_row) : Prop :=
  lr_provider r = provider ∧ ∃ s, lr_external_subject r = Some s ∧ handle_key lower provider s = key.

Lemma link_item_matches provider key kind r :
  item_matches provider key (link_item kind r) = true → link_matches provider key r.
Proof.
  unfold item_matches, _account_matches. cbn. intros H. bools.
  destruct (lr_external_subject r) as [s|] eqn:E; [|done]. bools. split; [done|eauto].
Qed.

Lemma links_of_match provider key o links i :
  (∀ kr, kr ∈ links → ¬ link_matches provider key kr.2) → i ∈ links_of o links →
  item_matches provider key i = false.
Proof.
  intros Hn Hi. apply not_true_iff_false. intros Hm. unfold links_of in Hi.
  apply list_elem_of_In, in_map_iff in Hi as (kr & <- & Hin). apply link_item_matches in Hm.
  apply filter_In in Hin as [Hin _]. apply list_elem_of_In in Hin. by destruct (Hn kr Hin).
Qed.

Lemma handles_of_match provider key ref hs :
  (∀ h, h ∈ hs → ha_key h = handle_key lower (ha_provider h) (ha_handle h)) →
  existsb (item_matches provider key) (handles_of ref hs) = true ↔
  ∃ h, h ∈ hs ∧ ha_person h = ref ∧ ha_provider h = provider ∧ ha_key h = key.
Proof.
  intros Hk. rewrite existsb_exists. unfold handles_of. split.
  - intros (i & Hi & Hm). apply in_map_iff in Hi as (h & <- & Hin). apply filter_In in Hin as [Hin Hp].
    unfold item_matches, _account_matches in Hm. cbn in Hm. bools. apply list_elem_of_In in Hin.
    exists h. split_and!; try done. rewrite Hk by done. congruence.
  - intros (h & Hin & Hp & Hpr & Hkey). exists (handle_item h). split.
    + apply in_map. apply filter_In. rewrite <- list_elem_of_In. split; [done|]. by apply bool_decide_eq_true.
    + unfold item_matches, _account_matches. cbn. rewrite (bool_decide_true _ Hpr). cbn.
      apply bool_decide_eq_true. rewrite <- Hkey, Hk by done. congruence.
Qed.

(** Of the entries of the directory, those of the persons who declared the key. *)
Lemma matching_entries provider key declared hs links :
  (∀ kr, kr ∈ links → ¬ link_matches provider key kr.2) →
  (∀ h, h ∈ hs → ha_key h = handle_key lower (ha_provider h) (ha_handle h)) →
  List.filter (entry_matches provider key) (directory_of declared hs links)
  = map (λ rp, with_accounts_of (handles_of rp.1 hs ++ links_of (person_owner rp.2) links)
                 (person_entry rp.1 rp.2))
      (List.filter (λ rp, existsb (item_matches provider key) (handles_of rp.1 hs)) declared).
Proof.
  intros Hl Hk. unfold directory_of. rewrite List.filter_app.
  rewrite (filter_none _ (map _ (firsts _))), app_nil_r.
  - rewrite filter_map. f_equal. apply filter_ext. intros [r p]. unfold entry_matches. cbn.
    rewrite existsb_app. rewrite (existsb_none _ (links_of _ _)); [by rewrite orb_false_r|].
    intros i Hi. by eapply links_of_match.
  - intros e He. apply list_elem_of_In, in_map_iff in He as (o & <- & _).
    unfold entry_matches. cbn. apply existsb_none. intros i Hi. by eapply links_of_match.
Qed.

Definition handle_query (provider handle : pystr) : request :=
  [(lit "provider", JStr provider); (lit "handle", JStr handle)].

Lemma no_field {A} (normalize : json → R A) key r :
  assoc key r = None → optional_field normalize key r = Ok None.
Proof. unfold optional_field. by intros ->. Qed.
Lemma a_field {A} (normalize : json → R A) key r v :
  assoc key r = Some v → optional_field normalize key r = (a ← normalize v; Ok (Some a)).
Proof. unfold optional_field. by intros ->. Qed.

Lemma read_handle_query provider handle q :
  read_query lower an (handle_query provider handle) = Ok q →
  ∃ written key, normalize_handle lower provider (JStr handle) = Ok (written, key)
    ∧ q = Query None None (Some provider) (Some written) None DEFAULT_PEOPLE_LIMIT.
Proof.
  intros H. unfold read_query in H.
  inv_result.
  repeat match goal with H : optional_field _ _ _ = Ok _ |- _ =>
    first [rewrite no_field in H by reflexivity|erewrite a_field in H by reflexivity] end.
  inv_result. match goal with H : normalize_provider _ _ = Ok _ |- _ => unfold normalize_provider in H end.
  inv_result. match goal with H : normalize_handle _ _ _ = Ok ?x |- _ => destruct x as [written key] end.
  by exists written, key.
Qed.

(** The one that a query for a key finds. *)
Definition finds (provider key : pystr) (res : list entry) : Prop :=
  match fetch_one (live_handle an provider key) (handles d) with
  | Some (_, h) =>
      ∃ p e, people d !! ha_person h = Some p ∧ res = [e] ∧ en_person e = Some (ha_person h)
        ∧ en_issuer e = pe_issuer p ∧ en_subject e = pe_subject p ∧ en_mail e = pe_mail p
        ∧ handle_item h ∈ en_accounts e
  | None => res = []
  end.

Lemma owner_unique l :
  NoDup l.*1 →
  (∀ r1 r2 p1 p2 o, (r1, p1) ∈ l → (r2, p2) ∈ l → person_owner p1 = Some o → person_owner p2 = Some o → r1 = r2) →
  NoDup (owner_list l).
Proof.
  induction l as [|[r p] l IH]; intros Hn Hu; [constructor|]. cbn in Hn. apply NoDup_cons in Hn as [Hr Hn].
  rewrite owner_list_cons. assert (Hd : NoDup (owner_list l)) by 
    (apply IH; [done|]; intros r1 r2 p1 p2 o ? ? ? ?; apply (Hu r1 r2 p1 p2 o); try done; by apply elem_of_cons; right).
  destruct (person_owner p) as [o|] eqn:Ho; [|done]. apply NoDup_cons. split; [|done]. intros Hin.
  apply list_elem_of_omap in Hin as ([r' p'] & Hin & Ho'). apply Hr.
  rewrite (Hu r r' p p' o); [|set_solver|by apply elem_of_cons; right|done..]. apply list_elem_of_fmap. by exists (r', p').
Qed.

Lemma listed_rows_ok declared :
  directory_ok lower d → NoDup declared.*1 →
  (∀ r p, (r, p) ∈ declared ↔ people d !! r = Some p ∧ person_in an p = true) →
  people_rows_ok declared.
Proof.
  intros Hd Hn Hdecl. split; [done| |].
  - apply owner_unique; [done|]. intros r1 r2 p1 p2 o [H1 I1]%Hdecl [H2 I2]%Hdecl O1 O2.
    destruct (decide (r1 = r2)) as [|Hne]; [done|]. destruct (ok_people _ _ Hd r1 r2 p1 p2 Hne H1 H2) as [Hs _].
    exfalso. apply not_true_iff_false in Hs. apply Hs, same_subject_spec. unfold person_in in *. bools.
    unfold person_owner in *. destruct (pe_subject p1), (pe_subject p2); cbn in *; try done.
    split_and!; congruence.
  - intros k Hk. apply list_elem_of_fmap in Hk as ([r p] & -> & Hin). apply Hdecl in Hin as [Hp _].
    by eapply ok_refs.
Qed.

Lemma found_perm provider key declared hs links res :
  directory_ok lower d → NoDup declared.*1 →
  (∀ r p, (r, p) ∈ declared ↔ people d !! r = Some p ∧ person_in an p = true) →
  (∀ h, h ∈ hs ↔ ∃ k, handles d !! k = Some h ∧ handle_in an h = true ∧ ha_active h = true) →
  (∀ kr, kr ∈ links → ¬ link_matches provider key kr.2) →
  res ≡ₚ map sort_accounts (List.filter (entry_matches provider key) (directory_of declared hs links)) →
  finds provider key res ∧ len res <= 1.
Proof.
  intros Hd Hn Hdecl Hhs Hl Hres.
  assert (Hkeys : ∀ h, h ∈ hs → ha_key h = handle_key lower (ha_provider h) (ha_handle h)).
  { intros h (k & Hk & _)%Hhs. by apply (ok_handle _ _ Hd k). }
  rewrite matching_entries in Hres by done.
  assert (Hlive : ∀ r, existsb (item_matches provider key) (handles_of r hs) = true ↔
    ∃ k h, handles d !! k = Some h ∧ live_handle an provider key h = true ∧ ha_person h = r).
  { intros r. rewrite handles_of_match by done. setoid_rewrite Hhs. setoid_rewrite live_handle_spec. naive_solver. }
  unfold finds. destruct (fetch_one _ _) as [[k h]|] eqn:Hf.
  - apply fetch_one_some in Hf as [Hk Hlh]. destruct (ok_handle _ _ Hd k h Hk) as (_ & p & Hp & Ho & Hw).
    apply live_handle_spec in Hlh as Hl2. destruct Hl2 as (Hin & Hact & Hpr & Hkey).
    assert (Hpd : (ha_person h, p) ∈ declared).
    { apply Hdecl. split; [done|]. unfold handle_in, person_in in *. bools. by rewrite !bool_decide_true by congruence. }
    rewrite (filter_ext _ (λ rp, bool_decide (rp.1 = ha_person h))) in Hres.
    2: { intros [r q]. apply eq_true_iff_eq. rewrite Hlive, bool_decide_eq_true. cbn. split; [|intros ->; eauto].
         intros (k' & h' & Hk' & Hl' & <-). destruct (decide (k' = k)) as [->|Hne]; [congruence|].
         apply live_handle_spec in Hl' as (I' & A' & P' & K'). exfalso.
         pose proof (ok_handles _ _ Hd k' k h' h Hne Hk' Hk A') as Hs. apply not_true_iff_false in Hs.
         apply Hs, same_handle_spec. unfold handle_in in *. bools. split_and!; congruence. }
    rewrite (filter_one _ _ _ Hn Hpd) in Hres. cbn in Hres. apply Permutation_singleton_r in Hres as ->.
    split; [|done]. eexists p, _. split_and!; try done. unfold sort_accounts. cbn [with_accounts_of en_accounts]. rewrite sort_by_perm.
    apply elem_of_app. left. unfold handles_of. apply list_elem_of_In, in_map, filter_In.
    rewrite <- list_elem_of_In, bool_decide_eq_true. split; [|done]. apply Hhs. eauto.
  - rewrite filter_none in Hres; [by apply Permutation_nil_r in Hres as ->|]. intros [r q] _.
    apply not_true_iff_false. rewrite Hlive. intros (k & h & Hk & Hlh & _).
    eapply fetch_one_none in Hf; [|exact Hk]. congruence.
Qed.

Lemma find_by_handle provider handle written key res more :
  directory_ok lower d →
  normalize_handle lower provider (JStr handle) = Ok (written, key) →
  _find_people lower casefold an (handle_query provider handle) d = Ok (res, more) →
  (∀ r, r ∈ workspace_links → no_nul (lr_issuer r) ∧ ¬ link_matches provider key r) →
  finds provider key res ∧ more = false.
Proof.
  intros Hd Hnorm Hf Hl. unfold _find_people in Hf. inv_result.
  match goal with H : read_query _ _ _ = Ok _ |- _ =>
    apply read_handle_query in H as (w & k & Hw & ->) end.
  rewrite Hnorm in Hw. injection Hw as <- <-. cbn [q_subject q_mail q_provider q_handle q_name q_limit].
  match goal with H : workspace_people _ _ _ = Ok ?l |- _ =>
    apply workspace_people_ok in H as (declared & hs & accounts & profiles & -> & Hw & Hn & Hdecl & Hhs) end.
  rewrite Hw in Hl. apply normalize_handle_ok in Hnorm as ->. set (key := handle_key lower provider written) in *.
  rewrite assemble_people_reference; [|by apply listed_rows_ok|by intros r Hr; apply Hl].
  set (matched := filter_people _ _ _ _ _ _ _ _). assert (Hm : finds provider key matched ∧ len matched <= 1).
  { apply found_perm with (declared := declared) (hs := hs) (links := all_links accounts profiles); try done.
    - intros [kind r] Hin. apply Hl. unfold all_links in Hin. apply elem_of_app in Hin as [Hin|Hin];
        apply list_elem_of_In, in_map_iff in Hin as (r' & [= <- <-] & Hin); apply list_elem_of_In in Hin; set_solver.
    - unfold matched, filter_people. rewrite (filter_ext _ _ (person_matches_handle provider written)).
      rewrite (filter_perm _ _ _ (sort_by_perm _ _)), filter_map.
      by rewrite (filter_ext _ _ (sort_accounts_matches provider key)). }
  destruct Hm as [Hm Hlen]. unfold DEFAULT_PEOPLE_LIMIT. split; [|lia].
  rewrite take_ge; [done|]. unfold len in Hlen. lia.
Qed.
End Workspace.
