(* ===== verification/PeopleProps.v ===== *)
(** * Account center: properties of the people directory

    Handles and identities have one holder; what was declared is found, and what
    was retracted is not; and what a second issuer does to a person. *)

From Stdlib Require Import ZArith NArith.
From S2P Require Import Prelude PyText Json AccountStore AccountFacts AccountExamples ProfileStore ProfileSessions ProfileMachine.
From S2P Require Import PeopleText PeopleStore PeopleDirectory PeopleAssembly PeopleFacts PeopleFind.

#[local] Open Scope Z_scope.

Abbreviation drun lower ops := (final (directory_step lower) ops empty_directory).

(** C32. Handles, identities and addresses have one holder.  In every run of the
    store from an empty database, two active handles of one workspace, provider
    and key are the same row; the person of a handle exists, in the handle's own
    workspace; and two people of a workspace with the same issuer and subject,
    or with the same address, are the same person. *)
Theorem handles_owned lower ops :
  Forall op_ok ops →
  let d := drun lower ops in
  (∀ k1 k2 h1 h2, handles d !! k1 = Some h1 → handles d !! k2 = Some h2 →
     ha_active h1 = true → ha_active h2 = true → ha_organization h1 = ha_organization h2 →
     ha_workspace h1 = ha_workspace h2 → ha_provider h1 = ha_provider h2 → ha_key h1 = ha_key h2 → k1 = k2)
  ∧ (∀ k h, handles d !! k = Some h →
       ha_key h = handle_key lower (ha_provider h) (ha_handle h)
       ∧ ∃ p, people d !! ha_person h = Some p
           ∧ pe_organization p = ha_organization h ∧ pe_workspace p = ha_workspace h)
  ∧ ∀ r1 r2 p1 p2, people d !! r1 = Some p1 → people d !! r2 = Some p2 →
      pe_organization p1 = pe_organization p2 → pe_workspace p1 = pe_workspace p2 →
      (pe_issuer p1 = pe_issuer p2 ∧ pe_subject p1 = pe_subject p2 ∧ pe_subject p1 ≠ None
       ∨ pe_mail p1 = pe_mail p2 ∧ pe_mail p1 ≠ None) → r1 = r2.
Proof.
  intros Hops d. pose proof (directory_run_ok lower ops Hops) as Hd. fold d in Hd. split_and!.
  - intros k1 k2 h1 h2 H1 H2 A1 A2 Ho Hw Hp Hk. destruct (decide (k1 = k2)) as [|Hne]; [done|]. exfalso.
    pose proof (ok_handles _ _ Hd k1 k2 h1 h2 Hne H1 H2 A1) as Hs. apply not_true_iff_false in Hs.
    apply Hs, same_handle_spec. split_and!; congruence.
  - intros k h Hk. by apply (ok_handle _ _ Hd k).
  - intros r1 r2 p1 p2 H1 H2 Ho Hw Hor. destruct (decide (r1 = r2)) as [|Hne]; [done|]. exfalso.
    destruct (ok_people _ _ Hd r1 r2 p1 p2 Hne H1 H2) as [Hs Hm]. rewrite <- not_true_iff_false in *.
    destruct Hor as [(? & ? & ?)|(? & ?)]; [apply Hs, same_subject_spec|apply Hm, same_mail_spec];
      split_and!; congruence.
Qed.

(** ** Declaring and finding *)

Lemma fetch_live lower an d provider key k h :
  directory_ok lower d → handles d !! k = Some h → live_handle an provider key h = true →
  fetch_one (live_handle an provider key) (handles d) = Some (k, h).
Proof.
  intros Hd Hk Hl. destruct (fetch_one _ _) as [[k' h']|] eqn:Hf.
  - apply fetch_one_some in Hf as [Hk' Hl']. destruct (decide (k = k')) as [<-|Hne]; [congruence|].
    apply live_handle_spec in Hl as (? & ? & ? & ?), Hl' as (? & ? & ? & ?). exfalso.
    pose proof (ok_handles _ _ Hd k k' h h' Hne Hk Hk') as Hs. rewrite <- not_true_iff_false, same_handle_spec in Hs.
    unfold handle_in in *. bools. apply Hs; [done|]. split_and!; congruence.
  - eapply fetch_one_none in Hf; [|exact Hk]. congruence.
Qed.

(** The one holder after a declaration, with what it gave. *)
Lemma declared_holder lower pr hr an subject mail name provider handle now command d de d2 :
  no_nul pr → directory_ok lower d →
  declare_account_handle pr hr an subject mail name provider handle (handle_key lower provider handle) now
    command d = (Ok de, d2) →
  (∃ k h, fetch_one (live_handle an provider (handle_key lower provider handle)) (handles d2) = Some (k, h)
     ∧ ha_person h = de_person de)
  ∧ ∃ p, people d2 !! de_person de = Some p ∧ has subject (pe_subject p) ∧ has mail (pe_mail p).
Proof.
  intros Hpr Hd H. pose proof (declare_directory_ok lower _ _ _ _ _ _ _ _ _ _ _ _ _ Hpr Hd H) as Hd2.
  apply declare_ok in H as (m & hs & Hs & <- & <- & Hh).
  apply settle_person_ok in Hs as (_ & _ & (p & Hp & _ & Hsub & Hmail) & _); [|apply Hd].
  split; [|by exists p]. destruct Hh as [(k & h & Hk & Hl & Hhs & Hpe)|(_ & _ & Hhs)].
  - exists k, h. split; [|done]. eapply fetch_live; [done|by rewrite Hhs|done].
  - eexists hr, _. split; [eapply fetch_live; [done|rewrite Hhs; apply lookup_insert_eq|]|done].
    apply live_handle_spec. unfold handle_in. cbn. by rewrite !bool_decide_true.
Qed.

(** C31. What was declared is found.  After a declaration succeeded, in any run
    from an empty database, [find_people] asked for the provider and any
    spelling of the handle with the same key answers exactly one person: the one
    the declaration named, with the subject and the address it gave.  (No
    verified link of the workspace has that key, and no issuer a NUL.) *)
Theorem declared_is_found lower casefold ops pr hr an r now command de d2
    subject mail name provider handle key spelling written res more :
  Forall op_ok ops → no_nul pr →
  _declare_account_handle lower pr hr an r now command (drun lower ops) = (Ok de, d2) →
  read_declaration lower r = Ok (subject, mail, name, provider, (handle, key)) →
  normalize_handle lower provider (JStr spelling) = Ok (written, key) →
  _find_people lower casefold an (handle_query provider spelling) d2 = Ok (res, more) →
  (∀ row, row ∈ workspace_links an d2 → no_nul (lr_issuer row) ∧ ¬ link_matches lower provider key row) →
  more = false ∧ ∃ e, res = [e] ∧ en_person e = Some (de_person de)
    ∧ has subject (en_subject e) ∧ has mail (en_mail e).
Proof.
  intros Hops Hpr Hdec Hread Hspell Hfind Hlinks.
  pose proof (directory_run_ok lower ops Hops) as Hd. unfold _declare_account_handle in Hdec.
  rewrite Hread in Hdec. apply read_declaration_ok in Hread as ->.
  pose proof (declare_directory_ok lower _ _ _ _ _ _ _ _ _ _ _ _ _ Hpr Hd Hdec) as Hd2.
  apply (find_by_handle lower casefold an d2 provider spelling written _ _ _ Hd2 Hspell Hfind) in Hlinks as [Hf ->].
  split; [done|]. destruct (declared_holder lower _ _ _ _ _ _ _ _ _ _ _ _ _ Hpr Hd Hdec)
    as [(k & h & Hk & Hp) (p & Hpe & Hs & Hm)].
  unfold finds in Hf. rewrite Hk in Hf. destruct Hf as (p' & e & Hp' & -> & Hen & _ & Es & Em & _).
  exists e. split; [done|]. rewrite Hp in *. rewrite Hpe in Hp'. injection Hp' as <-. by rewrite Es, Em.
Qed.

(** What was retracted is not found. *)
Lemma retracted_is_gone lower casefold ops an provider handle written key now command x d2 res more :
  Forall op_ok ops →
  retract_account_handle an provider key now command (drun lower ops) = (Ok x, d2) →
  normalize_handle lower provider (JStr handle) = Ok (written, key) →
  _find_people lower casefold an (handle_query provider handle) d2 = Ok (res, more) →
  (∀ row, row ∈ workspace_links an d2 → no_nul (lr_issuer row) ∧ ¬ link_matches lower provider key row) →
  res = [].
Proof.
  intros Hops Hret Hspell Hfind Hlinks. pose proof (directory_run_ok lower ops Hops) as Hd.
  pose proof (retract_directory_ok lower _ _ _ _ _ _ _ _ Hd Hret) as Hd2.
  apply (find_by_handle lower casefold an d2 provider handle written _ _ _ Hd2 Hspell Hfind) in Hlinks as [Hf _].
  apply retract_ok in Hret as (ref & h & Hk & Hl & _ & _ & Hh).
  unfold finds in Hf. destruct (fetch_one _ _) as [[k' h']|] eqn:E; [|done]. exfalso.
  apply fetch_one_some in E as [Hk' Hl']. rewrite Hh in Hk'. destruct (decide (k' = ref)) as [->|Hne].
  - rewrite lookup_insert_eq in Hk'. injection Hk' as <-. apply live_handle_spec in Hl' as (_ & Ha & _). done.
  - rewrite lookup_insert_ne in Hk' by done. pose proof (fetch_live _ _ _ _ _ _ _ Hd Hk Hl) as E1.
    pose proof (fetch_live _ _ _ _ _ _ _ Hd Hk' Hl') as E2. congruence.
Qed.
