(* ===== verification/PeopleExamples.v ===== *)
(** * Account center: concrete runs of the people directory

    Two persons, their handles, and queries for them, with the directory's
    theorems applied to them; and an address declared under two issuers. *)

From Stdlib Require Import ZArith NArith.
From S2P Require Import Prelude PyText Json AccountStore AccountFacts AccountExamples ProfileStore ProfileSessions ProfileMachine.
From S2P Require Import PeopleText PeopleStore PeopleDirectory PeopleAssembly PeopleFacts PeopleFind PeopleProps.

#[local] Open Scope Z_scope.

(** [str.lower] on ASCII texts. *)
Definition lower_ascii : pystr → pystr := map (λ c, if is_upper_ascii c then (c + 32)%N else c).

Definition operator : Anchor := MkAnchor (lit "iss") (lit "op") (lit "org") (Some (lit "ws")).
Definition declaring (pr hr : string) (an : Anchor) (now : Z) (fields : list (string * string)) : directory_op :=
  DDeclare (lit pr) (lit hr) an (map (λ kv, (lit kv.1, JStr (lit kv.2))) fields) now None.

#[local] Open Scope string_scope.
Definition first_fields : list (string * string) :=
  [("provider", "github"); ("handle", "Octocat"); ("subject", "user-43"); ("mail", "Ada@Example.com");
   ("display_name", "Ada Lovelace")].
Definition second_fields : list (string * string) :=
  [("provider", "huggingface"); ("handle", "ada-hf"); ("mail", "ada@example.com")].
#[local] Close Scope string_scope.

Definition first_op : directory_op := declaring "p1" "h1" operator 1 first_fields.
Definition second_op : directory_op := declaring "p2" "h2" operator 2 second_fields.
Definition declared1 : directory := drun lower_ascii [first_op].

Definition asked (fields : list (string * string)) (d : directory) : R (list (option pystr) * bool) :=
  match _find_people lower_ascii lower_ascii operator (map (λ kv, (lit kv.1, JStr (lit kv.2))) fields) d with
  | Ok (l, more) => Ok (map en_person l, more)
  | Err e => Err e
  end.

(** The run of the repository's test: found by mail alone, it is the same person;
    a handle belongs to one; after a retraction it is free. *)
Example people_run :
  let d := drun lower_ascii [first_op; second_op] in
  (runs (directory_step lower_ascii)
     [first_op; second_op; declaring "p3" "h3" operator 3 [("provider", "github"); ("handle", "OCTOCAT"); ("subject", "user-45")];
      declaring "p4" "h4" operator 4 [("provider", "bilibili"); ("handle", "42"); ("subject", "user-43"); ("mail", "c@example.com")]]
     empty_directory).1
  = [DoDeclared (Ok (Declared (lit "p1") (lit "h1") (lit "github") (lit "Octocat") true));
     DoDeclared (Ok (Declared (lit "p1") (lit "h2") (lit "huggingface") (lit "ada-hf") true));
     DoDeclared (Err handle_owned); DoDeclared (Err person_conflict)]
  ∧ asked [("provider", "github"); ("handle", "octocat")] d = Ok ([Some (lit "p1")], false)
  ∧ asked [("mail", "ADA@example.com")] d = Ok ([Some (lit "p1")], false)
  ∧ asked [("name", "lovelace")] d = Ok ([Some (lit "p1")], false)
  ∧ asked [("provider", "github"); ("handle", "someone-else")] d = Ok ([], false)
  ∧ asked [("handle", "octocat")] d = Err invalid_request.
Proof. by vm_compute. Qed.

Lemma handles_owned_witness :
  Forall op_ok [first_op; second_op]
  ∧ ∃ p, people (drun lower_ascii [first_op; second_op]) !! lit "p1" = Some p
      ∧ pe_workspace p = Some (lit "ws").
Proof.
  assert (H : Forall op_ok [first_op; second_op]) by (repeat constructor; apply (bool_decide_unpack _); by vm_compute).
  split; [exact H|].
  destruct (proj1 (proj2 (handles_owned lower_ascii [first_op; second_op] H)) (lit "h2")
    (Handle (lit "p1") (lit "org") (Some (lit "ws")) (lit "huggingface") (lit "ada-hf") (lit "ada-hf") true
       (lit "iss", lit "op") 2 2)) as (_ & p & Hp & _ & Hw); [by vm_compute|].
  exists p. split; [exact Hp|exact Hw].
Defined.

Definition octocat_entry : entry :=
  Entry (Some (lit "p1")) (lit "iss") (Some (lit "user-43")) (Some (lit "ada@example.com"))
    (Some (lit "Ada Lovelace"))
    [Item false (lit "handle") (lit "github") (Some (lit "Octocat")) None (lit "active") 1].

Lemma declared_is_found_witness :
  ∃ e, [octocat_entry] = [e] ∧ en_person e = Some (lit "p1")
    ∧ has (Some (lit "user-43")) (en_subject e) ∧ has (Some (lit "ada@example.com")) (en_mail e).
Proof.
  refine (proj2 (declared_is_found lower_ascii lower_ascii [] (lit "p1") (lit "h1") operator
    (map (λ kv, (lit kv.1, JStr (lit kv.2))) first_fields) 1 None
    (Declared (lit "p1") (lit "h1") (lit "github") (lit "Octocat") true) declared1
    (Some (lit "user-43")) (Some (lit "ada@example.com")) (Some (lit "Ada Lovelace")) (lit "github")
    (lit "Octocat") (lit "octocat") (lit "OCTOCAT") (lit "OCTOCAT") [octocat_entry] false
    (Forall_nil_2 _) _ _ _ _ _ _)).
  - apply (bool_decide_unpack _). by vm_compute.
  - by vm_compute.
  - by vm_compute.
  - by vm_compute.
  - by vm_compute.
  - intros row Hrow. vm_compute in Hrow. by apply not_elem_of_nil in Hrow.
Defined.

(** One link that joins a declared person, and one of an owner nobody declared. *)
Definition ada : person :=
  Person (lit "org") (Some (lit "ws")) (lit "iss") (Some (lit "user-43")) None None (lit "iss", lit "op") 1 1.
Definition github_link (subject external : string) : link_row :=
  LinkRow (lit "iss") (lit subject) (lit "github") (Some (lit external)) (lit "active") 5.

Lemma assemble_people_reference_witness :
  map (λ e, (en_person e, map it_external_subject (en_accounts e)))
    (assemble_people lower_ascii [(lit "p1", ada)] []
       [github_link "user-42" "987"; github_link "user-43" "555"] [])
  = [(None, [Some (lit "987")]); (Some (lit "p1"), [Some (lit "555")])].
Proof.
  rewrite (assemble_people_reference lower_ascii [(lit "p1", ada)] []
    [github_link "user-42" "987"; github_link "user-43" "555"] []).
  - by vm_compute.
  - split; try (apply NoDup_singleton).
    intros k Hk. apply list_elem_of_singleton in Hk as ->. apply (bool_decide_unpack _). by vm_compute.
  - intros r Hr. apply (bool_decide_unpack _).
    repeat (apply elem_of_cons in Hr as [->|Hr]; [by vm_compute|]). by apply not_elem_of_nil in Hr.
Defined.

(** An address that an operator of one issuer declared takes the subject that an
    operator of another issuer declares for it: the row then names a person
    under the first issuer that nobody declared, whose verified links it shows,
    and the second issuer's subject is not found under its own. *)
Definition other_operator : Anchor := MkAnchor (lit "iss2") (lit "op2") (lit "org") (Some (lit "ws")).
Lemma subject_under_another_issuer :
  let d := drun lower_ascii
    [declaring "p1" "h1" operator 1 [("provider", "qq"); ("handle", "123456"); ("mail", "a@b.c")];
     declaring "p2" "h2" other_operator 2
       [("provider", "wecom"); ("handle", "ada"); ("mail", "a@b.c"); ("subject", "user-9")]] in
  (people d !! lit "p1") = Some (Person (lit "org") (Some (lit "ws")) (lit "iss") (Some (lit "user-9"))
      (Some (lit "a@b.c")) None (lit "iss", lit "op") 1 2)
  ∧ fetch_one (with_subject other_operator (lit "user-9")) (people d) = None.
Proof. by vm_compute. Qed.
