(* ===== verification/Programs.v ===== *)
(** * Programs with effects

    A handler traces many transactions, reads clocks and calls other hosts; other
    handlers run in between, and the process may stop at any point.  A [prog] is
    such a handler: a tree of effects, each with a continuation for every answer
    of the environment.  Its traces are lists of events, complete or cut short.  A
    monitor is an automaton that watches the events; [wp] says that a program
    obeys one, whatever the environment answers, and what holds when it ends.
    [execution] interleaves programs over a shared state. *)

From S2P Require Import Prelude.

Section Programs.
Context {E : Type → Type} {X : Type}.

Inductive prog (A : Type) : Type :=
  | Ret (a : A)
  | Raise (x : X)
  | Do {B : Type} (e : E B) (k : B → prog A).
Arguments Ret {A} a.
Arguments Raise {A} x.
Arguments Do {A B} e k.

(** [p], then [f] on its value; [try: p except: h], where [h] gives the clause
    that catches an exception, if there is one. *)
Fixpoint pbind {A C : Type} (p : prog A) (f : A → prog C) : prog C :=
  match p with
  | Ret a => f a
  | Raise x => Raise x
  | Do e k => Do e (λ b, pbind (k b) f)
  end.
Fixpoint catch {A : Type} (p : prog A) (h : X → option (prog A)) : prog A :=
  match p with
  | Ret a => Ret a
  | Raise x => match h x with Some q => q | None => Raise x end
  | Do e k => Do e (λ b, catch (k b) h)
  end.

(** [p], with its outcome as a value. *)
Definition attempt {A : Type} (p : prog A) : prog (result X A) :=
  catch (pbind p (λ a, Ret (Ok a))) (λ x, Some (Ret (Err x))).

Definition perform {B : Type} (e : E B) : prog B := Do e Ret.
Definition lift {A : Type} (r : result X A) : prog A :=
  match r with Ok a => Ret a | Err x => Raise x end.

Fixpoint each {A : Type} (f : A → prog ()) (l : list A) : prog () :=
  match l with [] => Ret () | a :: l => pbind (f a) (λ _, each f l) end.
Fixpoint collect_each {A C : Type} (f : A → prog C) (l : list A) : prog (list C) :=
  match l with
  | [] => Ret []
  | a :: l => pbind (f a) (λ c, pbind (collect_each f l) (λ cs, Ret (c :: cs)))
  end.

(** ** Runs *)

Inductive event : Type :=
  | Event {B : Type} (e : E B) (b : B).

(** [traces p tr o]: [p] makes the events [tr]; it has come to its end if [o] is
    the outcome. *)
Fixpoint traces {A : Type} (p : prog A) (tr : list event) (o : option (result X A)) : Prop :=
  match tr with
  | [] =>
      o = None
      ∨ match p with Ret a => o = Some (Ok a) | Raise x => o = Some (Err x) | Do _ _ => False end
  | ev :: tr =>
      match p with
      | Do e k => ∃ b, ev = Event e b ∧ traces (k b) tr o
      | _ => False
      end
  end.

Lemma traces_prefix {A} (p : prog A) tr1 tr2 o : traces p (tr1 ++ tr2) o → traces p tr1 None.
Proof.
  revert p. induction tr1 as [|ev tr1 IH]; intros p; [by intros _; destruct p; left|].
  destruct p as [| |B e k]; cbn; try done. intros (b & -> & H). exists b. split; [done|]. by apply IH.
Qed.

(** ** Monitors *)

(** [only ok p]: [p] performs no other effects than these. *)
Section Only.
Context (ok : ∀ B : Type, E B → bool).

Fixpoint only {A : Type} (p : prog A) : Prop :=
  match p with Do e k => ok _ e = true ∧ ∀ b, only (k b) | _ => True end.

Lemma only_ret {A} (a : A) : only (Ret a).
Proof. done. Qed.
Lemma only_raise {A} (x : X) : only (Raise (A := A) x).
Proof. done. Qed.
Lemma only_perform {B} (e : E B) : ok _ e = true → only (perform e).
Proof. done. Qed.
Lemma only_lift {A} (r : result X A) : only (lift r).
Proof. by destruct r. Qed.
Lemma only_bind {A C} (p : prog A) (f : A → prog C) : only p → (∀ a, only (f a)) → only (pbind p f).
Proof. intros Hp Hf. induction p as [a|x|B e k IH]; cbn in *; [done..|]. destruct Hp. split; auto. Qed.
Lemma only_catch {A} (p : prog A) h :
  only p → (∀ x, match h x with Some q => only q | None => True end) → only (catch p h).
Proof.
  intros Hp Hh. induction p as [a|x|B e k IH]; cbn in *; [done| |].
  - specialize (Hh x). by destruct (h x).
  - destruct Hp. split; auto.
Qed.
Lemma only_attempt {A} (p : prog A) : only p → only (attempt p).
Proof. intros. apply only_catch; [|done]. by apply only_bind. Qed.
Lemma only_each {A} (f : A → prog ()) l : (∀ a, only (f a)) → only (each f l).
Proof. intros Hf. induction l; cbn; [done|]. by apply only_bind. Qed.
Lemma only_collect {A C} (f : A → prog C) l : (∀ a, only (f a)) → only (collect_each f l).
Proof. intros Hf. induction l; cbn; [done|]. apply only_bind; [done|]. intros. by apply only_bind. Qed.
End Only.

Section Monitor.
Context {M : Type} (env : event → Prop) (mon : M → event → option M).

Fixpoint watch (m : M) (tr : list event) : option M :=
  match tr with
  | [] => Some m
  | ev :: tr => match mon m ev with Some m' => watch m' tr | None => None end
  end.

Fixpoint wp {A : Type} (p : prog A) (m : M) (Q : M → result X A → Prop) : Prop :=
  match p with
  | Ret a => Q m (Ok a)
  | Raise x => Q m (Err x)
  | Do e k => ∀ b, env (Event e b) →
      match mon m (Event e b) with Some m' => wp (k b) m' Q | None => False end
  end.

Lemma wp_mono {A} (p : prog A) m (Q Q' : M → result X A → Prop) :
  wp p m Q → (∀ m r, Q m r → Q' m r) → wp p m Q'.
Proof.
  intros H HQ. revert m H. induction p as [a|x|B e k IH]; intros m; cbn; [apply HQ..|].
  intros H b Hb. specialize (H b Hb). destruct (mon m (Event e b)); [by apply IH|done].
Qed.

Lemma wp_bind {A C} (p : prog A) (f : A → prog C) m Q :
  wp p m (λ m r, match r with Ok a => wp (f a) m Q | Err x => Q m (Err x) end) →
  wp (pbind p f) m Q.
Proof.
  revert m. induction p as [a|x|B e k IH]; intros m; cbn; [done..|].
  intros H b Hb. specialize (H b Hb). destruct (mon m (Event e b)); [by apply IH|done].
Qed.

Lemma wp_catch {A} (p : prog A) h m Q :
  wp p m (λ m r, match r with
                 | Ok a => Q m (Ok a)
                 | Err x => match h x with Some q => wp q m Q | None => Q m (Err x) end
                 end) →
  wp (catch p h) m Q.
Proof.
  revert m. induction p as [a|x|B e k IH]; intros m; cbn; [done| |].
  - by destruct (h x).
  - intros H b Hb. specialize (H b Hb). destruct (mon m (Event e b)); [by apply IH|done].
Qed.

Lemma wp_attempt {A} (p : prog A) m Q : wp p m (λ m r, Q m (Ok r)) → wp (attempt p) m Q.
Proof. intros H. apply wp_catch, wp_bind. eapply wp_mono; [exact H|]. by intros ? []. Qed.

Lemma wp_lift {A} (r : result X A) m Q : Q m r → wp (lift r) m Q.
Proof. by destruct r. Qed.

(** Effects that leave the monitor where it is. *)
Lemma wp_only {A} (ok : ∀ B : Type, E B → bool) (p : prog A) m (Q : M → result X A → Prop) :
  only ok p → (∀ B (e : E B) b, ok _ e = true → mon m (Event e b) = Some m) → (∀ r, Q m r) → wp p m Q.
Proof.
  intros Hp Hm HQ. induction p as [a|x|B e k IH]; cbn in *; [done..|].
  intros b _. destruct Hp as [He Hk]. rewrite Hm by done. auto.
Qed.

(** Effects that the monitor accepts wherever it is. *)
Lemma wp_accepted {A} (ok : ∀ B : Type, E B → bool) (p : prog A) m (Q : M → result X A → Prop) :
  only ok p → (∀ B (e : E B) b m, ok _ e = true → env (Event e b) → ∃ m', mon m (Event e b) = Some m') →
  (∀ m r, Q m r) → wp p m Q.
Proof.
  intros Hp Hm HQ. revert m. induction p as [a|x|B e k IH]; intros m; cbn in *; [done..|].
  intros b Hb. destruct Hp as [He Hk]. destruct (Hm B e b m He Hb) as [m' ->]. auto.
Qed.

(** A loop whose rounds keep an invariant of the monitor. *)
Lemma wp_each {A} (f : A → prog ()) l (I : M → Prop) m Q :
  I m →
  (∀ a m, a ∈ l → I m → wp (f a) m (λ m r, match r with Ok _ => I m | Err x => Q m (Err x) end)) →
  (∀ m, I m → Q m (Ok ())) → wp (each f l) m Q.
Proof.
  intros Hm Hf HQ. revert m Hm. induction l as [|a l IH]; intros m Hm; cbn; [by apply HQ|].
  apply wp_bind. eapply wp_mono; [apply (Hf a); [by left|done]|]. intros m' [[]|x]; [|done].
  apply IH. intros ? ? Hin. apply Hf. by right.
Qed.

(** What [wp] says is so on every run of the program, cut short or not. *)
Lemma wp_sound {A} (p : prog A) m Q tr o :
  wp p m Q → traces p tr o → Forall env tr →
  ∃ m', watch m tr = Some m' ∧ ∀ r, o = Some r → Q m' r.
Proof.
  revert m tr. induction p as [a|x|B e k IH]; intros m [|ev tr] Hw Hr He; cbn in *; try done.
  - exists m. split; [done|]. intros r ->. by destruct Hr as [?|[= ->]].
  - exists m. split; [done|]. intros r ->. by destruct Hr as [?|[= ->]].
  - exists m. split; [done|]. intros r ->. by destruct Hr.
  - destruct Hr as (b & -> & Hr). inversion He; subst. specialize (Hw b ltac:(done)).
    destruct (mon m (Event e b)) as [m'|]; [|done]. by apply (IH b m').
Qed.

Lemma watch_app m tr1 tr2 :
  watch m (tr1 ++ tr2) = match watch m tr1 with Some m' => watch m' tr2 | None => None end.
Proof.
  revert m. induction tr1 as [|ev tr1 IH]; intros m; cbn; [done|]. by destruct (mon m ev).
Qed.
End Monitor.

(** [emits p Q]: as long as the environment's answers are as [env] says, the program
    performs only effects as [ok] says and returns only values of [Q]. *)
Section Emits.
Context (env : event → Prop) (ok : ∀ B : Type, E B → Prop).

Fixpoint emits {A : Type} (p : prog A) (Q : A → Prop) : Prop :=
  match p with
  | Ret a => Q a
  | Raise _ => True
  | Do e k => ok _ e ∧ ∀ b, env (Event e b) → emits (k b) Q
  end.

Lemma emits_mono {A} (p : prog A) (Q Q' : A → Prop) : emits p Q → (∀ a, Q a → Q' a) → emits p Q'.
Proof. intros H HQ. induction p as [a|x|B e k IH]; cbn in *; [auto|done|]. destruct H. split; auto. Qed.
Lemma emits_bind {A C} (p : prog A) (f : A → prog C) Q : emits p (λ a, emits (f a) Q) → emits (pbind p f) Q.
Proof. intros H. induction p as [a|x|B e k IH]; cbn in *; [done..|]. destruct H. split; auto. Qed.
Lemma emits_catch {A} (p : prog A) h Q :
  emits p Q → (∀ x, match h x with Some q => emits q Q | None => True end) → emits (catch p h) Q.
Proof.
  intros H Hh. induction p as [a|x|B e k IH]; cbn in *; [done| |].
  - specialize (Hh x). by destruct (h x).
  - destruct H. split; auto.
Qed.
Lemma emits_perform {B} (e : E B) Q : ok _ e → (∀ b, env (Event e b) → Q b) → emits (perform e) Q.
Proof. done. Qed.
Lemma emits_each {A} (f : A → prog ()) l (Q : () → Prop) :
  Q () → (∀ a, emits (f a) (λ _, True)) → emits (each f l) Q.
Proof.
  intros HQ Hf. induction l as [|a l IH]; cbn; [done|]. apply emits_bind. eapply emits_mono; [apply Hf|]. done.
Qed.

Definition event_ok (ev : event) : Prop := match ev with Event e _ => ok _ e end.

(** The last event of a run is fine if the answers before it are. *)
Lemma emits_last {A} (p : prog A) Q tr ev o :
  emits p Q → traces p (tr ++ [ev]) o → Forall env tr → event_ok ev.
Proof.
  revert tr. induction p as [a|x|B e k IH]; intros [|ev' tr] He Hr Hf; cbn in *; try done.
  - by destruct Hr as (b & -> & _), He.
  - destruct Hr as (b & -> & Hr), He as [_ He]. inversion Hf; subst. by apply (IH b tr); [apply He| |].
Qed.
Lemma emits_returns {A} (p : prog A) Q tr a :
  emits p Q → traces p tr (Some (Ok a)) → Forall env tr → Q a.
Proof.
  revert tr. induction p as [a'|x|B e k IH]; intros [|ev' tr] He Hr Hf; cbn in *; try (by destruct Hr); try done.
  - by destruct Hr as [|[= ->]].
  - destruct Hr as (b & -> & Hr), He as [_ He]. inversion Hf; subst. by apply (IH b tr); [apply He| |].
Qed.
End Emits.

(** ** Interleavings *)

Section Executions.
Context {S : Type} (apply : event → S → S → Prop).

(** What happened, and in which of the programs. *)
Fixpoint replays (log : list (nat * event)) (s s' : S) : Prop :=
  match log with
  | [] => s' = s
  | (_, ev) :: log => ∃ s1, apply ev s s1 ∧ replays log s1 s'
  end.
Definition events_of (i : nat) (log : list (nat * event)) : list event :=
  (List.filter (λ x, bool_decide (x.1 = i)) log).*2.

(** The programs run interleaved from [s] to [s']; each may be cut short. *)
Definition execution {A : Type} (progs : nat → prog A) (s : S) (log : list (nat * event)) (s' : S) : Prop :=
  replays log s s' ∧ ∀ i, ∃ o, traces (progs i) (events_of i log) o.

Lemma replays_app log1 log2 s s' :
  replays (log1 ++ log2) s s' ↔ ∃ s1, replays log1 s s1 ∧ replays log2 s1 s'.
Proof.
  revert s. induction log1 as [|[i ev] log1 IH]; intros s; cbn.
  - split; [by exists s|]. by intros (? & -> & ?).
  - split.
    + intros (s1 & Ha & Hr). apply IH in Hr as (s2 & ? & ?). exists s2. split; [by exists s1|done].
    + intros (s2 & (s1 & ? & ?) & ?). exists s1. split; [done|]. apply IH. by exists s2.
Qed.

Lemma events_of_app i log1 log2 : events_of i (log1 ++ log2) = events_of i log1 ++ events_of i log2.
Proof. unfold events_of. by rewrite List.filter_app, fmap_app. Qed.
(** Counting events over all programs. *)
Definition count_events (f : nat → event → bool) (log : list (nat * event)) : nat :=
  length (List.filter (λ x, f x.1 x.2) log).
Definition count_in (f : event → bool) (tr : list event) : nat := length (List.filter f tr).

Lemma replays_possible log s s' i :
  replays log s s' → Forall (λ ev, ∃ s1 s2, apply ev s1 s2) (events_of i log).
Proof.
  revert s. induction log as [|[j ev] log IH]; intros s; unfold events_of; cbn; [by constructor|].
  intros (s1 & He & Hr). specialize (IH _ Hr). case_bool_decide; cbn; [|done]. constructor; [by eauto|done].
Qed.

Lemma count_events_split f i log :
  (count_events f log
   = count_in (f i) (events_of i log) + count_events f (List.filter (λ x, negb (bool_decide (x.1 = i))) log))%nat.
Proof.
  unfold count_events, count_in, events_of. induction log as [|[j ev] log IH]; cbn; [done|].
  case_bool_decide as Hj; cbn; [subst j|]; destruct (f _ ev); cbn; lia.
Qed.
Lemma events_of_others i j log :
  i ≠ j → events_of j (List.filter (λ x, negb (bool_decide (x.1 = i))) log) = events_of j log.
Proof.
  intros Hn. unfold events_of. induction log as [|[k ev] log IH]; cbn; [done|].
  case_bool_decide as Hi; cbn; case_bool_decide as Hj; cbn; try (subst; congruence); by rewrite IH.
Qed.

(** If in every program there are at most as many [f] as [g], so there are overall. *)
Lemma count_events_le (f g : nat → event → bool) log :
  (∀ i, count_in (f i) (events_of i log) <= count_in (g i) (events_of i log))%nat →
  (count_events f log <= count_events g log)%nat.
Proof.
  remember (length log) as n eqn:Hn. assert (Hle : (length log <= n)%nat) by lia. clear Hn.
  revert log Hle. induction n as [|n IH]; intros [|[i ev] log] Hle Hc; cbn in Hle; try (unfold count_events; cbn; lia).
  rewrite (count_events_split f i), (count_events_split g i). apply Nat.add_le_mono; [apply Hc|].
  apply IH.
  - cbn. rewrite bool_decide_true by done. cbn. etrans; [apply List.filter_length_le|]. lia.
  - intros j. destruct (decide (i = j)) as [<-|Hn]; [|rewrite !events_of_others by done; apply Hc].
    replace (events_of i _) with (@nil event); [done|]. unfold events_of.
    generalize ((i, ev) :: log). intros l. induction l as [|[k e] l IHl]; cbn; [done|].
    case_bool_decide as Hi; cbn; [done|]. rewrite bool_decide_false by done. done.
Qed.
End Executions.

(** ** A program and a state

    [hoare I p s Q]: run alone from [s], the program keeps [I] at every effect and ends
    as [Q] says. *)
Section Hoare.
Context {S : Type} (apply : event → S → S → Prop) (I : S → Prop).

Fixpoint hoare {A : Type} (p : prog A) (s : S) (Q : S → result X A → Prop) : Prop :=
  match p with
  | Ret a => Q s (Ok a)
  | Raise x => Q s (Err x)
  | Do e k => ∀ b s', apply (Event e b) s s' → I s' ∧ hoare (k b) s' Q
  end.

Lemma hoare_mono {A} (p : prog A) s (Q Q' : S → result X A → Prop) :
  hoare p s Q → (∀ s r, Q s r → Q' s r) → hoare p s Q'.
Proof.
  intros H HQ. revert s H. induction p as [a|x|B e k IH]; intros s; cbn; [apply HQ..|].
  intros H b s' Hb. destruct (H b s' Hb). split; [done|]. by apply IH.
Qed.
Lemma hoare_bind {A C} (p : prog A) (f : A → prog C) s Q :
  hoare p s (λ s r, match r with Ok a => hoare (f a) s Q | Err x => Q s (Err x) end) → hoare (pbind p f) s Q.
Proof.
  revert s. induction p as [a|x|B e k IH]; intros s; cbn; [done..|].
  intros H b s' Hb. destruct (H b s' Hb). split; [done|]. by apply IH.
Qed.

(** Effects that keep an assertion, which implies [I]. *)
Lemma hoare_only {A} (ok : ∀ B : Type, E B → bool) (L : S → Prop) (p : prog A) s (Q : S → result X A → Prop) :
  only ok p → L s → (∀ s, L s → I s) →
  (∀ B (e : E B) b s s', ok _ e = true → apply (Event e b) s s' → L s → L s') →
  (∀ s r, L s → Q s r) → hoare p s Q.
Proof.
  intros Hp Hs HI Hstep HQ. revert s Hs. induction p as [a|x|B e k IH]; intros s Hs; cbn in *; [auto..|].
  intros b s' Hb. destruct Hp as [He Hk]. assert (L s') by eauto. split; auto.
Qed.

Lemma hoare_sound {A} (p : prog A) s Q tr o s' i :
  hoare p s Q → I s → traces p tr o → replays apply (map (pair i) tr) s s' → I s'.
Proof.
  revert s tr. induction p as [a|x|B e k IH]; intros s [|ev tr] Hh Hs Ht Hr; cbn in *; try (by subst); try done.
  destruct Ht as (b & -> & Ht), Hr as (s1 & Hb & Hr). destruct (Hh b s1 Hb). by apply (IH b s1 tr).
Qed.
End Hoare.

(** ** One program alone *)

(** [p] on a state that answers every effect: its events, its outcome and the
    state it leaves. *)
Fixpoint run {W A : Type} (answer : ∀ B, E B → W → B * W) (p : prog A) (w : W) : list event * result X A * W :=
  match p with
  | Ret a => ([], Ok a, w)
  | Raise x => ([], Err x, w)
  | Do e k =>
      let '(b, w) := answer _ e w in
      let '(tr, o, w) := run answer (k b) w in (Event e b :: tr, o, w)
  end.

Lemma run_traces {W A} (answer : ∀ B, E B → W → B * W) (p : prog A) w :
  traces p (run answer p w).1.1 (Some (run answer p w).1.2).
Proof.
  revert w. induction p as [a|x|B e k IH]; intros w; cbn; [by right..|].
  destruct (answer B e w) as [b w']. specialize (IH b w').
  destruct (run answer (k b) w') as [[tr o] w'']. cbn in *. by exists b.
Qed.

Lemma run_events {W A} (answer : ∀ B, E B → W → B * W) (good : event → Prop) (p : prog A) w :
  (∀ B (e : E B) w, good (Event e (answer B e w).1)) → Forall good (run answer p w).1.1.
Proof.
  intros Hg. revert w. induction p as [a|x|B e k IH]; intros w; cbn; [done..|].
  specialize (Hg B e w). destruct (answer B e w) as [b w']. specialize (IH b w').
  destruct (run answer (k b) w') as [[tr o] w'']. by constructor.
Qed.

Lemma run_replays {W S A} (answer : ∀ B, E B → W → B * W) (apply : event → S → S → Prop) (view : W → S)
    i (p : prog A) w :
  (∀ B (e : E B) w, apply (Event e (answer B e w).1) (view w) (view (answer B e w).2)) →
  replays apply (map (pair i) (run answer p w).1.1) (view w) (view (run answer p w).2).
Proof.
  intros Ha. revert w. induction p as [a|x|B e k IH]; intros w; cbn; [done..|].
  specialize (Ha B e w). destruct (answer B e w) as [b w']. specialize (IH b w').
  destruct (run answer (k b) w') as [[tr o] w'']. by exists (view w').
Qed.

Lemma events_of_map i tr : events_of i (map (pair i) tr) = tr.
Proof. induction tr as [|ev tr IH]; [done|]. unfold events_of in *. cbn. rewrite bool_decide_true by done. cbn. by rewrite IH. Qed.
Lemma events_of_other i j tr : i ≠ j → events_of i (map (pair j) tr) = [].
Proof. intros Hn. induction tr as [|ev tr IH]; [done|]. unfold events_of in *. cbn. by rewrite bool_decide_false. Qed.
End Programs.

Arguments prog : clear implicits.
Arguments event : clear implicits.
Arguments Ret {E X A} a.
Arguments Raise {E X A} x.
Arguments Do {E X A B} e k.
Arguments Event {E B} e b.

#[export] Instance prog_bind {E X} : MBind (prog E X) := λ A C f p, pbind p f.

(** The rules of [only], for a program that is written out. *)
Ltac only_rules :=
  repeat first
    [ apply only_ret | apply only_raise | apply only_lift | apply only_perform; reflexivity | assumption
    | apply only_bind; [|intros ?] | apply only_attempt
    | apply only_catch;
      [|intros ?; cbv beta; try match goal with |- match match ?x with _ => _ end with _ => _ end => destruct x end]
    | apply only_each; intros ? | apply only_collect; intros ? | progress case_match | done ].
