(* ===== verification/AccountPrograms.v ===== *)
(** * Account center: effects, secrets and requests

    The exceptions of the plugin, the effects its handlers have (clock, entropy,
    store, GitHub), the calls of the store, [account_center/security.py]'s
    encryption and the helpers of [plugin.py] that read requests.  A store call
    either commits and answers, or raises [storage_unavailable]; then the
    transaction may have been committed, since the file modes are set after
    [commit]. *)

From Stdlib Require Import ZArith NArith.
From S2P Require Import Prelude PyText Json Sha256 Programs AccountStore ProfileStore ProfileSessions ProfileMachine.
From S2P Require Import PeopleText PeopleStore PeopleDirectory PeopleFacts.

#[local] Open Scope Z_scope.

(** ** Exceptions *)

(** [OAuthCredential] *)
Record OAuthCredential := MkOAuthCredential {
  access_token : pystr;
  refresh_token : option pystr;
  expires_at : option Z;
  refresh_expires_at : option Z
}.

(** [AccountCenterError] with its code, the three subclasses that carry a
    credential, [ValueError] and its subclasses, any other exception. *)
Inductive failure :=
  | Denied (code : pystr)
  | Unverified (c : OAuthCredential)
  | Against_policy (c : OAuthCredential)
  | Unpersisted (c : OAuthCredential)
  | Value_error
  | Broken.

Definition code_of (f : failure) : option pystr :=
  match f with
  | Denied code => Some code
  | Unverified _ => Some (lit "identity_verification_failed")
  | Against_policy _ => Some (lit "provider_rejected")
  | Unpersisted _ => Some (lit "credential_persistence_failed")
  | Value_error | Broken => None
  end.

Definition error_code (e : account_error) : pystr :=
  lit match e with
      | storage_unavailable => "storage_unavailable"
      | idempotency_conflict => "idempotency_conflict"
      | idempotency_in_progress => "idempotency_in_progress"
      | idempotency_state_invalid => "idempotency_state_invalid"
      | invalid_state => "invalid_state"
      | request_replayed => "request_replayed"
      | link_session_invalid => "link_session_invalid"
      | challenge_rejected => "challenge_rejected"
      | duplicate_link => "duplicate_link"
      | external_identity_owned => "external_identity_owned"
      | account_not_found => "account_not_found"
      | credential_reauthentication_required => "credential_reauthentication_required"
      | credential_refresh_claim_lost => "credential_refresh_claim_lost"
      | lease_rejected => "lease_rejected"
      | credential_unavailable => "credential_unavailable"
      | invalid_request => "invalid_request"
      | profile_unavailable => "profile_unavailable"
      | profile_already_exists => "profile_already_exists"
      | duplicate_provider_identity => "duplicate_provider_identity"
      | profile_ref_unavailable => "profile_ref_unavailable"
      | profile_provider_mismatch => "profile_provider_mismatch"
      | profile_not_found => "profile_not_found"
      | profile_revision_conflict => "profile_revision_conflict"
      | external_identity_mismatch => "external_identity_mismatch"
      | credential_reauthorization_required => "credential_reauthorization_required"
      | connector_grant_required => "connector_grant_required"
      | connector_grant_replayed => "connector_grant_replayed"
      | renewal_session_not_found => "renewal_session_not_found"
      | renewal_poll_claim_lost => "renewal_poll_claim_lost"
      | person_conflict => "person_conflict"
      | handle_owned => "handle_owned"
      | handle_not_found => "handle_not_found"
      | scope_mismatch => "scope_mismatch"
      | result_too_large => "result_too_large"
      end.

Definition denied (code : string) : failure := Denied (lit code).
Definition raised {A : Type} (r : R A) : result failure A :=
  match r with Ok a => Ok a | Err e => Err (Denied (error_code e)) end.

(** ** Effects *)

Inductive github_request :=
  | Access_token (form : list (string * pystr))
  | Get_user (token : pystr)
  | Delete_grant (token : pystr).

(** What [urllib] makes of an exchange: a status with the size of the body and
    the value [json.loads] finds in it, an [HTTPError], a host that is not
    reached (or a [ValueError] on the way), any other exception. *)
Inductive reply :=
  | Reply (status size : Z) (body : option json)
  | Http_error
  | Unreachable
  | Crashed.

Inductive effect : Type → Type :=
  | Clock : effect Z
  | Uuid : effect pystr
  | Urandom (n : nat) : effect pybytes
  | Store (op : directory_op) : effect (option directory_out)
  | Read {B : Type} (f : directory → B) : effect B
  | Github (q : github_request) : effect reply.

Abbreviation P := (prog effect failure).

(** What an event does to the store; clocks, entropy and GitHub answer anything. *)
Definition happens (lower : pystr → pystr) (ev : event effect) (d d' : directory) : Prop :=
  match ev with
  | Event e b =>
      match e in effect B return B → Prop with
      | Store op => λ out,
          match out with
          | Some o => directory_step lower op d = (o, d')
          | None => d' = d ∨ d' = snd (directory_step lower op d)
          end
      | Read f => λ b, b = f d ∧ d' = d
      | _ => λ _, d' = d
      end b
  end.

Definition clock : P Z := perform Clock.
Definition uuid4 : P pystr := perform Uuid.
Definition urandom (n : nat) : P pybytes := perform (Urandom n).
Definition github (q : github_request) : P reply := perform (Github q).
Definition check {A : Type} (r : R A) : P A := lift (raised r).
Definition demand (b : bool) (code : string) : P () := if b then Ret () else Raise (denied code).

(** A read of the store that may raise. *)
Definition look {A : Type} (f : directory → A) : P A := perform (Read f).
Definition look_account {A : Type} (f : account_db → R A) : P A :=
  r ← look (λ d, f (base (center_tables d))); check r.

(** ** Calls of the store *)

Definition store (op : directory_op) : P directory_out :=
  o ← perform (Store op);
  match o with Some out => Ret out | None => Raise (denied "storage_unavailable") end.
Definition base_store (op : account_op) : P account_out :=
  o ← store (DCenter (CBase op));
  match o with DoCenter (CoBase out) => Ret out | _ => Raise Broken end.

Definition store_unit (op : account_op) : P () :=
  o ← base_store op; match o with AoUnit r => check r | _ => Raise Broken end.
Definition store_ref (op : account_op) : P pystr :=
  o ← base_store op; match o with AoRef r => check r | _ => Raise Broken end.
Definition store_begin (op : account_op) : P (option pybytes) :=
  o ← base_store op; match o with AoBegin r => check r | _ => Raise Broken end.
Definition store_session (op : account_op) : P (pystr * session) :=
  o ← base_store op; match o with AoSession r => check r | _ => Raise Broken end.
Definition store_revision (op : account_op) : P Z :=
  o ← base_store op; match o with AoRevision r => check r | _ => Raise Broken end.
Definition store_redeem (op : account_op) : P (pystr * account * pybytes) :=
  o ← base_store op; match o with AoRedeem r => check r | _ => Raise Broken end.
Definition store_unlink (op : account_op) : P account :=
  o ← base_store op; match o with AoUnlink r => check r | _ => Raise Broken end.

(** ** Requests *)

Definition text_field (key : string) (v : option pystr) : pystr * json :=
  (lit key, match v with Some s => JStr s | None => JNull end).
Definition int_field (key : string) (v : option Z) : pystr * json :=
  (lit key, match v with Some z => JInt z | None => JNull end).

(** [require_object] *)
Definition require_object (code : string) (v : json) : result failure request :=
  match v with JObj kvs => Ok kvs | _ => Err (denied code) end.

(** [_required_text] *)
Definition required_text (key : string) (maximum : Z) (r : request) : result failure pystr :=
  match assoc (lit key) r with
  | Some (JStr s) =>
      if negb (bool_decide (strip s = [])) && (len s <=? maximum) then Ok s
      else Err (denied "invalid_request")
  | _ => Err (denied "invalid_request")
  end.

(** [_require_fields] *)
Definition require_fields (required optional : list string) (r : request) : result failure () :=
  raised (_require_fields (map lit required) (map lit optional) r).

(** [request[key]] of a key that is there. *)
Definition item_of (key : string) (r : request) : json := default JNull (assoc (lit key) r).

Definition lower_ascii (c : N) : N := if is_upper_ascii c then (c + 32)%N else c.

(** [_uuid_text]: [str(UUID(value)) == value.lower()] is the canonical form, in
    either case; the result is in lower case. *)
Definition uuid_text (v : json) : result failure pystr :=
  match v with
  | JStr s => if _UUID s then Ok (map lower_ascii s) else Err (denied "invalid_request")
  | _ => Err (denied "invalid_request")
  end.

(** [_sha256_text] *)
Definition sha256_text (v : json) : result failure pystr :=
  match v with
  | JStr s => if (len s =? 64) && forallb is_hex_lower s then Ok s else Err (denied "invalid_request")
  | _ => Err (denied "invalid_request")
  end.

(** [_digest_text]; a text with a lone surrogate has no UTF-8. *)
Definition digest_text (s : pystr) : result failure pystr :=
  match utf8_encode s with Some b => Ok (sha256_hex b) | None => Err Value_error end.

Section Secrets.
(** [rfc8785.dumps]: the values it refuses, and its bytes for the others. *)
Context (canonical_ok : json → bool) (canonical : json → pybytes).
(** [AESGCM(key).encrypt(nonce, data, associated_data)] and [decrypt]. *)
Context (aes_encrypt : pybytes → pybytes → pybytes → pybytes → pybytes)
  (aes_decrypt : pybytes → pybytes → pybytes → pybytes → option pybytes).

(** [canonical_json] *)
Definition canonical_json (v : json) : result failure pybytes :=
  if canonical_ok v then Ok (canonical v) else Err Value_error.
(** [payload_sha256] *)
Definition payload_digest (r : request) : result failure pystr :=
  b ← canonical_json (JObj r); Ok (sha256_hex b).

(** [encrypt] and [decrypt] of [security.py]. *)
Definition seal (key nonce clear associated : pybytes) : pybytes :=
  nonce ++ aes_encrypt key nonce clear associated.
Definition encrypt (key clear associated : pybytes) : P pybytes :=
  nonce ← urandom 12; Ret (seal key nonce clear associated).
Definition decrypt (key blob associated : pybytes) : result failure pybytes :=
  match aes_decrypt key (take 12 blob) (drop 12 blob) associated with
  | Some clear => Ok clear
  | None => Err (denied "credential_unavailable")
  end.

(** [str.encode()] of the associated data. *)
Definition encoded (s : pystr) : result failure pybytes :=
  match utf8_encode s with Some b => Ok b | None => Err Value_error end.

(** [_encrypt_credential] and [_decrypt_credential]. *)
Definition credential_json (c : OAuthCredential) : json :=
  JObj [(lit "access_token", JStr (access_token c)); text_field "refresh_token" (refresh_token c);
        int_field "expires_at" (expires_at c); int_field "refresh_expires_at" (refresh_expires_at c)].
Definition encrypt_credential (key : pybytes) (associated : pystr) (c : OAuthCredential) : P pybytes :=
  ad ← lift (encoded associated); clear ← lift (canonical_json (credential_json c)); encrypt key clear ad.

Definition optional_text (v : option json) : option (option pystr) :=
  match v with Some (JStr s) => Some (Some s) | Some JNull | None => Some None | _ => None end.
Definition optional_int (v : option json) : option (option Z) :=
  match v with Some (JInt z) => Some (Some z) | Some JNull | None => Some None | _ => None end.
(** The ciphertexts are the plugin's own, so the optional fields have the types
    that [_encrypt_credential] gave them. *)
Definition credential_of_json (v : json) : result failure OAuthCredential :=
  match v with
  | JObj kvs =>
      match assoc (lit "access_token") kvs with
      | Some (JStr (c :: s)) =>
          match optional_text (assoc (lit "refresh_token") kvs),
                optional_int (assoc (lit "expires_at") kvs),
                optional_int (assoc (lit "refresh_expires_at") kvs) with
          | Some rt, Some e, Some re => Ok (MkOAuthCredential (c :: s) rt e re)
          | _, _, _ => Err Broken
          end
      | _ => Err (denied "credential_unavailable")
      end
  | _ => Err (denied "credential_unavailable")
  end.
Definition decrypt_credential (key : pybytes) (associated : pystr) (blob : pybytes)
  : result failure OAuthCredential :=
  ad ← encoded associated;
  clear ← decrypt key blob ad;
  match s ← utf8_decode clear; loads s with
  | Some v => credential_of_json v
  | None => Err (denied "credential_unavailable")
  end.

(** [_encrypt_session_secret] and [_decrypt_session_secret]. *)
Definition pkce_data (session_ref : pystr) : pystr := lit "oauth-pkce:" ++ session_ref.
Definition encrypt_session_secret (key : pybytes) (session_ref secret : pystr) : P pybytes :=
  ad ← lift (encoded (pkce_data session_ref));
  if is_ascii secret then encrypt key secret ad else Raise Value_error.
Definition decrypt_session_secret (key : pybytes) (session_ref : pystr) (blob : pybytes)
  : result failure pystr :=
  ad ← encoded (pkce_data session_ref);
  clear ← decrypt key blob ad;
  if is_ascii clear then Ok clear else Err (denied "link_session_invalid").

(** [_encode_idempotency_response] and [_decode_idempotency_response]. *)
Definition MAX_IDEMPOTENCY_RESPONSE_BYTES : Z := 64 * 1024.
Definition idempotency_data (key_hash : pystr) : pystr := lit "command-idempotency:" ++ key_hash.
Definition sealed_response (key nonce : pybytes) (key_hash : pystr) (v : json) : pybytes :=
  seal key nonce (canonical v) (default [] (utf8_encode (idempotency_data key_hash))).
Definition encode_response (key : pybytes) (key_hash : pystr) (v : json) : P pybytes :=
  clear ← lift (canonical_json v);
  _ ← demand (len clear <=? MAX_IDEMPOTENCY_RESPONSE_BYTES) "response_too_large";
  ad ← lift (encoded (idempotency_data key_hash));
  encrypt key clear ad.

(** [_reject_duplicate_pairs] *)
Definition reject_duplicate_pairs (kvs : list (pystr * json)) : option json :=
  if bool_decide (NoDup kvs.*1) then Some (JObj kvs) else None.

Definition decode_response (key : pybytes) (key_hash : pystr) (blob : pybytes) : result failure request :=
  ad ← encoded (idempotency_data key_hash);
  clear ← decrypt key blob ad;
  if negb (len clear <=? MAX_IDEMPOTENCY_RESPONSE_BYTES) then Err (denied "idempotency_result_unavailable") else
  match s ← utf8_decode clear; loads_with reject_duplicate_pairs s with
  | Some (JObj [(k, v)]) =>
      match v with
      | JStr code => if bool_decide (k = lit "error") then Err (Denied code)
                     else Err (denied "idempotency_result_unavailable")
      | JObj kvs => if bool_decide (k = lit "value") then Ok kvs
                    else Err (denied "idempotency_result_unavailable")
      | _ => Err (denied "idempotency_result_unavailable")
      end
  | _ => Err (denied "idempotency_result_unavailable")
  end.
End Secrets.
