(* ===== verification/AccountGithub.v ===== *)
(** * Account center: the GitHub client

    [account_center/github.py]: the authorization URL, the exchange of a code,
    the refresh and the revocation of a grant, over the effect [Github].
    [str.lower] is an argument. *)

From Stdlib Require Import ZArith NArith.
From S2P Require Import Prelude PyText Json Base64 Sha256 Programs AccountStore PeopleDirectory AccountPrograms.

#[local] Open Scope Z_scope.

(** ** URLs *)

(** [urllib.parse.quote_plus]: UTF-8 bytes, escaped unless they are unreserved. *)
Definition unreserved (b : N) : bool :=
  is_upper_ascii b || is_lower_ascii b || is_digit_ascii b || bool_decide (b ∈ lit "_.-~").
Definition upper_hex (n : N) : N := if (n <? 10)%N then (48 + n)%N else (55 + n)%N.
Definition quote_byte (b : N) : pystr :=
  if unreserved b then [b] else if (b =? 32)%N then lit "+" else lit "%" ++ [upper_hex (b / 16)%N; upper_hex (b mod 16)%N].
Definition quote_plus (s : pystr) : result failure pystr :=
  match utf8_encode s with Some bs => Ok (flat_map quote_byte bs) | None => Err Value_error end.
(** [urllib.parse.urlencode] *)
Definition urlencode (form : list (string * pystr)) : result failure pystr :=
  parts ← mapR (λ kv, v ← quote_plus kv.2; Ok (lit kv.1 ++ lit "=" ++ v)) form;
  Ok (join (lit "&") parts).

(** ** PKCE *)

(** [re.fullmatch(r"[A-Za-z0-9._~-]{43,128}", verifier)] *)
Definition verifier_ok (s : pystr) : bool := forallb unreserved s && (43 <=? len s) && (len s <=? 128).

(** [pkce_s256_challenge] *)
Definition pkce_s256_challenge (verifier : pystr) : result failure pystr :=
  if verifier_ok verifier then Ok (b64url_encode (sha256 verifier)) else Err (denied "invalid_request").

(** ** The client *)

(** [GitHubOAuthClient]: its identifier and secret. *)
Record client := Client { client_id : pystr; client_secret : pystr }.

Definition OAUTH_BASE : pystr := lit "https://github.com/login/oauth".

(** [authorization_url] *)
Definition authorization_url (c : client) (redirect_uri state code_challenge : pystr) : result failure pystr :=
  _ ← (if forallb is_b64url code_challenge && (len code_challenge =? 43) then Ok ()
       else Err (denied "invalid_request"));
  query ← urlencode
    [("client_id", client_id c); ("redirect_uri", redirect_uri); ("state", state);
     ("scope", lit "offline_access"); ("code_challenge", code_challenge);
     ("code_challenge_method", lit "S256"); ("allow_signup", lit "false")];
  Ok (OAUTH_BASE ++ lit "/authorize?" ++ query).

Definition MAX_REPLY_BYTES : Z := 256 * 1024.

(** [_read_json] *)
Definition read_json (r : reply) : result failure request :=
  match r with
  | Reply status size body =>
      if (status <? 200) || (300 <=? status) || (MAX_REPLY_BYTES <? size) then Err (denied "provider_rejected") else
      match body with
      | None => Err (denied "provider_unavailable")
      | Some (JObj kvs) =>
          if bool_decide (assoc (lit "error") kvs = None) then Ok kvs else Err (denied "provider_rejected")
      | Some _ => Err (denied "provider_rejected")
      end
  | Http_error => Err (denied "provider_rejected")
  | Unreachable => Err (denied "provider_unavailable")
  | Crashed => Err Broken
  end.

(** [_oauth_post]; a form that has no encoding is not sent. *)
Definition oauth_post (form : list (string * pystr)) : P request :=
  _ ← lift (urlencode form); r ← github (Access_token form); lift (read_json r).

Section Github.
Context (lower : pystr → pystr).

(** [_credential]; a lifetime counts if it is a positive integer. *)
Definition lifetime (now : Z) (v : option json) : option Z :=
  match v with Some (JInt z) => if 0 <? z then Some (now + z) else None | _ => None end.
Definition bounded_token (s : pystr) : bool := len s <=? 16384.
Definition bearer (v : option json) : bool :=
  match v with None => true | Some (JStr s) => bool_decide (lower s = lit "bearer") | Some _ => false end.
Definition _credential (now : Z) (require_refresh : bool) (v : request) : result failure OAuthCredential :=
  at_ ← (match assoc (lit "access_token") v with
         | Some (JStr (c :: s)) => if bounded_token (c :: s) then Ok (c :: s) else Err (denied "provider_rejected")
         | _ => Err (denied "provider_rejected")
         end);
  rt ← (match assoc (lit "refresh_token") v with
        | None | Some JNull => Ok None
        | Some (JStr s) => if bounded_token s then Ok (Some s)
                           else if require_refresh then Ok None else Err (denied "provider_rejected")
        | Some _ => if require_refresh then Ok None else Err (denied "provider_rejected")
        end);
  let c := MkOAuthCredential at_ rt (lifetime now (assoc (lit "expires_in") v))
             (lifetime now (assoc (lit "refresh_token_expires_in") v)) in
  if negb (bearer (assoc (lit "token_type") v))
  then Err (if require_refresh then Against_policy c else denied "provider_rejected") else
  if require_refresh && negb (match rt with Some (_ :: _) => true | _ => false end
                              && bool_decide (is_Some (refresh_expires_at c)) && bool_decide (is_Some (expires_at c)))
  then Err (Against_policy c) else Ok c.

(** [exchange_code]: the credential and the user's number. *)
Definition exchange_code (c : client) (code redirect_uri code_verifier : pystr)
    (on_credential : OAuthCredential → P ()) : P (OAuthCredential * pystr) :=
  _ ← demand (verifier_ok code_verifier) "provider_rejected";
  v ← oauth_post [("client_id", client_id c); ("client_secret", client_secret c); ("code", code);
                  ("redirect_uri", redirect_uri); ("code_verifier", code_verifier)];
  now ← clock;
  cred ← lift (_credential now true v);
  _ ← on_credential cred;
  r ← github (Get_user (access_token cred));
  user ← lift (match read_json r with
               | Err (Denied _) => Err (Unverified cred)
               | r => r
               end);
  match assoc (lit "id") user with
  | Some (JInt z) => if 0 <? z then Ret (cred, str_of_Z z) else Raise (Unverified cred)
  | _ => Raise (Unverified cred)
  end.

(** [refresh] *)
Definition refresh (c : client) (token : pystr) : P OAuthCredential :=
  v ← oauth_post [("client_id", client_id c); ("client_secret", client_secret c);
                  ("grant_type", lit "refresh_token"); ("refresh_token", token)];
  now ← clock;
  lift (_credential now true v).

(** [revoke] *)
Definition revoke (token : pystr) : P () :=
  r ← github (Delete_grant token);
  match r with
  | Reply 204 _ _ => Ret ()
  | Reply _ _ _ | Http_error => Raise (denied "provider_rejected")
  | Unreachable => Raise (denied "provider_unavailable")
  | Crashed => Raise Broken
  end.
End Github.
