(* ===== verification/AccountHandlers.v ===== *)
(** * Account center: the handlers of linked accounts and people

    The methods of [AccountCenterPlugin] ([account_center/plugin.py]) for linked
    accounts, credential leases and the people directory, as programs; and the
    recovery it runs when it starts. *)

From Stdlib Require Import ZArith NArith.
From S2P Require Import Prelude PyText Json Base64 Sha256 Programs AccountStore ProfileStore ProfileSessions ProfileMachine.
From S2P Require Import PeopleText PeopleStore PeopleDirectory PeopleFacts AccountPrograms AccountGithub.

#[local] Open Scope Z_scope.

Definition SESSION_TTL_SECONDS : Z := 600.
Definition LEASE_TTL_SECONDS : Z := 45.

Definition PROVIDER_OPERATIONS : list pystr :=
  map lit ["github.issue.get"; "github.issue.comment.create"; "github.issue.state.update"].

(** A WeCom source of the configuration. *)
Record wecom_source := WecomSource { ws_authority : pystr; ws_bots : list pystr }.

(** The plugin's settings: [_github] with [_callback_uri], the callers, and the
    identifier of the store's process. *)
Record config := Config {
  cf_instance : pystr;
  cf_encryption_key : pybytes;
  cf_binding_id : pystr;
  cf_github : option client;
  cf_callback_uri : option pystr;
  cf_caller_keys : list (pystr * pybytes);
  cf_method_callers : list (pystr * list pystr);
  cf_exchange_caller : pystr;
  cf_github_provider_caller : pystr;
  cf_wecom_sources : list (pystr * wecom_source);
  cf_repository_allowlist : option (list (pystr * list pystr))
}.

(** ** Requests *)

(** A text of a verified context. *)
Definition context_text (key : string) (context : request) : pystr :=
  match item_of key context with JStr s => s | _ => [] end.

(** [text.split("/")] *)
Fixpoint split_slash (s : pystr) : list pystr :=
  match s with
  | [] => [[]]
  | c :: s =>
      let parts := split_slash s in
      if (c =? 47)%N then [] :: parts
      else match parts with p :: ps => (c :: p) :: ps | [] => [[c]] end
  end.

Section Handlers.
(** [str.lower], [str.casefold], [str.isalnum] *)
Context (lower casefold : pystr → pystr) (isalnum : pystr → bool).
Context (canonical_ok : json → bool) (canonical : json → pybytes).
Context (aes_encrypt : pybytes → pybytes → pybytes → pybytes → pybytes)
  (aes_decrypt : pybytes → pybytes → pybytes → pybytes → option pybytes).
Context (cf : config).

Abbreviation canonical_json := (canonical_json canonical_ok canonical).
Abbreviation encode_response := (encode_response canonical_ok canonical aes_encrypt (cf_encryption_key cf)).
Abbreviation encrypt_credential := (encrypt_credential canonical_ok canonical aes_encrypt (cf_encryption_key cf)).
Abbreviation decrypt_credential := (decrypt_credential aes_decrypt (cf_encryption_key cf)).

(** The arguments [command_result] and [command] of the store's calls. *)
Definition value_result (response : request) : json := JObj [(lit "value", JObj response)].
Definition command_result_of (key_hash : option pystr) (response : request) : P (option (pystr * pybytes)) :=
  match key_hash with
  | Some k => blob ← encode_response k (value_result response); Ret (Some (k, blob))
  | None => Ret None
  end.
(** [_idempotency_command]: the encoder runs inside the transaction; the results
    it gets are a few short texts. *)
Definition idempotency_command {A : Type} (to_response : A → request) (key_hash : option pystr)
  : P (option (pystr * (A → pybytes))) :=
  match key_hash with
  | Some k =>
      nonce ← urandom 12;
      Ret (Some (k, λ a, sealed_response canonical aes_encrypt (cf_encryption_key cf) nonce k
                           (value_result (to_response a))))
  | None => Ret None
  end.

(** [request.get("workspace_id", anchor.workspace_id) != anchor.workspace_id] *)
Definition check_workspace (an : Anchor) (r : request) : P () :=
  demand (json_is (workspace_id an) (default (workspace_value (workspace_id an)) (assoc (lit "workspace_id") r)))
    "scope_mismatch".

(** [_secret_text] *)
Definition secret_text : P pystr := bs ← urandom 32; Ret (b64url_encode bs).

(** ** Linking *)

(** [_begin_link]; a [provider] that cannot be hashed is a [TypeError]. *)
Definition link_provider_of (v : option json) : result failure link_provider :=
  match v with
  | Some (JStr s) =>
      if bool_decide (s = lit "github") then Ok GITHUB
      else if bool_decide (s = lit "wecom") then Ok WECOM else Err (denied "invalid_request")
  | Some (JArr _) | Some (JObj _) => Err Broken
  | _ => Err (denied "invalid_request")
  end.
Definition begin_link (r : request) (an : Anchor) (key_hash : option pystr) : P request :=
  _ ← lift (require_fields ["provider"] ["workspace_id"] r);
  provider ← lift (link_provider_of (assoc (lit "provider") r));
  _ ← check_workspace an r;
  now ← clock;
  state ← secret_text;
  nonce ← secret_text;
  session_ref ← uuid4;
  let expires := now + SESSION_TTL_SECONDS in
  let head := [(lit "link_session_ref", JStr session_ref); (lit "expires_at", JInt expires)] in
  x ← match provider with
      | GITHUB =>
          verifier ← secret_text;
          blob ← encrypt_session_secret aes_encrypt (cf_encryption_key cf) session_ref verifier;
          match cf_github cf, cf_callback_uri cf with
          | Some c, Some uri =>
              challenge ← lift (pkce_s256_challenge verifier);
              url ← lift (authorization_url c uri state challenge);
              Ret (head ++ [(lit "authorization_url", JStr url)], Some uri, Some blob)
          | _, _ => Raise (denied "provider_not_configured")
          end
      | WECOM => Ret (head ++ [(lit "callback_nonce", JStr nonce)], None, None)
      end;
  let '(response, uri, blob) := x in
  result ← command_result_of key_hash response;
  state_digest ← lift (digest_text state);
  nonce_digest ← lift (digest_text nonce);
  _ ← store_ref (ACreateSession session_ref an provider state_digest nonce_digest uri blob expires now result);
  Ret response.

(** [self._github.revoke(...)]; without a client it is an [AttributeError]. *)
Definition revoke_grant (token : pystr) : P () :=
  match cf_github cf with Some _ => revoke token | None => Raise Broken end.
Definition revocation_of (r : result failure ()) : revocation :=
  match r with
  | Ok _ => REVOKED
  | Err x => match code_of x with
             | Some code => if bool_decide (code = lit "provider_unavailable") then UNKNOWN else FAILED
             | None => UNKNOWN
             end
  end.

(** [_revoke_callback_token] *)
Definition revoke_callback_token (token : pystr) : P revocation :=
  r ← attempt (revoke_grant token); Ret (revocation_of r).

Definition callback_data (session_ref : pystr) : pystr := lit "oauth-callback:" ++ session_ref.

(** [_persist_callback_credential] *)
Definition persist_callback_credential (session_ref : pystr) (c : OAuthCredential) : P () :=
  blob ← encrypt_credential (callback_data session_ref) c;
  catch (store_unit (ASavePending session_ref blob))
    (λ x, match code_of x with Some _ => Some (Raise (Unpersisted c)) | None => None end).

(** The [except] clauses of [_complete_github_link]; [got] is the credential that
    the exchange returned, if it did. *)
Definition callback_failed (session_ref : pystr) (got : option OAuthCredential) (x : failure) : P request :=
  let close_session (outcome : P revocation) (x : failure) :=
    st ← outcome; _ ← store_unit (AFailSession session_ref st); Raise x in
  match x with
  | Unverified c => close_session (revoke_callback_token (access_token c)) (denied "identity_verification_failed")
  | Unpersisted c => close_session (revoke_callback_token (access_token c)) (denied "credential_persistence_failed")
  | Against_policy c => close_session (revoke_callback_token (access_token c)) (denied "provider_rejected")
  | Denied code =>
      close_session (match got with
               | Some c => revoke_callback_token (access_token c)
               | None => Ret (if bool_decide (code = lit "provider_unavailable") then UNKNOWN else NOT_ISSUED)
               end) (Denied code)
  | Value_error | Broken =>
      close_session (match got with Some c => revoke_callback_token (access_token c) | None => Ret UNKNOWN end)
        (denied "link_failed")
  end.

(** The account of a verified GitHub user, and the end of its session. *)
Definition link_github (session_ref : pystr) (owner : Anchor) (now : Z) (c : OAuthCredential) (subject : pystr)
  : P request :=
  account_ref ← uuid4;
  blob ← encrypt_credential account_ref c;
  ref ← store_ref (AInsert account_ref (Link owner GITHUB (lit "https://github.com") None subject (lit "{}") now)
                     (Some blob) (expires_at c) (refresh_expires_at c) (Some session_ref) None);
  Ret [(lit "account_ref", JStr ref); (lit "provider", JStr (lit "github")); (lit "status", JStr (lit "active"))].

(** A session whose verifier cannot be used. *)
Definition reject_session {A : Type} (session_ref : pystr) : P A :=
  _ ← store_unit (AFailSession session_ref NOT_ISSUED); Raise (denied "link_session_invalid").

(** [_complete_github_link], once the session is claimed. *)
Definition finish_github_link (c : client) (uri code session_ref : pystr) (s : session) (now : Z) : P request :=
  verifier ← (match se_code_verifier s with
              | None => reject_session session_ref
              | Some blob =>
                  catch (lift (decrypt_session_secret aes_decrypt (cf_encryption_key cf) session_ref blob))
                    (λ x, match code_of x with Some _ => Some (reject_session session_ref) | None => None end)
              end);
  exchanged ← attempt (exchange_code lower c code uri verifier (persist_callback_credential session_ref));
  match exchanged with
  | Ok (cred, subject) =>
      catch (link_github session_ref (se_anchor s) now cred subject)
        (λ x, Some (callback_failed session_ref (Some cred) x))
  | Err x => callback_failed session_ref None x
  end.
Definition complete_github_link (r : request) : P request :=
  _ ← lift (require_fields ["state"; "code"] [] r);
  match cf_github cf, cf_callback_uri cf return P request with
  | Some c, Some uri =>
      state ← lift (required_text "state" 256 r);
      code ← lift (required_text "code" 4096 r);
      now ← clock;
      digest ← lift (digest_text state);
      x ← store_session (AClaimByState digest uri now);
      let '(session_ref, s) := x in
      _ ← demand (bool_decide (se_state_digest s = digest) && bool_decide (se_callback_uri s = Some uri))
            "link_session_invalid";
      finish_github_link c uri code session_ref s now
  | _, _ => Raise (denied "provider_not_configured")
  end.

(** [_observe_wecom_challenge] *)
Definition observe_wecom_challenge (r context : request) : P request :=
  _ ← lift (require_fields ["bot_namespace"; "source_authority"; "stable_subject"; "challenge_id";
                            "challenge_value"; "expires_at"] [] r);
  match assoc (context_text "caller_id" context) (cf_wecom_sources cf) with
  | None => Raise (denied "untrusted_caller")
  | Some source =>
      bot ← lift (required_text "bot_namespace" 200 r);
      authority ← lift (required_text "source_authority" 500 r);
      subject ← lift (required_text "stable_subject" 500 r);
      id ← lift (uuid_text (item_of "challenge_id" r));
      value ← lift (required_text "challenge_value" 128 r);
      now ← clock;
      match item_of "expires_at" r with
      | JInt e =>
          _ ← demand (bool_decide (authority = ws_authority source) && bool_decide (bot ∈ ws_bots source)
                      && (now <? e) && (e <=? now + SESSION_TTL_SECONDS)) "challenge_rejected";
          digest ← lift (digest_text value);
          _ ← store_unit (AAddChallenge id bot authority subject (context_text "organization_id" context) digest e);
          Ret [(lit "accepted", JBool true); (lit "challenge_id", JStr id); (lit "expires_at", JInt e)]
      | _ => Raise (denied "challenge_rejected")
      end
  end.

(** [_confirm_wecom_link] *)
Definition confirm_wecom_link (r : request) (an : Anchor) (key_hash : option pystr) : P request :=
  _ ← lift (require_fields ["link_session_ref"; "challenge_id"; "challenge_value"] [] r);
  session_ref ← lift (uuid_text (item_of "link_session_ref" r));
  challenge_id ← lift (uuid_text (item_of "challenge_id" r));
  value ← lift (required_text "challenge_value" 128 r);
  now ← clock;
  s ← look_account (get_session session_ref);
  _ ← demand (bool_decide (se_provider s = WECOM) && (now <? se_expires_at s)) "link_session_invalid";
  _ ← demand (bool_decide (se_anchor s = an)) "scope_mismatch";
  digest ← lift (digest_text value);
  _ ← demand (bool_decide (se_nonce_digest s = digest)) "challenge_rejected";
  account_ref ← uuid4;
  let response := [(lit "account_ref", JStr account_ref); (lit "provider", JStr (lit "wecom"));
                   (lit "status", JStr (lit "active"))] in
  result ← command_result_of key_hash response;
  _ ← store_ref (ACompleteWecom session_ref challenge_id an digest account_ref now result);
  Ret response.

(** [list_accounts] with its ORDER BY, and [_list_links]. *)
Definition owned_rows (an : Anchor) (d : account_db) : list (pystr * account) :=
  sort_by (by_int (λ kv, lk_linked_at (ac_link kv.2)) (by_text fst last_key))
    (List.filter (λ kv, owned an kv.2) (map_to_list (accounts d))).
Definition link_json (kv : pystr * account) : json :=
  let l := ac_link kv.2 in
  JObj [(lit "account_ref", JStr kv.1); (lit "provider", JStr (link_provider_text (lk_provider l)));
        (lit "source_authority", JStr (lk_source_authority l)); text_field "bot_namespace" (lk_bot_namespace l);
        (lit "status", JStr (listed_text (listed_status kv.2))); (lit "linked_at", JInt (lk_linked_at l));
        text_field "workspace_id" (workspace_id (lk_anchor l))].
Definition list_links (r : request) (an : Anchor) : P request :=
  _ ← lift (require_fields [] ["workspace_id"] r);
  _ ← check_workspace an r;
  rows ← look (λ d, owned_rows an (base (center_tables d)));
  Ret [(lit "links", JArr (map link_json rows))].

(** ** Unlinking *)

(** The status that [_unlink] answers for each outcome of the revocation. *)
Definition unlink_response (status : string) : request :=
  [(lit "unlinked", JBool true); (lit "status", JStr (lit status))].
Definition revocation_status (st : revocation) : string :=
  match st with
  | FAILED => "revocation_failed"
  | UNKNOWN => "revocation_unknown"
  | _ => "unlinked"
  end.

(** The credential that [_unlink] can revoke, and whether there is one that it
    cannot read. *)
Definition unlink_credential (account_ref : pystr) (a : account) : result failure (option OAuthCredential * bool) :=
  match lk_provider (ac_link a), cr_blob (ac_credential a) with
  | GITHUB, Some blob =>
      match decrypt_credential account_ref blob with
      | Ok c => Ok (Some c, false)
      | Err x => if bool_decide (code_of x = Some (lit "credential_unavailable")) then Ok (None, true) else Err x
      end
  | _, _ => Ok (None, false)
  end.

(** [_unlink] *)
Definition unlink (r : request) (an : Anchor) (key_hash : option pystr) : P request :=
  _ ← lift (require_fields ["account_ref"] [] r);
  account_ref ← lift (uuid_text (item_of "account_ref" r));
  row ← look_account (get_account account_ref an);
  x ← lift (unlink_credential account_ref row);
  match x with
  | (None, unreadable) =>
      let response := unlink_response
        (if bool_decide (lk_provider (ac_link row) = GITHUB)
            && (negb (bool_decide (cr_status (ac_credential row) = READY)) || unreadable)
         then "revocation_unknown" else "unlinked") in
      result ← command_result_of key_hash response;
      now ← clock;
      _ ← store_unlink (AUnlink (cf_instance cf) account_ref an now result key_hash unreadable);
      Ret response
  | (Some c, _) =>
      now ← clock;
      _ ← store_unlink (AUnlink (cf_instance cf) account_ref an now None key_hash false);
      revoked ← attempt (revoke_grant (access_token c));
      let st := revocation_of revoked in
      let response := unlink_response (revocation_status st) in
      result ← command_result_of key_hash response;
      _ ← store_unit (ASetRevocation (cf_instance cf) account_ref st result);
      Ret response
  end.

(** [_unlink_provider_profile] *)
Definition unlink_provider_profile (r : request) (an : Anchor) : P request :=
  _ ← lift (require_fields ["profile_ref"] [] r);
  ref ← lift (uuid_text (item_of "profile_ref" r));
  now ← clock;
  o ← store (DCenter (CUnlink ref an now));
  _ ← (match o with DoCenter (CoUnit r) => check r | _ => Raise Broken end);
  Ret [(lit "unlinked", JBool true); (lit "profile_ref", JStr ref); (lit "status", JStr (lit "unlinked"))].

(** [list_active_links] *)
Definition list_active_links (an : Anchor) (provider : pystr) (d : directory)
  : list pystr * list (pystr * access_mode) :=
  let accs := List.filter (λ kv, owned an kv.2 && bool_decide (link_provider_text (lk_provider (ac_link kv.2)) = provider)
                                 && bool_decide (ac_status kv.2 = ACTIVE))
                (map_to_list (accounts (base (center_tables d)))) in
  let profs := List.filter (λ kv, bool_decide (pf_anchor kv.2 = an)
                                  && bool_decide (profile_provider_text (pf_provider kv.2) = provider)
                                  && pf_active kv.2)
                 (map_to_list (provider_profiles (center_tables d))) in
  ((sort_by (by_int (λ kv, lk_linked_at (ac_link kv.2)) (by_text fst last_key)) accs).*1,
   map (λ kv, (kv.1, pf_access_mode kv.2))
     (sort_by (by_int (λ kv, pf_created_at kv.2) (by_text fst last_key)) profs)).

Definition outcome_json (kind status : pystr) : json := JObj [(lit "kind", JStr kind); (lit "status", JStr status)].

(** [_revoke_person_links]: each link goes the way its owner would take. *)
Definition unlink_account_of (target : Anchor) (account_ref : pystr) : P json :=
  outcome ← unlink [(lit "account_ref", JStr account_ref)] target None;
  Ret (outcome_json (lit "account") (context_text "status" outcome)).
Definition unlink_profile_of (target : Anchor) (profile : pystr * access_mode) : P (option json) :=
  match profile.2 with
  | WORKSPACE_OPERATOR => Ret None
  | ACTOR_OWNED =>
      now ← clock;
      o ← store (DCenter (CUnlink profile.1 target now));
      _ ← (match o with DoCenter (CoUnit r) => check r | _ => Raise Broken end);
      Ret (Some (outcome_json (lit "profile") (lit "unlinked")))
  end.
Definition revoke_person_links (r : request) (an : Anchor) (key_hash : option pystr) : P request :=
  _ ← lift (require_fields ["subject"; "provider"] [] r);
  subject ← check (normalize_subject lower (item_of "subject" r));
  provider ← check (normalize_provider (item_of "provider" r) FILTER_PROVIDERS);
  let target := MkAnchor (issuer an) subject (organization_id an) (workspace_id an) in
  links ← look (list_active_links target provider);
  accs ← collect_each (unlink_account_of target) links.1;
  profs ← collect_each (unlink_profile_of target) links.2;
  let results := accs ++ omap id profs in
  let skipped := len (List.filter (λ p, bool_decide (p = None)) profs) in
  let response := [(lit "subject", JStr subject); (lit "provider", JStr provider);
                   (lit "unlinked", JInt (len results)); (lit "skipped_shared", JInt skipped);
                   (lit "results", JArr results)] in
  now ← clock;
  ref ← uuid4;
  command ← command_result_of key_hash response;
  o ← store (DAdmin ref an subject provider (len results) skipped now command);
  _ ← (match o with DoUnit r => check r | _ => Raise Broken end);
  Ret response.

(** ** The people directory *)

Definition declared_response (x : declared) : request :=
  [(lit "person_ref", JStr (de_person x)); (lit "handle_ref", JStr (de_handle_ref x));
   (lit "provider", JStr (de_provider x)); (lit "handle", JStr (de_handle x));
   (lit "source", JStr (lit "declared")); (lit "created", JBool (de_created x))].
Definition declare_handle (r : request) (an : Anchor) (key_hash : option pystr) : P request :=
  person_ref ← uuid4;
  handle_ref ← uuid4;
  now ← clock;
  command ← idempotency_command declared_response key_hash;
  o ← store (DDeclare person_ref handle_ref an r now command);
  match o with DoDeclared x => d ← check x; Ret (declared_response d) | _ => Raise Broken end.

Definition retracted_response (provider : pystr) (x : pystr * pystr) : request :=
  [(lit "retracted", JBool true); (lit "person_ref", JStr x.1); (lit "provider", JStr provider);
   (lit "handle", JStr x.2)].
Definition retract_handle (r : request) (an : Anchor) (key_hash : option pystr) : P request :=
  x ← check (read_retraction lower r);
  now ← clock;
  command ← idempotency_command (retracted_response x.1) key_hash;
  o ← store (DRetract an r now command);
  match o with DoRetracted y => p ← check y; Ret (retracted_response x.1 p) | _ => Raise Broken end.

Definition item_json (i : item) : json :=
  JObj [(lit "source", JStr (source i)); (lit "kind", JStr (it_kind i)); (lit "provider", JStr (it_provider i));
        text_field "handle" (it_handle i); text_field "external_subject" (it_external_subject i);
        (lit "status", JStr (it_status i)); (lit "updated_at", JInt (it_updated_at i))].
Definition entry_json (e : entry) : json :=
  JObj [text_field "person_ref" (en_person e); (lit "issuer", JStr (en_issuer e));
        text_field "subject" (en_subject e); text_field "mail" (en_mail e);
        text_field "display_name" (en_name e); (lit "accounts", JArr (map item_json (en_accounts e)))].
Definition find_people (r : request) (an : Anchor) : P request :=
  x ← look (_find_people lower casefold an r);
  found ← check x;
  Ret [(lit "people", JArr (map entry_json found.1)); (lit "truncated", JBool found.2)].

(** ** Authorization and leases *)

(** [_safe_resource] *)
Definition resource_part_ok (part : pystr) : bool :=
  negb (bool_decide (part = [])) && isalnum (List.filter (λ c, negb (bool_decide (c ∈ lit "-_."))) part).
Definition safe_resource (v : json) : result failure request :=
  r ← require_object "invalid_request" v;
  _ ← require_fields ["repository_id"; "repository"; "issue_number"] [] r;
  match item_of "repository_id" r, item_of "repository" r, item_of "issue_number" r with
  | JStr id, JStr repository, JInt n =>
      if negb (bool_decide (id = [])) && (len id <=? 100) && bool_decide (47%N ∈ repository)
         && (len repository <=? 200) && forallb resource_part_ok (split_slash repository) && (1 <=? n)
      then Ok r else Err (denied "invalid_request")
  | _, _, _ => Err (denied "invalid_request")
  end.
(** [_resource_json] *)
Definition resource_json (resource : request) : result failure pystr :=
  b ← canonical_json (JObj resource);
  match utf8_decode b with Some s => Ok s | None => Err Value_error end.

(** [_resource_scope_allowed] *)
Definition resource_scope_allowed (resource : request) (operation_id : pystr) : bool :=
  match cf_repository_allowlist cf with
  | None => true
  | Some allowed => bool_decide (context_text "repository_id" resource ∈ default [] (assoc operation_id allowed))
  end.

(** [_authorization_request]; the provider is GitHub. *)
Definition authorization_request (r : request) : result failure (pystr * pystr * request * pystr) :=
  _ ← require_fields ["account_ref"; "operation_id"; "resource"; "arguments_sha256"] [] r;
  ref ← uuid_text (item_of "account_ref" r);
  operation ← required_text "operation_id" 200 r;
  resource ← safe_resource (item_of "resource" r);
  digest ← sha256_text (item_of "arguments_sha256" r);
  Ok (ref, operation, resource, digest).

(** [_get_authorization] *)
Definition get_authorization (r : request) (an : Anchor) : P request :=
  x ← lift (authorization_request r);
  let '(ref, operation, resource, _) := x in
  row ← look_account (get_account ref an);
  let authorized := bool_decide (ac_status row = ACTIVE) && bool_decide (cr_status (ac_credential row) = READY)
                    && bool_decide (lk_provider (ac_link row) = GITHUB)
                    && bool_decide (operation ∈ PROVIDER_OPERATIONS) && resource_scope_allowed resource operation in
  Ret [(lit "authorized", JBool authorized); (lit "account_ref", JStr ref); (lit "provider", JStr (lit "github"))].

(** [_create_credential_lease] *)
Definition create_credential_lease (r : request) (an : Anchor) (context : request) : P request :=
  x ← lift (authorization_request r);
  let '(ref, operation, resource, digest) := x in
  _ ← demand (bool_decide (operation ∈ PROVIDER_OPERATIONS) && resource_scope_allowed resource operation)
        "authorization_denied";
  row ← look_account (get_account ref an);
  _ ← demand (bool_decide (ac_status row = ACTIVE) && bool_decide (lk_provider (ac_link row) = GITHUB))
        "authorization_denied";
  _ ← demand (bool_decide (cr_status (ac_credential row) = READY)) "credential_reauthentication_required";
  now ← clock;
  let expires := now + LEASE_TTL_SECONDS in
  binding ← lift (required_text "binding_id" 200 context);
  rj ← lift (resource_json resource);
  lease_ref ← uuid4;
  ref ← store_ref (ACreateLease lease_ref ref an binding (cf_github_provider_caller cf) operation rj digest expires);
  Ret [(lit "lease_ref", JStr ref); (lit "provider", JStr (lit "github")); (lit "operation_id", JStr operation);
       (lit "resource", JObj resource); (lit "arguments_sha256", JStr digest); (lit "expires_at", JInt expires)].

(** [_fresh_credential]: the stored credential, or the one that GitHub gives for
    its refresh token under a claim of the store. *)
Definition read_blob (account_ref : pystr) (a : account) : result failure OAuthCredential :=
  match cr_blob (ac_credential a) with
  | Some blob => decrypt_credential account_ref blob
  | None => Err Broken
  end.
Definition refresh_failed (account_ref claim_id : pystr) (x : failure) : P OAuthCredential :=
  _ ← store_unit (AFailRefresh (cf_instance cf) account_ref claim_id);
  Raise (denied match code_of x with
                | Some code => if bool_decide (code = lit "provider_unavailable")
                               then "credential_refresh_unknown" else "credential_refresh_rejected"
                | None => "credential_refresh_unknown"
                end).
Definition refresh_claimed (account_ref : pystr) (owner : Anchor) (claim_id : pystr) (revision : Z)
    (token : pystr) : P OAuthCredential :=
  r ← attempt (match cf_github cf with Some c => refresh lower c token | None => Raise Broken end);
  match r with
  | Err x => refresh_failed account_ref claim_id x
  | Ok fresh =>
      blob ← encrypt_credential account_ref fresh;
      _ ← store_unit (AFinishRefresh (cf_instance cf) account_ref owner claim_id revision blob
                        (expires_at fresh) (refresh_expires_at fresh));
      Ret fresh
  end.
Definition fresh_credential (account_ref : pystr) (a : account) : P OAuthCredential :=
  let owner := lk_anchor (ac_link a) in
  current ← look_account (get_account account_ref owner);
  let c := ac_credential current in
  _ ← demand (bool_decide (ac_status current = ACTIVE) && bool_decide (cr_status c = READY))
        "credential_reauthentication_required";
  now ← clock;
  match cr_expires_at c with
  | None => lift (read_blob account_ref current)
  | Some e =>
      if now + 30 <? e then lift (read_blob account_ref current) else
      old ← lift (read_blob account_ref current);
      claim_id ← uuid4;
      let claim := store_revision (AClaimRefresh (cf_instance cf) account_ref owner claim_id now) in
      let stale := match cr_refresh_expires_at c with Some e => e <=? now | None => false end in
      match refresh_token old with
      | Some ((_ :: _) as token) =>
          if stale
          then _ ← claim; _ ← store_unit (AFailRefresh (cf_instance cf) account_ref claim_id);
               Raise (denied "credential_reauthentication_required")
          else revision ← claim; refresh_claimed account_ref owner claim_id revision token
      | _ =>
          _ ← claim; _ ← store_unit (AFailRefresh (cf_instance cf) account_ref claim_id);
          Raise (denied "credential_reauthentication_required")
      end
  end.

(** [_redeem_credential_lease] *)
Definition redeem_credential_lease (r : request) (an : Anchor) (caller_id : pystr) (context : request) : P request :=
  _ ← lift (require_fields ["lease_ref"; "operation_id"; "resource"; "arguments_sha256"] [] r);
  _ ← demand (bool_decide (caller_id = cf_github_provider_caller cf)) "untrusted_caller";
  lease_ref ← lift (uuid_text (item_of "lease_ref" r));
  operation ← lift (required_text "operation_id" 200 r);
  _ ← demand (bool_decide (operation ∈ PROVIDER_OPERATIONS)) "lease_rejected";
  resource ← lift (safe_resource (item_of "resource" r));
  digest ← lift (sha256_text (item_of "arguments_sha256" r));
  binding ← lift (required_text "binding_id" 200 context);
  rj ← lift (resource_json resource);
  now ← clock;
  x ← store_redeem (ARedeem lease_ref an caller_id binding operation rj digest now);
  let '(account_ref, a, _) := x in
  c ← fresh_credential account_ref a;
  Ret [(lit "access_token", JStr (access_token c)); (lit "token_type", JStr (lit "Bearer"));
       (lit "external_subject", JStr (lk_stable_subject (ac_link a))); int_field "expires_at" (expires_at c)].

(** [_resolve_linked_sender] *)
Definition resolve_sender (r context : request) : P request :=
  _ ← lift (require_fields ["source_authority"; "bot_namespace"; "stable_subject"] [] r);
  authority ← lift (required_text "source_authority" 500 r);
  bot ← lift (required_text "bot_namespace" 200 r);
  subject ← lift (required_text "stable_subject" 500 r);
  _ ← demand (existsb (λ ks, bool_decide (ws_authority ks.2 = authority) && bool_decide (bot ∈ ws_bots ks.2))
                (cf_wecom_sources cf)) "source_not_found";
  row ← look (λ d, resolve_linked_sender authority bot subject (context_text "organization_id" context)
                     (base (center_tables d)));
  Ret (match row with
       | None => [(lit "linked", JBool false)]
       | Some (ref, a) =>
           let an := lk_anchor (ac_link a) in
           [(lit "linked", JBool true); (lit "account_ref", JStr ref); (lit "provider", JStr (lit "wecom"));
            (lit "issuer", JStr (issuer an)); (lit "subject", JStr (an_subject an));
            (lit "organization_id", JStr (organization_id an)); text_field "workspace_id" (workspace_id an)]
       end).

(** ** Recovery *)

(** [_recover_interrupted_callback_credentials] *)
Definition recover_callback (row : pystr * pybytes) : P () :=
  c ← attempt (lift (decrypt_credential (callback_data row.1) row.2));
  st ← (match c with
        | Ok c => match cf_github cf with Some _ => revoke_callback_token (access_token c) | None => Ret UNKNOWN end
        | Err x => match code_of x with Some _ => Ret UNKNOWN | None => Raise x end
        end);
  store_unit (AFailSession row.1 st).
(** [_recover_interrupted_unlink_results] *)
Definition recover_unlink (row : pystr * pystr) : P () :=
  blob ← encode_response row.2 (value_result (unlink_response "revocation_unknown"));
  store_unit (AFinalize row.1 row.2 blob).
(** [_recover_pending_idempotency_results] *)
Definition recover_command (key_hash : pystr) : P () :=
  blob ← encode_response key_hash (JObj [(lit "error", JStr (lit "idempotency_result_unknown"))]);
  store_unit (AComplete key_hash blob).

(** The store recovers when it is opened; then the plugin does. *)
Definition recover : P () :=
  now ← clock;
  _ ← store (DCenter (CRecover (cf_instance cf) now));
  callbacks ← look (λ d, interrupted_callback_credentials (base (center_tables d)));
  _ ← each recover_callback callbacks;
  unlinks ← look (λ d, interrupted_unlink_commands (base (center_tables d)));
  _ ← each recover_unlink unlinks;
  commands ← look (λ d, pending_idempotent_commands (base (center_tables d)));
  each recover_command commands.
End Handlers.
