(* ===== verification/AccountCall.v ===== *)
(** * Account center: the signed call

    [verify_context] of [account_center/security.py], and [call], [_dispatch] and
    [on_invoke] of [plugin.py]: who may call a method, that a signed request is
    taken once, and that an idempotent command runs once.  The methods for
    provider profiles, but one, are the argument [provider_method]; [str] of an
    array, an object or a float is [repr]. *)

From Stdlib Require Import ZArith NArith.
From S2P Require Import Prelude PyText Json Base64 Sha256 Programs AccountStore ProfileStore ProfileSessions ProfileMachine.
From S2P Require Import PeopleText PeopleStore PeopleDirectory PeopleFacts AccountPrograms AccountGithub AccountHandlers.

#[local] Open Scope Z_scope.

Definition CONTEXT_FIELDS : list string :=
  ["method"; "payload_sha256"; "caller_id"; "issuer"; "subject"; "organization_id"; "workspace_id"; "binding_id";
   "request_id"; "issued_at"; "expires_at"; "operation_id"].

Definition CAPABILITY_ID : pystr := lit "account.center.v1".
Definition REQUEST_TYPE_PREFIX : pystr := lit "type.googleapis.com/cyrene.account.center.v1.".
Definition MAX_REQUEST_BYTES : Z := 64 * 1024.

(** [METHODS], each with its contract name ([_action_type_name]). *)
Definition method_names : list (pystr * pystr) :=
  map (λ x, (lit x.1, lit x.2))
  [("begin_link", "BeginLink"); ("complete_github_link", "CompleteGitHubLink");
   ("observe_wecom_challenge", "ObserveWeComChallenge"); ("confirm_wecom_link", "ConfirmWeComLink");
   ("list_links", "ListLinks"); ("declare_account_handle", "DeclareAccountHandle");
   ("retract_account_handle", "RetractAccountHandle"); ("find_people", "FindPeople");
   ("revoke_person_links", "RevokePersonLinks"); ("get_authorization", "GetAuthorization"); ("unlink", "Unlink");
   ("create_credential_lease", "CreateCredentialLease"); ("redeem_credential_lease", "RedeemCredentialLease");
   ("resolve_linked_sender", "ResolveLinkedSender");
   ("link_github_app_installation", "LinkGitHubAppInstallation");
   ("link_huggingface_profile", "LinkHuggingFaceProfile");
   ("rotate_huggingface_profile", "RotateHuggingFaceProfile");
   ("begin_huggingface_renewal", "BeginHuggingFaceRenewal");
   ("poll_huggingface_renewal", "PollHuggingFaceRenewal");
   ("register_host_identity_profile", "RegisterHostIdentityProfile");
   ("list_provider_profiles", "ListProviderProfiles"); ("unlink_provider_profile", "UnlinkProviderProfile");
   ("create_provider_credential_lease", "CreateProviderCredentialLease");
   ("redeem_provider_credential_lease", "RedeemProviderCredentialLease");
   ("begin_microsoft_graph_link", "BeginMicrosoftGraphLink");
   ("complete_microsoft_graph_link", "CompleteMicrosoftGraphLink");
   ("begin_microsoft_graph_scope_upgrade", "BeginMicrosoftGraphScopeUpgrade");
   ("complete_microsoft_graph_scope_upgrade", "CompleteMicrosoftGraphScopeUpgrade");
   ("update_microsoft_graph_v2_scope", "UpdateMicrosoftGraphV2Scope");
   ("begin_azure_devops_link", "BeginAzureDevOpsLink"); ("complete_azure_devops_link", "CompleteAzureDevOpsLink");
   ("begin_bilibili_link", "BeginBilibiliLink"); ("complete_bilibili_link", "CompleteBilibiliLink")].
Definition METHODS : list pystr := method_names.*1.

Definition IDEMPOTENT_METHODS : list pystr :=
  map lit ["declare_account_handle"; "retract_account_handle"; "revoke_person_links"; "begin_link";
           "confirm_wecom_link"; "unlink"; "link_github_app_installation"; "link_huggingface_profile";
           "rotate_huggingface_profile"; "register_host_identity_profile"; "unlink_provider_profile";
           "begin_microsoft_graph_link"; "begin_microsoft_graph_scope_upgrade"; "update_microsoft_graph_v2_scope";
           "begin_azure_devops_link"; "begin_bilibili_link"; "complete_bilibili_link"].

(** [bytes.fromhex]: pairs of digits, with white space between them. *)
Definition hex_space (c : N) : bool := between 9 13 c || (c =? 32)%N.
Fixpoint fromhex (s : pystr) : option pybytes :=
  match s with
  | [] => Some []
  | c :: s' =>
      if hex_space c then fromhex s' else
      match s' with
      | [] => None
      | d :: s'' =>
          match hex_value c, hex_value d, fromhex s'' with
          | Some h, Some l, Some bs => Some ((16 * h + l)%N :: bs)
          | _, _, _ => None
          end
      end
  end.

(** [{*names} == set(d)] *)
Definition has_exactly (names : list string) (d : request) : bool :=
  forallb (λ k, bool_decide (lit k ∈ d.*1)) names && forallb (λ k, bool_decide (k ∈ map lit names)) d.*1.

Inductive invocation := Answered (type_url : pystr) (value : pybytes) | Refused (text : pystr).

Section Call.
Context (lower casefold : pystr → pystr) (isalnum : pystr → bool) (repr : json → pystr).
Context (canonical_ok : json → bool) (canonical : json → pybytes).
Context (aes_encrypt : pybytes → pybytes → pybytes → pybytes → pybytes)
  (aes_decrypt : pybytes → pybytes → pybytes → pybytes → option pybytes).
Context (cf : config).
Context (provider_method : pystr → request → Anchor → pystr → request → option pystr → P request).

Abbreviation canonical_json := (canonical_json canonical_ok canonical).
Abbreviation payload_digest := (payload_digest canonical_ok canonical).
Abbreviation encode_response := (encode_response canonical_ok canonical aes_encrypt (cf_encryption_key cf)).
Abbreviation decode_response := (decode_response aes_decrypt (cf_encryption_key cf)).

(** [str(value)] *)
Definition py_str (v : json) : pystr :=
  match v with
  | JStr s => s
  | JInt z => str_of_Z z
  | JNull => lit "None"
  | JBool b => if b then lit "True" else lit "False"
  | _ => repr v
  end.

(** ** Contexts *)

(** [context_signed_bytes] *)
Definition signed_fields (context : request) : list (pystr * json) :=
  map (λ k, (lit k, item_of k context)) CONTEXT_FIELDS.
Definition context_signed_bytes (method : pystr) (context : request) : result failure pybytes :=
  match item_of "method" context with
  | JStr m => if bool_decide (m = method) then canonical_json (JObj (signed_fields context))
              else Err (denied "untrusted_caller")
  | _ => Err (denied "untrusted_caller")
  end.

Definition untrusted (b : bool) : result failure () := if b then Err (denied "untrusted_caller") else Ok ().

(** The caller's key and the validity of a context. *)
Definition caller_key (context : request) : result failure pybytes :=
  match item_of "caller_id" context with
  | JStr c => match assoc c (cf_caller_keys cf) with Some k => Ok k | None => Err (denied "untrusted_caller") end
  | _ => Err (denied "untrusted_caller")
  end.
Definition fresh (now : Z) (context : request) : bool :=
  match item_of "issued_at" context, item_of "expires_at" context with
  | JInt i, JInt e => negb ((now + 30 <? i) || (e <=? now) || (e <=? i) || (300 <? e - i))
  | _, _ => false
  end.
Definition nonempty_text (v : json) : bool := match v with JStr (_ :: _) => true | _ => false end.

(** [verify_context]; [compare_digest] raises [TypeError] on a text that is not
    ASCII. *)
Definition verify_context (method : pystr) (payload context : request) (now : Z) : result failure Anchor :=
  _ ← untrusted (negb (has_exactly (CONTEXT_FIELDS ++ ["signature"]) context));
  key ← caller_key context;
  _ ← untrusted (negb (fresh now context));
  expected ← payload_digest payload;
  let given := py_str (item_of "payload_sha256" context) in
  _ ← (if is_ascii given then untrusted (negb (bool_decide (given = expected))) else Err Broken);
  supplied ← (match fromhex (py_str (item_of "signature" context)) with
              | Some b => Ok b
              | None => Err (denied "untrusted_caller")
              end);
  signed ← context_signed_bytes method context;
  _ ← untrusted (negb (bool_decide (supplied = hmac_sha256 key signed)));
  _ ← untrusted (negb (forallb (λ k, nonempty_text (item_of k context))
                         ["caller_id"; "issuer"; "subject"; "organization_id"; "binding_id"; "request_id";
                          "operation_id"]));
  workspace ← (match item_of "workspace_id" context with
               | JNull => Ok None
               | JStr (c :: w) => Ok (Some (c :: w))
               | _ => Err (denied "untrusted_caller")
               end);
  Ok (MkAnchor (context_text "issuer" context) (context_text "subject" context)
        (context_text "organization_id" context) workspace).

(** ** Commands *)

(** [_idempotency_key] *)
Definition idempotency_key (r : request) : result failure pystr :=
  s ← required_text "idempotency_key" 200 r;
  if bool_decide (strip s = s) && forallb (λ c, (33 <=? c)%N && negb (c =? 127)%N) s then Ok s
  else Err (denied "invalid_request").

(** [_idempotency_scope_hash] *)
Definition scope_json (method : pystr) (an : Anchor) (key : pystr) : json :=
  JObj [(lit "method", JStr method); (lit "issuer", JStr (issuer an)); (lit "subject", JStr (an_subject an));
        (lit "organization_id", JStr (organization_id an)); text_field "workspace_id" (workspace_id an);
        (lit "idempotency_key", JStr key)].
Definition idempotency_scope_hash (method : pystr) (an : Anchor) (key : pystr) : result failure pystr :=
  b ← canonical_json (scope_json method an key); Ok (sha256_hex b).

(** [body.pop("idempotency_key")] *)
Definition command_body (r : request) : request :=
  List.filter (λ kv, negb (bool_decide (kv.1 = lit "idempotency_key"))) r.

(** [_dispatch] *)
Definition dispatch (method : pystr) (r : request) (an : Anchor) (caller_id : pystr) (context : request)
    (key_hash : option pystr) : P request :=
  let named name := bool_decide (method = lit name) in
  if named "begin_link" then begin_link canonical_ok canonical aes_encrypt cf r an key_hash else
  if named "complete_github_link" then complete_github_link lower canonical_ok canonical aes_encrypt aes_decrypt cf r else
  if named "observe_wecom_challenge" then observe_wecom_challenge cf r context else
  if named "confirm_wecom_link" then confirm_wecom_link canonical_ok canonical aes_encrypt cf r an key_hash else
  if named "list_links" then list_links r an else
  if named "declare_account_handle" then declare_handle canonical aes_encrypt cf r an key_hash else
  if named "retract_account_handle" then retract_handle lower canonical aes_encrypt cf r an key_hash else
  if named "find_people" then find_people lower casefold r an else
  if named "revoke_person_links"
  then revoke_person_links lower canonical_ok canonical aes_encrypt aes_decrypt cf r an key_hash else
  if named "get_authorization" then get_authorization isalnum cf r an else
  if named "unlink" then unlink canonical_ok canonical aes_encrypt aes_decrypt cf r an key_hash else
  if named "create_credential_lease" then create_credential_lease isalnum canonical_ok canonical cf r an context else
  if named "redeem_credential_lease"
  then redeem_credential_lease lower isalnum canonical_ok canonical aes_encrypt aes_decrypt cf r an caller_id context else
  if named "resolve_linked_sender" then resolve_sender cf r context else
  if named "unlink_provider_profile" then unlink_provider_profile r an else
  provider_method method r an caller_id context key_hash.

(** The end of a command that failed: what is recorded, and what is raised. *)
Definition command_failed (key_hash : pystr) (x : failure) : P request :=
  let code := default (lit "execution_failed") (code_of x) in
  blob ← encode_response key_hash (JObj [(lit "error", JStr code)]);
  _ ← store_unit (AComplete key_hash blob);
  Raise (match code_of x with Some _ => x | None => Denied code end).

Definition run_command (method : pystr) (r : request) (an : Anchor) (caller_id : pystr) (context : request)
  : P request :=
  key ← lift (idempotency_key r);
  let body := command_body r in
  key_hash ← lift (idempotency_scope_hash method an key);
  digest ← lift (payload_digest body);
  now ← clock;
  recorded ← store_begin (ABegin key_hash method digest now);
  match recorded with
  | Some blob => lift (decode_response key_hash blob)
  | None => catch (dispatch method body an caller_id context (Some key_hash)) (λ x, Some (command_failed key_hash x))
  end.

(** [call] *)
Definition call (method : pystr) (r context : request) : P request :=
  _ ← demand (bool_decide (method ∈ METHODS)) "method_not_found";
  now ← clock;
  an ← lift (verify_context method r context now);
  let caller_id := context_text "caller_id" context in
  _ ← demand (bool_decide (context_text "binding_id" context = cf_binding_id cf)) "untrusted_caller";
  _ ← demand (bool_decide (caller_id ∈ default [] (assoc method (cf_method_callers cf)))) "untrusted_caller";
  _ ← demand (negb (bool_decide (method = lit "resolve_linked_sender"))
              || bool_decide (caller_id = cf_exchange_caller cf)) "untrusted_caller";
  _ ← store_unit (AConsume (context_text "request_id" context)
                    (match item_of "expires_at" context with JInt e => e | _ => 0 end));
  _ ← demand (bool_decide (context_text "operation_id" context = method)) "untrusted_caller";
  if bool_decide (method ∈ IDEMPOTENT_METHODS) then run_command method r an caller_id context
  else dispatch method r an caller_id context None.

(** ** The capability *)

Definition action_type_name (action suffix : pystr) : pystr := default [] (assoc action method_names) ++ suffix.
Definition response_name (action : pystr) : pystr :=
  if bool_decide (action = lit "begin_bilibili_link") then lit "BilibiliLinkSession"
  else if bool_decide (action = lit "complete_bilibili_link") then lit "LinkedProviderProfileResponse"
  else action_type_name action (lit "Response").

(** The [try] block of [on_invoke]. *)
Definition invoke_body (action : pystr) (payload : pybytes) : P invocation :=
  text ← lift (match utf8_decode payload with Some t => Ok t | None => Err Value_error end);
  envelope ← lift (match loads_with reject_duplicate_pairs text with Some v => Ok v | None => Err Value_error end);
  kvs ← lift (require_object "invalid_request" envelope);
  _ ← demand (has_exactly ["payload"; "trusted_context"] kvs) "invalid_request";
  r ← lift (require_object "invalid_request" (item_of "payload" kvs));
  context ← lift (require_object "untrusted_caller" (item_of "trusted_context" kvs));
  result ← call action r context;
  value ← lift (canonical_json (JObj result));
  Ret (Answered (REQUEST_TYPE_PREFIX ++ response_name action) value).

Definition failure_text (x : failure) : pystr :=
  match code_of x with
  | Some code => lit "PERMISSION_DENIED: " ++ code
  | None =>
      match x with
      | Value_error => lit "INVALID_REQUEST: request rejected"
      | _ => lit "EXECUTION_FAILED: account operation failed"
      end
  end.

(** [on_invoke] *)
Definition on_invoke (capability action : pystr) (payload : pybytes) (request_type_url : option pystr) : P invocation :=
  if negb (bool_decide (capability = CAPABILITY_ID) && bool_decide (action ∈ METHODS))
  then Ret (Refused (lit "METHOD_NOT_FOUND: capability method unavailable"))
  else if match request_type_url with
          | Some u => negb (bool_decide (u = REQUEST_TYPE_PREFIX ++ action_type_name action (lit "Request")))
          | None => false
          end
  then Ret (Refused (lit "INVALID_REQUEST: request contract mismatch"))
  else if MAX_REQUEST_BYTES <? len payload
  then Ret (Refused (lit "INVALID_REQUEST: request too large"))
  else catch (invoke_body action payload) (λ x, Some (Ret (Refused (failure_text x)))).
End Call.
