(* ===== verification/CallEvents.v ===== *)
(** * Account center: events and the store

    What an event does to the store, and what the operations on people and links
    do to the tables of accounts: none but that of commands. *)

From Stdlib Require Import ZArith NArith.
From S2P Require Import Prelude PyText Json Programs AccountStore AccountFacts ProfileStore ProfileSessions ProfileMachine ProfileFacts.
From S2P Require Import PeopleText PeopleStore PeopleDirectory PeopleFacts AccountPrograms.

#[local] Open Scope Z_scope.

Definition store_event (ev : event effect) : option (directory_op * option directory_out) :=
  match ev with
  | Event e b => match e in effect B return B → _ with Store op => λ o, Some (op, o) | _ => λ _, None end b
  end.

Definition tables (d : directory) : account_db := base (center_tables d).

Lemma happens_store lower ev d d' :
  happens lower ev d d' →
  match store_event ev with
  | Some (op, Some out) => directory_step lower op d = (out, d')
  | Some (op, None) => d' = d ∨ d' = (directory_step lower op d).2
  | None => d' = d
  end.
Proof. destruct ev as [B e b]. destruct e; cbn; try done. by intros [_ ->]. Qed.

(** ** Results of commands *)

Lemma command_result_tables r d d' :
  command_result r d = Ok d' →
  ∃ m, d' = with_commands m d
    ∧ match r with
      | Some (k, b) => ∃ c, command_idempotency d !! k = Some c ∧ co_completed c = false
                            ∧ m = <[k := finish_command b c]> (command_idempotency d)
      | None => m = command_idempotency d
      end.
Proof.
  destruct r as [[k b]|]; cbn.
  - unfold complete_command, update_one. intros H. inv_result. eexists. split; [reflexivity|].
    repeat case_match; inv_result. bools. eauto.
  - intros [= <-]. eexists. split; [|reflexivity]. by destruct d.
Qed.

(** The result that a successful operation recorded, by the key of its command. *)
Definition account_record (op : account_op) (out : account_out) : option (pystr * pybytes) :=
  match op, out with
  | AComplete k b, AoUnit (Ok _) => Some (k, b)
  | ACreateSession _ _ _ _ _ _ _ _ _ r, AoRef (Ok _) => r
  | ACompleteWecom _ _ _ _ _ _ r, AoRef (Ok _) => r
  | AUnlink _ _ _ _ r _ _, AoUnlink (Ok _) => r
  | ASetRevocation _ _ _ r, AoUnit (Ok _) => r
  | _, _ => None
  end.
Definition directory_record (op : directory_op) (out : directory_out) : option (pystr * pybytes) :=
  match op, out with
  | DCenter (CBase op), DoCenter (CoBase out) => account_record op out
  | DDeclare _ _ _ _ _ command, DoDeclared (Ok x) => (λ '(k, encode), (k, encode x)) <$> command
  | DRetract _ _ _ command, DoRetracted (Ok x) => (λ '(k, encode), (k, encode x)) <$> command
  | DAdmin _ _ _ _ _ _ _ command, DoUnit (Ok _) => command
  | _, _ => None
  end.

Lemma record_result_ok command d d' : record_result command d = Ok d' → command_result command (tables d) = Ok (tables d').
Proof. unfold record_result. intros H. by inv_result. Qed.

Ltac recorded_ok := match goal with Hr : record_result _ _ = Ok _ |- _ => exact (record_result_ok _ _ _ Hr) end.

(** The operations on people and links touch no other table of the accounts. *)
Lemma directory_recorded lower op d :
  match op with
  | DCenter op => tables (directory_step lower (DCenter op) d).2 = base (center_step op (center_tables d)).2
  | _ =>
      let '(out, d') := directory_step lower op d in
      command_result (directory_record op out) (tables d) = Ok (tables d')
  end.
Proof.
  destruct op; cbn [directory_step]; unfold on_fst.
  - by destruct (center_step _ _).
  - unfold _declare_account_handle. destruct (read_declaration lower r) as [[[[[? ?] ?] ?] [? ?]]|]; [|done].
    unfold declare_account_handle. destruct (transact _ d) as [out d1] eqn:H.
    apply transact_cases in H as [(x & -> & H)|(x & -> & -> & _)]; [|done]. cbn.
    inv_result. repeat case_match; inv_result; recorded_ok.
  - unfold _retract_account_handle. destruct (read_retraction lower r) as [[? [? ?]]|]; [|done].
    unfold retract_account_handle. destruct (transact _ d) as [out d1] eqn:H.
    apply transact_cases in H as [(x & -> & H)|(x & -> & -> & _)]; [|done]. cbn.
    repeat case_match; try done. inv_result. recorded_ok.
  - unfold record_admin_action. destruct (transact _ d) as [out d1] eqn:H.
    apply transact_cases in H as [(x & -> & H)|(x & -> & -> & _)]; [|done]. cbn.
    inv_result. recorded_ok.
Qed.

Lemma directory_tables lower op d :
  match op with
  | DCenter op => tables (directory_step lower (DCenter op) d).2 = base (center_step op (center_tables d)).2
  | _ => ∃ m, tables (directory_step lower op d).2 = with_commands m (tables d)
  end.
Proof.
  pose proof (directory_recorded lower op d) as H. destruct op; [done|..];
    destruct (directory_step _ _ d) as [out d']; apply command_result_tables in H as (m & Hm & _); by exists m.
Qed.

(** Only these operations prune. *)
Lemma account_ops_prune op c now : APrune now ∈ account_ops op c → prune_time op = Some now.
Proof.
  destruct op; cbn [account_ops]; try (by intros ?%elem_of_nil); repeat case_match; subst;
    try (by intros ?%elem_of_nil); intros H%list_elem_of_In; destruct H as [H|[]]; by simplify_eq.
Qed.

(** ** Runs of a handler *)

Lemma traces_demand {A} b code (p : P A) tr o :
  traces (pbind (demand b code) (λ _, p)) tr o →
  (b = true ∧ traces p tr o) ∨ (tr = [] ∧ (o = None ∨ o = Some (Err (denied code)))).
Proof. destruct b; cbn; [auto|]. destruct tr; cbn; [|done]. intros; right; naive_solver. Qed.

Lemma traces_lift {A B} (x : result failure B) (f : B → P A) tr o :
  traces (pbind (lift x) f) tr o →
  (∃ b, x = Ok b ∧ traces (f b) tr o) ∨ (tr = [] ∧ ∃ e, x = Err e ∧ (o = None ∨ o = Some (Err e))).
Proof. destruct x as [b|e]; cbn; [left; eauto|]. destruct tr; cbn; [|done]. intros; right; split; [done|]. exists e. naive_solver. Qed.

(** A run that stops here, without an answer. *)
Definition ended {A} (tr : list (event effect)) (o : option (result failure A)) : Prop := tr = [] ∧ ∀ a, o ≠ Some (Ok a).

Lemma events_in {E} i (ev : event E) log : ev ∈ events_of i log → (i, ev) ∈ log.
Proof.
  unfold events_of. intros ([j ev'] & -> & Hin)%list_elem_of_fmap. apply list_elem_of_In, List.filter_In in Hin as [Hin Hj].
  bools. cbn in *. subst. by apply list_elem_of_In.
Qed.
