(* ===== verification/CallCustody.v ===== *)
(** * Account center: minted tokens stay in custody

    What the laws of the two libraries give the plugin ([Crypto]: authenticated
    encryption and canonical JSON), and what becomes of a token that GitHub mints
    for a callback: it is stored for its owner or revoked, on every branch. *)

From Stdlib Require Import ZArith NArith.
From S2P Require Import Prelude PyText Json Programs AccountStore ProfileStore ProfileSessions ProfileMachine.
From S2P Require Import PeopleText PeopleStore PeopleDirectory PeopleFacts AccountPrograms AccountGithub AccountHandlers.

#[local] Open Scope Z_scope.

#[export] Instance credential_eq_dec : EqDecision OAuthCredential.
Proof. solve_decision. Defined.
#[export] Instance failure_eq_dec : EqDecision failure.
Proof. solve_decision. Defined.

(** ** What the libraries promise *)

(** AES-GCM gives back what was sealed with the same nonce and data; RFC 8785 is
    JSON in UTF-8 that parses to the value, up to the order of keys, and has the
    same bytes for the value it parses to. *)
Class Crypto (canonical_ok : json → bool) (canonical : json → pybytes)
    (aes_encrypt : pybytes → pybytes → pybytes → pybytes → pybytes)
    (aes_decrypt : pybytes → pybytes → pybytes → pybytes → option pybytes) := {
  parsed : json → json;
  aes_opens k n m ad : aes_decrypt k n (aes_encrypt k n m ad) ad = Some m;
  canonical_parses hook v :
    (∀ kvs, NoDup kvs.*1 → hook kvs = Some (JObj kvs)) → canonical_ok v = true →
    (s ← utf8_decode (canonical v); loads_with hook s) = Some (parsed v);
  parsed_canonical v : canonical_ok v = true → canonical_ok (parsed v) = true ∧ canonical (parsed v) = canonical v;
  parsed_object kvs :
    ∃ kvs', parsed (JObj kvs) = JObj kvs' ∧ kvs' ≡ₚ map (λ kv, (kv.1, parsed kv.2)) kvs;
  parsed_text s : parsed (JStr s) = JStr s;
  parsed_int z : parsed (JInt z) = JInt z;
  parsed_null : parsed JNull = JNull
}.

Section Custody.
Context (lower : pystr → pystr).
Context (canonical_ok : json → bool) (canonical : json → pybytes).
Context (aes_encrypt : pybytes → pybytes → pybytes → pybytes → pybytes)
  (aes_decrypt : pybytes → pybytes → pybytes → pybytes → option pybytes).
Context `{!Crypto canonical_ok canonical aes_encrypt aes_decrypt}.
Context (cf : config).

Lemma decrypt_sealed key nonce clear ad :
  length nonce = 12%nat → decrypt aes_decrypt key (seal aes_encrypt key nonce clear ad) ad = Ok clear.
Proof.
  intros Hn. unfold decrypt, seal. rewrite take_app_length', drop_app_length' by done. by rewrite aes_opens.
Qed.

Lemma dict_hook_ok kvs : NoDup kvs.*1 → dict_hook kvs = Some (JObj kvs).
Proof. intros. unfold dict_hook. by rewrite dict_of_pairs_nodup. Qed.

Lemma assoc_parsed k kvs : assoc k (map (λ kv, (kv.1, parsed kv.2)) kvs) = parsed <$> assoc k kvs.
Proof. induction kvs as [|[k' v] kvs IH]; cbn; [done|]. by case_decide. Qed.

(** The fields of a parsed object. *)
Lemma parsed_fields kvs :
  NoDup kvs.*1 →
  ∃ kvs', parsed (JObj kvs) = JObj kvs' ∧ ∀ k, assoc k kvs' = parsed <$> assoc k kvs.
Proof.
  intros Hn. destruct (parsed_object kvs) as (kvs' & -> & Hp). exists kvs'. split; [done|].
  intros k. rewrite <- assoc_parsed. symmetry. apply assoc_perm; [|done].
  replace ((map (λ kv, (kv.1, parsed kv.2)) kvs).*1) with kvs.*1; [done|].
  clear. induction kvs as [|kv kvs IH]; cbn; [done|by rewrite IH].
Qed.

Lemma optional_text_parsed o :
  optional_text (Some (parsed match o with Some s => JStr s | None => JNull end)) = Some o.
Proof. destruct o; cbn; by rewrite ?parsed_text, ?parsed_null. Qed.
Lemma optional_int_parsed o :
  optional_int (Some (parsed match o with Some s => JInt s | None => JNull end)) = Some o.
Proof. destruct o; cbn; by rewrite ?parsed_int, ?parsed_null. Qed.

Definition credential_fields (c : OAuthCredential) : request :=
  match credential_json c with JObj kvs => kvs | _ => [] end.
Lemma credential_keys c : NoDup (credential_fields c).*1.
Proof. apply (bool_decide_unpack _). by vm_compute. Qed.

(** What is encrypted for an account is read back for it. *)
Lemma decrypt_encrypted key ref nonce c ad :
  length nonce = 12%nat → access_token c ≠ [] → canonical_ok (credential_json c) = true → utf8_encode ref = Some ad →
  decrypt_credential aes_decrypt key ref (seal aes_encrypt key nonce (canonical (credential_json c)) ad) = Ok c.
Proof.
  intros Hn Hc Hok Had. unfold decrypt_credential, encoded. rewrite Had. cbn [mbind result_bind].
  rewrite decrypt_sealed by done. cbn [mbind result_bind]. unfold loads.
  rewrite (canonical_parses dict_hook _ dict_hook_ok Hok). unfold credential_of_json.
  change (credential_json c) with (JObj (credential_fields c)) in *.
  destruct (parsed_fields _ (credential_keys c)) as (kvs' & -> & Hf).
  rewrite !Hf.
  change (assoc (lit "access_token") (credential_fields c)) with (Some (JStr (access_token c))).
  change (assoc (lit "refresh_token") (credential_fields c))
    with (Some (match refresh_token c with Some s => JStr s | None => JNull end)).
  change (assoc (lit "expires_at") (credential_fields c))
    with (Some (match expires_at c with Some z => JInt z | None => JNull end)).
  change (assoc (lit "refresh_expires_at") (credential_fields c))
    with (Some (match refresh_expires_at c with Some z => JInt z | None => JNull end)).
  cbn [fmap option_fmap option_map]. rewrite parsed_text, optional_text_parsed, !optional_int_parsed.
  destruct c as [[|x t] rt e re]; [done|reflexivity].
Qed.

(** ** Custody of a minted token

    [Minted]: GitHub answered with a token, whose lifetime is about to be read;
    [Held]: the plugin has a credential that is neither stored nor revoked.  Two
    ways to lose one are known to the monitor: a credential that has no canonical
    JSON, and an exception that [urllib] does not wrap. *)
Inductive custody :=
  | Nothing | Minted (v : request) | Held (c : OAuthCredential) | Stored (c : OAuthCredential) | Revoked | Lost.

Definition custody_step {B} (e : effect B) (st : custody) : B → option custody :=
  match e in effect B return B → option custody with
  | Github (Access_token _) => λ r,
      match st, read_json r with Nothing, Ok v => Some (Minted v) | Nothing, Err _ => Some Nothing | _, _ => None end
  | Clock => λ now,
      Some match st with
           | Minted v =>
               match _credential lower now true v with
               | Ok c => if canonical_ok (credential_json c) then Held c else Lost
               | Err (Against_policy c) => Held c
               | Err _ => Nothing
               end
           | _ => st
           end
  | Github (Get_user _) => λ r, Some match st, r with Held _, Crashed => Lost | _, _ => st end
  | Github (Delete_grant t) => λ _,
      Some match st with Held c => if bool_decide (t = access_token c) then Revoked else st | _ => st end
  | Store (DCenter (CBase (AInsert ref _ (Some blob) _ _ _ _))) => λ out,
      Some match st, out with
           | Held c, Some (DoCenter (CoBase (AoRef (Ok _)))) =>
               if bool_decide (decrypt_credential aes_decrypt (cf_encryption_key cf) ref blob = Ok c) then Stored c else st
           | _, _ => st
           end
  | _ => λ _, Some st
  end.
Definition custody_watch (st : custody) (ev : event effect) : option custody :=
  match ev with Event e b => custody_step e st b end.

(** What the environment is: [os.urandom(n)] gives [n] bytes, identifiers have an
    encoding, and the store answers as it does in some state. *)
Definition encodable (s : pystr) : Prop := is_Some (utf8_encode s).
Definition sensible (ev : event effect) : Prop :=
  match ev with
  | Event e b =>
      match e in effect B return B → Prop with
      | Urandom n => λ b, length b = n
      | Uuid => encodable
      | Store op => λ o,
          match o with
          | Some out =>
              (∃ d, (directory_step lower op d).1 = out)
              ∧ match out with DoCenter (CoBase (AoSession (Ok (ref, _)))) => encodable ref | _ => True end
          | None => True
          end
      | _ => λ _, True
      end b
  end.

Abbreviation guarded := (wp sensible custody_watch).

(** Programs that mint nothing. *)
Definition mintless (B : Type) (e : effect B) : bool :=
  match e with Github (Access_token _) => false | _ => true end.
Definition settled (st : custody) : Prop := st = Nothing ∨ st = Revoked ∨ st = Lost.

Lemma wp_settled {A} (p : P A) st (Q : custody → result failure A → Prop) :
  settled st → only mintless p → (∀ r, Q st r) → guarded p st Q.
Proof.
  intros Hs Hp HQ. eapply wp_only; [exact Hp| |exact HQ]. intros B e b He.
  destruct e as [| | |op| |[]]; cbn in *; try done; destruct Hs as [-> |[-> | ->]]; try done.
  all: destruct op as [[op| | | | | | | | | | | | | | | | | | | | | | | | | | | | ]| | |]; try done; destruct op; try done;
    by destruct blob.
Qed.

Context (cl : client) (uri : pystr) (Hgithub : cf_github cf = Some cl) (Huri : cf_callback_uri cf = Some uri).

Definition failed {A} (st : custody) (r : result failure A) : Prop := settled st ∧ ∃ x, r = Err x.

Lemma settled_revoked : settled Revoked.
Proof. right. by left. Qed.

Ltac mintless_rules :=
  repeat first
    [ progress (unfold mbind, prog_bind, store_unit, store_ref, store_session, base_store, store, look, look_account,
        check, demand, clock, uuid4, urandom, github, encrypt, encrypt_credential, revoke_callback_token, revoke_grant,
        revoke)
    | progress only_rules ].

(** The clauses that end a callback. *)
Definition carried (got : option OAuthCredential) (x : failure) : option OAuthCredential :=
  match x with Unverified c | Against_policy c | Unpersisted c => Some c | _ => got end.

Lemma wp_revoke c (Q : custody → result failure revocation → Prop) :
  (∀ o, Q Revoked (Ok o)) → guarded (revoke_callback_token cf (access_token c)) (Held c) Q.
Proof.
  intros HQ. unfold revoke_callback_token, revoke_grant, mbind, prog_bind. rewrite Hgithub.
  apply wp_bind, wp_attempt. unfold revoke. cbn. intros r _. rewrite bool_decide_true by done.
  destruct r as [n ? ?| | |]; cbn; try apply HQ. repeat case_match; apply HQ.
Qed.

Lemma wp_close_session ref (p : P revocation) x st :
  guarded p st (λ st' r, settled st') →
  guarded (pbind p (λ o, pbind (store_unit (AFailSession ref o)) (λ _, Raise (A := request) x))) st failed.
Proof.
  intros H. apply wp_bind. eapply wp_mono; [exact H|]. intros st' [o|e] Hs; [|split; eauto].
  apply wp_bind, wp_settled; [done|mintless_rules|]. intros [[]|e]; split; eauto.
Qed.

Lemma wp_failed got ref x st :
  settled st ∨ (∃ c, st = Held c ∧ carried got x = Some c) → guarded (callback_failed cf ref got x) st failed.
Proof.
  intros [Hs|(c & -> & Hc)].
  - assert (Hrev : ∀ t, guarded (revoke_callback_token cf t) st (λ st' _, settled st')).
    { intros t. apply wp_settled; [done|mintless_rules|done]. }
    unfold callback_failed, mbind, prog_bind; destruct x; apply wp_close_session; try apply Hrev; destruct got;
      try apply Hrev; exact Hs.
  - assert (Hrev : guarded (revoke_callback_token cf (access_token c)) (Held c) (λ st' _, settled st'))
      by (apply wp_revoke; intros; apply settled_revoked).
    unfold callback_failed, mbind, prog_bind; destruct x; cbn in Hc; simplify_eq; apply wp_close_session; exact Hrev.
Qed.

Lemma credential_token now v c : _credential lower now true v = Ok c → access_token c ≠ [].
Proof.
  unfold _credential. intros H. inv_result. repeat case_match; inv_result; simplify_eq; done.
Qed.

Lemma encodable_app a b : encodable a → encodable b → encodable (a ++ b).
Proof. intros [x Hx] [y Hy]. exists (x ++ y). rewrite utf8_encode_app, Hx. cbn. by rewrite Hy. Qed.
Lemma callback_encodable ref : encodable ref → encodable (callback_data ref).
Proof. intros. apply encodable_app; [|done]. exists (lit "oauth-callback:"). by vm_compute. Qed.

(** Sealing a credential for a reference. *)
Lemma wp_encrypt ref c st Q :
  (∀ v, st ≠ Minted v) → encodable ref → canonical_ok (credential_json c) = true →
  (∀ nonce ad, length nonce = 12%nat → utf8_encode ref = Some ad →
     Q st (Ok (seal aes_encrypt (cf_encryption_key cf) nonce (canonical (credential_json c)) ad))) →
  guarded (encrypt_credential canonical_ok canonical aes_encrypt (cf_encryption_key cf) ref c) st Q.
Proof.
  intros Hst [ad Had] Hok HQ. unfold encrypt_credential, encoded, canonical_json, encrypt, mbind, prog_bind.
  rewrite Had, Hok. cbn. intros nonce Hn. by apply HQ.
Qed.

Lemma wp_persist ref c :
  encodable ref → canonical_ok (credential_json c) = true →
  guarded (persist_callback_credential canonical_ok canonical aes_encrypt cf ref c) (Held c)
    (λ st r, st = Held c ∧ (r = Ok () ∨ r = Err (Unpersisted c))).
Proof.
  intros Href Hok. unfold persist_callback_credential, mbind, prog_bind. apply wp_bind, wp_encrypt; [done| |done|].
  - by apply callback_encodable.
  - intros nonce ad _ _. apply wp_catch. cbn. intros [out|]; [|cbn; auto]. intros [Hans _].
    destruct Hans as [d <-]. cbn. destruct (save_pending_callback_credential _ _ _).1 as [[]|e]; cbn; auto.
Qed.

Lemma wp_exchange code verifier ref :
  encodable ref →
  guarded (exchange_code lower cl code uri verifier (persist_callback_credential canonical_ok canonical aes_encrypt cf ref))
    Nothing
    (λ st r, match r with
             | Ok (c, _) => st = Held c ∧ canonical_ok (credential_json c) = true ∧ access_token c ≠ []
             | Err x => settled st ∨ ∃ c, st = Held c ∧ carried None x = Some c
             end).
Proof.
  intros Href. assert (Hn : settled Nothing) by by left. assert (Hl : settled Lost) by (right; by right).
  unfold exchange_code, oauth_post, mbind, prog_bind.
  apply wp_bind. unfold demand. destruct (verifier_ok verifier); cbn [wp]; [|by left].
  apply wp_bind, wp_bind, wp_lift.
  match goal with |- context [urlencode ?form] => destruct (urlencode form) as [data|x] end; [|by left].
  cbn. intros rep _.
  destruct (read_json rep) as [v|x]; cbn; [|by left]. intros now _. apply wp_bind, wp_lift.
  destruct (_credential lower now true v) as [c|x] eqn:Hc; cbn.
  2:{ destruct x; try by left. right. by eexists. }
  apply credential_token in Hc. destruct (canonical_ok (credential_json c)) eqn:Hok.
  - apply wp_bind. eapply wp_mono; [by apply wp_persist|]. intros st r [-> [-> | ->]]; [|right; by eexists].
    cbn. intros user _. apply wp_bind, wp_lift.
    destruct (read_json user) as [kvs|x] eqn:Hu.
    + destruct user; try done. match goal with |- context [assoc ?k kvs] => destruct (assoc k kvs) as [[]|] end;
        try case_match; first [done | right; by eexists].
    + destruct user; cbn in Hu; simplify_eq; try (right; by eexists); try by left.
      repeat case_match; simplify_eq; right; by eexists.
  - apply wp_bind. unfold persist_callback_credential, encrypt_credential, encoded, canonical_json, mbind, prog_bind.
    destruct (callback_encodable _ Href) as [ad ->]. rewrite Hok. cbn. by left.
Qed.

Lemma wp_link ref an now c subject :
  canonical_ok (credential_json c) = true → access_token c ≠ [] →
  guarded (catch (link_github canonical_ok canonical aes_encrypt cf ref an now c subject)
             (λ x, Some (callback_failed cf ref (Some c) x))) (Held c)
    (λ st r, match r with Ok _ => ∃ c, st = Stored c | Err _ => settled st end).
Proof.
  intros Hok Hc. apply wp_catch.
  assert (Hfail : ∀ x, carried (Some c) x = Some c →
    guarded (callback_failed cf ref (Some c) x) (Held c)
      (λ st r, match r with Ok _ => ∃ c, st = Stored c | Err _ => settled st end)).
  { intros x Hx. eapply wp_mono; [apply wp_failed; right; by exists c|]. by intros st r [? [? ->]]. }
  unfold link_github, mbind, prog_bind. apply wp_bind. cbn. intros account_ref Href.
  apply wp_bind, wp_encrypt; [done..|]. intros nonce ad Hn Had. cbn.
  intros [out|]; [|intros _; by apply Hfail]. intros [[d <-] _]. cbn.
  destruct (insert_account _ _ _ _ _ _ _ _).1 as [r|e]; cbn; [|by apply (Hfail (Denied (error_code e)))].
  rewrite bool_decide_true by by apply decrypt_encrypted. by eexists.
Qed.

Lemma wp_finish code ref s now :
  encodable ref →
  guarded (finish_github_link lower canonical_ok canonical aes_encrypt aes_decrypt cf cl uri code ref s now) Nothing
    (λ st r, match r with Ok _ => ∃ c, st = Stored c | Err _ => settled st end).
Proof.
  intros Href. assert (Hn : settled Nothing) by by left.
  assert (Hrej : ∀ A, guarded (reject_session (A := A) ref) Nothing (λ st r, st = Nothing ∧ ∃ x, r = Err x)).
  { intros A. unfold reject_session. apply wp_bind, wp_settled; [done|mintless_rules|]. intros [[]|x]; split; eauto. }
  unfold finish_github_link, mbind, prog_bind. apply wp_bind.
  eapply (wp_mono _ _ _ _ (λ st r, st = Nothing)).
  - destruct (se_code_verifier s) as [blob|]; [|eapply wp_mono; [apply Hrej|naive_solver]].
    apply wp_catch, wp_lift. destruct (decrypt_session_secret _ _ _ _) as [v|x]; [done|].
    destruct (code_of x); [|done]. eapply wp_mono; [apply Hrej|naive_solver].
  - intros st [verifier|x] ->; [|done]. apply wp_bind, wp_attempt. eapply wp_mono; [by apply wp_exchange|].
    intros st [[c subject]|x].
    + intros (-> & Hok & Hc). by apply wp_link.
    + intros Hx. eapply wp_mono; [by apply wp_failed|]. by intros st' r [? [? ->]].
Qed.

Lemma wp_github r :
  guarded (complete_github_link lower canonical_ok canonical aes_encrypt aes_decrypt cf r) Nothing
    (λ st o, match o with Ok _ => ∃ c, st = Stored c | Err _ => settled st end).
Proof.
  assert (Hn : settled Nothing) by by left.
  unfold complete_github_link, mbind, prog_bind. rewrite Hgithub, Huri.
  apply wp_bind, wp_lift. destruct (require_fields _ _ r); [|done].
  apply wp_bind, wp_lift. destruct (required_text "state" 256 r) as [state|]; [|done].
  apply wp_bind, wp_lift. destruct (required_text "code" 4096 r) as [code|]; [|done].
  apply wp_bind, wp_settled; [done|mintless_rules|]. intros [now|x]; [|done].
  apply wp_bind, wp_lift. destruct (digest_text state) as [digest|x]; [|done].
  apply wp_bind. eapply (wp_mono _ _ _ _ (λ st x, st = Nothing ∧ ∀ ref s, x = Ok (ref, s) → encodable ref)).
  - unfold store_session, base_store, store, mbind, prog_bind. cbn.
    intros [out|]; [|split; [done|by intros ? ? [=]]]. intros [[d <-] Href]. cbn in *.
    destruct (claim_session_by_state _ _ _ _).1 as [[ref s]|e]; (split; [done|]); by intros ? ? [= <- <-].
  - intros st [[ref s]|x] [-> Href]; [|done]. specialize (Href _ _ eq_refl).
    apply wp_bind, wp_settled; [done|mintless_rules|]. intros [[]|x]; [|done]. by apply wp_finish.
Qed.
End Custody.

Section Kept.
Context (lower : pystr → pystr).
Context (canonical_ok : json → bool) (canonical : json → pybytes).
Context (aes_encrypt : pybytes → pybytes → pybytes → pybytes → pybytes)
  (aes_decrypt : pybytes → pybytes → pybytes → pybytes → option pybytes).

(** C16. A minted token is stored or revoked.  However a GitHub callback ends, and
    whatever GitHub, the clock and the store answered in between (a store call
    that fails may have been committed or not): if it answers a linked account,
    the token that GitHub minted for it is in the row of an account, encrypted so
    that this plugin reads it back; if it raises, no token was minted, or its
    revocation was requested, or it was lost in one of the two ways the monitor
    names (no canonical JSON for the credential, an exception that [urllib] does
    not wrap while the user is looked up). *)
Theorem minted_token_kept `{!Crypto canonical_ok canonical aes_encrypt aes_decrypt} (cf : config) r tr o :
  traces (complete_github_link lower canonical_ok canonical aes_encrypt aes_decrypt cf r) tr (Some o) →
  Forall (sensible lower) tr →
  ∃ st, watch (custody_watch lower canonical_ok aes_decrypt cf) Nothing tr = Some st
    ∧ match o with
      | Ok _ => ∃ c, st = Stored c
      | Err _ => st = Nothing ∨ st = Revoked ∨ st = Lost
      end.
Proof.
  intros Ht Hs.
  assert (Hw : wp (sensible lower) (custody_watch lower canonical_ok aes_decrypt cf)
                 (complete_github_link lower canonical_ok canonical aes_encrypt aes_decrypt cf r) Nothing
                 (λ st o, match o with Ok _ => ∃ c, st = Stored c | Err _ => settled st end)).
  { destruct (cf_github cf) as [cl|] eqn:Hg; [destruct (cf_callback_uri cf) as [uri|] eqn:Hu; [by eapply wp_github|]|];
      unfold complete_github_link, mbind, prog_bind; rewrite Hg, ?Hu;
      apply wp_bind, wp_lift; (destruct (require_fields _ _ r); [by left|by left]). }
  destruct (wp_sound _ _ _ _ _ _ _ Hw Ht Hs) as (st & Hst & HQ). exists st. split; [done|].
  by specialize (HQ o eq_refl).
Qed.
End Kept.
