(* ===== verification/CallRefresh.v ===== *)
(** * Account center: refresh tokens are sent once

    Every program of the plugin, call or recovery, asks GitHub to refresh only
    under a claim that it holds and for which it has not asked yet; and over any
    interleaving of programs, with crashes and failing transactions, an account
    is claimed again only after a refresh was committed. *)

From Stdlib Require Import ZArith NArith.
From S2P Require Import Prelude PyText Json Programs AccountStore AccountFacts AccountLaws.
From S2P Require Import ProfileStore ProfileSessions ProfileMachine ProfileFacts ProfileLaws.
From S2P Require Import PeopleText PeopleStore PeopleDirectory PeopleFacts.
From S2P Require Import AccountPrograms AccountGithub AccountHandlers AccountCall CallEvents.

#[local] Open Scope Z_scope.

(** ** Events *)

(** A claim of a refresh that was granted, and the account. *)
Definition claim_of (ev : event effect) : option pystr :=
  match store_event ev with
  | Some (DCenter (CBase (AClaimRefresh _ k _ _ _)), Some (DoCenter (CoBase (AoRevision (Ok _))))) => Some k
  | _ => None
  end.
(** GitHub is asked for a new credential with a refresh token. *)
Definition refresh_form (form : list (string * pystr)) : bool :=
  existsb (λ kv, bool_decide (kv = ("grant_type"%string, lit "refresh_token"))) form.
Definition asks_effect {B} (e : effect B) : bool :=
  match e with Github (Access_token form) => refresh_form form | _ => false end.
Definition asks_refresh (ev : event effect) : bool := match ev with Event e _ => asks_effect e end.

(** ** The store *)

(** The account can be claimed, or does not exist yet. *)
Definition claimable (o : option account) : nat :=
  match o with
  | Some a => if bool_decide (ac_status a = ACTIVE) && bool_decide (cr_status (ac_credential a) = READY)
              then 1 else 0
  | None => 1
  end.
Definition rows (d : directory) : gmap pystr account := accounts (tables d).

Definition finished_op (k : pystr) (op : account_op) (out : account_out) : bool :=
  match op, out with
  | AFinishRefresh _ k' _ _ _ _ _ _, AoUnit (Ok _) => bool_decide (k' = k)
  | _, _ => false
  end.

Lemma claimable_step op d k :
  (claimable (accounts (after op d) !! k)
   <= claimable (accounts d !! k) + (if finished_op k op (answer op d) then 1 else 0))%nat.
Proof.
  destruct (account_moved op d k) as [o|l b e r|a i an c now|a i an c b e r -> -> _ _|a|a i an now r c f|a st o c|a st o c];
    cbn; try destruct (finished_op k op (answer op d)); try lia.
  all: repeat (case_bool_decide; cbn); try lia; congruence.
Qed.

Lemma claimable_run ops d k :
  Forall (λ op, ∀ out, finished_op k op out = false) ops →
  (claimable (accounts (final account_step ops d) !! k) <= claimable (accounts d !! k))%nat.
Proof.
  revert d. induction ops as [|op ops IH]; intros d Hf; [done|]. inversion Hf as [|?? Ho Hos]; subst.
  rewrite final_cons. etrans; [by apply IH|]. etrans; [apply claimable_step|]. rewrite Ho. lia.
Qed.

Definition finished_center (k : pystr) (op : center_op) (out : center_out) : bool :=
  match op, out with CBase op, CoBase out => finished_op k op out | _, _ => false end.

Lemma claimable_center op c k :
  (claimable (accounts (base (center_step op c).2) !! k)
   <= claimable (accounts (base c) !! k) + (if finished_center k op (center_step op c).1 then 1 else 0))%nat.
Proof.
  destruct op as [op| | | | | | | | | | | | | | | | | | | | | | | | | | | | ];
    try (rewrite center_base; etrans; [apply claimable_run|lia];
         cbn [account_ops]; repeat case_match; by repeat constructor).
  cbn [center_step]. unfold base_step.
  destruct op; try (cbn; lia).
  all: match goal with |- context [account_step ?o ?d] => pose proof (claimable_step o d k) as H end.
  all: destruct (account_step _ (base c)) as [o b] eqn:E; cbn [fst snd finished_center] in *.
  all: rewrite ?E in H; exact H.
Qed.

(** A refresh of the account was committed, or may have been. *)
Definition may_finish (k : pystr) (op : directory_op) : bool :=
  match op with DCenter (CBase (AFinishRefresh _ k' _ _ _ _ _ _)) => bool_decide (k' = k) | _ => false end.
Definition finished_directory (k : pystr) (op : directory_op) (out : directory_out) : bool :=
  match op, out with DCenter op, DoCenter out => finished_center k op out | _, _ => false end.
Definition finish_of (k : pystr) (ev : event effect) : bool :=
  match store_event ev with
  | Some (op, Some out) => finished_directory k op out
  | Some (op, None) => may_finish k op
  | None => false
  end.

Lemma finished_may k op out : finished_directory k op out = true → may_finish k op = true.
Proof.
  destruct op as [op| | |]; try done. destruct out as [out| | |]; try done. cbn.
  destruct op; try done. destruct out; try done. destruct op; try done. by destruct o as [[]| | | | | | | |].
Qed.

Lemma claimable_directory lower op d k :
  (claimable (rows (directory_step lower op d).2 !! k)
   <= claimable (rows d !! k)
      + (if finished_directory k op (directory_step lower op d).1 then 1 else 0))%nat.
Proof.
  pose proof (directory_tables lower op d) as Ht. unfold rows.
  destruct op as [op| | |]; [clear Ht|destruct Ht as [m ->]; apply Nat.le_add_r..]. cbn [directory_step]. pose proof (claimable_center op (center_tables d) k) as Hc.
  by destruct (center_step op (center_tables d)) as [out c].
Qed.

(** What an event does to the account's claimability. *)
Lemma claimable_event lower ev d d' k :
  happens lower ev d d' →
  (claimable (rows d' !! k) <= claimable (rows d !! k) + (if finish_of k ev then 1 else 0))%nat.
Proof.
  intros H%happens_store. unfold finish_of. destruct (store_event ev) as [[op o]|]; [|subst; lia].
  pose proof (claimable_directory lower op d k) as Hs. destruct o as [out|].
  - rewrite H in Hs. exact Hs.
  - destruct H as [-> | ->]; [lia|]. etrans; [exact Hs|]. apply Nat.add_le_mono_l.
    destruct (finished_directory _ _ _) eqn:Hf; [|lia]. by rewrite (finished_may _ _ _ Hf).
Qed.

Lemma claim_event lower ev d d' k :
  happens lower ev d d' → claim_of ev = Some k →
  claimable (rows d !! k) = 1%nat ∧ claimable (rows d' !! k) = 0%nat.
Proof.
  intros H%happens_store. unfold claim_of. destruct (store_event ev) as [[op [o|]]|]; [|by intros Hc; repeat case_match; discriminate|done].
  destruct op as [[op| | | | | | | | | | | | | | | | | | | | | | | | | | | | ]| | |]; try done. destruct op; try done.
  destruct o as [[o| | | | | | | | | | ]| | |]; try done. destruct o as [| | | | |[rv|]| | |]; try done. intros [= ->].
  cbn [directory_step center_step base_step] in H.
  destruct (account_step _ (base (center_tables d))) as [out b] eqn:E. injection H as -> <-.
  assert (Hg : claimed_refresh (AClaimRefresh inst k anchor claim_id now)
                 (account_step (AClaimRefresh inst k anchor claim_id now) (base (center_tables d))).1 = Some k)
    by by rewrite E.
  destruct (claim_refresh_ok _ _ _ Hg) as (?&?&?&?&a&_&_&Ha&Hs&Hc&Ha'). rewrite E in Ha'.
  unfold rows, tables. cbn in *. rewrite Ha, Ha'. cbn. by rewrite Hs, Hc.
Qed.

(** ** Interleavings *)

(** How often GitHub was asked for new material for account [k]: a program asks
    for the account whose claim it was granted last. *)
Fixpoint asked (k : pystr) (held : gmap nat pystr) (log : list (nat * event effect)) : nat :=
  match log with
  | [] => 0
  | (i, ev) :: log =>
      match claim_of ev with
      | Some k' => asked k (<[i := k']> held) log
      | None =>
          if asks_refresh ev
          then (if bool_decide (held !! i = Some k) then 1 else 0) + asked k (delete i held) log
          else asked k held log
      end
  end.
Fixpoint finished (k : pystr) (log : list (nat * event effect)) : nat :=
  match log with
  | [] => 0
  | (_, ev) :: log => (if finish_of k ev then 1 else 0) + finished k log
  end.

Definition holders (k : pystr) (held : gmap nat pystr) : nat := size (filter (λ kv, kv.2 = k) held).

Lemma holders_insert k i k' held :
  (holders k (<[i := k']> held) <= holders k held + (if bool_decide (k' = k) then 1 else 0))%nat.
Proof.
  unfold holders. case_bool_decide as Hk.
  - rewrite map_filter_insert_True by done. rewrite map_size_insert. case_match; unfold id; lia.
  - rewrite map_filter_insert_False by done. rewrite Nat.add_0_r. apply map_subseteq_size.
    apply map_filter_subseteq_mono, delete_subseteq.
Qed.
Lemma holders_delete k i held :
  held !! i = Some k → S (holders k (delete i held)) = holders k held.
Proof.
  intros Hi. unfold holders. rewrite map_filter_delete.
  rewrite map_size_delete_Some by (by exists k; apply map_lookup_filter_Some_2).
  assert (0 < size (filter (λ kv : nat * pystr, kv.2 = k) held))%nat; [|lia].
  apply Nat.neq_0_lt_0. intros Hs%map_size_empty_iff.
  assert (filter (λ kv : nat * pystr, kv.2 = k) held !! i = Some k) by by apply map_lookup_filter_Some_2.
  by rewrite Hs, lookup_empty in H.
Qed.
Lemma holders_delete_le k i held : (holders k (delete i held) <= holders k held)%nat.
Proof. apply map_subseteq_size, map_filter_subseteq_mono, delete_subseteq. Qed.

Lemma asked_bound lower k held log d d' :
  replays (happens lower) log d d' →
  (asked k held log <= claimable (rows d !! k) + holders k held + finished k log)%nat.
Proof.
  revert held d. induction log as [|[i ev] log IH]; intros held d; cbn [replays asked finished]; [lia|].
  intros (d1 & Hev & Hr). pose proof (claimable_event _ _ _ _ k Hev) as Hc.
  destruct (claim_of ev) as [k'|] eqn:Hcl.
  - specialize (IH (<[i := k']> held) _ Hr). pose proof (holders_insert k i k' held) as Hh.
    case_bool_decide as Hk; [subst k'|lia]. destruct (claim_event _ _ _ _ _ Hev Hcl). lia.
  - destruct (asks_refresh ev) eqn:Ha; [|specialize (IH held _ Hr); lia].
    specialize (IH (delete i held) _ Hr). case_bool_decide as Hi.
    + apply holders_delete in Hi. lia.
    + pose proof (holders_delete_le k i held). lia.
Qed.

(** ** The programs *)

(** What a program may do, with the claim it holds and has not asked for. *)
Definition refresh_watch (held : option pystr) (ev : event effect) : option (option pystr) :=
  match claim_of ev with
  | Some k => Some (Some k)
  | None => if asks_refresh ev then match held with Some _ => Some None | None => None end else Some held
  end.

Definition quiet (B : Type) (e : effect B) : bool :=
  match e with
  | Store (DCenter (CBase (AClaimRefresh _ _ _ _ _))) => false
  | Github (Access_token form) => negb (refresh_form form)
  | _ => true
  end.
Lemma quiet_watch m B (e : effect B) b : quiet B e = true → refresh_watch m (Event e b) = Some m.
Proof.
  unfold refresh_watch, claim_of, asks_refresh. destruct e as [| | |op| |[form| |]]; cbn; try done.
  - destruct op as [[op| | | | | | | | | | | | | | | | | | | | | | | | | | | | ]| | |]; try done. by destruct op.
  - by destruct (refresh_form form).
Qed.

Abbreviation is_quiet := (only quiet).

Lemma quiet_store op : quiet _ (Store op) = true → is_quiet (store op).
Proof. intros Hq. unfold store. only_rules. Qed.
Lemma quiet_base op :
  quiet _ (Store (DCenter (CBase op))) = true → is_quiet (base_store op).
Proof. intros Hq. unfold base_store. apply only_bind; [by apply quiet_store|]. intros. only_rules. Qed.

Ltac quiet_rules :=
  repeat first
    [ progress (unfold mbind, prog_bind, store_unit, store_ref, store_begin, store_session, store_redeem, store_unlink,
        look, look_account, check, demand, clock, uuid4, urandom, github, encrypt, encode_response,
        encrypt_credential, encrypt_session_secret, secret_text, command_result_of, idempotency_command,
        check_workspace)
    | progress only_rules
    | apply quiet_base; reflexivity | apply quiet_store; reflexivity ].

Section Programs.
Context (lower casefold : pystr → pystr) (isalnum : pystr → bool) (repr : json → pystr).
Context (canonical_ok : json → bool) (canonical : json → pybytes).
Context (aes_encrypt : pybytes → pybytes → pybytes → pybytes → pybytes)
  (aes_decrypt : pybytes → pybytes → pybytes → pybytes → option pybytes).
Context (cf : config).
Context (provider_method : pystr → request → Anchor → pystr → request → option pystr → P request).

Lemma quiet_grant token : is_quiet (revoke_grant cf token).
Proof. unfold revoke_grant, revoke. quiet_rules. Qed.

Lemma quiet_begin_link r an k : is_quiet (begin_link canonical_ok canonical aes_encrypt cf r an k).
Proof. unfold begin_link. quiet_rules. Qed.
Lemma quiet_failed ref got x : is_quiet (callback_failed cf ref got x).
Proof.
  unfold callback_failed. cbv zeta. destruct x; quiet_rules; try apply quiet_grant.
Qed.
Lemma quiet_github r : is_quiet (complete_github_link lower canonical_ok canonical aes_encrypt aes_decrypt cf r).
Proof.
  unfold complete_github_link, finish_github_link, reject_session, link_github, persist_callback_credential, exchange_code, oauth_post.
  quiet_rules; try (apply quiet_failed || apply quiet_grant).
Qed.
Lemma quiet_unlink r an k : is_quiet (unlink canonical_ok canonical aes_encrypt aes_decrypt cf r an k).
Proof. unfold unlink. quiet_rules; apply quiet_grant. Qed.
Lemma quiet_revoke_links r an k :
  is_quiet (revoke_person_links lower canonical_ok canonical aes_encrypt aes_decrypt cf r an k).
Proof.
  unfold revoke_person_links, unlink_account_of, unlink_profile_of. quiet_rules; try (apply quiet_unlink || apply quiet_grant).
Qed.
Lemma quiet_recover : is_quiet (recover canonical_ok canonical aes_encrypt aes_decrypt cf).
Proof.
  unfold recover, recover_callback, recover_unlink, recover_command. quiet_rules; try apply quiet_grant.
Qed.

(** The methods that do not refresh; [provider_method] is one of them. *)
Context (Hprovider : ∀ m r an c x k, is_quiet (provider_method m r an c x k)).

Lemma quiet_dispatch m r an caller context k :
  m ≠ lit "redeem_credential_lease" →
  is_quiet (dispatch lower casefold isalnum canonical_ok canonical aes_encrypt aes_decrypt cf provider_method
              m r an caller context k).
Proof.
  intros Hm. unfold dispatch. cbv zeta. rewrite (bool_decide_false (m = lit "redeem_credential_lease")) by done.
  repeat case_match; try apply Hprovider; try apply quiet_begin_link; try apply quiet_github;
    try apply quiet_unlink; try apply quiet_revoke_links.
  all: unfold observe_wecom_challenge, confirm_wecom_link, list_links, declare_handle, retract_handle, find_people,
    get_authorization, create_credential_lease, resolve_sender, unlink_provider_profile; quiet_rules.
Qed.

Abbreviation obeys := (wp (λ _, True) refresh_watch).

Lemma wp_quiet {A} (p : P A) m (Q : option pystr → result failure A → Prop) :
  is_quiet p → (∀ r, Q m r) → obeys p m Q.
Proof. intros Hp HQ. eapply wp_only; [exact Hp| |exact HQ]. intros. by apply quiet_watch. Qed.

(** A claim is granted, or the monitor stays. *)
Lemma wp_claim k i an c now m Q :
  (∀ v, Q (Some k) (Ok v)) → (∀ x, Q m (Err x)) →
  obeys (store_revision (AClaimRefresh i k an c now)) m Q.
Proof.
  intros HO HE. cbn. intros [o|] _; [|by apply HE]. unfold refresh_watch, claim_of, asks_refresh. cbn.
  destruct o as [o| | |]; [|apply HE..].
  destruct o as [o| | | | | | | | | | ]; [|apply HE..].
  destruct o as [| | | | |r| | |]; try apply HE. destruct r as [v|e]; cbn; [apply HO|apply HE].
Qed.

(** The refresh itself asks once. *)
Lemma wp_refresh c token k Q :
  (∀ m r, Q m r) → obeys (refresh lower c token) (Some k) Q.
Proof.
  intros HQ. unfold refresh, oauth_post, mbind, prog_bind. apply wp_bind, wp_bind, wp_lift.
  destruct (urlencode _); [|apply HQ]. cbn. intros rep _. apply wp_lift.
  destruct (read_json rep); [|apply HQ]. cbn. intros now _. apply wp_lift, HQ.
Qed.

Ltac step := unfold mbind, prog_bind; apply wp_bind; first [apply wp_lift | apply wp_quiet; [quiet_rules|]; intros []].

Lemma wp_fresh ref a m (Q : option pystr → result failure OAuthCredential → Prop) :
  (∀ m r, Q m r) →
  obeys (fresh_credential lower canonical_ok canonical aes_encrypt aes_decrypt cf ref a) m Q.
Proof.
  intros HQ. unfold fresh_credential, mbind, prog_bind.
  apply wp_bind, wp_quiet; [quiet_rules|]. intros [current|x]; [|apply HQ]. cbv zeta.
  apply wp_bind, wp_quiet; [quiet_rules|]. intros [[]|x]; [|apply HQ].
  apply wp_bind, wp_quiet; [quiet_rules|]. intros [now|x]; [|apply HQ].
  destruct (cr_expires_at _) as [e|]; [|apply wp_lift, HQ].
  destruct (now + 30 <? e); [apply wp_lift, HQ|].
  apply wp_bind, wp_lift. destruct (read_blob _ _ _ _) as [old|x]; [|apply HQ].
  apply wp_bind, wp_quiet; [quiet_rules|]. intros [claim_id|x]; [|apply HQ].
  assert (Hend : ∀ m x, obeys (pbind (store_unit (AFailRefresh (cf_instance cf) ref claim_id)) (λ _, Raise x)) m Q).
  { intros m0 x. apply wp_quiet; [quiet_rules|]. intros r. apply HQ. }
  destruct (refresh_token old) as [[|c token]|];
    [apply wp_bind, wp_claim; intros; [apply Hend|apply HQ]| |apply wp_bind, wp_claim; intros; [apply Hend|apply HQ]].
  destruct (match cr_refresh_expires_at _ with Some e => e <=? now | None => false end);
    apply wp_bind, wp_claim; intros; try apply Hend; try apply HQ.
  unfold refresh_claimed, mbind, prog_bind. apply wp_bind, wp_attempt.
  assert (Hdone : ∀ m r, obeys (match r with
     | Err x => refresh_failed cf ref claim_id x
     | Ok fresh =>
         pbind (encrypt_credential canonical_ok canonical aes_encrypt (cf_encryption_key cf) ref fresh) (λ blob,
         pbind (store_unit (AFinishRefresh (cf_instance cf) ref (lk_anchor (ac_link a)) claim_id v blob
                              (expires_at fresh) (refresh_expires_at fresh))) (λ _, Ret fresh))
     end) m Q).
  { intros m0 [fresh|x]; (apply wp_quiet; [|intros; apply HQ]); unfold refresh_failed; quiet_rules. }
  destruct (cf_github cf); [apply wp_refresh|]; intros; apply Hdone.
Qed.

Lemma wp_redeem r an caller context m :
  obeys (redeem_credential_lease lower isalnum canonical_ok canonical aes_encrypt aes_decrypt cf r an caller context)
    m (λ _ _, True).
Proof.
  unfold redeem_credential_lease, mbind, prog_bind.
  repeat (apply wp_bind; first [apply wp_lift; case_match | apply wp_quiet; [by quiet_rules|]; intros []]; try done).
  repeat case_match. apply wp_bind, wp_fresh. by intros ? [].
Qed.
End Programs.

Section System.
Context (lower casefold : pystr → pystr) (isalnum : pystr → bool) (repr : json → pystr).
Context (canonical_ok : json → bool) (canonical : json → pybytes).
Context (aes_encrypt : pybytes → pybytes → pybytes → pybytes → pybytes)
  (aes_decrypt : pybytes → pybytes → pybytes → pybytes → option pybytes).
Context (provider_method : config → pystr → request → Anchor → pystr → request → option pystr → P request).

(** What runs in the plugin's processes: calls and recoveries, under the settings
    that their process has. *)
Inductive plugin_program : P () → Prop :=
  | Called cf method r context :
      plugin_program
        (_ ← call lower casefold isalnum repr canonical_ok canonical aes_encrypt aes_decrypt cf (provider_method cf)
               method r context; Ret ())
  | Started cf : plugin_program (recover canonical_ok canonical aes_encrypt aes_decrypt cf).

Context (Hprovider : ∀ cf m r an c x k, only quiet (provider_method cf m r an c x k)).

Lemma wp_dispatch cf m r an caller context k held :
  wp (λ _, True) refresh_watch
    (dispatch lower casefold isalnum canonical_ok canonical aes_encrypt aes_decrypt cf (provider_method cf)
       m r an caller context k) held (λ _ _, True).
Proof.
  destruct (decide (m = lit "redeem_credential_lease")) as [->|Hm];
    [apply wp_redeem|apply wp_quiet; [|done]; by apply quiet_dispatch].
Qed.

Lemma wp_plugin p held : plugin_program p → wp (λ _, True) refresh_watch p held (λ _ _, True).
Proof.
  intros [cf method r context|cf]; [|apply wp_quiet; [apply quiet_recover|done]].
  apply wp_bind. eapply wp_mono; [|by intros ? []]. unfold call, run_command, mbind, prog_bind.
  repeat (apply wp_bind; first [apply wp_lift; case_match | apply wp_quiet; [by quiet_rules|]; intros []]; try done).
  all: try exact I. case_match; [|apply wp_dispatch].
  repeat (apply wp_bind; first [apply wp_lift; case_match | apply wp_quiet; [by quiet_rules|]; intros []]; try done).
  all: try exact I. case_match; [by apply wp_lift|]. apply wp_catch. eapply wp_mono; [apply wp_dispatch|].
  intros m [v|x] _; [done|]. apply wp_quiet; [|done]. unfold command_failed. by quiet_rules.
Qed.

(** C15. A refresh token is sent once.  Calls and recoveries may run in any number of
    processes and in any interleaving, stop at any point, and find their
    transactions failing, committed or not: GitHub is asked for new material for
    an account at most once more than refreshes of the account were (perhaps)
    committed, and no program asks without a claim of its own that was granted
    and not used yet. *)
Theorem refresh_token_spent_once (progs : nat → P ()) d log d' k :
  (∀ i, plugin_program (progs i)) →
  execution (happens lower) progs d log d' →
  (asked k ∅ log <= 1 + finished k log)%nat
  ∧ ∀ i, is_Some (watch refresh_watch None (events_of i log)).
Proof.
  intros Hp [Hr Ht]. split.
  - pose proof (asked_bound _ k ∅ _ _ _ Hr) as H. unfold holders in H. rewrite map_filter_empty, map_size_empty in H.
    assert (claimable (rows d !! k) <= 1)%nat; [|lia]. unfold claimable. repeat case_match; lia.
  - intros i. destruct (Ht i) as [o Ho].
    destruct (wp_sound _ _ _ None _ _ _ (wp_plugin _ None (Hp i)) Ho) as (m & -> & _); [|by exists m].
    by apply Forall_forall.
Qed.
End System.
