(* ===== verification/CallGate.v ===== *)
(** * Account center: who gets in

    What an accepted context proves, and that a call does nothing before it has
    been authenticated and its request identifier has been taken. *)

From Stdlib Require Import ZArith NArith.
From S2P Require Import Prelude PyText Json Sha256 Programs AccountStore AccountFacts AccountLaws.
From S2P Require Import ProfileStore ProfileSessions ProfileMachine ProfileFacts ProfileLaws.
From S2P Require Import PeopleText PeopleStore PeopleDirectory PeopleFacts AccountPrograms AccountGithub AccountHandlers.
From S2P Require Import AccountCall CallEvents CallCustody.

#[local] Open Scope Z_scope.

Section Gate.
Context (lower casefold : pystr → pystr) (isalnum : pystr → bool) (repr : json → pystr).
Context (canonical_ok : json → bool) (canonical : json → pybytes).
Context (aes_encrypt : pybytes → pybytes → pybytes → pybytes → pybytes)
  (aes_decrypt : pybytes → pybytes → pybytes → pybytes → option pybytes).
Context (cf : config).
Context (provider_method : pystr → request → Anchor → pystr → request → option pystr → P request).

Abbreviation verify := (verify_context repr canonical_ok canonical cf).
Abbreviation signed_bytes := (context_signed_bytes canonical_ok canonical).
Abbreviation the_call := (call lower casefold isalnum repr canonical_ok canonical aes_encrypt aes_decrypt cf provider_method).

(** ** Contexts *)

Definition identity_fields : list string :=
  ["caller_id"; "issuer"; "subject"; "organization_id"; "binding_id"; "request_id"; "operation_id"].

(** What an accepted context says. *)
Record accepted (m : pystr) (r c : request) (now : Z) (an : Anchor) (key signed : pybytes) : Prop := Accepted {
  acc_key : caller_key cf c = Ok key;
  acc_fresh : fresh now c = true;
  acc_digest : payload_digest canonical_ok canonical r = Ok (py_str repr (item_of "payload_sha256" c));
  acc_method : item_of "method" c = JStr m;
  acc_signed : signed_bytes m c = Ok signed;
  acc_signature : fromhex (py_str repr (item_of "signature" c)) = Some (hmac_sha256 key signed);
  acc_texts : forallb (λ k, nonempty_text (item_of k c)) identity_fields = true;
  acc_workspace : item_of "workspace_id" c = match workspace_id an with Some w => JStr w | None => JNull end;
  acc_issuer : issuer an = context_text "issuer" c;
  acc_subject : an_subject an = context_text "subject" c;
  acc_organization : organization_id an = context_text "organization_id" c
}.

Lemma untrusted_ok b x : untrusted b = Ok x → b = false.
Proof. by destruct b. Qed.

Lemma verify_ok m r c now an :
  verify m r c now = Ok an → ∃ key signed, accepted m r c now an key signed.
Proof.
  unfold verify_context. intros H. inv_result.
  repeat match goal with E : untrusted _ = Ok _ |- _ => apply untrusted_ok in E end.
  repeat (case_match; inv_result; simplify_eq).
  all: repeat match goal with E : untrusted _ = Ok _ |- _ => apply untrusted_ok in E end.
  all: bools; subst; do 2 eexists; econstructor; eauto.
  all: match goal with E : context_signed_bytes _ _ _ _ = Ok _ |- _ => unfold context_signed_bytes in E end.
  all: repeat (case_match; inv_result; simplify_eq); bools; by subst.
Qed.

Lemma accepted_text m r c now an key signed k :
  accepted m r c now an key signed → k ∈ identity_fields →
  item_of k c = JStr (context_text k c) ∧ context_text k c ≠ [].
Proof.
  intros [] Hk. apply forallb_forall with (x := k) in acc_texts0; [|by apply list_elem_of_In].
  unfold context_text. destruct (item_of k c) as [| | | |[|]| |]; try done.
Qed.
Lemma accepted_expires m r c now an key signed :
  accepted m r c now an key signed →
  ∃ i e, item_of "issued_at" c = JInt i ∧ item_of "expires_at" c = JInt e ∧ i <= now + 30 ∧ now < e ∧ i < e <= i + 300.
Proof.
  intros []. clear - acc_fresh0. unfold fresh in acc_fresh0. repeat case_match; try done. bools. do 2 eexists. split_and!; [done..|lia|lia|lia|lia].
Qed.

(** ** Nothing happens before authentication *)

Definition taken : option directory_out := Some (DoCenter (CoBase (AoUnit (Ok ())))).

(** The effects of a call in order: the clock is read; if the context is accepted
    at that time, is bound to this plugin and the caller may use the method, its
    identifier is taken; only then the method runs. *)
Definition consume_op (c : request) : directory_op :=
  DCenter (CBase (AConsume (context_text "request_id" c) (match item_of "expires_at" c with JInt e => e | _ => 0 end))).
Record admitted (m : pystr) (r c : request) (now : Z) (an : Anchor) : Prop := Admission {
  adm_accepted : verify m r c now = Ok an;
  adm_method : m ∈ METHODS;
  adm_binding : context_text "binding_id" c = cf_binding_id cf;
  adm_caller : context_text "caller_id" c ∈ default [] (assoc m (cf_method_callers cf));
  adm_exchange : m = lit "resolve_linked_sender" → context_text "caller_id" c = cf_exchange_caller cf
}.

Lemma traces_store_unit {A} op (f : () → P A) tr o :
  traces (pbind (store_unit op) f) tr o →
  ended tr o
  ∨ ∃ out tr', tr = Event (Store (DCenter (CBase op))) out :: tr'
      ∧ ((out = taken ∧ traces (f ()) tr' o) ∨ ended tr' o).
Proof.
  destruct tr as [|ev tr]; cbn; [left; split; naive_solver|]. intros (out & -> & H). right. exists out, tr.
  split; [done|]. unfold taken, check in *.
  assert (Hraise : ∀ x, traces (pbind (Raise x) f) tr o → ended tr o)
    by (intros x Hx; destruct tr; cbn in Hx; [split; naive_solver|done]).
  destruct out as [[[[[[]|]| | | | | | | |]| | | | | | | | | |]| | |]|]; cbn in H;
    solve [by left | right; exact (Hraise _ H)].
Qed.

(** What follows the store's answer in a call. *)
Definition admitted_call (m : pystr) (r c : request) (an : Anchor) : P request :=
  pbind (demand (bool_decide (context_text "operation_id" c = m)) "untrusted_caller")
    (λ _, if bool_decide (m ∈ IDEMPOTENT_METHODS)
          then run_command lower casefold isalnum canonical_ok canonical aes_encrypt aes_decrypt cf provider_method m r an
                 (context_text "caller_id" c) c
          else dispatch lower casefold isalnum canonical_ok canonical aes_encrypt aes_decrypt cf provider_method m r an
                 (context_text "caller_id" c) c None).

Lemma call_traces m r c tr o :
  traces (the_call m r c) tr o →
  ended tr o
  ∨ ∃ now tr1, tr = Event Clock now :: tr1
    ∧ (ended tr1 o
       ∨ ∃ an out tr2, admitted m r c now an ∧ tr1 = Event (Store (consume_op c)) out :: tr2
         ∧ ((out = taken ∧ traces (admitted_call m r c an) tr2 o) ∨ ended tr2 o)).
Proof.
  assert (Hend : ∀ t x, t = [] ∧ (o = None ∨ o = Some (Err x)) → ended t o) by (intros ? ? [-> ?]; split; naive_solver).
  unfold call, mbind, prog_bind. intros H.
  apply traces_demand in H as [[Hm H]|?]; [|left; by eapply Hend]. bools.
  destruct tr as [|ev tr]; cbn in H; [left; split; naive_solver|]. destruct H as (now & -> & H).
  right. exists now, tr. split; [done|].
  apply traces_lift in H as [(an & Hv & H)|[-> ?]]; [|left; split; naive_solver].
  apply traces_demand in H as [[Hb H]|?]; [|left; by eapply Hend].
  apply traces_demand in H as [[Hc H]|?]; [|left; by eapply Hend].
  apply traces_demand in H as [[He H]|?]; [|left; by eapply Hend]. bools.
  apply traces_store_unit in H as [?|(out & tr2 & -> & H)]; [by left|].
  right. exists an, out, tr2. split_and!; [|done|done].
  split; try done. intros ->. by destruct (bool_decide_reflect (context_text "caller_id" c = cf_exchange_caller cf)).
Qed.

(** C17. Nothing happens before authentication.  Whatever the environment answers,
    and wherever the run is cut: a call of [method] reads the clock first; it does
    something else only if the context carries a valid signature over its payload
    by a caller that is configured, fresh at that time, bound to this plugin and
    permitted to use the method; what it does then is to take the request
    identifier; and it goes on, or answers, only after the store said that the
    identifier was not taken before, and for the operation that was signed. *)
Theorem nothing_before_authentication m r c tr o :
  traces (the_call m r c) tr o →
  match tr with
  | [] => ∀ v, o ≠ Some (Ok v)
  | first :: tr =>
      ∃ now, first = Event Clock now ∧
      match tr with
      | [] => ∀ v, o ≠ Some (Ok v)
      | second :: tr =>
          ∃ an key signed out,
            admitted m r c now an ∧ accepted m r c now an key signed
            ∧ second = Event (Store (consume_op c)) out
            ∧ (tr ≠ [] ∨ (∃ v, o = Some (Ok v)) → out = taken ∧ context_text "operation_id" c = m)
      end
  end.
Proof.
  intros H. apply call_traces in H as [[-> ?]|(now & tr1 & -> & H)]; [done|]. exists now. split; [done|].
  destruct H as [[-> ?]|(an & out & tr2 & Ha & -> & H)]; [done|].
  destruct (verify_ok _ _ _ _ _ (adm_accepted _ _ _ _ _ Ha)) as (key & signed & Hacc).
  exists an, key, signed, out. split_and!; [done..|]. intros Hgo.
  destruct H as [[-> H]|[-> Ho]]; [|destruct Hgo as [?|[v ?]]; [done|by destruct (Ho v)]]. split; [done|].
  apply traces_demand in H as [[Hb _]|[-> H]]; [by bools|].
  destruct Hgo as [?|[v ->]]; [done|]. destruct H as [H|H]; done.
Qed.

(** A call that got further has been given its identifier. *)
Definition went_on {A} (tr : list (event effect)) (o : option (result failure A)) : Prop :=
  (2 < length tr)%nat ∨ ∃ v, o = Some (Ok v).
Lemma went_on_taken m r c tr o :
  traces (the_call m r c) tr o → went_on tr o → Event (Store (consume_op c)) taken ∈ tr.
Proof.
  intros H Hgo. apply call_traces in H as [[-> ?]|(now & tr1 & -> & H)].
  { destruct Hgo as [?|[v ?]]; [cbn in *; lia|naive_solver]. }
  destruct H as [[-> ?]|(an & out & tr2 & Ha & -> & H)].
  { destruct Hgo as [?|[v ?]]; [cbn in *; lia|naive_solver]. }
  destruct H as [[-> _]|[-> Ho]]; [right; left|].
  destruct Hgo as [?|[v ?]]; [cbn in *; lia|naive_solver].
Qed.
End Gate.

(** ** A request identifier admits one call *)

Definition requests (d : directory) : gmap pystr Z := consumed_requests (tables d).

(** The identifier is taken, for no shorter than [e]; no pruning is later. *)
Definition takes (k : pystr) (ev : event effect) : bool :=
  match store_event ev with
  | Some (DCenter (CBase (AConsume k' _)), Some (DoCenter (CoBase (AoUnit (Ok _))))) => bool_decide (k' = k)
  | _ => false
  end.
Definition remembers (k : pystr) (e : Z) (ev : event effect) : Prop :=
  match store_event ev with
  | Some (DCenter op, _) =>
      (∀ now, prune_time op = Some now → now <= e)
      ∧ match op with CBase (AConsume k' e') => k' = k → e <= e' | _ => True end
  | _ => True
  end.

(** How often the identifier can still be taken. *)
Definition takable (k : pystr) (e : Z) (m : gmap pystr Z) : nat :=
  match m !! k with Some e' => if e <=? e' then 0 else 1 | None => 1 end.

Lemma takable_account k e op d :
  (∀ now, op = APrune now → now <= e) → (∀ e', op = AConsume k e' → e <= e') →
  (takable k e (consumed_requests (after op d)) <= takable k e (consumed_requests d))%nat.
Proof.
  intros Hp Hc. unfold takable. destruct (request_moved op d k) as [o|e' Hop|e' now Hop Hl]; [done|..].
  - specialize (Hc _ Hop). rewrite (proj2 (Z.leb_le e e')) by lia. lia.
  - specialize (Hp _ Hop). rewrite (proj2 (Z.leb_gt e e')) by lia. lia.
Qed.
Lemma takable_run k e ops d :
  Forall (λ op, (∀ now, op = APrune now → now <= e) ∧ (∀ e', op = AConsume k e' → e <= e')) ops →
  (takable k e (consumed_requests (final account_step ops d)) <= takable k e (consumed_requests d))%nat.
Proof.
  revert d. induction ops as [|op ops IH]; intros d Hf; [done|]. inversion Hf as [|?? [Hp Hc] Hos]; subst.
  rewrite final_cons. etrans; [by apply IH|]. by apply takable_account.
Qed.

Lemma takable_directory lower k e op d :
  remembers k e (Event (Store op) None) →
  (takable k e (requests (directory_step lower op d).2) <= takable k e (requests d))%nat.
Proof.
  intros Hr. pose proof (directory_tables lower op d) as Ht. unfold requests.
  destruct op as [op| | |]; [|by destruct Ht as [m ->]..]. rewrite Ht, center_base. destruct Hr as [Hp Hc].
  apply takable_run, Forall_forall. intros a Ha. split; intros ? ->.
  - by apply Hp, (account_ops_prune _ (center_tables d)).
  - destruct op; cbn [account_ops] in Ha; repeat case_match; subst; try (by apply elem_of_nil in Ha);
      apply list_elem_of_In in Ha as [Ha|[]]; simplify_eq. by apply Hc.
Qed.

(** Taking it uses it up. *)
Lemma taken_directory lower k k' e' e out d d' :
  directory_step lower (DCenter (CBase (AConsume k' e'))) d = (DoCenter (CoBase (AoUnit (Ok out))), d') →
  k' = k → e <= e' → takable k e (requests d) = 1%nat ∧ takable k e (requests d') = 0%nat.
Proof.
  intros H -> He. cbn in H. destruct (consume_request_id k e' (base (center_tables d))) as [r b] eqn:Hc.
  injection H as Hr <-. unfold requests, tables. cbn. destruct out. subst r.
  assert (Ho : consumed_request (AConsume k e') (answer (AConsume k e') (base (center_tables d))) = Some k)
    by (cbn; by rewrite Hc).
  apply consume_ok in Ho as [Hn _]. unfold takable. rewrite Hn. split; [done|].
  pose proof (request_moved (AConsume k e') (base (center_tables d)) k) as Hm.
  cbn in Hm. rewrite Hc, Hn in Hm. cbn in Hm.
  unfold consume_request_id, transact, insert_new in Hc. rewrite Hn in Hc. cbn in Hc. injection Hc as <-. cbn.
  rewrite lookup_insert_eq. by rewrite (proj2 (Z.leb_le e e')).
Qed.

Lemma takable_event lower k e ev d d' :
  happens lower ev d d' → remembers k e ev →
  (takable k e (requests d') + (if takes k ev then 1 else 0) <= takable k e (requests d))%nat.
Proof.
  intros H%happens_store. destruct (takes k ev) eqn:Ht.
  - unfold remembers, takes in *. repeat (case_match; try done). bools. subst. intros [_ He].
    destruct (taken_directory _ _ _ _ e _ _ _ H eq_refl (He eq_refl)) as [-> ->]. done.
  - unfold remembers. destruct (store_event ev) as [[op o]|] eqn:Hs; [|intros _; subst; lia].
    intros Hr. assert (Hle := takable_directory lower k e op d Hr). destruct o as [out|].
    + rewrite H in Hle. cbn in Hle. lia.
    + destruct H as [-> | ->]; lia.
Qed.

Lemma takes_bound lower k e log d d' :
  replays (happens lower) log d d' → Forall (λ x, remembers k e x.2) log →
  (length (List.filter (λ x, takes k x.2) log) <= takable k e (requests d))%nat.
Proof.
  revert d. induction log as [|[i ev] log IH]; intros d; cbn; [lia|]. intros (d1 & Hev & Hr) Hf.
  inversion Hf as [|?? Hx Hl]; subst. pose proof (takable_event _ _ _ _ _ _ Hev Hx). specialize (IH _ Hr Hl).
  destruct (takes k ev); cbn; lia.
Qed.

Lemma two_members {A} (l : list A) a b : a ∈ l → b ∈ l → a ≠ b → (2 <= length l)%nat.
Proof. destruct l as [|x [|y l]]; cbn; [by intros ?%elem_of_nil| |lia]. intros ->%list_elem_of_singleton ->%list_elem_of_singleton. done. Qed.

(** C19. A signed request acts once.  Programs run interleaved over the store, in any
    number and with crashes, and two of them are calls with the same request
    identifier (the same signed request, sent twice): at most one of the two does
    anything after its identifier was taken, or answers; provided that the row is
    remembered for that time: the identifier is taken with expiries no earlier than
    [e], and nothing is pruned at a time later than [e]. *)
Theorem signed_request_acts_once lower casefold isalnum repr canonical_ok canonical aes_encrypt aes_decrypt
    cf provider_method (progs : nat → P request) d log d' e i j m1 r1 c1 m2 r2 c2 :
  execution (happens lower) progs d log d' →
  let the_call := call lower casefold isalnum repr canonical_ok canonical aes_encrypt aes_decrypt cf provider_method in
  progs i = the_call m1 r1 c1 → progs j = the_call m2 r2 c2 → i ≠ j →
  context_text "request_id" c1 = context_text "request_id" c2 →
  Forall (λ x, remembers (context_text "request_id" c1) e x.2) log →
  ∃ t, (t = i ∨ t = j) ∧ ∀ o, traces (progs t) (events_of t log) o → ¬ went_on (events_of t log) o.
Proof.
  intros [Hr _] the_call Hi Hj Hne Hid Hf. pose proof (takes_bound _ _ _ _ _ _ Hr Hf) as Hb.
  set (k := context_text "request_id" c1) in *.
  assert (Htake : ∀ t m r c o, progs t = the_call m r c → context_text "request_id" c = k →
            traces (progs t) (events_of t log) o → went_on (events_of t log) o → existsb (takes k) (events_of t log) = true).
  { intros t m r c o -> Hk Ht Hgo. apply existsb_exists. eexists. split.
    - apply list_elem_of_In. by eapply went_on_taken.
    - by apply bool_decide_eq_true. }
  assert (Hin : ∀ t, existsb (takes k) (events_of t log) = true → ∃ ev, (t, ev) ∈ List.filter (λ x, takes k x.2) log).
  { intros t (ev & Hin%list_elem_of_In%events_in & Hk)%existsb_exists. exists ev.
    apply list_elem_of_In, List.filter_In. split; [by apply list_elem_of_In|done]. }
  destruct (existsb (takes k) (events_of i log)) eqn:Hti.
  - exists j. split; [by right|]. intros o Ht Hgo. apply Hin in Hti as [ev1 H1].
    destruct (Hin j) as [ev2 H2]; [by eapply Htake|].
    assert (2 <= length (List.filter (λ x, takes k x.2) log))%nat by (eapply two_members; [exact H1|exact H2|naive_solver]).
    unfold takable in Hb. repeat case_match; lia.
  - exists i. split; [by left|]. intros o Ht Hgo. by rewrite (Htake i m1 r1 c1 o) in Hti.
Qed.

(** ** What a signature binds *)

Ltac listed := apply (bool_decide_unpack _); by vm_compute.

Section Signatures.
Context (repr : json → pystr) (canonical_ok : json → bool) (canonical : json → pybytes).
Context (aes_encrypt : pybytes → pybytes → pybytes → pybytes → pybytes)
  (aes_decrypt : pybytes → pybytes → pybytes → pybytes → option pybytes).
Context `{!Crypto canonical_ok canonical aes_encrypt aes_decrypt}.

(** Canonical JSON determines the fields of an object. *)
Lemma canonical_fields kvs1 kvs2 :
  NoDup kvs1.*1 → NoDup kvs2.*1 → canonical_ok (JObj kvs1) = true → canonical_ok (JObj kvs2) = true →
  canonical (JObj kvs1) = canonical (JObj kvs2) →
  ∀ k, parsed (aes_decrypt := aes_decrypt) <$> assoc k kvs1 = parsed (aes_decrypt := aes_decrypt) <$> assoc k kvs2.
Proof.
  intros N1 N2 O1 O2 Heq k.
  pose proof (canonical_parses dict_hook _ dict_hook_ok O1) as P1.
  pose proof (canonical_parses dict_hook _ dict_hook_ok O2) as P2.
  rewrite Heq, P2 in P1. injection P1 as P1.
  destruct (parsed_fields _ _ _ _ kvs1 N1) as (f1 & E1 & F1).
  destruct (parsed_fields _ _ _ _ kvs2 N2) as (f2 & E2 & F2).
  rewrite <- F1, <- F2. congruence.
Qed.

Lemma signed_item k c : k ∈ CONTEXT_FIELDS → assoc (lit k) (signed_fields c) = Some (item_of k c).
Proof. intros Hk. unfold CONTEXT_FIELDS in Hk. repeat (apply elem_of_cons in Hk as [-> |Hk]; [reflexivity|]). by apply elem_of_nil in Hk. Qed.
Lemma signed_nodup c : NoDup (signed_fields c).*1.
Proof.
  change (NoDup (map lit CONTEXT_FIELDS)). apply (bool_decide_unpack _). by vm_compute.
Qed.
Lemma signed_same m1 m2 c1 c2 b :
  context_signed_bytes canonical_ok canonical m1 c1 = Ok b → context_signed_bytes canonical_ok canonical m2 c2 = Ok b →
  ∀ k, k ∈ CONTEXT_FIELDS →
    parsed (aes_decrypt := aes_decrypt) (item_of k c1) = parsed (aes_decrypt := aes_decrypt) (item_of k c2).
Proof.
  unfold context_signed_bytes, canonical_json. intros H1 H2 k Hk.
  repeat (case_match; try done). simplify_eq.
  match goal with E : canonical _ = canonical _ |- _ => rename E into He end.
  assert (Hs := canonical_fields _ _ (signed_nodup c2) (signed_nodup c1) ltac:(done) ltac:(done) ltac:(congruence) (lit k)).
  rewrite !signed_item in Hs by done. cbn in Hs. congruence.
Qed.

(** C18. A signature stands for one request.  If two contexts are accepted (for any
    methods and payloads, at any times) under one caller's key and carry the same
    signature, and HMAC-SHA256 does not collide on the two texts, then they are
    for the same method, the same anchor, binding, request and operation, with the
    same times; and if their digests are texts, then for payloads with the same
    SHA-256. *)
Theorem signature_binds cf m1 r1 c1 now1 an1 m2 r2 c2 now2 an2 key :
  verify_context repr canonical_ok canonical cf m1 r1 c1 now1 = Ok an1 →
  verify_context repr canonical_ok canonical cf m2 r2 c2 now2 = Ok an2 →
  caller_key cf c1 = Ok key → caller_key cf c2 = Ok key →
  fromhex (py_str repr (item_of "signature" c1)) = fromhex (py_str repr (item_of "signature" c2)) →
  (∀ b1 b2, context_signed_bytes canonical_ok canonical m1 c1 = Ok b1 →
     context_signed_bytes canonical_ok canonical m2 c2 = Ok b2 → hmac_sha256 key b1 = hmac_sha256 key b2 → b1 = b2) →
  m1 = m2 ∧ an1 = an2
  ∧ (∀ k, k ∈ identity_fields → item_of k c1 = item_of k c2)
  ∧ item_of "issued_at" c1 = item_of "issued_at" c2 ∧ item_of "expires_at" c1 = item_of "expires_at" c2
  ∧ ∀ d1 d2, item_of "payload_sha256" c1 = JStr d1 → item_of "payload_sha256" c2 = JStr d2 →
      payload_digest canonical_ok canonical r1 = payload_digest canonical_ok canonical r2.
Proof.
  intros V1 V2 K1 K2 Hsig Hcol.
  destruct (verify_ok _ _ _ _ _ _ _ _ _ V1) as (key1 & b1 & A1), (verify_ok _ _ _ _ _ _ _ _ _ V2) as (key2 & b2 & A2).
  pose proof A1 as [K1' _ D1 M1 S1 G1 _ W1 I1 J1 O1]. pose proof A2 as [K2' _ D2 M2 S2 G2 _ W2 I2 J2 O2].
  rewrite K1 in K1'. rewrite K2 in K2'. simplify_eq. rewrite G1, G2 in Hsig. injection Hsig as Hh.
  assert (b1 = b2) as <- by by apply Hcol.
  pose proof (signed_same _ _ _ _ _ S1 S2) as Hs.
  assert (Htext : ∀ k s1 s2, k ∈ CONTEXT_FIELDS → item_of k c1 = JStr s1 → item_of k c2 = JStr s2 → s1 = s2).
  { intros k s1 s2 Hk E1 E2. specialize (Hs k Hk). rewrite E1, E2, !parsed_text in Hs. congruence. }
  assert (Hid : ∀ k, k ∈ identity_fields → k ∈ CONTEXT_FIELDS).
  { apply Forall_forall, (bool_decide_unpack _). by vm_compute. }
  assert (Hsame : ∀ k, k ∈ identity_fields → context_text k c1 = context_text k c2 ∧ item_of k c1 = item_of k c2).
  { intros k Hk. destruct (accepted_text _ _ _ _ _ _ _ _ _ _ _ _ A1 Hk) as [E1 _], (accepted_text _ _ _ _ _ _ _ _ _ _ _ _ A2 Hk) as [E2 _].
    rewrite E1, E2. assert (context_text k c1 = context_text k c2) by (eapply Htext; eauto). split; congruence. }
  assert (Hint : ∀ k z1 z2, k ∈ CONTEXT_FIELDS → item_of k c1 = JInt z1 → item_of k c2 = JInt z2 → z1 = z2).
  { intros k z1 z2 Hk E1 E2. specialize (Hs k Hk). rewrite E1, E2, !parsed_int in Hs. congruence. }
  destruct (accepted_expires _ _ _ _ _ _ _ _ _ _ _ A1) as (i1 & e1 & Ei1 & Ee1 & _).
  destruct (accepted_expires _ _ _ _ _ _ _ _ _ _ _ A2) as (i2 & e2 & Ei2 & Ee2 & _).
  split_and!.
  - eapply (Htext "method"); [listed|done..].
  - destruct an1 as [? ? ? w1], an2 as [? ? ? w2]; cbn in *. subst.
    f_equal; try (apply Hsame; listed).
    assert (Hw : parsed (aes_decrypt := aes_decrypt) (item_of "workspace_id" c1)
                 = parsed (aes_decrypt := aes_decrypt) (item_of "workspace_id" c2)) by (apply Hs; listed).
    rewrite W1, W2 in Hw. destruct w1, w2; rewrite ?parsed_text, ?parsed_null in Hw; congruence.
  - intros k Hk. by apply Hsame.
  - rewrite Ei1, Ei2. f_equal. eapply (Hint "issued_at"); [listed|done..].
  - rewrite Ee1, Ee2. f_equal. eapply (Hint "expires_at"); [listed|done..].
  - intros d1 d2 E1 E2. rewrite D1, D2, E1, E2. cbn. f_equal. eapply (Htext "payload_sha256"); [listed|done..].
Qed.
End Signatures.
