(* ===== verification/CallReplay.v ===== *)
(** * Account center: a command is answered once

    What a command recorded is what a retry of it answers, and a retry does
    nothing else; over any interleaving of programs, and until the row is
    forgotten. *)

From Stdlib Require Import ZArith NArith.
From S2P Require Import Prelude PyText Json Sha256 Programs AccountStore AccountFacts AccountLaws.
From S2P Require Import ProfileStore ProfileSessions ProfileMachine ProfileFacts ProfileLaws.
From S2P Require Import PeopleText PeopleStore PeopleDirectory PeopleFacts AccountPrograms AccountGithub AccountHandlers.
From S2P Require Import AccountCall CallEvents CallCustody.

#[local] Open Scope Z_scope.

(** ** Rows of commands *)

Lemma account_recorded op d k b :
  account_record op (answer op d) = Some (k, b) →
  ∃ c, command_idempotency d !! k = Some c ∧ co_completed c = false
    ∧ command_idempotency (after op d) !! k = Some (finish_command b c).
Proof.
  pose proof (step_eq op d) as H. revert H. generalize (answer op d), (after op d). intros out d' H.
  step_cases H; cbn; try discriminate.
  all: intros; simplify_eq; eexists; rewrite lookup_insert_eq; by split_and!.
Qed.

(** A command as [begin] made it, open or with its answer. *)
Definition row_of (k : pystr) (d : directory) : option command := command_idempotency (tables d) !! k.
Definition same_or_done (c c' : command) : Prop := c' = c ∨ (co_completed c = false ∧ ∃ b, c' = finish_command b c).

(** Nothing forgets the row of [k] before [e]. *)
Definition keeps (k : pystr) (e : Z) (ev : event effect) : Prop :=
  match store_event ev with
  | Some (DCenter op, _) =>
      (∀ now, prune_time op = Some now → now <= e)
      ∧ match op with CBase (ABegin k' _ _ now) => k' = k → now < e | _ => True end
  | _ => True
  end.

Lemma same_or_done_expires c c' : same_or_done c c' → co_expires_at c' = co_expires_at c.
Proof. by intros [->|(_ & b & ->)]. Qed.
Lemma same_or_done_command c c' :
  same_or_done c c' → co_method c' = co_method c ∧ co_payload_sha256 c' = co_payload_sha256 c.
Proof. by intros [->|(_ & b & ->)]. Qed.
Lemma same_or_done_trans c1 c2 c3 : same_or_done c1 c2 → same_or_done c2 c3 → same_or_done c1 c3.
Proof. intros [->|(H & b & ->)]; [done|]. intros [->|(? & b' & ->)]; right; eauto. Qed.

Lemma kept_account k e op d c :
  (∀ now, op = APrune now → now <= e) → (∀ m p now, op = ABegin k m p now → now < e) →
  command_idempotency d !! k = Some c → co_expires_at c = e →
  ∃ c', command_idempotency (after op d) !! k = Some c' ∧ same_or_done c c'.
Proof.
  intros Hp Hb Hk He. destruct (command_moved op d k) as [o|o m p now Hop _ Ho|c2 b Hc|c2 now Hop Hl]; simplify_eq.
  - exists c. by split; [|left].
  - specialize (Hb _ _ _ eq_refl). specialize (Ho _ eq_refl). lia.
  - eexists. split; [done|]. right. eauto.
  - specialize (Hp _ eq_refl). lia.
Qed.
Lemma kept_run k e ops d c :
  Forall (λ op, (∀ now, op = APrune now → now <= e) ∧ (∀ m p now, op = ABegin k m p now → now < e)) ops →
  command_idempotency d !! k = Some c → co_expires_at c = e →
  ∃ c', command_idempotency (final account_step ops d) !! k = Some c' ∧ same_or_done c c'.
Proof.
  revert d c. induction ops as [|op ops IH]; intros d c Hf Hk He; [exists c; by split; [|left]|].
  inversion Hf as [|?? [Hp Hb] Hos]; subst. rewrite final_cons.
  destruct (kept_account k _ op d c Hp Hb Hk eq_refl) as (c1 & Hk1 & H1).
  destruct (IH _ _ Hos Hk1 (same_or_done_expires _ _ H1)) as (c2 & Hk2 & H2).
  exists c2. split; [done|]. by eapply same_or_done_trans.
Qed.

Lemma recorded_kept r t t' k c :
  command_result r t = Ok t' → command_idempotency t !! k = Some c →
  ∃ c', command_idempotency t' !! k = Some c' ∧ same_or_done c c'.
Proof.
  intros (m & -> & Hm)%command_result_tables Hk. cbn. destruct r as [[k' b]|]; [|subst; exists c; by split; [|left]].
  destruct Hm as (c1 & Hk1 & Hc & ->). destruct (decide (k' = k)) as [->|Hn].
  - simplify_eq. rewrite lookup_insert_eq. eexists. split; [done|]. right. eauto.
  - rewrite lookup_insert_ne by done. exists c. by split; [|left].
Qed.

Lemma kept_directory lower k e op d c :
  keeps k e (Event (Store op) None) → row_of k d = Some c → co_expires_at c = e →
  ∃ c', row_of k (directory_step lower op d).2 = Some c' ∧ same_or_done c c'.
Proof.
  intros Hr Hk He. pose proof (directory_recorded lower op d) as Ht. unfold row_of in *.
  destruct op as [op| | |]; [|destruct (directory_step _ _ d) as [out d']; by eapply recorded_kept..].
  rewrite Ht, center_base. destruct Hr as [Hp Hb]. eapply kept_run; [|done|done].
  apply Forall_forall. intros a Ha. split.
  - intros now ->. by apply Hp, (account_ops_prune _ (center_tables d)).
  - intros m p now ->. destruct op; cbn [account_ops] in Ha; repeat case_match; subst; try (by apply elem_of_nil in Ha);
      apply list_elem_of_In in Ha as [Ha|[]]; simplify_eq. by apply Hb.
Qed.

Lemma kept_event lower k e ev d d' c :
  happens lower ev d d' → keeps k e ev → row_of k d = Some c → co_expires_at c = e →
  ∃ c', row_of k d' = Some c' ∧ same_or_done c c'.
Proof.
  intros H%happens_store. unfold keeps.
  assert (Hsame : row_of k d = Some c → ∃ c', row_of k d = Some c' ∧ same_or_done c c') by (intros; exists c; by split; [|left]).
  destruct (store_event ev) as [[op o]|]; [|intros _ Hk _; subst; by apply Hsame].
  intros Hr Hk He. assert (Hs := kept_directory lower k e op d c Hr Hk He). destruct o as [out|].
  - by rewrite H in Hs.
  - destruct H as [-> | ->]; [by apply Hsame|done].
Qed.
Lemma kept_log lower k e log d d' c :
  replays (happens lower) log d d' → Forall (λ x, keeps k e x.2) log → row_of k d = Some c → co_expires_at c = e →
  ∃ c', row_of k d' = Some c' ∧ same_or_done c c'.
Proof.
  revert d c. induction log as [|[i ev] log IH]; intros d c; cbn; [intros ->; exists c; by split; [|left]|].
  intros (d1 & Hev & Hr) Hf Hk He. inversion Hf as [|?? Hx Hl]; subst.
  destruct (kept_event _ _ _ _ _ _ _ Hev Hx Hk eq_refl) as (c1 & Hk1 & H1).
  destruct (IH _ _ Hr Hl Hk1 (same_or_done_expires _ _ H1)) as (c2 & Hk2 & H2).
  exists c2. split; [done|]. by eapply same_or_done_trans.
Qed.

(** The answer that an event recorded for the command [k]. *)
Definition records (k : pystr) (ev : event effect) : option pybytes :=
  match store_event ev with
  | Some (op, Some out) =>
      match directory_record op out with Some (k', b) => if bool_decide (k' = k) then Some b else None | None => None end
  | _ => None
  end.

Lemma records_row lower k ev b d d' :
  happens lower ev d d' → records k ev = Some b →
  ∃ c, row_of k d = Some c ∧ co_completed c = false ∧ row_of k d' = Some (finish_command b c).
Proof.
  intros H%happens_store. unfold records, row_of. destruct (store_event ev) as [[op [out|]]|]; [|done..].
  destruct (directory_record op out) as [[k' b']|] eqn:Hrec; [|done]. case_bool_decide; [|done]. intros [= ->]. subst k'.
  pose proof (directory_recorded lower op d) as Ht. rewrite H in Ht.
  assert (Hother : command_result (directory_record op out) (tables d) = Ok (tables d') →
    ∃ c, command_idempotency (tables d) !! k = Some c ∧ co_completed c = false
      ∧ command_idempotency (tables d') !! k = Some (finish_command b c)).
  { rewrite Hrec. intros (m & Hm & c & Hk & Hc & ->)%command_result_tables. exists c. rewrite Hm. cbn. by rewrite lookup_insert_eq. }
  destruct op as [op| | |]; [|by apply Hother..]. clear Hother. cbn in H.
  destruct op as [op| | | | | | | | | | | | | | | | | | | | | | | | | | | | ]; try done.
  destruct out as [[out| | | | | | | | | | ]| | |]; try done. cbn [directory_record] in Hrec.
  assert (Hs : account_step op (tables d) = (out, tables d')).
  { unfold tables. cbn [center_step] in H. unfold base_step in H. destruct op; try done;
      destruct (account_step _ (base (center_tables d))) as [o t]; injection H as -> <-; done. }
  pose proof (account_recorded op (tables d) k b) as Ha. rewrite Hs in Ha. by apply Ha.
Qed.

(** ** Answers that are recorded *)

Section Replay.
Context (lower casefold : pystr → pystr) (isalnum : pystr → bool).
Context (canonical_ok : json → bool) (canonical : json → pybytes).
Context (aes_encrypt : pybytes → pybytes → pybytes → pybytes → pybytes)
  (aes_decrypt : pybytes → pybytes → pybytes → pybytes → option pybytes).
Context `{!Crypto canonical_ok canonical aes_encrypt aes_decrypt}.
Context (cf : config).

Abbreviation parsed := (parsed (aes_decrypt := aes_decrypt)).
Abbreviation decoded := (decode_response aes_decrypt (cf_encryption_key cf)).

(** The stored answer [b] of the command [k] stands for the value [v]. *)
Definition stands_for (k : pystr) (b : pybytes) (v : request) : Prop :=
  ∃ v', decoded k b = Ok v' ∧ JObj v' = parsed (JObj v).

Definition fits (v : json) : Prop := canonical_ok v = true ∧ len (canonical v) <= MAX_IDEMPOTENCY_RESPONSE_BYTES.

Lemma duplicates_hook kvs : NoDup kvs.*1 → reject_duplicate_pairs kvs = Some (JObj kvs).
Proof. intros. unfold reject_duplicate_pairs. by rewrite bool_decide_true. Qed.

(** A response of one field is decoded as it was encoded. *)
Lemma decode_field k nonce key v :
  is_Some (utf8_encode (idempotency_data k)) → length nonce = 12%nat → fits (JObj [(key, v)]) →
  decoded k (sealed_response canonical aes_encrypt (cf_encryption_key cf) nonce k (JObj [(key, v)]))
  = match parsed v with
    | JStr code => if bool_decide (key = lit "error") then Err (Denied code)
                   else Err (denied "idempotency_result_unavailable")
    | JObj kvs => if bool_decide (key = lit "value") then Ok kvs
                  else Err (denied "idempotency_result_unavailable")
    | _ => Err (denied "idempotency_result_unavailable")
    end.
Proof.
  intros [ad Had] Hn [Hok Hlen]. unfold decode_response, sealed_response, encoded. rewrite Had. cbn.
  erewrite decrypt_sealed by done. cbn. rewrite (proj2 (Z.leb_le _ _) Hlen). cbn [negb].
  rewrite (canonical_parses (aes_decrypt := aes_decrypt) reject_duplicate_pairs _ duplicates_hook Hok).
  destruct (parsed_object (aes_decrypt := aes_decrypt) [(key, v)]) as (kvs & -> & Hp). cbn in Hp.
  apply Permutation_singleton_r in Hp as ->. done.
Qed.

Lemma stands_sealed k nonce v :
  is_Some (utf8_encode (idempotency_data k)) → length nonce = 12%nat → fits (value_result v) →
  stands_for k (sealed_response canonical aes_encrypt (cf_encryption_key cf) nonce k (value_result v)) v.
Proof.
  intros Hk Hn Hf. unfold stands_for, value_result. rewrite decode_field by done.
  destruct (parsed_object (aes_decrypt := aes_decrypt) v) as (kvs & -> & _). by exists kvs.
Qed.

(** The answer that a program recorded last for the command [k]. *)
Definition recorder (k : pystr) (st : option pybytes) (ev : event effect) : option (option pybytes) :=
  Some (match records k ev with Some b => Some b | None => st end).

(** The environment: as [sensible], and the directory answers in short texts. *)
Definition presentable (ev : event effect) : Prop :=
  sensible lower ev
  ∧ match store_event ev with
    | Some (DDeclare _ _ _ _ _ _, Some (DoDeclared (Ok x))) => fits (value_result (declared_response x))
    | Some (DRetract _ r _ _, Some (DoRetracted (Ok y))) =>
        ∀ x, read_retraction lower r = Ok x → fits (value_result (retracted_response x.1 y))
    | _ => True
    end.

Definition unrecorded (B : Type) (e : effect B) : bool :=
  match e with
  | Store (DCenter (CBase op)) =>
      match op with
      | AComplete _ _ => false
      | ACreateSession _ _ _ _ _ _ _ _ _ r | ACompleteWecom _ _ _ _ _ _ r | AUnlink _ _ _ _ r _ _ | ASetRevocation _ _ _ r =>
          match r with None => true | Some _ => false end
      | _ => true
      end
  | Store (DDeclare _ _ _ _ _ (Some _)) | Store (DRetract _ _ _ (Some _)) | Store (DAdmin _ _ _ _ _ _ _ (Some _)) => false
  | _ => true
  end.

Abbreviation noted k := (wp presentable (recorder k)).

Lemma wp_unrecorded {A} k (p : P A) st (Q : option pybytes → result failure A → Prop) :
  only unrecorded p → (∀ r, Q st r) → noted k p st Q.
Proof.
  intros Hp HQ. eapply wp_only; [exact Hp| |exact HQ]. intros B e b He. unfold recorder, records.
  destruct e as [| | |op| |]; try done. cbn. destruct b as [out|]; [|done].
  destruct op as [op|? ? ? ? ? command|? ? ? command|? ? ? ? ? ? ? command]; cbn in *.
  - destruct op as [op| | | | | | | | | | | | | | | | | | | | | | | | | | | | ]; try done.
    destruct out as [[out| | | | | | | | | | ]| | |]; try done. destruct op; try done; cbn in *; by repeat case_match; simplify_eq.
  - destruct command; [done|]. by destruct out as [|[]| |].
  - destruct command; [done|]. by destruct out as [| |[]|].
  - destruct command; [done|]. by destruct out as [| | |[]].
Qed.

Ltac plain_rules :=
  repeat first
    [ progress (unfold mbind, prog_bind, store_unit, store_ref, store_begin, store_session, store_redeem, store_unlink,
        base_store, store, look, look_account, check, demand, clock, uuid4, urandom, github, encrypt, encode_response,
        encrypt_credential, encrypt_session_secret, secret_text, check_workspace, revoke_grant, revoke,
        command_result_of, unlink_account_of, unlink_profile_of)
    | progress only_rules ].

(** How a handler ends: with its answer recorded, or with nothing. *)
Definition told (k : pystr) (st : option pybytes) (o : result failure request) : Prop :=
  match o with Ok v => ∃ b, st = Some b ∧ stands_for k b v | Err _ => st = None end.

Lemma wp_encode k v st (Q : option pybytes → result failure pybytes → Prop) :
  (∀ x, Q st (Err x)) →
  (∀ nonce, length nonce = 12%nat → is_Some (utf8_encode (idempotency_data k)) → fits v →
     Q st (Ok (sealed_response canonical aes_encrypt (cf_encryption_key cf) nonce k v))) →
  noted k (encode_response canonical_ok canonical aes_encrypt (cf_encryption_key cf) k v) st Q.
Proof.
  intros HE HO. unfold encode_response, mbind, prog_bind. apply wp_bind, wp_lift. unfold canonical_json.
  destruct (canonical_ok v) eqn:Hok; [|apply HE]. apply wp_bind. unfold demand. case_match; [|apply HE].
  apply wp_bind, wp_lift. unfold encoded. destruct (utf8_encode (idempotency_data k)) as [ad|] eqn:Had; [|apply HE].
  apply wp_bind. unfold urandom, perform. cbn [wp]. intros nonce [Hn _]. unfold recorder. cbn [records store_event].
  specialize (HO nonce Hn). unfold sealed_response in HO. rewrite Had in HO. apply HO; [done|]. split; [done|lia].
Qed.

Lemma wp_result k v st (Q : option pybytes → result failure (option (pystr * pybytes)) → Prop) :
  (∀ x, Q st (Err x)) → (∀ b, stands_for k b v → Q st (Ok (Some (k, b)))) →
  noted k (command_result_of canonical_ok canonical aes_encrypt cf (Some k) v) st Q.
Proof.
  intros HE HO. unfold command_result_of, mbind, prog_bind. apply wp_bind, wp_encode; [done|].
  intros nonce Hn Hk Hf. apply HO. by apply stands_sealed.
Qed.

(** The rounds of a handler before its answer is recorded. *)
Lemma wp_idempotency {A} k (to_response : A → request) st
    (Q : option pybytes → result failure (option (pystr * (A → pybytes))) → Prop) :
  is_Some (utf8_encode (idempotency_data k)) →
  (∀ f, (∀ a, fits (value_result (to_response a)) → stands_for k (f a) (to_response a)) → Q st (Ok (Some (k, f)))) →
  noted k (idempotency_command canonical aes_encrypt cf to_response (Some k)) st Q.
Proof.
  intros Hk HQ. unfold idempotency_command, mbind, prog_bind. apply wp_bind. unfold urandom, perform. cbn [wp].
  intros nonce [Hn _]. unfold recorder. cbn [records store_event]. apply HQ. intros a Ha. by apply stands_sealed.
Qed.

Ltac told_steps :=
  cbv zeta;
  repeat lazymatch goal with
  | |- wp _ _ (pbind (command_result_of _ _ _ _ _ _) _) _ _ => apply wp_bind, wp_result; [done|]; intros ? ?
  | |- wp _ _ (pbind (idempotency_command _ _ _ _ _) _) _ _ => apply wp_bind, wp_idempotency; [done|]; intros ? ?
  | |- wp _ _ (let '(_, _) := ?x in _) _ _ => destruct x
  | |- wp _ _ (pbind (store _) _) _ _ => fail
  | |- wp _ _ (pbind (lift _) _) _ _ => apply wp_bind, wp_lift; case_match; [|reflexivity]
  | _ => apply wp_bind, wp_unrecorded; [plain_rules; fail|]; intros [?|?]; [|reflexivity]
  end.

(** The last call of a handler records the answer, or fails. *)
Ltac store_answers :=
  unfold store_ref, store_unit, store_unlink, base_store, store, check, mbind, prog_bind, perform; cbn [wp pbind];
  intros [out|] Henv;
  [destruct out as [[out| | | | | | | | | | ]|out|out|out]; try reflexivity; destruct out; try reflexivity;
   try match goal with r : R _ |- _ => destruct r end; try reflexivity;
   unfold recorder, records; cbn; rewrite bool_decide_true by done; cbn; eexists; split; [reflexivity|try done]
  |reflexivity].

Lemma told_begin_link r an k : noted k (begin_link canonical_ok canonical aes_encrypt cf r an (Some k)) None (told k).
Proof. unfold begin_link, mbind, prog_bind. told_steps. store_answers. Qed.

Lemma told_confirm r an k : noted k (confirm_wecom_link canonical_ok canonical aes_encrypt cf r an (Some k)) None (told k).
Proof. unfold confirm_wecom_link, mbind, prog_bind. told_steps. store_answers. Qed.

Lemma told_unlink r an k :
  noted k (unlink canonical_ok canonical aes_encrypt aes_decrypt cf r an (Some k)) None (told k).
Proof.
  unfold unlink, mbind, prog_bind. told_steps.
  match goal with |- wp _ _ (match ?x with _ => _ end) _ _ => destruct x end; told_steps; store_answers.
Qed.

Lemma unlink_plain r an : only unrecorded (unlink canonical_ok canonical aes_encrypt aes_decrypt cf r an None).
Proof. unfold unlink, command_result_of, mbind, prog_bind. cbn [pbind]. plain_rules. Qed.
Lemma told_revoke_links r an k :
  noted k (revoke_person_links lower canonical_ok canonical aes_encrypt aes_decrypt cf r an (Some k)) None (told k).
Proof.
  unfold revoke_person_links, mbind, prog_bind. told_steps.
  apply wp_bind, wp_unrecorded.
  { apply only_collect. intros ref. unfold unlink_account_of. apply only_bind; [apply unlink_plain|done]. }
  intros [accs|x]; [|reflexivity]. told_steps. store_answers.
Qed.

Lemma told_declare r an k : is_Some (utf8_encode (idempotency_data k)) →
  noted k (declare_handle canonical aes_encrypt cf r an (Some k)) None (told k).
Proof.
  intros Hk. unfold declare_handle, mbind, prog_bind. told_steps. store_answers.
  match goal with Hf : ∀ a, _ → stands_for _ _ _ |- _ => apply Hf end. by destruct Henv.
Qed.
Lemma told_retract r an k : is_Some (utf8_encode (idempotency_data k)) →
  noted k (retract_handle lower canonical aes_encrypt cf r an (Some k)) None (told k).
Proof.
  intros Hk. unfold retract_handle, check, mbind, prog_bind.
  destruct (read_retraction lower r) as [x|e] eqn:Hx; [|reflexivity]. cbn [raised lift pbind]. told_steps. store_answers.
  match goal with Hf : ∀ a, _ → stands_for _ _ _ |- _ => apply Hf end. destruct Henv as [_ Henv]. by apply Henv.
Qed.

(** The methods whose answers are recorded with what they do; the provider's
    methods are an argument. *)
Definition recording_methods : list pystr :=
  map lit ["begin_link"; "confirm_wecom_link"; "unlink"; "revoke_person_links"; "declare_account_handle";
           "retract_account_handle"].

Context (provider_method : pystr → request → Anchor → pystr → request → option pystr → P request).
Abbreviation the_dispatch := (dispatch lower casefold isalnum canonical_ok canonical aes_encrypt aes_decrypt cf provider_method).
Abbreviation the_command := (run_command lower casefold isalnum canonical_ok canonical aes_encrypt aes_decrypt cf provider_method).

Lemma told_dispatch m r an caller context k :
  m ∈ recording_methods → is_Some (utf8_encode (idempotency_data k)) →
  noted k (the_dispatch m r an caller context (Some k)) None (told k).
Proof.
  intros Hm Hk. unfold recording_methods in Hm. cbn [map] in Hm.
  repeat (apply elem_of_cons in Hm as [-> |Hm]);
    [apply told_begin_link|apply told_confirm|apply told_unlink|apply told_revoke_links|by apply told_declare
    |by apply told_retract|by apply elem_of_nil in Hm].
Qed.

(** How a command ends: its answer, or its error, recorded; or nothing. *)
Definition settled_as (k : pystr) (st : option pybytes) (o : result failure request) : Prop :=
  match o with
  | Ok v => ∃ b, st = Some b ∧ stands_for k b v
  | Err x => ∀ b, st = Some b → ∃ code, code_of x = Some code ∧ decoded k b = Err (Denied code)
  end.

Lemma settled_command m r an caller context k :
  m ∈ recording_methods → is_Some (utf8_encode (idempotency_data k)) →
  noted k (catch (the_dispatch m r an caller context (Some k))
             (λ x, Some (command_failed canonical_ok canonical aes_encrypt cf k x))) None (settled_as k).
Proof.
  intros Hm Hk. apply wp_catch. eapply wp_mono; [by apply told_dispatch|]. intros st [v|x]; [done|]. cbn. intros ->.
  unfold command_failed, mbind, prog_bind. cbv zeta. apply wp_bind, wp_encode; [done|].
  intros nonce Hn _ Hf. unfold store_unit, base_store, store, check, mbind, prog_bind, perform; cbn [wp pbind].
  intros [out|] _; [|done]. unfold recorder, records; cbn [store_event].
  destruct out as [[out| | | | | | | | | | ]|out|out|out]; try done.
  destruct out as [[[]|]| | | | | | | |]; try done.
  cbn [directory_record account_record]. rewrite bool_decide_true by done. cbn [wp pbind lift raised settled_as].
  intros b [= <-]. exists (default (lit "execution_failed") (code_of x)). split.
  { destruct (code_of x) eqn:E; cbn; [by rewrite E|done]. }
  rewrite decode_field by done. by rewrite parsed_text, bool_decide_true.
Qed.

(** ** Runs of a command *)

Definition command_key (m : pystr) (an : Anchor) (r : request) : result failure pystr :=
  key ← idempotency_key r; idempotency_scope_hash canonical_ok canonical m an key.
Definition command_digest (r : request) : result failure pystr := payload_digest canonical_ok canonical (command_body r).
Definition begin_op (k m p : pystr) (now : Z) : directory_op := DCenter (CBase (ABegin k m p now)).
Definition begun : option directory_out := Some (DoCenter (CoBase (AoBegin (Ok None)))).
Definition begin_answer (out : option directory_out) : result failure (option pybytes) :=
  match out with
  | Some (DoCenter (CoBase (AoBegin x))) => raised x
  | Some _ => Err Broken
  | None => Err (denied "storage_unavailable")
  end.

Lemma command_traces m r an caller context k p tr o :
  command_key m an r = Ok k → command_digest r = Ok p →
  traces (the_command m r an caller context) tr o →
  match tr with
  | [] => o = None
  | e1 :: tr =>
      ∃ now, e1 = Event Clock now ∧
      match tr with
      | [] => o = None
      | e2 :: tr =>
          ∃ out, e2 = Event (Store (begin_op k m p now)) out ∧
          match begin_answer out with
          | Ok None =>
              traces (catch (the_dispatch m (command_body r) an caller context (Some k))
                        (λ x, Some (command_failed canonical_ok canonical aes_encrypt cf k x))) tr o
          | Ok (Some b) => tr = [] ∧ (o = None ∨ o = Some (decoded k b))
          | Err x => tr = [] ∧ (o = None ∨ o = Some (Err x))
          end
      end
  end.
Proof.
  unfold command_key. intros Hk Hp H. inv_result. unfold run_command, mbind, prog_bind in H.
  match goal with E : idempotency_key r = Ok _ |- _ => rewrite E in H end.
  match goal with E : idempotency_scope_hash _ _ _ _ _ = Ok _ |- _ => cbn [lift pbind] in H; rewrite E in H end.
  unfold command_digest in Hp. cbn [lift pbind] in H. rewrite Hp in H. cbn [lift pbind] in H.
  destruct tr as [|e1 tr]; cbn [traces clock perform pbind] in H; [by destruct H as [?|?]|].
  destruct H as (now & -> & H). exists now. split; [done|].
  destruct tr as [|e2 tr]; cbn in H; [by destruct H as [?|?]|].
  destruct H as (out & -> & H). exists out. split; [done|].
  assert (Hend : ∀ q x, q = Raise x → traces q tr o → tr = [] ∧ (o = None ∨ o = Some (Err x)))
    by (intros q x -> Hq; destruct tr; [split; [done|exact Hq]|done]).
  destruct out as [[[out| | | | | | | | | | ]| | |]|]; cbn [begin_answer]; try by eapply Hend.
  destruct out as [|[[b|]|e]| | | | | | |]; cbn [raised]; try by eapply Hend.
  - cbn in H. destruct (decoded k b); cbn in H; destruct tr; try done; by split.
  - exact H.
Qed.

Lemma key_encodable m an r k : command_key m an r = Ok k → is_Some (utf8_encode (idempotency_data k)).
Proof.
  unfold command_key, idempotency_scope_hash. intros H. inv_result.
  eexists. apply utf8_encode_ascii. unfold idempotency_data, is_ascii. rewrite forallb_app. apply andb_true_iff. split; [done|].
  match goal with |- forallb _ (sha256_hex ?b) = true => pose proof (sha256_hex_chars b) as Hc end.
  rewrite forallb_forall in Hc |- *. intros c Hin. apply Hc in Hin. unfold is_hex_lower, is_digit_ascii, between in Hin.
  rewrite orb_true_iff, !andb_true_iff, !N.leb_le in Hin. apply N.ltb_lt. lia.
Qed.
End Replay.

(** ** Where a command stands in the log *)

(** A log in which an event of [i] has happened. *)
Lemma events_split {E} i (ev : event E) pre tr log :
  events_of i log = pre ++ ev :: tr → ∃ log1 log2, log = log1 ++ (i, ev) :: log2 ∧ events_of i log2 = tr.
Proof.
  revert pre. induction log as [|[j ev'] log IH]; intros pre; [by destruct pre|].
  change ((j, ev') :: log) with ([(j, ev')] ++ log). rewrite events_of_app. unfold events_of at 1. cbn.
  case_bool_decide as Hj; cbn.
  - destruct pre as [|e pre]; intros [= <- H].
    + subst. by exists [], log.
    + destruct (IH _ H) as (l1 & l2 & -> & ?). by exists ((j, ev') :: l1), l2.
  - intros H. destruct (IH _ H) as (l1 & l2 & -> & ?). by exists ((j, ev') :: l1), l2.
Qed.

(** A command that was begun, and what [i] recorded for it. *)
Lemma begun_row lower k m p now d d' :
  happens lower (Event (Store (begin_op k m p now)) begun) d d' →
  row_of k d' = Some (Command m p false None now (now + IDEMPOTENCY_RETENTION_SECONDS)).
Proof.
  unfold row_of, tables. cbn. destruct (begin_idempotent_command _ _ _ _ _) as [r t] eqn:H. intros [= -> <-]. cbn.
  unfold begin_idempotent_command in H. apply transact_ok in H. unfold begin_command_txn in H.
  repeat case_match; inv_result; simplify_eq; cbn; by rewrite lookup_insert_eq.
Qed.

Lemma recorded_log lower k e log d d' c ev b :
  replays (happens lower) log d d' → Forall (λ x, keeps k e x.2) log → row_of k d = Some c → co_expires_at c = e →
  co_completed c = false → ev ∈ log → records k ev.2 = Some b → row_of k d' = Some (finish_command b c).
Proof.
  intros Hr Hf Hk He Hc Hin Hb. destruct ev as [j ev]. apply list_elem_of_In, in_split in Hin as (log1 & log2 & ->).
  apply replays_app in Hr as (d1 & H1 & d2 & Hev & H2). apply Forall_app in Hf as [F1 [Fe F2]%Forall_cons].
  destruct (kept_log _ _ _ _ _ _ _ H1 F1 Hk He) as (c1 & Hk1 & Hc1).
  destruct (records_row _ _ _ _ _ _ Hev Hb) as (c2 & Hk2 & Hopen & Hk3). simplify_eq.
  destruct Hc1 as [->|(_ & b' & ->)]; [|done].
  destruct (kept_log _ _ _ _ _ _ _ H2 F2 Hk3 eq_refl) as (c3 & Hk4 & [->|[? _]]); [exact Hk4|done].
Qed.

(** What a program recorded along its events. *)
Lemma recorder_watch k tr st0 st :
  watch (recorder k) st0 tr = Some st →
  (st = st0 ∧ ∀ ev, ev ∈ tr → records k ev = None) ∨ ∃ ev b, ev ∈ tr ∧ records k ev = Some b ∧ st = Some b.
Proof.
  revert st0. induction tr as [|ev tr IH]; intros st0; cbn.
  - intros [= ->]. left. split; [done|]. by intros ? ?%elem_of_nil.
  - unfold recorder at 1. intros H. destruct (records k ev) as [b|] eqn:Hb.
    + destruct (IH _ H) as [[-> _]|(ev' & b' & Hin & ?)]; right; [exists ev, b; split; [left|]; done|].
      exists ev', b'. split; [by right|done].
    + destruct (IH _ H) as [[-> Hn]|(ev' & b' & Hin & ?)].
      * left. split; [done|]. intros ev' [->|?]%elem_of_cons; auto.
      * right. exists ev', b'. split; [by right|done].
Qed.

(** A later [begin] of the same command finds its row. *)
Lemma begin_again lower k m p now c out d d' :
  happens lower (Event (Store (begin_op k m p now)) out) d d' →
  row_of k d = Some c → co_method c = m → co_payload_sha256 c = p → now < co_expires_at c →
  begin_answer out = Err (denied "storage_unavailable")
  ∨ begin_answer out = match co_completed c, co_response c with
                       | true, Some b => Ok (Some b)
                       | _, _ => Err (denied "idempotency_in_progress")
                       end.
Proof.
  intros H Hk Hm Hp He. destruct out as [out|]; [|by left]. right. cbn in H. unfold row_of, tables in Hk.
  destruct (begin_idempotent_command _ _ _ _ _) as [r t] eqn:Hb. injection H as <- _. cbn [begin_answer].
  unfold begin_idempotent_command, transact, begin_command_txn in Hb. rewrite Hk in Hb.
  rewrite (proj2 (Z.leb_gt _ _) He) in Hb. rewrite !bool_decide_true in Hb by done. cbn in Hb.
  destruct (co_completed c), (co_response c); cbn in Hb; by injection Hb as <- _.
Qed.

Section Answered.
Context (lower casefold : pystr → pystr) (isalnum : pystr → bool).
Context (canonical_ok : json → bool) (canonical : json → pybytes).
Context (aes_encrypt : pybytes → pybytes → pybytes → pybytes → pybytes)
  (aes_decrypt : pybytes → pybytes → pybytes → pybytes → option pybytes).
Context (cf : config).
Context (provider_method : pystr → request → Anchor → pystr → request → option pystr → P request).
Abbreviation the_command := (run_command lower casefold isalnum canonical_ok canonical aes_encrypt aes_decrypt cf provider_method).

(** Two answers of one command: the second says what the first did, or that the
    store is not available. *)
Definition same_answer (parsed : json → json) (first second : result failure request) : Prop :=
  second = Err (denied "storage_unavailable")
  ∨ match first with
    | Ok v => ∃ v', second = Ok v' ∧ JObj v' = parsed (JObj v)
    | Err x => ∃ code, code_of x = Some code ∧ second = Err (Denied code)
    end.

(** What the first run leaves in its row. *)
Lemma first_run `{!Crypto canonical_ok canonical aes_encrypt aes_decrypt} m r an caller context k p t now tr i lb s1 d1 o :
  m ∈ recording_methods → command_key canonical_ok canonical m an r = Ok k → command_digest canonical_ok canonical r = Ok p →
  replays (happens lower) lb s1 d1 → Forall (λ x, keeps k (now + IDEMPOTENCY_RETENTION_SECONDS) x.2) lb →
  row_of k s1 = Some (Command m p false None now (now + IDEMPOTENCY_RETENTION_SECONDS)) →
  events_of i lb = tr → Forall (presentable lower canonical_ok canonical) tr →
  traces (the_command m r an caller context)
    (Event Clock t :: Event (Store (begin_op k m p now)) begun :: tr) (Some o) →
  (∃ v, o = Ok v) ∨ (∃ ev b, ev ∈ tr ∧ records k ev = Some b) →
  ∃ b, row_of k d1 = Some (Command m p true (Some b) now (now + IDEMPOTENCY_RETENTION_SECONDS))
    ∧ settled_as canonical_ok canonical aes_encrypt aes_decrypt cf k (Some b) o.
Proof.
  intros Hm Hk Hp R F Hrow Htr Hpres Ht Hdone.
  eapply command_traces in Ht; [|done..]. destruct Ht as (t' & _ & out & Hout & Ht).
  assert (out = begun) as ->.
  { apply (f_equal store_event) in Hout. cbn in Hout. congruence. }
  cbn [begin_answer begun raised] in Ht.
  destruct (wp_sound _ _ _ None _ _ _ (settled_command lower casefold isalnum _ _ _ _ cf provider_method m
              (command_body r) an caller context k Hm (key_encodable _ _ _ _ _ _ Hk)) Ht Hpres) as (st & Hw & Hst).
  specialize (Hst o eq_refl). apply recorder_watch in Hw as [[-> Hn]|(ev & b & Hin & Hb & ->)].
  - exfalso. destruct Hdone as [[v ->]|(ev & b & Hin & Hb)]; [by destruct Hst as (? & ? & _)|]. by rewrite Hn in Hb.
  - exists b. split; [|done]. rewrite <- Htr in Hin. apply events_in in Hin.
    by rewrite (recorded_log _ _ _ _ _ _ _ _ _ R F Hrow eq_refl eq_refl Hin Hb).
Qed.

End Answered.
