(* ===== verification/CallExamples.v ===== *)
(** * Account center: concrete calls

    A concrete choice of the two libraries, an environment that answers every
    effect, and runs of signed calls in it, with the theorems on calls applied to
    them. *)

From Stdlib Require Import ZArith NArith.
From S2P Require Import Prelude PyText Json Sha256 Programs AccountStore AccountFacts.
From S2P Require Import ProfileStore ProfileSessions ProfileMachine ProfileFacts PeopleText PeopleStore PeopleDirectory PeopleFacts.
From S2P Require Import AccountPrograms AccountGithub AccountHandlers AccountCall.
From S2P Require Import CallEvents CallRefresh CallCustody CallGate CallReplay.

#[local] Open Scope Z_scope.

(** ** The libraries *)

(** JSON with sorted keys, and a cipher that does not hide. *)
Definition canonical (v : json) : pybytes := default [] (utf8_encode (dumps_sorted v)).
Definition canonical_ok (v : json) : bool := json_ok v && bool_decide (is_Some (utf8_encode (dumps_sorted v))).
Definition open_seal (k n m ad : pybytes) : pybytes := m.
Definition open_unseal (k n c ad : pybytes) : option pybytes := Some c.

#[export] Instance example_crypto : Crypto canonical_ok canonical open_seal open_unseal.
Proof.
  assert (Hok : ∀ v, canonical_ok v = true → json_ok v = true ∧ ∃ b, utf8_encode (dumps_sorted v) = Some b ∧ canonical v = b).
  { intros v [? [b Hb]%bool_decide_eq_true]%andb_true_iff. unfold canonical. rewrite Hb. eauto. }
  refine {| parsed := json_sort |}; try done.
  - intros hook v Hhook (Hv & b & Hb & ->)%Hok. rewrite (utf8_decode_encode _ _ Hb). cbn.
    unfold dumps_sorted. by apply loads_with_dumps, json_sort_ok.
  - intros v Hv. destruct (Hok v Hv) as (Hj & b & Hb & _). unfold canonical_ok, canonical, dumps_sorted in *.
    rewrite json_sort_idem, json_sort_ok by done. split; [|done]. by rewrite Hb.
  - intros kvs. eexists. split; [reflexivity|]. rewrite sort_items_perm. apply reflexive_eq, map_ext. by intros [].
Defined.

(** ** An environment *)

Definition lowered : pystr → pystr := map lower_ascii.
Definition alphanumeric (s : pystr) : bool :=
  negb (bool_decide (s = [])) && forallb (λ c, is_upper_ascii c || is_lower_ascii c || is_digit_ascii c) s.
Definition no_repr (v : json) : pystr := [].

(** The store, the time, a counter of identifiers and GitHub's next replies. *)
Record world := World { w_store : directory; w_time : Z; w_next : N; w_replies : list reply }.
Definition uuid_of (n : N) : pystr := lit "00000000-0000-4000-8000-00000000000" ++ [(48 + n mod 10)%N].
Definition answer (B : Type) (e : effect B) (w : world) : B * world :=
  match e in effect B return B * world with
  | Clock => (w_time w, w)
  | Uuid => (uuid_of (w_next w), World (w_store w) (w_time w) (w_next w + 1) (w_replies w))
  | Urandom n => (replicate n 7%N, w)
  | Store op => let '(out, d) := directory_step lowered op (w_store w) in (Some out, World d (w_time w) (w_next w) (w_replies w))
  | Read f => (f (w_store w), w)
  | Github q => (default Unreachable (head (w_replies w)), World (w_store w) (w_time w) (w_next w) (tail (w_replies w)))
  end.

Lemma answer_happens B (e : effect B) w :
  happens lowered (Event e (answer B e w).1) (w_store w) (w_store (answer B e w).2).
Proof. destruct e; cbn; try done. by destruct (directory_step lowered op (w_store w)). Qed.

(** The environment is sensible if the references of sessions have an encoding. *)
Definition session_encodable (ev : event effect) : bool :=
  match store_event ev with
  | Some (_, Some (DoCenter (CoBase (AoSession (Ok (ref, _)))))) => bool_decide (is_Some (utf8_encode ref))
  | _ => true
  end.
Lemma answer_sensible B (e : effect B) w :
  session_encodable (Event e (answer B e w).1) = true → sensible lowered (Event e (answer B e w).1).
Proof.
  destruct e as [| |n|op| |]; try done.
  - intros _. change (is_Some (utf8_encode (uuid_of (w_next w)))). eexists. apply utf8_encode_ascii.
    unfold is_ascii, uuid_of. rewrite forallb_app.
    apply andb_true_iff. split; [done|]. cbn. rewrite andb_true_r. apply N.ltb_lt.
    pose proof (N.mod_lt (w_next w) 10 ltac:(done)). lia.
  - intros _. cbn. apply length_replicate.
  - unfold session_encodable. cbn. destruct (directory_step lowered op (w_store w)) as [out d] eqn:H. cbn. intros He.
    split; [exists (w_store w); by rewrite H|]. destruct out as [[[]| | | | | | | | | | ]| | |]; try done.
    destruct r as [[ref s]|]; [|done]. by apply bool_decide_eq_true in He.
Qed.

Definition runs_in {A} (p : P A) (w : world) := Programs.run answer p w.
Definition events_in_run {A} (p : P A) (w : world) : list (event effect) := (runs_in p w).1.1.
Definition outcome {A} (p : P A) (w : world) : result failure A := (runs_in p w).1.2.
Definition after_run {A} (p : P A) (w : world) : world := (runs_in p w).2.

Lemma checked_all {A} (f : A → bool) (Q : A → Prop) l : forallb f l = true → (∀ x, f x = true → Q x) → Forall Q l.
Proof.
  intros H Hf. induction l as [|x l IH]; [constructor|]. apply andb_true_iff in H as [Hx Hl]. constructor; [by apply Hf|by apply IH].
Qed.
Lemma run_checked {A} (f : event effect → bool) (Q : event effect → Prop) (p : P A) w :
  (∀ B (e : effect B) w, f (Event e (answer B e w).1) = true → Q (Event e (answer B e w).1)) →
  forallb f (events_in_run p w) = true → Forall Q (events_in_run p w).
Proof.
  intros Ha H.
  assert (Hg : Forall (λ ev, f ev = true → Q ev) (events_in_run p w)) by (apply run_events; intros; by apply Ha).
  induction Hg as [|ev l Hev Hl IH]; [constructor|]. apply andb_true_iff in H as [? ?]. constructor; auto.
Qed.
Lemma run_happens {A} i (p : P A) w :
  replays (happens lowered) (map (pair i) (events_in_run p w)) (w_store w) (w_store (after_run p w)).
Proof. apply (run_replays answer (happens lowered) w_store). intros. apply answer_happens. Qed.

(** ** Signed calls *)

#[local] Open Scope string_scope.
Definition master : pybytes := replicate 32 1%N.
Definition exchange_key : pybytes := replicate 32 2%N.
Definition settings : config :=
  Config (lit "p1") master (lit "binding") (Some (Client (lit "client") (lit "secret")))
    (Some (lit "https://host/callback")) [(lit "exchange", exchange_key)]
    [(lit "begin_link", [lit "exchange"]); (lit "complete_github_link", [lit "exchange"]); (lit "unlink", [lit "exchange"]);
     (lit "redeem_credential_lease", [lit "exchange"]); (lit "list_links", [lit "exchange"]); (lit "unlink_provider_profile", [lit "exchange"])]
    (lit "exchange") (lit "exchange") [] None.
Definition ada : Anchor := MkAnchor (lit "iss") (lit "ada") (lit "org") None.

Definition unsigned (m : string) (r : request) (id : string) (at_ : Z) : request :=
  [(lit "method", JStr (lit m)); (lit "payload_sha256", JStr (sha256_hex (canonical (JObj r))));
   (lit "caller_id", JStr (lit "exchange")); (lit "issuer", JStr (lit "iss")); (lit "subject", JStr (lit "ada"));
   (lit "organization_id", JStr (lit "org")); (lit "workspace_id", JNull); (lit "binding_id", JStr (lit "binding"));
   (lit "request_id", JStr (lit id)); (lit "issued_at", JInt at_); (lit "expires_at", JInt (at_ + 60)%Z);
   (lit "operation_id", JStr (lit m))].
Definition signed (m : string) (r : request) (id : string) (at_ : Z) : request :=
  let c := unsigned m r id at_ in
  c ++ [(lit "signature", JStr (hexdigest (hmac_sha256 exchange_key (canonical (JObj (signed_fields c))))))].
Definition no_provider (m : pystr) (r : request) (an : Anchor) (caller : pystr) (context : request)
  (k : option pystr) : P request := Raise (denied "method_not_found").
Definition calling (m : string) (r c : request) : P request :=
  call lowered lowered alphanumeric no_repr canonical_ok canonical open_seal open_unseal settings no_provider (lit m) r c.

Definition begin_request : request := [(lit "provider", JStr (lit "wecom")); (lit "idempotency_key", JStr (lit "k-1"))].
Definition begin_context : request := Eval vm_compute in signed "begin_link" begin_request "r-1" 1000.
Definition world0 : world := World empty_directory 1010 1 [].
#[local] Close Scope string_scope.

Example begin_answers :
  is_ok (outcome (calling "begin_link" begin_request begin_context) world0) = true
  ∧ length (events_in_run (calling "begin_link" begin_request begin_context) world0) = 10%nat.
Proof. vm_compute. done. Qed.

(** ** The gate *)

Lemma nothing_before_authentication_witness :
  ∃ now an key signed,
    now = 1010 ∧ admitted no_repr canonical_ok canonical settings (lit "begin_link") begin_request begin_context now an
    ∧ accepted no_repr canonical_ok canonical settings (lit "begin_link") begin_request begin_context now an key signed.
Proof.
  set (p := calling "begin_link" begin_request begin_context).
  pose proof (nothing_before_authentication lowered lowered alphanumeric no_repr canonical_ok canonical open_seal open_unseal
    settings no_provider (lit "begin_link") begin_request begin_context _ _ (run_traces answer p world0)) as H.
  assert (Hl : map (λ ev, match ev with Event e b => match e in effect B return B → Z with Clock => λ b, b | _ => λ _, 0 end b end)
                 (take 2 (events_in_run p world0)) = [1010; 0]) by by vm_compute.
  unfold events_in_run, runs_in in Hl. fold p in H.
  destruct (Programs.run answer p world0).1.1 as [|e1 [|e2 tr]]; [done..|].
  destruct H as (now & -> & an & key & sg & out & Ha & Hc & _). exists now, an, key, sg.
  split; [|done]. cbn in Hl. congruence.
Defined.

Lemma signature_binds_witness :
  ∃ an, verify_context no_repr canonical_ok canonical settings (lit "begin_link") begin_request (rev begin_context) 1011 = Ok an
        ∧ an = ada ∧ item_of "request_id" begin_context = item_of "request_id" (rev begin_context).
Proof.
  exists ada.
  assert (H1 : verify_context no_repr canonical_ok canonical settings (lit "begin_link") begin_request begin_context 1010 = Ok ada)
    by by vm_compute.
  assert (H2 : verify_context no_repr canonical_ok canonical settings (lit "begin_link") begin_request (rev begin_context) 1011
               = Ok ada) by by vm_compute.
  assert (Hsame : context_signed_bytes canonical_ok canonical (lit "begin_link") begin_context
                  = context_signed_bytes canonical_ok canonical (lit "begin_link") (rev begin_context)) by by vm_compute.
  assert (K1 : caller_key settings begin_context = Ok exchange_key) by by vm_compute.
  assert (K2 : caller_key settings (rev begin_context) = Ok exchange_key) by by vm_compute.
  assert (Hsig : fromhex (py_str no_repr (item_of "signature" begin_context))
                 = fromhex (py_str no_repr (item_of "signature" (rev begin_context)))) by by vm_compute.
  assert (Hcol : ∀ b1 b2, context_signed_bytes canonical_ok canonical (lit "begin_link") begin_context = Ok b1 →
            context_signed_bytes canonical_ok canonical (lit "begin_link") (rev begin_context) = Ok b2 →
            hmac_sha256 exchange_key b1 = hmac_sha256 exchange_key b2 → b1 = b2) by (intros; congruence).
  destruct (signature_binds no_repr canonical_ok canonical open_seal open_unseal settings _ _ _ _ _ _ _ _ _ _ exchange_key
              H1 H2 K1 K2 Hsig Hcol) as (_ & Han & Hid & _).
  split_and!; [exact H2|exact Han|apply Hid; listed].
Defined.

(** Two programs, one after the other. *)
Definition then_log {A} (p q : P A) (w : world) : list (nat * event effect) :=
  map (pair 0%nat) (events_in_run p w) ++ map (pair 1%nat) (events_in_run q (after_run p w)).
Definition one_other {A} (p q : P A) (i : nat) : P A := match i with 1%nat => q | _ => p end.
Lemma then_execution {A} (p q : P A) w :
  execution (happens lowered) (one_other p q) (w_store w) (then_log p q w) (w_store (after_run q (after_run p w))).
Proof.
  split.
  - apply replays_app. eexists. split; apply run_happens.
  - intros i. unfold then_log. rewrite events_of_app. destruct i as [|[|i]].
    + rewrite events_of_map, events_of_other, app_nil_r by done. eexists. apply run_traces.
    + rewrite events_of_map, events_of_other by done. eexists. apply run_traces.
    + rewrite !events_of_other by done. exists None. destruct p; by left.
Qed.

Definition remembered (k : pystr) (e : Z) (ev : event effect) : bool :=
  match store_event ev with
  | Some (DCenter op, _) =>
      match prune_time op with Some now => now <=? e | None => true end
      && match op with CBase (AConsume k' e') => negb (bool_decide (k' = k)) || (e <=? e') | _ => true end
  | _ => true
  end.
Lemma remembered_ok k e ev : remembered k e ev = true → remembers k e ev.
Proof.
  unfold remembered, remembers. destruct (store_event ev) as [[[op| | |] o]|]; try done.
  intros [Hp Hc]%andb_true_iff. split.
  - intros now Hn. rewrite Hn in Hp. lia.
  - destruct op as [op| | | | | | | | | | | | | | | | | | | | | | | | | | | | ]; try done. destruct op; try done. intros ->.
    rewrite bool_decide_true in Hc by done. cbn in Hc. lia.
Qed.

(** The signed request is sent twice; the second time it does nothing. *)
Lemma signed_request_acts_once_witness :
  let p := calling "begin_link" begin_request begin_context in
  let log := then_log p p world0 in
  went_on (events_of 0 log) (Some (outcome p world0))
  ∧ ∃ t, (t = 0 ∨ t = 1)%nat ∧ ∀ o, traces p (events_of t log) o → ¬ went_on (events_of t log) o.
Proof.
  intros p log. split.
  { left. subst log. unfold then_log. rewrite events_of_app, events_of_map, events_of_other, app_nil_r by done.
    apply Nat.ltb_lt. by vm_compute. }
  assert (Hf : Forall (λ x, remembers (context_text "request_id" begin_context) 1060 x.2) log).
  { assert (H : forallb (λ x, remembered (context_text "request_id" begin_context) 1060 x.2) log = true) by by vm_compute.
    apply (checked_all _ _ _ H). intros x. apply remembered_ok. }
  pose proof (then_execution p p world0) as He. fold log in He.
  destruct (signed_request_acts_once lowered lowered alphanumeric no_repr canonical_ok canonical open_seal open_unseal
    settings no_provider (one_other p p) (w_store world0) log (w_store (after_run p (after_run p world0))) 1060 0 1
    (lit "begin_link") begin_request begin_context (lit "begin_link") begin_request begin_context
    He eq_refl eq_refl (ltac:(done)) eq_refl Hf) as (t & Ht & H).
  exists t. split; [exact Ht|]. intros o Ho. apply H. destruct Ht as [-> | ->]; exact Ho.
Defined.

(** ** A command and its retry *)

Definition kept (k : pystr) (e : Z) (ev : event effect) : bool :=
  match store_event ev with
  | Some (DCenter op, _) =>
      match prune_time op with Some now => now <=? e | None => true end
      && match op with CBase (ABegin k' _ _ now) => negb (bool_decide (k' = k)) || (now <? e) | _ => true end
  | _ => true
  end.
Lemma kept_ok k e ev : kept k e ev = true → keeps k e ev.
Proof.
  unfold kept, keeps. destruct (store_event ev) as [[[op| | |] o]|]; try done.
  intros [Hp Hc]%andb_true_iff. split.
  - intros now Hn. rewrite Hn in Hp. lia.
  - destruct op as [op| | | | | | | | | | | | | | | | | | | | | | | | | | | | ]; try done. destruct op; try done. intros ->.
    rewrite bool_decide_true in Hc by done. cbn in Hc. lia.
Qed.
(** No handle is declared or retracted. *)
Definition undeclared (ev : event effect) : bool :=
  session_encodable ev && match store_event ev with Some (DDeclare _ _ _ _ _ _, _) | Some (DRetract _ _ _ _, _) => false | _ => true end.
Lemma answer_presentable B (e : effect B) w :
  undeclared (Event e (answer B e w).1) = true →
  presentable lowered canonical_ok canonical (Event e (answer B e w).1).
Proof.
  intros [Hs Hu]%andb_true_iff. split; [by apply answer_sensible|].
  destruct (store_event (Event e (answer B e w).1)) as [[[] []]|]; done.
Qed.

Definition ok_of {A} (d : A) (r : result failure A) : A := match r with Ok a => a | Err _ => d end.
Definition link_key : pystr := Eval vm_compute in ok_of [] (command_key canonical_ok canonical (lit "begin_link") ada begin_request).
Definition link_digest : pystr := Eval vm_compute in ok_of [] (command_digest canonical_ok canonical begin_request).
Definition link_command (context : request) : P request :=
  run_command lowered lowered alphanumeric canonical_ok canonical open_seal open_unseal settings no_provider
    (lit "begin_link") begin_request ada (lit "exchange") context.
Definition value_of (o : result failure request) : request := ok_of [] o.

Definition begins (t : Z) (tr : list (event effect)) : bool :=
  match tr with
  | Event e1 b1 :: e2 :: _ =>
      match e1 in effect B return B → bool with Clock => λ now, now =? t | _ => λ _, false end b1
      && match store_event e2 with Some (_, Some (DoCenter (CoBase (AoBegin (Ok None))))) => true | _ => false end
  | _ => false
  end.

Lemma begins_shape context k p t (Hk : command_key canonical_ok canonical (lit "begin_link") ada begin_request = Ok k)
    (Hp : command_digest canonical_ok canonical begin_request = Ok p) tr o :
  traces (link_command context) tr o → begins t tr = true →
  ∃ l, tr = Event Clock t :: Event (Store (begin_op k (lit "begin_link") p t)) begun :: l.
Proof.
  intros S1 Hshape. eapply command_traces in S1; [|exact Hk|exact Hp].
  destruct tr as [|e1 [|e2 l]]; [discriminate Hshape|by destruct e1|].
  destruct S1 as (now & -> & out & -> & _). cbn in Hshape. apply andb_true_iff in Hshape as [<-%Z.eqb_eq Hout].
  exists l. do 2 f_equal. unfold begun. by destruct out as [[[[|[[]|]| | | | | | |]| | | | | | | | | | ]| | |]|].
Qed.

Lemma same_ok o1 o2 X :
  is_ok o1 = true → is_ok o2 = true → ((∃ v, o1 = Ok v) ∨ X → same_answer json_sort o1 o2) →
  ∃ v', o2 = Ok v' ∧ JObj v' = json_sort (JObj (value_of o1)).
Proof.
  intros H1 H2 H. destruct o1 as [v|]; [|done]. destruct H as [->|H]; [by left; eexists|done|exact H].
Qed.

