(* ===== verification/CallRuns.v ===== *)
(** * Account center: concrete runs with GitHub

    A callback that links an account, a lease whose redemption refreshes the
    credential, and two ways to lose a token, with the theorems on custody and on
    refreshes applied to them. *)

From Stdlib Require Import ZArith NArith.
From S2P Require Import Prelude PyText Json Base64 Sha256 Programs AccountStore AccountFacts.
From S2P Require Import ProfileStore ProfileSessions ProfileMachine ProfileFacts PeopleText PeopleStore PeopleDirectory PeopleFacts.
From S2P Require Import AccountPrograms AccountGithub AccountHandlers AccountCall.
From S2P Require Import CallEvents CallRefresh CallCustody CallExamples.

#[local] Open Scope Z_scope.
#[local] Open Scope string_scope.

(** ** A callback *)

Definition github_request_ : request := [(lit "provider", JStr (lit "github")); (lit "idempotency_key", JStr (lit "k-2"))].
Definition github_context : request := Eval vm_compute in signed "begin_link" github_request_ "r-2" 1000.
Definition world1 : world := after_run (calling "begin_link" github_request_ github_context) world0.
(** The state that the host was given. *)
Definition state_text : pystr := b64url_encode (replicate 32 7%N).
Definition token_reply (at_ rt : string) (lifetime : Z) : reply :=
  Reply 200 100 (Some (JObj
    [(lit "access_token", JStr (lit at_)); (lit "refresh_token", JStr (lit rt)); (lit "expires_in", JInt lifetime);
     (lit "refresh_token_expires_in", JInt 15897600); (lit "token_type", JStr (lit "Bearer"))])).
Definition user_reply : reply := Reply 200 20 (Some (JObj [(lit "id", JInt 42)])).
Definition callback_request : request := [(lit "state", JStr state_text); (lit "code", JStr (lit "c-1"))].
Definition callback : P request :=
  complete_github_link lowered canonical_ok canonical open_seal open_unseal settings callback_request.
Definition with_replies (l : list reply) (w : world) : world := World (w_store w) (w_time w) (w_next w) l.
Definition world2 : world := with_replies [token_reply "at-1" "rt-1" 10; user_reply] world1.

Definition fate (tr : list (event effect)) : option custody :=
  watch (custody_watch lowered canonical_ok open_unseal settings) Nothing tr.
Definition is_stored (st : option custody) : bool := match st with Some (Stored _) => true | _ => false end.

Lemma kept_stored (o : result failure request) st :
  is_ok o = true → match o with Ok _ => ∃ c, st = Stored c | Err _ => st = Nothing ∨ st = Revoked ∨ st = Lost end →
  ∃ c, st = Stored c.
Proof. by destruct o. Qed.

(** The account is linked, and its token is in the store. *)
Lemma minted_token_kept_witness :
  is_ok (outcome callback world2) = true
  ∧ ∃ c, fate (events_in_run callback world2) = Some (Stored c).
Proof.
  assert (Hok : is_ok (outcome callback world2) = true) by by vm_compute.
  assert (Hs : Forall (sensible lowered) (events_in_run callback world2)).
  { assert (H : forallb session_encodable (events_in_run callback world2) = true) by by vm_compute.
    exact (run_checked _ _ _ _ answer_sensible H). }
  split; [exact Hok|].
  pose proof (run_traces answer callback world2
              : traces callback (events_in_run callback world2) (Some (outcome callback world2))) as T.
  destruct (minted_token_kept lowered canonical_ok canonical open_seal open_unseal settings callback_request
              (events_in_run callback world2) (outcome callback world2) T Hs) as (st & Hst & Hend).
  destruct (kept_stored (outcome callback world2) st Hok Hend) as [c Hc]. exists c. unfold fate. rewrite <- Hc. exact Hst.
Defined.

(** A user lookup that ends in an exception outside [urllib]'s: the token is neither
    stored nor revoked. *)
Definition lost (w : world) : bool :=
  negb (is_ok (outcome callback w))
  && match fate (events_in_run callback w) with Some Lost => true | _ => false end
  && negb (existsb (λ ev, match ev with Event e _ => match e with Github (Delete_grant _) => true | _ => false end end)
             (events_in_run callback w)).
Lemma minted_token_lost : lost (with_replies [token_reply "at-1" "rt-1" 28800; Crashed] world1) = true.
Proof. by vm_compute. Qed.

(** ** A refresh *)

Definition account1 : pystr := lit "00000000-0000-4000-8000-0000000000aa".
Definition lease1 : pystr := lit "00000000-0000-4000-8000-0000000000bb".
Definition resource1 : request :=
  [(lit "repository_id", JStr (lit "1")); (lit "repository", JStr (lit "o/r")); (lit "issue_number", JInt 3)].
Definition arguments1 : pystr := replicate 64 48%N.
Definition expired : OAuthCredential := MkOAuthCredential (lit "old") (Some (lit "rt-0")) (Some 1005) (Some 90000).
Definition base_ops : list account_op :=
  [AInsert account1 (Link ada GITHUB (lit "https://github.com") None (lit "42") (lit "{}") 900)
     (Some (replicate 12 7%N ++ canonical (credential_json expired))%list) (Some 1005) (Some 90000) None None;
   ACreateLease lease1 account1 ada (lit "binding") (lit "exchange") (lit "github.issue.get")
     (ok_of [] (resource_json canonical_ok canonical resource1)) arguments1 1040].
Definition store1 : directory :=
  foldl (λ d op, (directory_step lowered (DCenter (CBase op)) d).2) empty_directory base_ops.
Definition world3 : world := World store1 1010 1 [token_reply "at-2" "rt-2" 28800].
Definition redeem_request : request :=
  [(lit "lease_ref", JStr lease1); (lit "operation_id", JStr (lit "github.issue.get")); (lit "resource", JObj resource1);
   (lit "arguments_sha256", JStr arguments1)].
Definition redeem_context : request := Eval vm_compute in signed "redeem_credential_lease" redeem_request "r-3" 1000.
Definition redeeming : P request := calling "redeem_credential_lease" redeem_request redeem_context.

Example redeem_refreshes :
  (match outcome redeeming world3 with Ok v => context_text "access_token" v | Err _ => [] end) = lit "at-2".
Proof. by vm_compute. Qed.

(** The redemption and the same call again, interleaved as two programs: GitHub is
    asked once, and one refresh is committed. *)
Definition as_program (p : P request) : P () := pbind p (λ _, Ret ()).
Lemma refresh_token_spent_once_witness :
  let p := as_program redeeming in
  let log := then_log p p world3 in
  asked account1 ∅ log = 1%nat ∧ finished account1 log = 1%nat ∧ (asked account1 ∅ log <= 1 + finished account1 log)%nat.
Proof.
  intros p log.
  assert (Ha : asked account1 ∅ log = 1%nat) by by vm_compute.
  assert (Hf : finished account1 log = 1%nat) by by vm_compute.
  split; [exact Ha|]. split; [exact Hf|].
  assert (Hp : ∀ i, plugin_program lowered lowered alphanumeric no_repr canonical_ok canonical open_seal open_unseal
                      (λ _, no_provider) (one_other p p i)).
  { intros i. destruct i as [|[|i]]; exact (Called _ _ _ _ _ _ _ _ _ settings (lit "redeem_credential_lease") redeem_request _). }
  exact (proj1 (refresh_token_spent_once lowered lowered alphanumeric no_repr canonical_ok canonical open_seal open_unseal
    (λ _, no_provider) (λ _ _ _ _ _ _ _, I) (one_other p p) (w_store world3) log _ account1 Hp (then_execution p p world3))).
Defined.

(** ** A command whose answer is not recorded *)

Definition profile1 : pystr := lit "00000000-0000-4000-8000-0000000000cc".
Definition store2 : directory :=
  (directory_step lowered (DCenter (CCreateProfile profile1 ada P_GITHUB (lit "gh:1") (lit "{}") A_HEALTHY None
     (Tokens (Some [1]%N) None None None None None) None None ACTOR_OWNED 900)) empty_directory).2.
Definition world4 : world := World store2 1010 1 [].
Definition unlink_request : request := [(lit "profile_ref", JStr profile1); (lit "idempotency_key", JStr (lit "k-4"))].
Definition first_context : request := Eval vm_compute in signed "unlink_provider_profile" unlink_request "r-4" 1000.
Definition second_context : request := Eval vm_compute in signed "unlink_provider_profile" unlink_request "r-5" 1000.
Definition unlinking (context : request) : P request := calling "unlink_provider_profile" unlink_request context.

(** [unlink_provider_profile] is listed as idempotent, but its handler is not given
    the key: the command is done and stays open, and a retry is refused. *)
Lemma unlink_profile_not_replayed :
  is_ok (outcome (unlinking first_context) world4) = true
  ∧ outcome (unlinking second_context) (after_run (unlinking first_context) world4) = Err (denied "idempotency_in_progress").
Proof. split; by vm_compute. Qed.
